(** * Kanban orchestrator: the Spec Generator, the Task Runner and the
      board CRUD handlers, embedded in Rocq.

    The JavaScript sources are embedded shallowly.  Strings are sequences
    of UTF-16 code units, JSON documents are trees, [async] functions are
    programs in a small state-and-exception monad whose state records the
    requests sent and the answers of the outside world. *)

From Stdlib Require Import String Ascii.
From Stdlib Require Import List NArith ZArith Lia Bool.
From Stdlib Require Import Permutation.
From Stdlib Require Decimal DecimalFacts DecimalN.
Import ListNotations.

Set Implicit Arguments.

(** ** The JavaScript runtime the sources rely on *)

Module JS.

(** A JavaScript string: its UTF-16 code units. *)
Definition jsstring := list N.

(** An ASCII literal as a JavaScript string. *)
Definition str (s : string) : jsstring :=
  map N_of_ascii (list_ascii_of_string s).

Definition LF : N := 10%N.
Definition QUOTE : N := 34%N.
Definition BACKSLASH : N := 92%N.

Fixpoint jsstring_eqb (a b : jsstring) : bool :=
  match a, b with
  | [], [] => true
  | x :: a', y :: b' => N.eqb x y && jsstring_eqb a' b'
  | _, _ => false
  end.

(** [WhiteSpace] and [LineTerminator] of ECMA-262: what [trim] removes
    and what [\s] matches. *)
Definition is_ws (c : N) : bool :=
  ((9 <=? c) && (c <=? 13) || (c =? 32) || (c =? 160) || (c =? 5760)
   || ((8192 <=? c) && (c <=? 8202)) || (c =? 8232) || (c =? 8233)
   || (c =? 8239) || (c =? 8287) || (c =? 12288) || (c =? 65279))%N.

Fixpoint trimStart (s : jsstring) : jsstring :=
  match s with
  | [] => []
  | c :: r => if is_ws c then trimStart r else s
  end.

Definition trimEnd (s : jsstring) : jsstring :=
  List.rev (trimStart (List.rev s)).

(** [String.prototype.trim] *)
Definition trim (s : jsstring) : jsstring := trimEnd (trimStart s).

(** [s.startsWith(p)] *)
Fixpoint startsWith (p s : jsstring) : bool :=
  match p, s with
  | [], _ => true
  | x :: p', y :: s' => N.eqb x y && startsWith p' s'
  | _ :: _, [] => false
  end.

(** [s.indexOf(p)], reading from offset [i]; [None] stands for -1. *)
Fixpoint indexOf_from (i : nat) (p s : jsstring) : option nat :=
  if startsWith p s then Some i
  else match s with
       | [] => None
       | _ :: r => indexOf_from (S i) p r
       end.

Definition indexOf (s p : jsstring) : option nat := indexOf_from 0 p s.

(** [s.includes(p)] *)
Definition includes (s p : jsstring) : bool :=
  match indexOf s p with Some _ => true | None => false end.

(** [s.slice(0, n)] and [s.slice(n)] for [0 <= n]. *)
Definition slice_to (n : nat) (s : jsstring) : jsstring := firstn n s.
Definition slice_from (n : nat) (s : jsstring) : jsstring := skipn n s.

(** [s.slice(-n)] for [0 < n]. *)
Definition slice_last (n : nat) (s : jsstring) : jsstring :=
  skipn (length s - n) s.

(** Number of occurrences of [p] in [s], overlapping ones included. *)
Fixpoint occurrences (p s : jsstring) : nat :=
  (if startsWith p s then 1 else 0) +
  match s with
  | [] => 0
  | _ :: r => occurrences p r
  end.

(** [String.prototype.toLowerCase] on one code unit.  The mapping is the
    Unicode one on Basic Latin and Latin-1; code units above U+00FF are
    left as they are, the case tables beyond Latin-1 are not part of the
    model. *)
Definition lower_unit (c : N) : N :=
  (if (65 <=? c) && (c <=? 90) then c + 32
   else if (192 <=? c) && (c <=? 222) && negb (c =? 215) then c + 32
   else c)%N.

Definition toLowerCase (s : jsstring) : jsstring := map lower_unit s.

(** [parts.join(sep)] *)
Fixpoint join (sep : jsstring) (parts : list jsstring) : jsstring :=
  match parts with
  | [] => []
  | [p] => p
  | p :: rest => p ++ sep ++ join sep rest
  end.

(** [s.split("\n")] *)
Fixpoint split_lines_aux (cur : jsstring) (s : jsstring) : list jsstring :=
  match s with
  | [] => [rev cur]
  | c :: r => if N.eqb c LF then rev cur :: split_lines_aux [] r
              else split_lines_aux (c :: cur) r
  end.

Definition split_lines (s : jsstring) : list jsstring := split_lines_aux [] s.

(** [s.replaceAll(p, by)] for a non-empty pattern [p]; the fuel is the
    length of the text still to scan. *)
Fixpoint replaceAll_aux (fuel : nat) (p by_ s : jsstring) : jsstring :=
  match fuel with
  | O => s
  | S f =>
    if startsWith p s then by_ ++ replaceAll_aux f p by_ (skipn (length p) s)
    else match s with
         | [] => []
         | c :: r => c :: replaceAll_aux f p by_ r
         end
  end.

Definition replaceAll (s p by_ : jsstring) : jsstring :=
  replaceAll_aux (S (length s)) p by_ s.

(** The replacement text of [replaceAll] with a string pattern: [$$] is
    a dollar sign, [$&] the matched text, [$`] what precedes it and [$']
    what follows it; any other [$] stands for itself. *)
Fixpoint substitution (by_ matched before after : jsstring) : jsstring :=
  match by_ with
  | [] => []
  | c :: r =>
    if N.eqb c 36 then
      match r with
      | d :: r' =>
        if N.eqb d 36 then 36%N :: substitution r' matched before after
        else if N.eqb d 38 then matched ++ substitution r' matched before after
        else if N.eqb d 96 then before ++ substitution r' matched before after
        else if N.eqb d 39 then after ++ substitution r' matched before after
        else c :: substitution r matched before after
      | [] => [c]
      end
    else c :: substitution r matched before after
  end.

(** [s.replaceAll(p, by)] for a non-empty string pattern [p]: [seen] is
    the text already scanned, in reverse. *)
Fixpoint replaceAll_subst_aux (fuel : nat) (p by_ seen s : jsstring) : jsstring :=
  match fuel with
  | O => s
  | S f =>
    if startsWith p s then
      substitution by_ p (List.rev seen) (skipn (length p) s)
      ++ replaceAll_subst_aux f p by_ (List.rev p ++ seen) (skipn (length p) s)
    else match s with
         | [] => []
         | c :: r => c :: replaceAll_subst_aux f p by_ (c :: seen) r
         end
  end.

Definition replaceAll_subst (s p by_ : jsstring) : jsstring :=
  replaceAll_subst_aux (S (length s)) p by_ [] s.

(** *** JSON documents *)

(** A JSON value as [JSON.parse] builds it.  A number is the decimal
    [n / 10^k], kept in lowest terms ([k = 0] or [n] not a multiple of
    ten); the rounding of IEEE doubles is not part of the model.  An
    object lists its own properties in the order [Object.keys],
    [Object.entries] and [JSON.stringify] enumerate them. *)
#[local] Unset Elimination Schemes.
Inductive json : Type :=
| JNull
| JBool (b : bool)
| JNum (n : Z) (k : N)
| JStr (s : jsstring)
| JArr (l : list json)
| JObj (o : list (jsstring * json)).
#[local] Set Elimination Schemes.

Definition obj := list (jsstring * json).

Definition JInt (n : Z) : json := JNum n 0.

(** ToBoolean *)
Definition truthy (v : json) : bool :=
  match v with
  | JNull => false
  | JBool b => b
  | JNum n _ => negb (Z.eqb n 0)
  | JStr s => match s with [] => false | _ => true end
  | JArr _ | JObj _ => true
  end.

Definition is_digit (c : N) : bool := ((48 <=? c) && (c <=? 57))%N.

Definition unit_digit (c : N) (r : Decimal.uint) : Decimal.uint :=
  if N.eqb c 48 then Decimal.D0 r else if N.eqb c 49 then Decimal.D1 r
  else if N.eqb c 50 then Decimal.D2 r else if N.eqb c 51 then Decimal.D3 r
  else if N.eqb c 52 then Decimal.D4 r else if N.eqb c 53 then Decimal.D5 r
  else if N.eqb c 54 then Decimal.D6 r else if N.eqb c 55 then Decimal.D7 r
  else if N.eqb c 56 then Decimal.D8 r else Decimal.D9 r.

Fixpoint units_uint (s : jsstring) : Decimal.uint :=
  match s with
  | [] => Decimal.Nil
  | c :: r => unit_digit c (units_uint r)
  end.

(** The number a string of decimal digits denotes. *)
Definition digits_value (s : jsstring) : N := N.of_uint (units_uint s).

(** The array index a property key denotes, if it is the canonical
    decimal form of an integer below 2^32 - 1. *)
Definition array_index (k : jsstring) : option N :=
  match k with
  | [] => None
  | c :: r =>
    if forallb is_digit k && (negb (N.eqb c 48) || match r with [] => true | _ => false end)
       && (length k <=? 10)%nat
    then let v := digits_value k in
         if (v <? 4294967295)%N then Some v else None
    else None
  end.

Section Objects.
Variable V : Type.

(** The own property [k] of an object; [None] is [undefined]. *)
Fixpoint obj_get (o : list (jsstring * V)) (k : jsstring) : option V :=
  match o with
  | [] => None
  | (k', v) :: r => if jsstring_eqb k' k then Some v else obj_get r k
  end.

(** Where a new key goes: integer-like keys come first, in ascending
    order, then the other keys in the order of their creation. *)
Fixpoint obj_insert (o : list (jsstring * V)) (k : jsstring) (v : V) :
  list (jsstring * V) :=
  match o with
  | [] => [(k, v)]
  | (k', v') :: r =>
    match array_index k with
    | None => (k', v') :: obj_insert r k v
    | Some i =>
      match array_index k' with
      | Some j => if (i <? j)%N then (k, v) :: o else (k', v') :: obj_insert r k v
      | None => (k, v) :: o
      end
    end
  end.

Fixpoint obj_replace (o : list (jsstring * V)) (k : jsstring) (v : V) :
  list (jsstring * V) :=
  match o with
  | [] => []
  | (k', v') :: r =>
    if jsstring_eqb k' k then (k', v) :: r else (k', v') :: obj_replace r k v
  end.

(** The assignment [o[k] = v]. *)
Definition obj_set (o : list (jsstring * V)) (k : jsstring) (v : V) :
  list (jsstring * V) :=
  match obj_get o k with
  | Some _ => obj_replace o k v
  | None => obj_insert o k v
  end.

End Objects.

(** The property read [v.k] on a value other than [null], for a key
    that names no built-in property; [None] is [undefined]. *)
Definition get (v : json) (k : jsstring) : option json :=
  match v with
  | JObj o => obj_get o k
  | JArr l => match array_index k with
              | Some i => nth_error l (N.to_nat i)
              | None => None
              end
  | JStr s => match array_index k with
              | Some i => option_map (fun c => JStr [c]) (nth_error s (N.to_nat i))
              | None => None
              end
  | JNull | JBool _ | JNum _ _ => None
  end.

(** The optional chain [v?.k]. *)
Definition opt_get (v : option json) (k : jsstring) : option json :=
  match v with
  | None | Some JNull => None
  | Some x => get x k
  end.

(** The assignment [v.k = x] in sloppy mode on a value that is an object
    or a primitive: a primitive drops it. *)
Definition set (v : json) (k : jsstring) (x : json) : json :=
  match v with
  | JObj o => JObj (obj_set o k x)
  | _ => v
  end.

(** ToBoolean of a property read. *)
Definition truthy_opt (v : option json) : bool :=
  match v with Some x => truthy x | None => false end.

(** *** Numbers as text *)

Fixpoint uint_units (d : Decimal.uint) : jsstring :=
  match d with
  | Decimal.Nil => []
  | Decimal.D0 r => 48%N :: uint_units r
  | Decimal.D1 r => 49%N :: uint_units r
  | Decimal.D2 r => 50%N :: uint_units r
  | Decimal.D3 r => 51%N :: uint_units r
  | Decimal.D4 r => 52%N :: uint_units r
  | Decimal.D5 r => 53%N :: uint_units r
  | Decimal.D6 r => 54%N :: uint_units r
  | Decimal.D7 r => 55%N :: uint_units r
  | Decimal.D8 r => 56%N :: uint_units r
  | Decimal.D9 r => 57%N :: uint_units r
  end.

(** The decimal digits of a natural number, without leading zeros. *)
Definition digits_of (n : N) : jsstring := uint_units (N.to_uint n).

Fixpoint strip_leading_zeros (s : jsstring) : jsstring :=
  match s with
  | c :: r => if N.eqb c 48 then strip_leading_zeros r else s
  | [] => []
  end.

Definition strip_trailing_zeros (s : jsstring) : jsstring :=
  List.rev (strip_leading_zeros (List.rev s)).

Definition zeros (n : nat) : jsstring := repeat 48%N n.

(** [Number::toString]: plain digits for an integer below 10^21, a
    decimal point while the exponent stays within -7 .. 21, the
    exponent form otherwise. *)
Definition number_to_string (n : Z) (k : N) : jsstring :=
  if Z.eqb n 0 then str "0" else
  let sign := if Z.ltb n 0 then str "-" else [] in
  let ds := digits_of (Z.abs_N n) in
  if N.eqb k 0 && Z.ltb (Z.abs n) (10 ^ 21) then sign ++ ds else
  let sig := strip_trailing_zeros ds in
  let kk := Z.of_nat (length sig) in
  let nn := (Z.of_nat (length ds) - Z.of_N k)%Z in
  sign ++
  if (kk <=? nn)%Z && (nn <=? 21)%Z then sig ++ zeros (Z.to_nat (nn - kk))
  else if (0 <? nn)%Z && (nn <=? 21)%Z
       then firstn (Z.to_nat nn) sig ++ str "." ++ skipn (Z.to_nat nn) sig
  else if (-6 <? nn)%Z && (nn <=? 0)%Z
       then str "0." ++ zeros (Z.to_nat (- nn)) ++ sig
  else
    let e := (nn - 1)%Z in
    let etxt := (if Z.ltb e 0 then str "-" else str "+") ++ digits_of (Z.abs_N e) in
    match sig with
    | [d] => [d] ++ str "e" ++ etxt
    | d :: more => [d] ++ str "." ++ more ++ str "e" ++ etxt
    | [] => []
    end.

(** *** [JSON.stringify] *)

Definition hex_digit (d : N) : N := (if d <? 10 then 48 + d else 87 + d)%N.

(** The escape [\uXXXX] with lower-case hexadecimal digits. *)
Definition unicode_escape (c : N) : jsstring :=
  [BACKSLASH; 117%N; hex_digit (c / 4096 mod 16); hex_digit (c / 256 mod 16);
   hex_digit (c / 16 mod 16); hex_digit (c mod 16)].

Definition is_high_surrogate (c : N) : bool := ((55296 <=? c) && (c <=? 56319))%N.
Definition is_low_surrogate (c : N) : bool := ((56320 <=? c) && (c <=? 57343))%N.

(** The escaped form of one code unit that is not part of a surrogate
    pair. *)
Definition quote_unit (c : N) : jsstring :=
  if N.eqb c 8 then [BACKSLASH; 98%N]
  else if N.eqb c 9 then [BACKSLASH; 116%N]
  else if N.eqb c 10 then [BACKSLASH; 110%N]
  else if N.eqb c 12 then [BACKSLASH; 102%N]
  else if N.eqb c 13 then [BACKSLASH; 114%N]
  else if N.eqb c QUOTE then [BACKSLASH; QUOTE]
  else if N.eqb c BACKSLASH then [BACKSLASH; BACKSLASH]
  else if (c <? 32)%N || is_high_surrogate c || is_low_surrogate c
       then unicode_escape c
  else [c].

Fixpoint quote_body (s : jsstring) : jsstring :=
  match s with
  | [] => []
  | c :: r =>
    if is_high_surrogate c then
      match r with
      | d :: r' => if is_low_surrogate d then c :: d :: quote_body r'
                   else quote_unit c ++ quote_body r
      | [] => quote_unit c
      end
    else quote_unit c ++ quote_body r
  end.

(** [QuoteJSONString] *)
Definition quote (s : jsstring) : jsstring := QUOTE :: quote_body s ++ [QUOTE].

(** [JSON.stringify(v)] without indentation. *)
Fixpoint stringify (v : json) : jsstring :=
  match v with
  | JNull => str "null"
  | JBool true => str "true"
  | JBool false => str "false"
  | JNum n k => number_to_string n k
  | JStr s => quote s
  | JArr l =>
    str "[" ++
    (fix elems (l : list json) : jsstring :=
       match l with
       | [] => []
       | x :: r => stringify x ++
                   match r with [] => [] | _ :: _ => str "," ++ elems r end
       end) l ++ str "]"
  | JObj o =>
    str "{" ++
    (fix members (o : list (jsstring * json)) : jsstring :=
       match o with
       | [] => []
       | (k, x) :: r => quote k ++ str ":" ++ stringify x ++
                        match r with [] => [] | _ :: _ => str "," ++ members r end
       end) o ++ str "}"
  end.

(** [JSON.stringify(v, null, 2)] *)
Fixpoint stringify_indented (depth : nat) (v : json) : jsstring :=
  let pad := fun d : nat => LF :: repeat 32%N (2 * d) in
  match v with
  | JArr ((_ :: _) as l) =>
    str "[" ++
    (fix elems (l : list json) : jsstring :=
       match l with
       | [] => []
       | x :: r => pad (S depth) ++ stringify_indented (S depth) x ++
                   match r with [] => [] | _ :: _ => str "," ++ elems r end
       end) l ++ pad depth ++ str "]"
  | JObj ((_ :: _) as o) =>
    str "{" ++
    (fix members (o : list (jsstring * json)) : jsstring :=
       match o with
       | [] => []
       | (k, x) :: r => pad (S depth) ++ quote k ++ str ": " ++
                        stringify_indented (S depth) x ++
                        match r with [] => [] | _ :: _ => str "," ++ members r end
       end) o ++ pad depth ++ str "}"
  | _ => stringify v
  end.

(** ToString, as a template literal or [String(v)] applies it. *)
Fixpoint js_to_string (v : json) : jsstring :=
  match v with
  | JNull => str "null"
  | JBool true => str "true"
  | JBool false => str "false"
  | JNum n k => number_to_string n k
  | JStr s => s
  | JArr l =>
    (fix elems (l : list json) : jsstring :=
       match l with
       | [] => []
       | x :: r => match x with JNull => [] | _ => js_to_string x end ++
                   match r with [] => [] | _ :: _ => str "," ++ elems r end
       end) l
  | JObj _ => str "[object Object]"
  end.

(** ToString of a property read. *)
Definition js_to_string_opt (v : option json) : jsstring :=
  match v with Some x => js_to_string x | None => str "undefined" end.

(** *** [JSON.parse] *)

Definition is_json_ws (c : N) : bool :=
  (N.eqb c 32 || N.eqb c 9 || N.eqb c 10 || N.eqb c 13).

Fixpoint skip_ws (s : jsstring) : jsstring :=
  match s with
  | c :: r => if is_json_ws c then skip_ws r else s
  | [] => []
  end.

Definition hex_value (c : N) : option N :=
  (if (48 <=? c) && (c <=? 57) then Some (c - 48)
   else if (97 <=? c) && (c <=? 102) then Some (c - 87)
   else if (65 <=? c) && (c <=? 70) then Some (c - 55)
   else None)%N.

(** The code unit a one-letter escape stands for. *)
Definition unescape (e : N) : option N :=
  if N.eqb e QUOTE then Some QUOTE
  else if N.eqb e BACKSLASH then Some BACKSLASH
  else if N.eqb e 47 then Some 47%N
  else if N.eqb e 98 then Some 8%N
  else if N.eqb e 102 then Some 12%N
  else if N.eqb e 110 then Some 10%N
  else if N.eqb e 114 then Some 13%N
  else if N.eqb e 116 then Some 9%N
  else None.

Definition push_unit (c : N) (r : option (jsstring * jsstring)) :
  option (jsstring * jsstring) :=
  match r with
  | Some (t, rest) => Some (c :: t, rest)
  | None => None
  end.

(** The characters of a string literal, read after its opening quote;
    returns the string and the text after the closing quote. *)
Fixpoint parse_string (s : jsstring) : option (jsstring * jsstring) :=
  match s with
  | [] => None
  | c :: r =>
    if N.eqb c QUOTE then Some ([], r)
    else if N.eqb c BACKSLASH then
      match r with
      | [] => None
      | e :: r1 =>
        if N.eqb e 117 then
          match r1 with
          | h1 :: h2 :: h3 :: h4 :: r2 =>
            match hex_value h1, hex_value h2, hex_value h3, hex_value h4 with
            | Some a, Some b, Some c', Some d =>
              push_unit (a * 4096 + b * 256 + c' * 16 + d)%N (parse_string r2)
            | _, _, _, _ => None
            end
          | _ => None
          end
        else
          match unescape e with
          | Some x => push_unit x (parse_string r1)
          | None => None
          end
      end
    else if (c <? 32)%N then None
    else push_unit c (parse_string r)
  end.

(** The longest prefix of decimal digits, and what follows it. *)
Fixpoint span_digits (s : jsstring) : jsstring * jsstring :=
  match s with
  | c :: r => if is_digit c then let (d, rest) := span_digits r in (c :: d, rest)
              else ([], s)
  | [] => ([], [])
  end.

(** [n / 10^k] in lowest terms. *)
Fixpoint lowest_terms (fuel : nat) (n : Z) (k : N) : json :=
  match fuel with
  | O => JNum n k
  | S f => if N.eqb k 0 then JNum n 0
           else if Z.eqb (n mod 10) 0 then lowest_terms f (n / 10)%Z (k - 1)%N
           else JNum n k
  end.

(** The number with decimal mantissa [m], sign [neg] and exponent [e]. *)
Definition make_number (neg : bool) (m : N) (e : Z) : json :=
  if N.eqb m 0 then JNum 0 0
  else
    let z := if neg then Z.opp (Z.of_N m) else Z.of_N m in
    if (0 <=? e)%Z then JNum (z * 10 ^ e)%Z 0
    else lowest_terms (Z.to_nat (- e)) z (Z.to_N (- e)).

(** The parts of a JSON number: an optional minus sign, an integer part
    without superfluous leading zero, an optional fraction, an optional
    exponent. *)
Definition read_sign (s : jsstring) : bool * jsstring :=
  match s with
  | c :: r => if N.eqb c 45 then (true, r) else (false, s)
  | [] => (false, s)
  end.

Definition read_int (s : jsstring) : jsstring * jsstring :=
  match s with
  | c :: r => if N.eqb c 48 then ([c], r) else span_digits s
  | [] => ([], [])
  end.

Definition read_frac (s : jsstring) : option (jsstring * jsstring) :=
  match s with
  | c :: r => if N.eqb c 46
              then match span_digits r with
                   | ([], _) => None
                   | (fp, rest) => Some (fp, rest)
                   end
              else Some ([], s)
  | [] => Some ([], s)
  end.

Definition read_exp (s : jsstring) : option (Z * jsstring) :=
  match s with
  | c :: r =>
    if N.eqb c 101 || N.eqb c 69 then
      let (eneg, r1) := match r with
                        | g :: r' => if N.eqb g 45 then (true, r')
                                     else if N.eqb g 43 then (false, r')
                                     else (false, r)
                        | [] => (false, r)
                        end in
      match span_digits r1 with
      | ([], _) => None
      | (ep, rest) =>
        let e := Z.of_N (digits_value ep) in
        Some ((if eneg then - e else e)%Z, rest)
      end
    else Some (0%Z, s)
  | [] => Some (0%Z, s)
  end.

Definition parse_number (s : jsstring) : option (json * jsstring) :=
  let (neg, s1) := read_sign s in
  let (ip, s2) := read_int s1 in
  match ip with
  | [] => None
  | _ :: _ =>
    match read_frac s2 with
    | None => None
    | Some (fp, s3) =>
      match read_exp s3 with
      | None => None
      | Some (e, s4) =>
        Some (make_number neg (digits_value (ip ++ fp))
                (e - Z.of_nat (length fp))%Z, s4)
      end
    end
  end.

(** The outcome of reading a value: the value and the text after it, a
    syntax error, or recursion cut by the fuel. *)
Inductive presult : Type :=
| POk (v : json) (rest : jsstring)
| PErr
| PFuel.

Fixpoint parse_value (fuel : nat) (s : jsstring) : presult :=
  match fuel with
  | O => PFuel
  | S f =>
    match skip_ws s with
    | [] => PErr
    | c :: r =>
      if N.eqb c 123 then
        match skip_ws r with
        | d :: r' => if N.eqb d 125 then POk (JObj []) r' else parse_members f [] r
        | [] => PErr
        end
      else if N.eqb c 91 then
        match skip_ws r with
        | d :: r' => if N.eqb d 93 then POk (JArr []) r' else parse_elements f [] r
        | [] => PErr
        end
      else if N.eqb c QUOTE then
        match parse_string r with
        | Some (t, rest) => POk (JStr t) rest
        | None => PErr
        end
      else if startsWith (str "true") (c :: r) then POk (JBool true) (skipn 4 (c :: r))
      else if startsWith (str "false") (c :: r) then POk (JBool false) (skipn 5 (c :: r))
      else if startsWith (str "null") (c :: r) then POk JNull (skipn 4 (c :: r))
      else match parse_number (c :: r) with
           | Some (v, rest) => POk v rest
           | None => PErr
           end
    end
  end
with parse_members (fuel : nat) (acc : obj) (s : jsstring) : presult :=
  match fuel with
  | O => PFuel
  | S f =>
    match skip_ws s with
    | c :: r =>
      if N.eqb c QUOTE then
        match parse_string r with
        | Some (key, r1) =>
          match skip_ws r1 with
          | d :: r2 =>
            if N.eqb d 58 then
              match parse_value f r2 with
              | POk v r3 =>
                match skip_ws r3 with
                | g :: r4 =>
                  if N.eqb g 44 then parse_members f (obj_set acc key v) r4
                  else if N.eqb g 125 then POk (JObj (obj_set acc key v)) r4
                  else PErr
                | [] => PErr
                end
              | PErr => PErr
              | PFuel => PFuel
              end
            else PErr
          | [] => PErr
          end
        | None => PErr
        end
      else PErr
    | [] => PErr
    end
  end
with parse_elements (fuel : nat) (acc : list json) (s : jsstring) : presult :=
  match fuel with
  | O => PFuel
  | S f =>
    match parse_value f s with
    | POk v r1 =>
      match skip_ws r1 with
      | g :: r2 =>
        if N.eqb g 44 then parse_elements f (acc ++ [v]) r2
        else if N.eqb g 93 then POk (JArr (acc ++ [v])) r2
        else PErr
      | [] => PErr
      end
    | PErr => PErr
    | PFuel => PFuel
    end
  end.

(** Fuel that no text exhausts: each nested call is preceded by a
    consumed character at most two calls up. *)
Definition parse_fuel (s : jsstring) : nat := 2 * length s + 3.

(** [JSON.parse(s)]; [None] is the [SyntaxError] it throws. *)
Definition JSON_parse (s : jsstring) : option json :=
  match parse_value (parse_fuel s) s with
  | POk v rest => match skip_ws rest with [] => Some v | _ :: _ => None end
  | PErr | PFuel => None
  end.

(** *** Regular expressions *)

(** The fragment of the regular expressions of ECMA-262 the sources
    use.  [RStar true] is the greedy star, [RStar false] the lazy one;
    [RGroup i] records what its body matched as group [i]. *)
Inductive regex : Type :=
| RChar (p : N -> bool)
| REmpty
| RSeq (a b : regex)
| RAlt (a b : regex)
| RStar (greedy : bool) (a : regex)
| RGroup (i : nat) (a : regex)
| RBegin
| REnd.

(** Group number, start offset, end offset. *)
Definition captures := list (nat * (nat * nat)).

Section Matcher.
Variable A : Type.

(** The backtracking matcher, in continuation-passing style: [i] is the
    offset of the remaining text [s] in the whole input, [k] is what is
    left to match.  A star gives up an iteration that consumed nothing,
    hence the remaining length bounds the number of its iterations. *)
Fixpoint rmatch (r : regex) (i : nat) (s : jsstring) (c : captures)
  (k : nat -> jsstring -> captures -> option A) : option A :=
  match r with
  | RChar p =>
    match s with
    | x :: s' => if p x then k (S i) s' c else None
    | [] => None
    end
  | REmpty => k i s c
  | RSeq a b => rmatch a i s c (fun i' s' c' => rmatch b i' s' c' k)
  | RAlt a b =>
    match rmatch a i s c k with
    | Some x => Some x
    | None => rmatch b i s c k
    end
  | RStar greedy a =>
    (fix loop (n : nat) (i : nat) (s : jsstring) (c : captures) : option A :=
       let again :=
         match n with
         | O => None
         | S n' => rmatch a i s c
                     (fun i' s' c' => if Nat.eqb i' i then None else loop n' i' s' c')
         end in
       if greedy
       then match again with Some x => Some x | None => k i s c end
       else match k i s c with Some x => Some x | None => again end)
      (length s) i s c
  | RGroup g a => rmatch a i s c (fun i' s' c' => k i' s' ((g, (i, i')) :: c'))
  | RBegin => if Nat.eqb i 0 then k i s c else None
  | REnd => match s with [] => k i s c | _ :: _ => None end
  end.

End Matcher.

(** A match: start offset, end offset, groups. *)
Definition rmatch_at (r : regex) (i : nat) (s : jsstring) :
  option (nat * nat * captures) :=
  rmatch r i s [] (fun e _ c => Some (i, e, c)).

(** The leftmost match at or after offset [i], where [s] is the input
    from that offset on. *)
Fixpoint rsearch (r : regex) (i : nat) (s : jsstring) :
  option (nat * nat * captures) :=
  match rmatch_at r i s with
  | Some m => Some m
  | None => match s with
            | [] => None
            | _ :: s' => rsearch r (S i) s'
            end
  end.

(** [re.exec(s)] for a regular expression without the [g] flag. *)
Definition rexec (r : regex) (s : jsstring) : option (nat * nat * captures) :=
  rsearch r 0 s.

Definition substring (s : jsstring) (st en : nat) : jsstring :=
  firstn (en - st) (skipn st s).

(** The text of group [g] of a match on [s]; the last iteration wins. *)
Fixpoint group (s : jsstring) (c : captures) (g : nat) : option jsstring :=
  match c with
  | [] => None
  | (g', (st, en)) :: r => if Nat.eqb g' g then Some (substring s st en) else group s r g
  end.

(** [s.replace(re, by)] without the [g] flag, [by] free of [$]. *)
Definition replace_first (r : regex) (by_ : jsstring) (s : jsstring) : jsstring :=
  match rexec r s with
  | Some (st, en, _) => firstn st s ++ by_ ++ skipn en s
  | None => s
  end.

(** [s.replace(re, by)] with the [g] flag: [s] is the input from offset
    [i] on; after an empty match the scan moves one code unit ahead. *)
Fixpoint replace_global_aux (fuel : nat) (r : regex) (by_ : jsstring)
  (i : nat) (s : jsstring) : jsstring :=
  match fuel with
  | O => s
  | S f =>
    match rsearch r i s with
    | None => s
    | Some (st, en, _) =>
      if Nat.eqb en st then
        match skipn (st - i) s with
        | [] => firstn (st - i) s ++ by_
        | x :: rest => firstn (st - i) s ++ by_ ++ x :: replace_global_aux f r by_ (S st) rest
        end
      else firstn (st - i) s ++ by_ ++ replace_global_aux f r by_ en (skipn (en - i) s)
    end
  end.

Definition replace_global (r : regex) (by_ : jsstring) (s : jsstring) : jsstring :=
  replace_global_aux (S (length s)) r by_ 0 s.

(** [s.matchAll(re)]: the successive matches, left to right. *)
Fixpoint match_all_aux (fuel : nat) (r : regex) (i : nat) (s : jsstring) :
  list (nat * nat * captures) :=
  match fuel with
  | O => []
  | S f =>
    match rsearch r i s with
    | None => []
    | Some (st, en, c) =>
      if Nat.eqb en st then
        match skipn (st - i) s with
        | [] => [(st, en, c)]
        | _ :: rest => (st, en, c) :: match_all_aux f r (S st) rest
        end
      else (st, en, c) :: match_all_aux f r en (skipn (en - i) s)
    end
  end.

Definition match_all (r : regex) (s : jsstring) : list (nat * nat * captures) :=
  match_all_aux (S (length s)) r 0 s.

(** Regular-expression syntax. *)
Definition r_unit (c : N) : regex := RChar (N.eqb c).

(** A letter under the [i] flag: either case of it. *)
Definition lower_ascii (c : N) : N :=
  (if (65 <=? c) && (c <=? 90) then c + 32 else c)%N.
Definition r_unit_i (c : N) : regex :=
  RChar (fun x => N.eqb (lower_ascii x) (lower_ascii c)).

Fixpoint r_lit (s : jsstring) : regex :=
  match s with
  | [] => REmpty
  | [c] => r_unit c
  | c :: r => RSeq (r_unit c) (r_lit r)
  end.

Fixpoint r_lit_i (s : jsstring) : regex :=
  match s with
  | [] => REmpty
  | [c] => r_unit_i c
  | c :: r => RSeq (r_unit_i c) (r_lit_i r)
  end.

Fixpoint r_seq (l : list regex) : regex :=
  match l with
  | [] => REmpty
  | [r] => r
  | r :: rest => RSeq r (r_seq rest)
  end.

Definition r_opt (r : regex) : regex := RAlt r REmpty.
Definition r_plus (r : regex) : regex := RSeq r (RStar true r).
Definition r_space : regex := RChar is_ws.
Definition r_any : regex := RChar (fun _ => true).
Definition r_not (c : N) : regex := RChar (fun x => negb (N.eqb x c)).

End JS.

(** ** Effects: requests, files, processes and exceptions *)

Module Eff.
Import JS.

(** What [fetch] is called with. *)
Record request : Type := mkRequest {
  url : jsstring;
  method : option jsstring;
  headers : list (jsstring * jsstring);
  body : option jsstring
}.

(** What [fetch] settles with: a rejection (network failure, abort on
    time-out) or a response. *)
Inductive response : Type :=
| NetworkError (msg : jsstring)
| Response (status : N) (text : jsstring).

(** What a child process does until it ends. *)
Inductive proc_event : Type :=
| Stdout (chunk : jsstring)
| Stderr (chunk : jsstring)
| Deadline.

(** How a child process ends: the [close] event with its exit code
    ([None] when a signal ended it), or the [error] event. *)
Inductive proc_end : Type :=
| Close (code : option Z)
| ProcError (msg : jsstring).

Record proc_run : Type := mkRun {
  events : list proc_event;
  ending : proc_end
}.

(** The calls to the outside world a run made, oldest first. *)
Inductive event : Type :=
| EFetch (rq : request)
| EMkdir (path : jsstring)
| EReadFile (path : jsstring)
| EWriteFile (path content : jsstring)
| ECopyFile (src dst : jsstring)
| ESpawn (cmd : jsstring) (args : list jsstring) (cwd : jsstring).

(** The outside world: the answer to the [n]-th request, the [n]-th
    reading of the clock in milliseconds, the free memory in MB, what
    the spawned process does, the [RESULT.md] it leaves, if any, and
    what the machine refuses: [fault n] is the message of the error
    that a call to the file system or to [spawn] throws when [n]
    events are on record, [None] when the call goes through. *)
Record env : Type := mkEnv {
  net : nat -> request -> response;
  date_now : nat -> Z;
  free_mb : Z;
  child : proc_run;
  result_md : option jsstring;
  fault : nat -> option jsstring
}.

(** The state of a service. *)
Record world : Type := mkWorld {
  log : list event;
  clock : nat;
  activeAgents : list (jsstring * json);
  completedCount : nat
}.

Definition initial : world := mkWorld [] 0 [] 0.

(** A thrown [Error]. *)
Record error : Type := mkError {
  message : jsstring;
  rateLimited : bool
}.

Definition Error (msg : jsstring) : error := mkError msg false.

(** A run returns, throws, or leaves the part of JavaScript this
    development gives a meaning to. *)
Inductive outcome (A : Type) : Type :=
| Ret (a : A)
| Throw (e : error)
| Beyond.
Arguments Throw {A} e.
Arguments Beyond {A}.

Definition M (A : Type) : Type := world -> outcome A * world.

Definition ret {A : Type} (a : A) : M A := fun w => (Ret a, w).
Definition throw {A : Type} (e : error) : M A := fun w => (Throw e, w).
Definition beyond {A : Type} : M A := fun w => (Beyond, w).

Definition bind {A B : Type} (m : M A) (k : A -> M B) : M B :=
  fun w => match m w with
           | (Ret a, w') => k a w'
           | (Throw e, w') => (Throw e, w')
           | (Beyond, w') => (Beyond, w')
           end.

(** [try { m } catch (e) { h e }] *)
Definition try_catch {A : Type} (m : M A) (h : error -> M A) : M A :=
  fun w => match m w with
           | (Throw e, w') => h e w'
           | r => r
           end.

Definition emit (e : event) : M unit :=
  fun w => (Ret tt, mkWorld (log w ++ [e]) (clock w) (activeAgents w) (completedCount w)).

(** A synchronous call to the file system or to [spawn]: it throws
    when the machine refuses it and is on record when it went
    through. *)
Definition perform (E : env) (e : event) : M unit :=
  fun w => match fault E (length (log w)) with
           | Some msg => (Throw (Error msg), w)
           | None => emit e w
           end.

Definition is_fetch (e : event) : bool :=
  match e with EFetch _ => true | _ => false end.

Definition requests (w : world) : list request :=
  flat_map (fun e => match e with EFetch rq => [rq] | _ => [] end) (log w).

(** [fetch]: the request is recorded, the world answers. *)
Definition fetch (E : env) (rq : request) : M (N * jsstring) :=
  fun w =>
    let w' := mkWorld (log w ++ [EFetch rq]) (clock w) (activeAgents w) (completedCount w) in
    match net E (length (requests w)) rq with
    | NetworkError msg => (Throw (Error msg), w')
    | Response st tx => (Ret (st, tx), w')
    end.

(** [Date.now()] *)
Definition Date_now (E : env) : M Z :=
  fun w => (Ret (date_now E (clock w)),
            mkWorld (log w) (S (clock w)) (activeAgents w) (completedCount w)).

(** [resp.ok] *)
Definition ok (status : N) : bool := ((200 <=? status) && (status <=? 299))%N.

(** The message of the [SyntaxError] of [JSON.parse]; its wording is the
    engine's. *)
Definition SYNTAX_ERROR : jsstring := str "Unexpected token in JSON".

(** [resp.json()] *)
Definition resp_json (text : jsstring) : M json :=
  match JSON_parse text with
  | Some v => ret v
  | None => throw (Error SYNTAX_ERROR)
  end.

Definition nonempty (s : jsstring) : bool :=
  match s with [] => false | _ :: _ => true end.

Definition header_set := @obj_set jsstring.
Definition header_get := @obj_get jsstring.

End Eff.

Declare Scope eff_scope.
Delimit Scope eff_scope with eff.
Notation "x <- m ;; k" := (Eff.bind m (fun x => k))
  (at level 100, m at next level, right associativity) : eff_scope.
Notation "m ;;; k" := (Eff.bind m (fun _ => k))
  (at level 100, right associativity) : eff_scope.

(** ** The Spec Generator (spec-server) *)

Module SpecServer.
Import JS Eff.
Local Open Scope eff_scope.

(** The [options] argument of [kanbanFetch]. *)
Record fetch_options : Type := mkOptions {
  opt_method : option jsstring;
  opt_headers : list (jsstring * jsstring);
  opt_body : option jsstring
}.

Definition no_options : fetch_options := mkOptions None [] None.

(** The result of a provider call. *)
Record llm_result : Type := mkResult {
  text : json;
  tokens : option json;
  provider : jsstring
}.

Definition CONTENT_TYPE : jsstring * jsstring :=
  (str "Content-Type", str "application/json").

Definition GEMINI_URL : jsstring :=
  str "https://generativelanguage.googleapis.com/v1beta/models/gemini-2.5-flash:generateContent?key=".
Definition OPENROUTER_URL : jsstring :=
  str "https://openrouter.ai/api/v1/chat/completions".
Definition GEMINI_ID : jsstring := str "gemini-2.5-flash".
Definition OPENROUTER_ID : jsstring := str "qwen3-235b (OpenRouter)".

(** The message of the [TypeError] a property read on [null] throws; its
    wording is the engine's. *)
Definition NULL_READ : jsstring := str "Cannot read properties of null".

Section Server.
Variable E : env.
Variables KANBAN_API KANBAN_TOKEN GEMINI_KEY OPENROUTER_KEY : jsstring.

Definition kanbanFetch (path : jsstring) (options : fetch_options) : M json :=
  let headers :=
    fold_left (fun h kv => header_set h (fst kv) (snd kv))
              (opt_headers options) [CONTENT_TYPE] in
  let headers :=
    if nonempty KANBAN_TOKEN
    then header_set headers (str "Authorization") (str "Bearer " ++ KANBAN_TOKEN)
    else headers in
  resp <- fetch E (mkRequest (KANBAN_API ++ path) (opt_method options) headers
                             (opt_body options)) ;;
  let (status, text) := resp in
  (* On 401, retry without auth header *)
  if N.eqb status 401 && nonempty KANBAN_TOKEN then
    let noAuthHeaders := [CONTENT_TYPE] in
    resp2 <- fetch E (mkRequest (KANBAN_API ++ path) (opt_method options)
                                noAuthHeaders (opt_body options)) ;;
    let (status2, text2) := resp2 in
    if negb (ok status2)
    then throw (Error (str "Kanban API " ++ path ++ str ": " ++ digits_of status2
                       ++ str " (no-auth retry)"))
    else resp_json text2
  else if negb (ok status)
  then throw (Error (str "Kanban API " ++ path ++ str ": " ++ digits_of status))
  else resp_json text.

Definition kanbanGet (path : jsstring) : M json := kanbanFetch path no_options.

Definition kanbanPut (path : jsstring) (data : json) : M json :=
  kanbanFetch path (mkOptions (Some (str "PUT")) [] (Some (stringify data))).

(** The first [or] of [a || b] on a possibly absent value. *)
Definition or_else (v : option json) (d : json) : json :=
  match v with
  | Some x => if truthy x then x else d
  | None => d
  end.

Definition callGemini (prompt : jsstring) : M llm_result :=
  if negb (nonempty GEMINI_KEY) then throw (Error (str "GEMINI_API_KEY not set")) else
  let payload :=
    JObj [(str "contents",
           JArr [JObj [(str "parts", JArr [JObj [(str "text", JStr prompt)]])]]);
          (str "generationConfig",
           JObj [(str "temperature", JNum 7 1);
                 (str "maxOutputTokens", JInt 8192)])] in
  resp <- fetch E (mkRequest (GEMINI_URL ++ GEMINI_KEY) (Some (str "POST"))
                             [CONTENT_TYPE] (Some (stringify payload))) ;;
  let (status, body) := resp in
  if N.eqb status 429 then throw (mkError (str "Gemini rate limited") true)
  else if negb (ok status)
  then throw (Error (str "Gemini API " ++ digits_of status ++ str ": "
                     ++ slice_to 200 body))
  else
    data <- resp_json body ;;
    match data with
    | JNull => throw (Error NULL_READ)
    | _ =>
      let part :=
        opt_get (opt_get (opt_get (opt_get (opt_get (get data (str "candidates"))
          (str "0")) (str "content")) (str "parts")) (str "0")) (str "text") in
      ret (mkResult (or_else part (JStr [])) (get data (str "usageMetadata")) GEMINI_ID)
    end.

Definition callOpenRouter (prompt : jsstring) : M llm_result :=
  if negb (nonempty OPENROUTER_KEY)
  then throw (Error (str "OPENROUTER_API_KEY not set")) else
  let payload :=
    JObj [(str "model", JStr (str "qwen/qwen3-235b-a22b"));
          (str "messages",
           JArr [JObj [(str "role", JStr (str "user")); (str "content", JStr prompt)]]);
          (str "temperature", JNum 7 1);
          (str "max_tokens", JInt 8192)] in
  resp <- fetch E (mkRequest OPENROUTER_URL (Some (str "POST"))
                     [CONTENT_TYPE; (str "Authorization", str "Bearer " ++ OPENROUTER_KEY)]
                     (Some (stringify payload))) ;;
  let (status, body) := resp in
  if negb (ok status)
  then throw (Error (str "OpenRouter API " ++ digits_of status ++ str ": "
                     ++ slice_to 200 body))
  else
    data <- resp_json body ;;
    match data with
    | JNull => throw (Error NULL_READ)
    | _ =>
      let content :=
        opt_get (opt_get (opt_get (get data (str "choices")) (str "0"))
                   (str "message")) (str "content") in
      ret (mkResult (or_else content (JStr [])) (get data (str "usage")) OPENROUTER_ID)
    end.

(** LLM call with fallback; the lines written to the console are left
    out. *)
Definition callLLM (prompt : jsstring) : M llm_result :=
  (* Primary: Gemini 2.5 Flash *)
  if nonempty GEMINI_KEY then
    try_catch (callGemini prompt)
      (fun err =>
         (* Fallback: OpenRouter Qwen3 *)
         callOpenRouter prompt)
  else callOpenRouter prompt.

End Server.

(** *** JSON extraction *)

Definition q : regex := r_unit QUOTE.
Definition spaces : regex := RStar true r_space.
Definition anything : regex := RStar true r_any.

(** [/^```(?:json)?\s*\n?/i] *)
Definition fence_open : regex :=
  r_seq [RBegin; r_lit_i (str "```"); r_opt (r_lit_i (str "json")); spaces;
         r_opt (r_unit_i LF)].

(** [/\n?```\s*$/i] *)
Definition fence_close : regex :=
  r_seq [r_opt (r_unit_i LF); r_lit_i (str "```"); spaces; REnd].

(** [/<think>[\s\S]*?<\/think>\s*/g] *)
Definition think_block : regex :=
  r_seq [r_lit (str "<think>"); RStar false r_any; r_lit (str "</think>"); spaces].

(** [/\{[\s\S]*"spec"[\s\S]*\}/] *)
Definition spec_object : regex :=
  r_seq [r_unit 123; anything; q; r_lit (str "spec"); q; anything; r_unit 125].

(** [/"spec"\s*:\s*"([\s\S]*?)"\s*,\s*"tasks"/] *)
Definition spec_field : regex :=
  r_seq [q; r_lit (str "spec"); q; spaces; r_unit 58; spaces; q;
         RGroup 1 (RStar false r_any); q; spaces; r_unit 44; spaces;
         q; r_lit (str "tasks"); q].

(** [/"tasks"\s*:\s*(\[[\s\S]*\])\s*\}?\s*$/] *)
Definition tasks_field : regex :=
  r_seq [q; r_lit (str "tasks"); q; spaces; r_unit 58; spaces;
         RGroup 1 (r_seq [r_unit 91; anything; r_unit 93]); spaces;
         r_opt (r_unit 125); spaces; REnd].

(** [/"title"\s*:\s*"([^"]*?)"\s*,\s*"details"\s*:\s*"([^"]*?)"/g] *)
Definition task_pair : regex :=
  r_seq [q; r_lit (str "title"); q; spaces; r_unit 58; spaces; q;
         RGroup 1 (RStar false (r_not QUOTE)); q; spaces; r_unit 44; spaces;
         q; r_lit (str "details"); q; spaces; r_unit 58; spaces; q;
         RGroup 2 (RStar false (r_not QUOTE)); q].

(** The body of the two [try] blocks that decode a whole object: a value
    is accepted if it has a [spec]; a missing or falsy [tasks] becomes
    the empty array.  [None]: nothing returned, the extractor goes on. *)
Definition accept (parsed : option json) : option json :=
  match parsed with
  | None | Some JNull => None
  | Some v =>
    match get v (str "spec") with
    | Some _ =>
      if negb (truthy_opt (get v (str "tasks")))
      then Some (set v (str "tasks") (JArr []))
      else Some v
    | None => None
    end
  end.

(** The regex fallback: [spec] and [tasks] recovered separately. *)
Definition extract_by_regex (cleaned : jsstring) : option json :=
  match rexec spec_field cleaned, rexec tasks_field cleaned with
  | Some (_, _, c1), Some (_, _, c2) =>
    match group cleaned c1 1, group cleaned c2 1 with
    | Some raw, Some tasks_text =>
      let spec :=
        replaceAll (replaceAll (replaceAll raw [BACKSLASH; 110%N] [LF])
                      [BACKSLASH; QUOTE] [QUOTE])
          [BACKSLASH; BACKSLASH] [BACKSLASH] in
      let tasks :=
        match JSON_parse tasks_text with
        | Some t => t
        | None =>
          JArr (map (fun m : nat * nat * captures =>
                       let '(_, _, c) := m in
                       JObj [(str "title",
                              JStr (match group tasks_text c 1 with Some x => x | None => [] end));
                             (str "details",
                              JStr (match group tasks_text c 2 with Some x => x | None => [] end))])
                    (match_all task_pair tasks_text))
        end in
      match tasks with
      | JArr (_ :: _) =>
        if nonempty spec
        then Some (JObj [(str "spec", JStr spec); (str "tasks", tasks)])
        else None
      | _ => None
      end
    | _, _ => None
    end
  | _, _ => None
  end.

(** The clean-up before any decoding. *)
Definition clean (text : jsstring) : jsstring :=
  let cleaned := trim text in
  let cleaned := replace_first fence_close [] (replace_first fence_open [] cleaned) in
  let cleaned := replace_global think_block [] cleaned in
  trim cleaned.

(** [extractJSON]; [None] is the [Error] it throws when every layer
    fails. *)
Definition extractJSON (text : jsstring) : option json :=
  let cleaned := clean text in
  (* Try direct parse *)
  match accept (JSON_parse cleaned) with
  | Some parsed => Some parsed
  | None =>
    (* Try extracting JSON object from text *)
    match match rexec spec_object cleaned with
          | Some (st, en, _) => accept (JSON_parse (substring cleaned st en))
          | None => None
          end with
    | Some parsed => Some parsed
    | None => extract_by_regex cleaned
    end
  end.

End SpecServer.

(** ** The Task Runner *)

Module TaskRunner.
Import JS Eff.
Local Open Scope eff_scope.

(** *** Config *)

Definition MAX_CONCURRENT : nat := 1.
Definition MIN_FREE_MB : Z := 400.
Definition MAX_ATTEMPTS : Z := 3.
Definition MAX_STDOUT : N := 10 * 1024 * 1024.

Definition CONTENT_TYPE : jsstring * jsstring :=
  (str "Content-Type", str "application/json").

(** The task that is dispatched, as the board serves it: its id is a
    string, its texts are strings or absent and its color is an
    integer or absent. *)
Record Task : Type := mkTask {
  id : jsstring;
  title : option jsstring;
  description : option jsstring;
  desc : option jsstring;
  color : option Z
}.

(** An entry of [agents.json] with the fields the runner reads.  The
    id and the command are texts; the argument template may be
    missing. *)
Record Agent : Type := mkAgent {
  agent_id : jsstring;
  cmd : jsstring;
  args : option (list jsstring);
  keywords : option (list jsstring);
  ramMB : option Z;
  default : bool;
  enabled : bool;
  note : option jsstring
}.

(** The cached ids of the workflow columns. *)
Record ColIds : Type := mkColIds {
  queue : json;
  wip : json;
  review : json
}.

(** What [spawnAgent] resolves with. *)
Record AgentResult : Type := mkAgentResult {
  success : bool;
  stdout : jsstring;
  stderr : jsstring;
  exitCode : option Z;
  durationMs : Z;
  timedOut : option bool
}.

(** *** Agent Meta helpers *)

Definition SENTINEL : jsstring := str "---agent-meta---".
Definition META_SEPARATOR : jsstring := [LF; LF] ++ SENTINEL ++ [LF].

(** [JNull] is the [null] the function returns. *)
Definition parseAgentMeta (description : option jsstring) : json :=
  match description with
  | None | Some [] => JNull
  | Some d =>
    match indexOf d SENTINEL with
    | None => JNull
    | Some idx =>
      let jsonStr := trim (slice_from (idx + length SENTINEL) d) in
      match JSON_parse jsonStr with
      | Some v => v
      | None => JNull
      end
    end
  end.

Definition getCleanDescription (description : option jsstring) : jsstring :=
  match description with
  | None | Some [] => []
  | Some d =>
    match indexOf d SENTINEL with
    | None => d
    | Some idx => trim (slice_to idx d)
    end
  end.

Definition setAgentMeta (description : option jsstring) (meta : json) : jsstring :=
  let clean := getCleanDescription description in
  clean ++ META_SEPARATOR ++ stringify meta.

(** [a || b] on two possibly absent strings. *)
Definition or_str (a b : option jsstring) : option jsstring :=
  match a with
  | Some (_ :: _) => a
  | _ => b
  end.

(** [task.description || task.desc] *)
Definition task_description (task : Task) : option jsstring :=
  or_str (description task) (desc task).

(** *** Agent Routing *)

(** [entries.sort((a, b) => b[1] - a[1])]: the sort is stable. *)
Fixpoint insert_desc (x : jsstring * nat) (l : list (jsstring * nat)) :
  list (jsstring * nat) :=
  match l with
  | [] => [x]
  | y :: r => if (snd x <? snd y)%nat then y :: insert_desc x r else x :: l
  end.

Fixpoint sort_desc (l : list (jsstring * nat)) : list (jsstring * nat) :=
  match l with
  | [] => []
  | x :: r => insert_desc x (sort_desc r)
  end.

Definition has_keywords (a : Agent) : bool :=
  match keywords a with
  | Some (_ :: _) => true
  | _ => false
  end.

Definition keyword_list (a : Agent) : list jsstring :=
  match keywords a with Some l => l | None => [] end.

(** The number of keywords of [a] the text includes. *)
Definition keyword_score (text : jsstring) (a : Agent) : nat :=
  length (filter (fun kw => includes text kw) (keyword_list a)).

(** [scores[k] = score] on a plain object: the key [__proto__] is the
    accessor of the prototype, and a number assigned to it is dropped. *)
Definition score_set (scores : list (jsstring * nat)) (k : jsstring) (score : nat) :
  list (jsstring * nat) :=
  if jsstring_eqb k (str "__proto__") then scores else obj_set scores k score.

Section Runner.
Variable E : env.
Variables KANBAN_API KANBAN_TOKEN : jsstring.
Variable agentsConfig : list Agent.
Variable colIds : ColIds.
Variables WORKSPACES_DIR RESULTS_DIR : jsstring.
(** [path.join] and [Date.prototype.toISOString] of the platform. *)
Variable path_join : jsstring -> jsstring -> jsstring.
Variable toISOString : Z -> jsstring.

(** *** Kanban API helpers *)

Definition auth_headers : list (jsstring * jsstring) :=
  let headers := [CONTENT_TYPE] in
  if nonempty KANBAN_TOKEN
  then header_set headers (str "Authorization") (str "Bearer " ++ KANBAN_TOKEN)
  else headers.

Definition kanbanGet (urlPath : jsstring) : M json :=
  resp <- fetch E (mkRequest (KANBAN_API ++ urlPath) None auth_headers None) ;;
  let (status, text) := resp in
  if negb (ok status)
  then throw (Error (str "Kanban GET " ++ urlPath ++ str ": " ++ digits_of status))
  else resp_json text.

Definition kanbanPut (urlPath : jsstring) (data : json) : M json :=
  resp <- fetch E (mkRequest (KANBAN_API ++ urlPath) (Some (str "PUT")) auth_headers
                             (Some (stringify data))) ;;
  let (status, text) := resp in
  if negb (ok status)
  then throw (Error (str "Kanban PUT " ++ urlPath ++ str ": " ++ digits_of status))
  else resp_json text.

Definition kanbanPost (urlPath : jsstring) (data : json) : M json :=
  resp <- fetch E (mkRequest (KANBAN_API ++ urlPath) (Some (str "POST")) auth_headers
                             (Some (stringify data))) ;;
  let (status, text) := resp in
  if negb (ok status)
  then throw (Error (str "Kanban POST " ++ urlPath ++ str ": " ++ digits_of status))
  else resp_json text.

Definition moveTask (taskId : jsstring) (targetColId : json) : M json :=
  kanbanPut (str "/api/tasks/" ++ taskId ++ str "/move")
            (JObj [(str "targetColumnId", targetColId)]).

Definition updateTask (taskId : jsstring) (data : json) : M json :=
  kanbanPut (str "/api/tasks/" ++ taskId) data.

(** *** Agent Routing *)

Definition routeToAgent (task : Task) : json :=
  (* Explicit agent in meta overrides routing *)
  let meta := parseAgentMeta (task_description task) in
  if truthy meta && truthy_opt (get meta (str "agent"))
  then match get meta (str "agent") with Some a => a | None => JNull end
  else
    let text :=
      toLowerCase ((match title task with Some ((_ :: _) as t) => t | _ => [] end)
                   ++ str " " ++ getCleanDescription (task_description task)) in
    let enabledAgents := filter (fun a => enabled a && has_keywords a) agentsConfig in
    (* Score each agent by keyword matches *)
    let scores :=
      fold_left (fun scores agent =>
                   let score := keyword_score text agent in
                   if (0 <? score)%nat then score_set scores (agent_id agent) score
                   else scores)
                enabledAgents [] in
    (* Find best match *)
    let entries := scores in
    match sort_desc entries with
    | [] =>
      (* Default: first agent with default flag, or first enabled agent *)
      match find (fun a => enabled a && default a) agentsConfig with
      | Some defaultAgent => JStr (agent_id defaultAgent)
      | None =>
        match find (fun a => enabled a) agentsConfig with
        | Some a => JStr (agent_id a)
        | None => JStr (str "gemini")
        end
      end
    | best :: _ => JStr (fst best)
    end.

(** *** Prompt Builder *)

Definition template (v : option jsstring) : jsstring :=
  match v with Some s => s | None => str "undefined" end.

Definition buildPrompt (task : Task) (relatedTasks : list json) : jsstring :=
  let cleanDesc := getCleanDescription (task_description task) in
  let relatedSection :=
    match relatedTasks with
    | [] => []
    | _ :: _ =>
      [LF] ++ str "## RELATED TASKS (nur zur Info)" ++ [LF] ++
      join [LF] (map (fun t => str "- " ++ js_to_string_opt (get t (str "title")))
                     relatedTasks)
    end in
  join [LF]
    [str "## TASK";
     template (title task);
     [];
     str "## DESCRIPTION";
     (if nonempty cleanDesc then cleanDesc else str "(keine Beschreibung)");
     [];
     str "## CONSTRAINTS";
     str "- Erstelle am Ende eine RESULT.md mit einer Zusammenfassung deiner Arbeit";
     str "- Beschreibe was du gemacht hast, welche Dateien du erstellt/ge" ++ [228%N]
       ++ str "ndert hast";
     str "- Wenn du Code committet hast: Nenne den GitHub-Link zum Commit oder PR";
     str "- Wenn du Dokumente erstellt hast: Nenne den Dateipfad";
     str "- Bei Fehlern: Beschreibe was schiefging und m" ++ [246%N] ++ str "gliche L"
       ++ [246%N] ++ str "sungen";
     relatedSection].

(** *** Agent Spawner *)

(** The [data] handler of a stream, on the text captured so far. *)
Definition on_data (captured chunk : jsstring) : jsstring :=
  if (N.of_nat (length captured) <? MAX_STDOUT)%N then captured ++ chunk
  else captured.

(** The handlers of the child process at work, up to its end: what was
    captured of the two streams, and whether the deadline killed it. *)
Fixpoint supervise (evs : list proc_event) (out err : jsstring) (killed : bool) :
  jsstring * jsstring * bool :=
  match evs with
  | [] => (out, err, killed)
  | Stdout chunk :: r => supervise r (on_data out chunk) err killed
  | Stderr chunk :: r => supervise r out (on_data err chunk) killed
  | Deadline :: r => supervise r out err true
  end.

Definition is_agent (agent : json) (a : Agent) : bool :=
  match agent with
  | JStr s => jsstring_eqb (agent_id a) s
  | _ => false
  end.

(** The message of the [TypeError] of a property read on [null] or
    [undefined]; its wording is the engine's. *)
Definition TYPE_ERROR : jsstring := str "Cannot read properties of null".

(** The bookkeeping of the process handle in [activeAgents] is left
    out.  An entry without argument template makes [agentDef.args.map]
    throw; [spawn] is called outside the promise: when it throws (an
    empty command, an argument with a NUL character), so does
    [spawnAgent]. *)
Definition spawnAgent (agent : json) (prompt workDir taskId : jsstring) : M AgentResult :=
  match find (is_agent agent) agentsConfig with
  | None =>
    ret (mkAgentResult false []
           (str "Unknown agent: " ++ js_to_string agent ++ str " (not found in agents.json)")
           (Some 1%Z) 0 None)
  | Some agentDef =>
    if negb (enabled agentDef) then
      ret (mkAgentResult false []
             (str "Agent " ++ js_to_string agent ++ str " is disabled: "
              ++ match or_str (note agentDef) None with
                 | Some n => n
                 | None => str "no reason given"
                 end)
             (Some 1%Z) 0 None)
    else
      now <- Date_now E ;;
      let timestamp := number_to_string now 0 in
      template <- match args agentDef with
                  | Some l => ret l
                  | None => throw (Error TYPE_ERROR)
                  end ;;
      let args :=
        map (fun a => replaceAll_subst (replaceAll_subst a (str "{prompt}") prompt)
                                       (str "{timestamp}") timestamp)
            template in
      startTime <- Date_now E ;;
      perform E (ESpawn (cmd agentDef) args workDir) ;;;
      let '(out, err, killed) := supervise (events (child E)) [] [] false in
      endTime <- Date_now E ;;
      match ending (child E) with
      | Close code =>
        ret (mkAgentResult (match code with Some 0%Z => negb killed | _ => false end)
               out err code (endTime - startTime) (Some killed))
      | ProcError msg =>
        ret (mkAgentResult false out msg (Some (-1)%Z) (endTime - startTime) None)
      end
  end.

(** *** Result Collector *)

Definition last_n {A : Type} (n : nat) (l : list A) : list A :=
  skipn (length l - n) l.

Definition opt_bool (b : option bool) : bool :=
  match b with Some x => x | None => false end.

Definition opt_int (z : option Z) : json :=
  match z with Some x => JInt x | None => JNull end.

(** [result_md E] is the content of the [RESULT.md] that exists in the
    work directory; reading it may be refused as any other call. *)
Definition collectResult (taskId workDir : jsstring) (agentResult : AgentResult) : M jsstring :=
  let resultDir := path_join RESULTS_DIR taskId in
  perform E (EMkdir resultDir) ;;;
  (* Save agent log *)
  perform E (EWriteFile (path_join resultDir (str "agent.log"))
          (str "--- STDOUT ---" ++ [LF] ++ stdout agentResult ++ [LF; LF]
           ++ str "--- STDERR ---" ++ [LF] ++ stderr agentResult)) ;;;
  (* Copy RESULT.md if agent created it *)
  let resultMd := path_join workDir (str "RESULT.md") in
  summary <-
    match result_md E with
    | Some content =>
      perform E (EReadFile resultMd) ;;;
      perform E (ECopyFile resultMd (path_join resultDir (str "RESULT.md"))) ;;;
      ret (if (500 <? length content)%nat then slice_to 500 content ++ str "..."
           else content)
    | None =>
      (* Generate summary from stdout *)
      let lines := split_lines (trim (stdout agentResult)) in
      let summary := join [LF] (last_n 20 lines) in
      let summary := if (500 <? length summary)%nat then slice_last 500 summary
                     else summary in
      perform E (EWriteFile (path_join resultDir (str "RESULT.md"))
              (str "# Auto-generated Result" ++ [LF; LF]
               ++ str "(Agent hat keine RESULT.md erstellt)" ++ [LF; LF]
               ++ str "## Agent Output (letzte Zeilen)" ++ [LF; LF] ++ summary)) ;;;
      ret summary
    end ;;
  (* Save metadata *)
  completedAt <- Date_now E ;;
  perform E (EWriteFile (path_join resultDir (str "meta.json"))
          (stringify_indented 0
             (JObj [(str "taskId", JStr taskId);
                    (str "exitCode", opt_int (exitCode agentResult));
                    (str "durationMs", JInt (durationMs agentResult));
                    (str "timedOut", JBool (opt_bool (timedOut agentResult)));
                    (str "success", JBool (success agentResult));
                    (str "completedAt", JStr (toISOString completedAt))]))) ;;;
  ret summary.

(** *** Process a Single Task *)

(** [(v || 0) + 1]: a number is incremented, a falsy value counts as
    zero, [true] as one, anything else is turned into text and gets the
    digit appended. *)
Definition plus_one (v : option json) : json :=
  match v with
  | None => JInt 1
  | Some x =>
    if negb (truthy x) then JInt 1
    else match x with
         | JNum n k => JNum (n + 10 ^ Z.of_N k) k
         | JBool _ => JInt 2
         | _ => JStr (js_to_string x ++ str "1")
         end
  end.

(** [v < MAX_ATTEMPTS].  The comparison of a text with a number is
    outside the model: [None]. *)
Definition below_max (v : option json) : option bool :=
  match v with
  | None => Some false
  | Some (JNum n k) => Some (n <? MAX_ATTEMPTS * 10 ^ Z.of_N k)%Z
  | Some JNull | Some (JBool _) => Some true
  | Some (JStr _) | Some (JArr _) | Some (JObj _) => None
  end.

Definition map_set (m : list (jsstring * json)) (k : jsstring) (v : json) :
  list (jsstring * json) :=
  match obj_get m k with
  | Some _ => obj_replace m k v
  | None => m ++ [(k, v)]
  end.

Definition map_delete (m : list (jsstring * json)) (k : jsstring) :
  list (jsstring * json) :=
  filter (fun kv => negb (jsstring_eqb (fst kv) k)) m.

Definition activeAgents_set (k : jsstring) (v : json) : M unit :=
  fun w => (Ret tt, mkWorld (log w) (clock w) (map_set (activeAgents w) k v)
                            (completedCount w)).

Definition activeAgents_delete (k : jsstring) : M unit :=
  fun w => (Ret tt, mkWorld (log w) (clock w) (map_delete (activeAgents w) k)
                            (completedCount w)).

Definition completedCount_incr : M unit :=
  fun w => (Ret tt, mkWorld (log w) (clock w) (activeAgents w) (S (completedCount w))).

(** A board write whose failure is only logged. *)
Definition best_effort (m : M unit) : M unit := try_catch m (fun _ => ret tt).

Definition DEFAULT_META : json :=
  JObj [(str "agent", JNull); (str "status", JStr (str "queued"));
        (str "attempts", JInt 0); (str "startedAt", JNull);
        (str "resultPath", JNull); (str "lastError", JNull)].

(** The error string of a failed run. *)
Definition error_message (result : AgentResult) : jsstring :=
  if opt_bool (timedOut result) then str "Timeout (10min)"
  else str "Exit " ++ js_to_string (opt_int (exitCode result)) ++ str ": "
       ++ slice_to 200 (stderr result).

(** The end of [processTask], once the agent has finished and its
    result is archived. *)
Definition settle (task : Task) (meta : json) (result : AgentResult)
  (summary resultPath : jsstring) : M unit :=
  let taskId := id task in
  if success result then
    (* Success: move to Review *)
    let meta := set meta (str "status") (JStr (str "review")) in
    let meta := set meta (str "resultPath") (JStr resultPath) in
    let meta := set meta (str "lastError") JNull in
    let meta := set meta (str "resultSummary") (JStr (slice_to 2000 summary)) in
    let updatedDesc := setAgentMeta (task_description task) meta in
    best_effort
      (updateTask taskId (JObj [(str "description", JStr updatedDesc)]) ;;;
       moveTask taskId (review colIds) ;;;
       ret tt) ;;;
    completedCount_incr
  else
    (* Failure *)
    let errorMsg := error_message result in
    let meta := set meta (str "status") (JStr (str "failed")) in
    let meta := set meta (str "resultPath") (JStr resultPath) in
    let meta := set meta (str "lastError") (JStr errorMsg) in
    let meta := set meta (str "resultSummary")
                    (JStr (slice_to 2000 (if nonempty summary then summary else errorMsg))) in
    match below_max (get meta (str "attempts")) with
    | None => beyond
    | Some true =>
      (* Retry: move back to Queue *)
      let meta := set meta (str "status") (JStr (str "queued")) in
      let updatedDesc := setAgentMeta (task_description task) meta in
      best_effort
        (updateTask taskId (JObj [(str "description", JStr updatedDesc)]) ;;;
         moveTask taskId (queue colIds) ;;;
         ret tt)
    | Some false =>
      (* Max retries: move to Review with failure status *)
      let updatedDesc := setAgentMeta (task_description task) meta in
      best_effort
        (updateTask taskId (JObj [(str "description", JStr updatedDesc)]) ;;;
         moveTask taskId (review colIds) ;;;
         ret tt)
    end.

(** The meta of a dispatch: the one embedded in the task or a fresh
    one, with the agent, the status [running], the incremented attempts
    and the start time. *)
Definition running_meta (task : Task) (agent : json) (startedAt : jsstring) : json :=
  let parsed := parseAgentMeta (task_description task) in
  let meta := if truthy parsed then parsed else DEFAULT_META in
  let meta := set meta (str "agent") agent in
  let meta := set meta (str "status") (JStr (str "running")) in
  let meta := set meta (str "attempts") (plus_one (get meta (str "attempts"))) in
  set meta (str "startedAt") (JStr startedAt).


(** [t.id !== taskId && t.color === task.color && task.color] *)
Definition is_related (task : Task) (t : json) : bool :=
  negb (match get t (str "id") with
        | Some (JStr s) => jsstring_eqb s (id task)
        | _ => false
        end)
  && match get t (str "color"), color task with
     | Some (JNum n k), Some b => Z.eqb n (b * 10 ^ Z.of_N k) && negb (Z.eqb b 0)
     | _, _ => false
     end.

(** [columns.flatMap((c) => c.tasks || [])]: [None] is the [TypeError]
    on a column that is [null]. *)
Fixpoint flat_tasks (columns : list json) : option (list json) :=
  match columns with
  | [] => Some []
  | c :: r =>
    match c with
    | JNull => None
    | _ =>
      let here :=
        match get c (str "tasks") with
        | Some (JArr l) => l
        | Some v => if truthy v then [v] else []
        | None => []
        end in
      option_map (app here) (flat_tasks r)
    end
  end.

(** The related tasks of the prompt: the first five tasks of the board
    that are not the task itself and have its color.  [None] is the
    [TypeError] on a board, a column or a task that is [null] and on
    columns that are no array. *)
Definition related_tasks (task : Task) (boardData : json) : option (list json) :=
  match boardData with
  | JNull => None
  | _ =>
    let columns :=
      match get boardData (str "columns") with
      | Some v => if truthy v then v else JArr []
      | None => JArr []
      end in
    match columns with
    | JArr cols =>
      match flat_tasks cols with
      | Some allTasks =>
        if existsb (fun t => match t with JNull => true | _ => false end) allTasks
        then None
        else Some (firstn 5 (filter (is_related task) allTasks))
      | None => None
      end
    | _ => None
    end
  end.

(** A property written to an array lives on in memory and is lost in
    JSON; a task whose embedded meta is an array is outside the
    model. *)
Definition is_array (v : json) : bool :=
  match v with JArr _ => true | _ => false end.

Definition processTask (task : Task) (boardData : json) : M unit :=
  let taskId := id task in
  let agent := routeToAgent task in
  (* Check agent-specific RAM requirement *)
  let agentDef := find (is_agent agent) agentsConfig in
  let requiredMB :=
    match agentDef with
    | Some a => match ramMB a with
                | Some r => if Z.eqb r 0 then MIN_FREE_MB else r
                | None => MIN_FREE_MB
                end
    | None => MIN_FREE_MB
    end in
  let freeMB := free_mb E in
  if (freeMB <? requiredMB)%Z then ret tt else
  (* Create workspace *)
  let workDir := path_join WORKSPACES_DIR taskId in
  perform E (EMkdir workDir) ;;;
  (* Update meta: running *)
  if is_array (parseAgentMeta (task_description task)) then beyond else
  now <- Date_now E ;;
  let meta := running_meta task agent (toISOString now) in
  best_effort
    (updateTask taskId
       (JObj [(str "description", JStr (setAgentMeta (task_description task) meta))]) ;;;
     ret tt) ;;;
  (* Move to WIP *)
  best_effort (moveTask taskId (wip colIds) ;;; ret tt) ;;;
  (* Track active agent *)
  started <- Date_now E ;;
  activeAgents_set taskId (JObj [(str "agent", agent); (str "startedAt", JInt started)]) ;;;
  (* Get related tasks for context *)
  relatedTasks <- match related_tasks task boardData with
                  | Some l => ret l
                  | None => throw (Error TYPE_ERROR)
                  end ;;
  (* Build prompt and spawn *)
  let prompt := buildPrompt task relatedTasks in
  result <- spawnAgent agent prompt workDir taskId ;;
  activeAgents_delete taskId ;;;
  (* Collect result *)
  summary <- collectResult taskId workDir result ;;
  let resultPath := path_join RESULTS_DIR taskId in
  settle task meta result summary resultPath.

End Runner.
End TaskRunner.

(** ** The board endpoint of the CRUD API *)

Module BoardApi.
Import JS.

Record Req : Type := mkReq {
  req_method : jsstring;
  authorization : option jsstring;
  req_body : option json
}.

(** What a handler run leaves: the reply and the value stored under the
    board key, or a crash with an uncaught [TypeError] or
    [SyntaxError]. *)
Inductive handled : Type :=
| Replied (status : N) (payload : json) (stored : option jsstring)
| Crashed (stored : option jsstring).

Definition DEFAULT_BOARD : json :=
  JObj [(str "columns",
         JArr [JObj [(str "id", JStr (str "col-todo")); (str "title", JStr (str "To Do"));
                     (str "tasks", JArr [])];
               JObj [(str "id", JStr (str "col-progress"));
                     (str "title", JStr (str "In Progress")); (str "tasks", JArr [])];
               JObj [(str "id", JStr (str "col-done")); (str "title", JStr (str "Done"));
                     (str "tasks", JArr [])]]);
        (str "initiatives", JArr []);
        (str "backlog", JArr [])].

(** [/^Bearer\s+/i] *)
Definition bearer_prefix : regex :=
  r_seq [RBegin; r_lit_i (str "Bearer"); r_plus r_space].

Section Api.
(** [process.env.KANBAN_API_TOKEN] *)
Variable KANBAN_API_TOKEN : option jsstring.

Definition checkAuth (req : Req) : bool :=
  match authorization req with
  | None | Some [] => true (* no header = browser = allow *)
  | Some authHeader =>
    let token := replace_first bearer_prefix [] authHeader in
    match KANBAN_API_TOKEN with
    | Some t => jsstring_eqb token t
    | None => false
    end
  end.

(** [redisGet]: [None] when the stored text is not JSON. *)
Definition redisGet (stored : option jsstring) : option json :=
  match stored with
  | Some ((_ :: _) as result) => JSON_parse result
  | _ => Some DEFAULT_BOARD
  end.

Definition redisSet (board : json) : option jsstring := Some (stringify board).

Definition error_body (msg : jsstring) : json := JObj [(str "error", JStr msg)].

(** [api/board.js] *)
Definition handler (req : Req) (stored : option jsstring) : handled :=
  if jsstring_eqb (req_method req) (str "OPTIONS") then Replied 204 JNull stored
  else if negb (checkAuth req) then Replied 401 (error_body (str "Unauthorized")) stored
  else if jsstring_eqb (req_method req) (str "GET") then
    match redisGet stored with
    | Some board => Replied 200 board stored
    | None => Crashed stored
    end
  else if jsstring_eqb (req_method req) (str "POST") then
    let incoming := req_body req in
    (* Preserve server-side backlog *)
    match redisGet stored with
    | None | Some JNull => Crashed stored
    | Some current =>
      match incoming with
      | None | Some JNull => Crashed stored
      | Some incoming =>
        let backlog :=
          match get current (str "backlog") with
          | Some b => if truthy b then b else JArr []
          | None => JArr []
          end in
        let incoming := set incoming (str "backlog") backlog in
        Replied 200 (JObj [(str "ok", JBool true)]) (redisSet incoming)
      end
    end
  else Replied 405 (error_body (str "Method not allowed")) stored.

End Api.
End BoardApi.
(** ** The start-up of the Task Runner: the workflow columns *)

Module Startup.
Import JS Eff TaskRunner.

(** The message of a [TypeError]; its wording is the engine's. *)
Definition TYPE_ERROR : jsstring := str "Cannot read properties of undefined".

(** The [key] of a needed column. *)
Inductive Key : Type := queue_key | wip_key | review_key.

(** [colIds[key] = v] *)
Definition colIds_set (colIds : ColIds) (key : Key) (v : json) : ColIds :=
  match key with
  | queue_key => mkColIds v (wip colIds) (review colIds)
  | wip_key => mkColIds (queue colIds) v (review colIds)
  | review_key => mkColIds (queue colIds) (wip colIds) v
  end.

Definition needed : list (Key * jsstring) :=
  [(queue_key, str "Queue"); (wip_key, str "Agent WIP"); (review_key, str "Review")].

(** [c.title.toLowerCase()]; [None] is the [TypeError] of a column that
    is [null] or has no title that is a string. *)
Definition lower_title (c : json) : option jsstring :=
  match c with
  | JNull => None
  | _ => match get c (str "title") with
         | Some (JStr t) => Some (toLowerCase t)
         | _ => None
         end
  end.

(** [columns.findIndex((c) => c.title.toLowerCase() === t)] from index
    [i] on: [None] is a [TypeError], [Some None] is -1. *)
Fixpoint findIndex_title (t : jsstring) (i : nat) (columns : list json) :
  option (option nat) :=
  match columns with
  | [] => Some None
  | c :: r =>
    match lower_title c with
    | None => None
    | Some t' => if jsstring_eqb t' t then Some (Some i) else findIndex_title t (S i) r
    end
  end.

(** [columns.splice(i, 0, x)] *)
Definition splice_in (A : Type) (i : nat) (x : A) (l : list A) : list A :=
  firstn i l ++ x :: skipn i l.

(** Where a new column goes: [Queue] before [Agent WIP], [Agent WIP]
    before [Review], each of them before [Done] failing that, at the
    end failing that. *)
Definition place (key : Key) (newCol : json) (columns : list json) :
  option (list json) :=
  match findIndex_title (str "done") 0 columns with
  | None => None
  | Some doneIdx =>
    let before_done :=
      match doneIdx with
      | Some j => splice_in j newCol columns
      | None => columns ++ [newCol]
      end in
    match key with
    | queue_key =>
      match findIndex_title (str "agent wip") 0 columns with
      | None => None
      | Some (Some wipIdx) => Some (splice_in wipIdx newCol columns)
      | Some None => Some before_done
      end
    | wip_key =>
      match findIndex_title (str "review") 0 columns with
      | None => None
      | Some (Some reviewIdx) => Some (splice_in reviewIdx newCol columns)
      | Some None => Some before_done
      end
    | review_key => Some before_done
    end
  end.

(** A function of the start-up: it reads and writes the cached column
    ids, which keep what was written when it throws. *)
Definition R (A : Type) : Type := ColIds -> world -> outcome A * ColIds * world.

Definition rret (A : Type) (a : A) : R A := fun c w => (Ret a, c, w).

Definition rbind (A B : Type) (m : R A) (k : A -> R B) : R B :=
  fun c w => match m c w with
             | (Ret a, c', w') => k a c' w'
             | (Throw e, c', w') => (Throw e, c', w')
             | (Beyond, c', w') => (Beyond, c', w')
             end.

Definition lift (A : Type) (m : M A) : R A :=
  fun c w => let (o, w') := m w in (o, c, w').

Definition assign (key : Key) (v : json) : R unit :=
  fun c w => (Ret tt, colIds_set c key v, w).

Section Runner.
Variable E : env.
Variables KANBAN_API KANBAN_TOKEN : jsstring.
(** [Math.floor(Math.random() * 1000)] at the creation of the column of
    a key. *)
Variable draw : Key -> Z.

(** One turn of the loop over the needed columns.  A column that
    exists without an [id] leaves an [undefined] in the cache, which is
    outside the model. *)
Definition ensure (columns : list json) (k : Key * jsstring) : R (list json) :=
  let (key, title) := k in
  match findIndex_title (toLowerCase title) 0 columns with
  | None => lift (throw (Error TYPE_ERROR))
  | Some (Some i) =>
    match nth_error columns i with
    | Some existing =>
      match get existing (str "id") with
      | Some v => rbind (assign key v) (fun _ => rret columns)
      | None => lift beyond
      end
    | None => lift beyond
    end
  | Some None =>
    (* Add column to board *)
    rbind (lift (Date_now E)) (fun now =>
    let id := JInt (now + draw key) in
    let newCol := JObj [(str "id", id); (str "title", JStr title); (str "tasks", JArr [])] in
    match place key newCol columns with
    | None => lift (throw (Error TYPE_ERROR))
    | Some columns' => rbind (assign key id) (fun _ => rret columns')
    end)
  end.

Fixpoint ensure_all (columns : list json) (ks : list (Key * jsstring)) : R (list json) :=
  match ks with
  | [] => rret columns
  | k :: rest => rbind (ensure columns k) (fun columns' => ensure_all columns' rest)
  end.

Definition ensureColumns : R unit :=
  rbind (lift (kanbanGet E KANBAN_API KANBAN_TOKEN (str "/api/board"))) (fun boardData =>
  match boardData with
  | JNull => lift (throw (Error TYPE_ERROR))
  | _ =>
    let columns :=
      match get boardData (str "columns") with
      | Some c => if truthy c then c else JArr []
      | None => JArr []
      end in
    match columns with
    | JArr columns =>
      rbind (ensure_all columns needed) (fun columns' =>
      (* Save updated board with new columns *)
      let boardData := set boardData (str "columns") (JArr columns') in
      rbind (lift (kanbanPost E KANBAN_API KANBAN_TOKEN (str "/api/board") boardData))
            (fun _ => rret tt))
    | _ => lift (throw (Error TYPE_ERROR))
    end
  end).

End Runner.
End Startup.

(** ** The CRUD handlers of the board store *)

Module Crud.
Import JS BoardApi.

(** What a step of a handler ends in: a value, an uncaught [TypeError],
    or a case this development gives no meaning to. *)
Inductive tried (A : Type) : Type :=
| Got (a : A)
| Raised
| Outside.
Arguments Raised {A}.
Arguments Outside {A}.

(** What a run of a handler leaves: the reply and the value stored under
    the board key, a crash with an uncaught error, or a run outside the
    model. *)
Inductive result : Type :=
| Reply (status : N) (payload : json) (stored : option jsstring)
| Crash (stored : option jsstring)
| Unmodelled.

(** [s.split("/")] *)
Fixpoint split_slash (cur s : jsstring) : list jsstring :=
  match s with
  | [] => [rev cur]
  | c :: r => if N.eqb c 47 then rev cur :: split_slash [] r
              else split_slash (c :: cur) r
  end.

(** [url.pathname.split("/").filter(Boolean)] *)
Definition path_parts (pathname : jsstring) : list jsstring :=
  filter Eff.nonempty (split_slash [] pathname).

(** [v.k] on a value that may be [null]. *)
Definition prop (v : json) (k : jsstring) : tried (option json) :=
  match v with
  | JNull => Raised
  | _ => Got (get v k)
  end.

(** The receiver of [find], [findIndex], [push] or [splice]: anything
    but an array has no such method. *)
Definition array_of (v : option json) : tried (list json) :=
  match v with
  | Some (JArr l) => Got l
  | _ => Raised
  end.

(** What [for (const x of v)] runs over.  The iteration of a non-empty
    string is outside the model. *)
Definition iterate (v : option json) : tried (list json) :=
  match v with
  | Some (JArr l) => Got l
  | Some (JStr []) => Got []
  | Some (JStr (_ :: _)) => Outside
  | _ => Raised
  end.

(** [String(c.id)] *)
Definition id_text (c : json) : tried jsstring :=
  match c with
  | JNull => Raised
  | _ => Got (js_to_string_opt (get c (str "id")))
  end.

(** [String(body.k)] *)
Definition body_text (body : option json) (k : jsstring) : tried jsstring :=
  match body with
  | None | Some JNull => Raised
  | Some b => Got (js_to_string_opt (get b k))
  end.

(** [l.findIndex((c) => String(c.id) === x)] from index [i] on, with
    the element found; [x] is evaluated at each element. *)
Fixpoint find_id (x : tried jsstring) (i : nat) (l : list json) :
  tried (option (nat * json)) :=
  match l with
  | [] => Got None
  | c :: r =>
    match id_text c with
    | Got t =>
      match x with
      | Got x' => if jsstring_eqb t x' then Got (Some (i, c)) else find_id x (S i) r
      | Raised => Raised
      | Outside => Outside
      end
    | Raised => Raised
    | Outside => Outside
    end
  end.

(** The own properties [{...v}] copies. *)
Definition spread (v : json) : obj :=
  match v with
  | JObj o => o
  | JArr l => combine (map (fun i => digits_of (N.of_nat i)) (seq 0 (length l))) l
  | JStr s => combine (map (fun i => digits_of (N.of_nat i)) (seq 0 (length s)))
                      (map (fun c => JStr [c]) s)
  | _ => []
  end.

(** A property of a reply: one that is [undefined] is not written. *)
Definition reply_set (o : obj) (k : jsstring) (v : option json) : obj :=
  match v with
  | Some x => obj_set o k x
  | None => filter (fun kv => negb (jsstring_eqb (fst kv) k)) o
  end.

(** [a || d] *)
Definition or_default (v : option json) (d : json) : json :=
  match v with
  | Some x => if truthy x then x else d
  | None => d
  end.

(** [l[i] = x] for an index within [l]. *)
Fixpoint replace_nth (A : Type) (i : nat) (x : A) (l : list A) : list A :=
  match l, i with
  | [], _ => []
  | _ :: r, O => x :: r
  | y :: r, S i' => y :: replace_nth i' x r
  end.

(** [l.splice(i, 1)] *)
Fixpoint remove_nth (A : Type) (i : nat) (l : list A) : list A :=
  match l, i with
  | [], _ => []
  | _ :: r, O => r
  | y :: r, S i' => y :: remove_nth i' r
  end.

(** The tasks of all columns, each with the id and the title of its
    column. *)
Fixpoint flatten (columns : list json) : tried (list json) :=
  match columns with
  | [] => Got []
  | col :: r =>
    match col with
    | JNull => Raised
    | _ =>
      match iterate (get col (str "tasks")) with
      | Got ts =>
        let here :=
          map (fun task =>
                 JObj (reply_set (reply_set (spread task) (str "columnId")
                                            (get col (str "id")))
                                 (str "columnTitle") (get col (str "title")))) ts in
        match flatten r with
        | Got rest => Got (here ++ rest)
        | Raised => Raised
        | Outside => Outside
        end
      | Raised => Raised
      | Outside => Outside
      end
    end
  end.

(** The first task with an id, column by column: the index of its
    column, its index there, the tasks of the column and the task.
    With [must_be_truthy] a task that is falsy is passed over, as
    [if (task)] does. *)
Fixpoint locate (must_be_truthy : bool) (taskId : jsstring) (ci : nat)
  (columns : list json) : tried (option (nat * nat * list json * json)) :=
  match columns with
  | [] => Got None
  | col :: r =>
    match col with
    | JNull => Raised
    | _ =>
      match array_of (get col (str "tasks")) with
      | Got ts =>
        match find_id (Got taskId) 0 ts with
        | Got (Some (ti, t)) =>
          if must_be_truthy && negb (truthy t) then locate must_be_truthy taskId (S ci) r
          else Got (Some (ci, ti, ts, t))
        | Got None => locate must_be_truthy taskId (S ci) r
        | Raised => Raised
        | Outside => Outside
        end
      | Raised => Raised
      | Outside => Outside
      end
    end
  end.

(** [if (body.k !== undefined) task.k' = body.k] *)
Definition copy_field (body : json) (k k' : jsstring) (task : json) : json :=
  match get body k with
  | Some v => set task k' v
  | None => task
  end.

Definition not_found : json := error_body (str "Not found").

Section Handlers.
(** [process.env.KANBAN_API_TOKEN] *)
Variable KANBAN_API_TOKEN : option jsstring.

(** The board with its columns replaced. *)
Definition with_columns (board : json) (columns : list json) : option jsstring :=
  redisSet (set board (str "columns") (JArr columns)).

(** [GET /api/tasks]: all tasks flat. *)
Definition list_tasks (board : json) (stored : option jsstring) : result :=
  match prop board (str "columns") with
  | Got columns =>
    match iterate columns with
    | Got columns =>
      match flatten columns with
      | Got tasks => Reply 200 (JArr tasks) stored
      | Raised => Crash stored
      | Outside => Unmodelled
      end
    | Raised => Crash stored
    | Outside => Unmodelled
    end
  | _ => Crash stored
  end.

(** The task [POST /api/tasks] creates. *)
Definition new_task (body : json) (uid now : jsstring) : json :=
  JObj [(str "id", JStr (str "task-" ++ uid));
        (str "title", or_default (get body (str "title")) (JStr (str "New Task")));
        (str "description",
         or_default (get body (str "description"))
                    (or_default (get body (str "desc")) (JStr [])));
        (str "color", or_default (get body (str "color")) (JInt 0));
        (str "createdAt", JStr now)].

(** [POST /api/tasks]: create task. *)
Definition create_task (body : option json) (uid now : jsstring) (board : json)
  (stored : option jsstring) : result :=
  match prop board (str "columns") with
  | Got columns =>
    match array_of columns with
    | Got columns =>
      match find_id (body_text body (str "columnId")) 0 columns with
      | Got None => Reply 400 (error_body (str "Column not found")) stored
      | Got (Some (i, col)) =>
        if negb (truthy col)
        then Reply 400 (error_body (str "Column not found")) stored
        else
          match body with
          | None | Some JNull => Crash stored
          | Some body =>
            let task := new_task body uid now in
            match array_of (get col (str "tasks")) with
            | Got ts =>
              let col := set col (str "tasks") (JArr (ts ++ [task])) in
              Reply 201 task (with_columns board (replace_nth i col columns))
            | _ => Crash stored
            end
          end
      | Raised => Crash stored
      | Outside => Unmodelled
      end
    | _ => Crash stored
    end
  | _ => Crash stored
  end.

(** [PUT /api/tasks/:id/move]: move task.  A task that is an array
    would keep [movedAt] in memory and lose it in JSON: outside the
    model. *)
Definition move_task (taskId : jsstring) (body : option json) (now : jsstring)
  (board : json) (stored : option jsstring) : result :=
  match prop board (str "columns") with
  | Got columns =>
    match array_of columns with
    | Got columns =>
      match find_id (body_text body (str "targetColumnId")) 0 columns with
      | Got None => Reply 400 (error_body (str "Target column not found")) stored
      | Got (Some (tj, targetCol)) =>
        if negb (truthy targetCol)
        then Reply 400 (error_body (str "Target column not found")) stored
        else
          match locate false taskId 0 columns with
          | Got None => Reply 404 not_found stored
          | Got (Some (ci, ti, ts, task)) =>
            match task with
            | JArr _ => Unmodelled
            | _ =>
              let ts := remove_nth ti ts in
              let task := set task (str "movedAt") (JStr now) in
              let payload :=
                JObj (reply_set (spread task) (str "columnId")
                                (get targetCol (str "id"))) in
              if Nat.eqb ci tj then
                (* the task stays in its column and goes to its end *)
                let col := set targetCol (str "tasks") (JArr (ts ++ [task])) in
                Reply 200 payload (with_columns board (replace_nth tj col columns))
              else
                match array_of (get targetCol (str "tasks")), nth_error columns ci with
                | Got there, Some col =>
                  let col := set col (str "tasks") (JArr ts) in
                  let targetCol := set targetCol (str "tasks") (JArr (there ++ [task])) in
                  Reply 200 payload
                        (with_columns board
                           (replace_nth tj targetCol (replace_nth ci col columns)))
                | _, _ => Crash stored
                end
            end
          | Raised => Crash stored
          | Outside => Unmodelled
          end
      | Raised => Crash stored
      | Outside => Unmodelled
      end
    | _ => Crash stored
    end
  | _ => Crash stored
  end.

(** [PUT /api/tasks/:id]: update task. *)
Definition update_task (taskId : jsstring) (body : option json) (board : json)
  (stored : option jsstring) : result :=
  match prop board (str "columns") with
  | Got columns =>
    match iterate columns with
    | Got columns =>
      match locate true taskId 0 columns with
      | Got None => Reply 404 not_found stored
      | Got (Some (ci, ti, ts, task)) =>
        match body, task, nth_error columns ci with
        | None, _, _ | Some JNull, _, _ => Crash stored
        | _, JArr _, _ => Unmodelled
        | Some body, _, Some col =>
          let task := copy_field body (str "title") (str "title") task in
          let task := copy_field body (str "description") (str "description") task in
          let task := copy_field body (str "desc") (str "description") task in
          let task := copy_field body (str "color") (str "color") task in
          let col := set col (str "tasks") (JArr (replace_nth ti task ts)) in
          Reply 200 task (with_columns board (replace_nth ci col columns))
        | _, _, None => Unmodelled
        end
      | Raised => Crash stored
      | Outside => Unmodelled
      end
    | Raised => Crash stored
    | Outside => Unmodelled
    end
  | _ => Crash stored
  end.

(** [DELETE /api/tasks/:id]: delete task. *)
Definition delete_task (taskId : jsstring) (board : json) (stored : option jsstring) :
  result :=
  match prop board (str "columns") with
  | Got columns =>
    match iterate columns with
    | Got columns =>
      match locate false taskId 0 columns with
      | Got None => Reply 404 not_found stored
      | Got (Some (ci, ti, ts, _)) =>
        match nth_error columns ci with
        | Some col =>
          let col := set col (str "tasks") (JArr (remove_nth ti ts)) in
          Reply 200 (JObj [(str "deleted", JBool true)])
                (with_columns board (replace_nth ci col columns))
        | None => Unmodelled
        end
      | Raised => Crash stored
      | Outside => Unmodelled
      end
    | Raised => Crash stored
    | Outside => Unmodelled
    end
  | _ => Crash stored
  end.

(** [api/tasks.js]: [pathname] is the path of the request, [uid] the
    eight characters [uid()] draws and [now] the text of
    [new Date().toISOString()]. *)
Definition tasks_handler (req : Req) (pathname uid now : jsstring)
  (stored : option jsstring) : result :=
  if jsstring_eqb (req_method req) (str "OPTIONS") then Reply 204 JNull stored
  else if negb (checkAuth KANBAN_API_TOKEN req)
  then Reply 401 (error_body (str "Unauthorized")) stored
  else
    (* Parse path: /api/tasks, /api/tasks/:id, /api/tasks/:id/move *)
    let parts := path_parts pathname in
    let taskId := nth_error parts 2 in
    let action := nth_error parts 3 in
    match redisGet stored with
    | None => Crash stored
    | Some board =>
      let meth := req_method req in
      let body := req_body req in
      match taskId, action with
      | None, _ =>
        if jsstring_eqb meth (str "GET") then list_tasks board stored
        else if jsstring_eqb meth (str "POST") then create_task body uid now board stored
        else Reply 405 (error_body (str "Method not allowed")) stored
      | Some taskId, Some action =>
        if jsstring_eqb meth (str "PUT") && jsstring_eqb action (str "move")
        then move_task taskId body now board stored
        else if jsstring_eqb meth (str "DELETE") then delete_task taskId board stored
        else Reply 405 (error_body (str "Method not allowed")) stored
      | Some taskId, None =>
        if jsstring_eqb meth (str "PUT") then update_task taskId body board stored
        else if jsstring_eqb meth (str "DELETE") then delete_task taskId board stored
        else Reply 405 (error_body (str "Method not allowed")) stored
      end
    end.

End Handlers.
End Crud.

(** ** The backlog endpoint

    [api/backlog.js].  A stored board that is neither an object nor
    [null] is outside the model. *)

Module Backlog.
Import JS BoardApi Crud.

(** [l.findIndex((p) => p.id === projectId)] from index [i] on, with
    the element found. *)
Fixpoint find_project (projectId : jsstring) (i : nat) (l : list json) :
  tried (option (nat * json)) :=
  match l with
  | [] => Got None
  | p :: r =>
    match p with
    | JNull => Raised
    | _ =>
      match get p (str "id") with
      | Some (JStr s) =>
        if jsstring_eqb s projectId then Got (Some (i, p))
        else find_project projectId (S i) r
      | _ => find_project projectId (S i) r
      end
    end
  end.

(** The project [POST /api/backlog] creates from a body with a
    title. *)
Definition new_project (body title : json) (uid now : jsstring) : json :=
  JObj [(str "id", JStr (str "proj-" ++ uid));
        (str "title", title);
        (str "description", or_default (get body (str "description")) (JStr []));
        (str "githubLink", or_default (get body (str "githubLink")) (JStr []));
        (str "documents", or_default (get body (str "documents")) (JArr []));
        (str "specStatus", JStr (str "none"));
        (str "spec", JStr []);
        (str "specTasks", JArr []);
        (str "createdAt", JStr now)].

(** The fields [PUT /api/backlog/:id] copies from the body. *)
Definition project_fields : list jsstring :=
  [str "title"; str "description"; str "githubLink"; str "documents";
   str "specStatus"; str "spec"; str "specTasks"].

Definition update_project (body project : json) : json :=
  fold_left (fun p k => copy_field body k k p) project_fields project.

Section Handler.
(** [process.env.KANBAN_API_TOKEN] *)
Variable KANBAN_API_TOKEN : option jsstring.

(** The board with its backlog replaced. *)
Definition with_backlog (board : json) (backlog : list json) : option jsstring :=
  redisSet (set board (str "backlog") (JArr backlog)).

(** [pathname] is the path of the request, [uid] the eight characters
    [uid()] draws and [now] the text of [new Date().toISOString()]. *)
Definition backlog_handler (req : Req) (pathname uid now : jsstring)
  (stored : option jsstring) : result :=
  if jsstring_eqb (req_method req) (str "OPTIONS") then Reply 204 JNull stored
  else if negb (checkAuth KANBAN_API_TOKEN req)
  then Reply 401 (error_body (str "Unauthorized")) stored
  else
    match redisGet stored with
    | None | Some JNull => Crash stored
    | Some ((JObj _) as board) =>
      (* if (!board.backlog) board.backlog = []; *)
      let board :=
        if truthy_opt (get board (str "backlog")) then board
        else set board (str "backlog") (JArr []) in
      let backlog := get board (str "backlog") in
      (* Extract project ID from URL path: /api/backlog/:id *)
      let projectId := nth_error (path_parts pathname) 2 in
      let meth := req_method req in
      let by_id (projectId : jsstring) (found : nat -> json -> list json -> result) :=
        match array_of backlog with
        | Got l =>
          match find_project projectId 0 l with
          | Got (Some (idx, project)) => found idx project l
          | Got None => Reply 404 not_found stored
          | Raised => Crash stored
          | Outside => Unmodelled
          end
        | _ => Crash stored
        end in
      let create :=
        match req_body req with
        | None | Some JNull => Crash stored
        | Some body =>
          match get body (str "title") with
          | Some title =>
            if truthy title then
              let project := new_project body title uid now in
              match array_of backlog with
              | Got l => Reply 201 project (with_backlog board (l ++ [project]))
              | _ => Crash stored
              end
            else Reply 400 (error_body (str "title is required")) stored
          | None => Reply 400 (error_body (str "title is required")) stored
          end
        end in
      let update (projectId : jsstring) :=
        by_id projectId
              (fun idx project l =>
                 match req_body req with
                 | None | Some JNull => Crash stored
                 | Some body =>
                   let project := update_project body project in
                   Reply 200 project (with_backlog board (replace_nth idx project l))
                 end) in
      let delete (projectId : jsstring) :=
        by_id projectId
              (fun idx _ l =>
                 Reply 200 (JObj [(str "deleted", JBool true)])
                       (with_backlog board (remove_nth idx l))) in
      let not_allowed := Reply 405 (error_body (str "Method not allowed")) stored in
      if jsstring_eqb meth (str "GET") then
        match projectId with
        | None =>
          match backlog with
          | Some all => Reply 200 all stored
          | None => Unmodelled
          end
        | Some projectId =>
          by_id projectId
                (fun _ project _ =>
                   if truthy project then Reply 200 project stored
                   else Reply 404 not_found stored)
        end
      else if jsstring_eqb meth (str "POST") then create
      else
        match projectId with
        | Some projectId =>
          if jsstring_eqb meth (str "PUT") then update projectId
          else if jsstring_eqb meth (str "DELETE") then delete projectId
          else not_allowed
        | None => not_allowed
        end
    | Some _ => Unmodelled
    end.

End Handler.
End Backlog.

(** ** The statistics endpoint

    [api/stats.js]. *)

Module Stats.
Import JS BoardApi Crud.

(** [v.length] of an array or a string; on [undefined] and [null] it
    raises, and another receiver is outside the model. *)
Definition length_of (v : option json) : tried nat :=
  match v with
  | None | Some JNull => Raised
  | Some (JArr l) => Got (length l)
  | Some (JStr s) => Got (length s)
  | Some _ => Outside
  end.

(** [stats[k] = n]: the key [__proto__] names no property of its
    own. *)
Definition stats_set (stats : obj) (k : jsstring) (n : nat) : obj :=
  if jsstring_eqb k (str "__proto__") then stats
  else obj_set stats k (JInt (Z.of_nat n)).

(** [for (const col of board.columns) stats[col.title] = col.tasks.length] *)
Fixpoint count_columns (stats : obj) (columns : list json) : tried obj :=
  match columns with
  | [] => Got stats
  | col :: r =>
    match col with
    | JNull => Raised
    | _ =>
      match length_of (get col (str "tasks")) with
      | Got n => count_columns (stats_set stats (js_to_string_opt (get col (str "title"))) n) r
      | Raised => Raised
      | Outside => Outside
      end
    end
  end.

(** [columns.reduce((sum, col) => sum + col.tasks.length, sum)] *)
Fixpoint total_of (sum : nat) (columns : list json) : tried nat :=
  match columns with
  | [] => Got sum
  | col :: r =>
    match col with
    | JNull => Raised
    | _ =>
      match length_of (get col (str "tasks")) with
      | Got n => total_of (sum + n) r
      | Raised => Raised
      | Outside => Outside
      end
    end
  end.

(** [(board.initiatives || []).length], [None] for [undefined]. *)
Definition initiatives_length (board : json) : option json :=
  match or_default (get board (str "initiatives")) (JArr []) with
  | JArr l => Some (JInt (Z.of_nat (length l)))
  | JStr s => Some (JInt (Z.of_nat (length s)))
  | JObj o => obj_get o (str "length")
  | _ => None
  end.

Section Handler.
(** [process.env.KANBAN_API_TOKEN] *)
Variable KANBAN_API_TOKEN : option jsstring.

Definition stats_handler (req : Req) (stored : option jsstring) : result :=
  if jsstring_eqb (req_method req) (str "OPTIONS") then Reply 204 JNull stored
  else if negb (checkAuth KANBAN_API_TOKEN req)
  then Reply 401 (error_body (str "Unauthorized")) stored
  else if negb (jsstring_eqb (req_method req) (str "GET"))
  then Reply 405 (error_body (str "Method not allowed")) stored
  else
    match redisGet stored with
    | None => Crash stored
    | Some board =>
      match prop board (str "columns") with
      | Got columns =>
        match iterate columns with
        | Got cols =>
          match count_columns [] cols with
          | Got stats =>
            match array_of columns with
            | Got cols =>
              match total_of 0 cols with
              | Got total =>
                let stats := obj_set stats (str "total") (JInt (Z.of_nat total)) in
                let stats := reply_set stats (str "initiatives")
                                       (initiatives_length board) in
                Reply 200 (JObj stats) stored
              | Raised => Crash stored
              | Outside => Unmodelled
              end
            | _ => Crash stored
            end
          | Raised => Crash stored
          | Outside => Unmodelled
          end
        | Raised => Crash stored
        | Outside => Unmodelled
        end
      | _ => Crash stored
      end
    end.

End Handler.
End Stats.

(** * The vocabulary of the statements

    What the statements below are written with: the serializable JSON
    values, the requests the clients send, the outcome of a provider's
    answer, the capture of a stream, the router as the specification
    words it, the retry decision, and the sample inputs the theorems are
    instantiated at. *)

Import JS Eff.
Unset Implicit Arguments.

Section JsonTerms.

(** What may follow a number in a JSON text: nothing, or a code unit
    that does not continue the number. *)
Definition ends_number (rest : jsstring) : bool :=
  match rest with
  | [] => true
  | c :: _ => negb (is_digit c || N.eqb c 46 || N.eqb c 101 || N.eqb c 69)
  end.

(** An integer the serializer writes in plain digits. *)
Definition plain_integer (n : Z) : Prop := (Z.abs n < 10 ^ 21)%Z.

Section JsonInduction.
Variable P : json -> Prop.
Hypothesis Hnull : P JNull.
Hypothesis Hbool : forall b, P (JBool b).
Hypothesis Hnum : forall n k, P (JNum n k).
Hypothesis Hstr : forall s, P (JStr s).
Hypothesis Harr : forall l, Forall P l -> P (JArr l).
Hypothesis Hobj : forall o, Forall (fun kv => P (snd kv)) o -> P (JObj o).

Fixpoint json_induction (v : json) : P v :=
  match v with
  | JNull => Hnull
  | JBool b => Hbool b
  | JNum n k => Hnum n k
  | JStr s => Hstr s
  | JArr l =>
    Harr l ((fix go (l : list json) : Forall P l :=
             match l with
             | [] => Forall_nil P
             | x :: r => Forall_cons x (json_induction x) (go r)
             end) l)
  | JObj o =>
    Hobj o ((fix go (o : list (jsstring * json)) : Forall (fun kv => P (snd kv)) o :=
             match o with
             | [] => Forall_nil _
             | kv :: r => Forall_cons kv (json_induction (snd kv)) (go r)
             end) o)
  end.

End JsonInduction.

(** The elements of an array and the members of an object, as
    [JSON.stringify] writes them. *)
Fixpoint stringify_elems (l : list json) : jsstring :=
  match l with
  | [] => []
  | x :: r => stringify x ++ match r with [] => [] | _ :: _ => str "," ++ stringify_elems r end
  end.

Fixpoint stringify_members (o : list (jsstring * json)) : jsstring :=
  match o with
  | [] => []
  | (k, x) :: r => quote k ++ str ":" ++ stringify x ++
                   match r with [] => [] | _ :: _ => str "," ++ stringify_members r end
  end.

(** The object the successive assignments of the listed properties
    build. *)
Definition object_of (o : obj) : obj :=
  fold_left (fun acc kv => obj_set acc (fst kv) (snd kv)) o [].

(** The documents [JSON.stringify] writes so that [JSON.parse] gives
    them back: numbers are integers written in plain digits, objects
    list their properties in the order of enumeration. *)
Fixpoint serializable (v : json) : Prop :=
  match v with
  | JNull | JBool _ | JStr _ => True
  | JNum n k => k = 0%N /\ plain_integer n
  | JArr l =>
    (fix all (l : list json) : Prop :=
       match l with [] => True | x :: r => serializable x /\ all r end) l
  | JObj o =>
    object_of o = o /\
    (fix all (o : list (jsstring * json)) : Prop :=
       match o with [] => True | kv :: r => serializable (snd kv) /\ all r end) o
  end.

(** A bound on the depth of the calls that read a document back. *)
Fixpoint size (v : json) : nat :=
  match v with
  | JArr l =>
    S ((fix go (l : list json) : nat :=
          match l with [] => 0 | x :: r => S (size x + go r) end) l)
  | JObj o =>
    S ((fix go (o : list (jsstring * json)) : nat :=
          match o with [] => 0 | kv :: r => S (size (snd kv) + go r) end) o)
  | _ => 1
  end.

Fixpoint size_elems (l : list json) : nat :=
  match l with [] => 0 | x :: r => S (size x + size_elems r) end.

Fixpoint size_members (o : list (jsstring * json)) : nat :=
  match o with [] => 0 | kv :: r => S (size (snd kv) + size_members r) end.

Fixpoint all_serializable (l : list json) : Prop :=
  match l with [] => True | x :: r => serializable x /\ all_serializable r end.

Fixpoint members_serializable (o : list (jsstring * json)) : Prop :=
  match o with [] => True | kv :: r => serializable (snd kv) /\ members_serializable r end.

(** A number begins with a digit or a minus sign. *)
Definition starts_number (s : jsstring) : bool :=
  match s with
  | c :: _ => is_digit c || N.eqb c 45
  | [] => false
  end.

End JsonTerms.

Section CodecSamples.
Import TaskRunner.

Definition sample_description : option jsstring :=
  Some (str "add OAuth" ++ [LF; LF] ++ str "---agent-meta---" ++ [LF] ++ str "{}").

Definition sample_meta : json :=
  JObj [(str "agent", JStr (str "claude")); (str "status", JStr (str "running"));
        (str "attempts", JInt 1); (str "startedAt", JStr (str "2026-01-01T00:00:00.000Z"));
        (str "resultPath", JNull); (str "lastError", JNull)].

(** A description without meta that begins with a space, and a meta
    whose last error quotes the sentinel. *)
Definition spaced_description : option jsstring := Some (str " a").

Definition quoting_meta : json :=
  JObj [(str "status", JStr (str "failed"));
        (str "lastError", JStr (str "Exit 1: ---agent-meta---"))].

End CodecSamples.

Section ClientTerms.

(** The world after one more request. *)
Definition sent (w : world) (rqs : list request) : world :=
  mkWorld (log w ++ map EFetch rqs) (clock w) (activeAgents w) (completedCount w).

(** What the world answers to the next request. *)
Definition answer (E : env) (w : world) (rq : request) : response :=
  net E (length (requests w)) rq.

(** A response as the clients read it: its JSON body when the status
    is a success. *)
Definition read_json (failure : N -> jsstring) (resp : response) : outcome json :=
  match resp with
  | NetworkError msg => Throw (Error msg)
  | Response st tx =>
    if ok st then match JSON_parse tx with
                  | Some v => Ret v
                  | None => Throw (Error SYNTAX_ERROR)
                  end
    else Throw (Error (failure st))
  end.

Definition has_authorization (rq : request) : bool :=
  match header_get (headers rq) (str "Authorization") with
  | Some _ => true
  | None => false
  end.

End ClientTerms.

Section TaskRunnerRequests.
Import TaskRunner.
Variable E : env.
Variables KANBAN_API KANBAN_TOKEN : jsstring.

Definition runner_request (meth : option jsstring) (urlPath : jsstring)
  (data : option json) : request :=
  mkRequest (KANBAN_API ++ urlPath) meth (auth_headers KANBAN_TOKEN)
            (option_map stringify data).

End TaskRunnerRequests.

Section SpecServerRequests.
Import SpecServer.
Variable E : env.
Variables KANBAN_API KANBAN_TOKEN : jsstring.

(** The headers of the first attempt of [kanbanFetch]. *)
Definition first_headers (options : fetch_options) : list (jsstring * jsstring) :=
  let headers :=
    fold_left (fun h kv => header_set h (fst kv) (snd kv))
              (opt_headers options) [CONTENT_TYPE] in
  if nonempty KANBAN_TOKEN
  then header_set headers (str "Authorization") (str "Bearer " ++ KANBAN_TOKEN)
  else headers.

Definition first_request (path : jsstring) (options : fetch_options) : request :=
  mkRequest (KANBAN_API ++ path) (opt_method options) (first_headers options)
            (opt_body options).

Definition retry_request (path : jsstring) (options : fetch_options) : request :=
  mkRequest (KANBAN_API ++ path) (opt_method options) [CONTENT_TYPE] (opt_body options).

End SpecServerRequests.

Section ProviderTerms.
Import SpecServer.
Variable E : env.
Variables GEMINI_KEY OPENROUTER_KEY : jsstring.

(** The request to the primary provider. *)
Definition primary_request (prompt : jsstring) : request :=
  mkRequest (GEMINI_URL ++ GEMINI_KEY) (Some (str "POST")) [CONTENT_TYPE]
    (Some (stringify
       (JObj [(str "contents",
               JArr [JObj [(str "parts", JArr [JObj [(str "text", JStr prompt)]])]]);
              (str "generationConfig",
               JObj [(str "temperature", JNum 7 1);
                     (str "maxOutputTokens", JInt 8192)])]))).

(** The request to the fallback provider. *)
Definition fallback_request (prompt : jsstring) : request :=
  mkRequest OPENROUTER_URL (Some (str "POST"))
    [CONTENT_TYPE; (str "Authorization", str "Bearer " ++ OPENROUTER_KEY)]
    (Some (stringify
       (JObj [(str "model", JStr (str "qwen/qwen3-235b-a22b"));
              (str "messages",
               JArr [JObj [(str "role", JStr (str "user"));
                           (str "content", JStr prompt)]]);
              (str "temperature", JNum 7 1);
              (str "max_tokens", JInt 8192)]))).

(** The value at the end of a path of property names and indices,
    [None] where the path leaves the document or runs into [null]. *)
Fixpoint at_path (v : json) (path : list jsstring) : option json :=
  match path with
  | [] => Some v
  | k :: r =>
    match v with
    | JNull => None
    | _ => match get v k with
           | Some x => at_path x r
           | None => None
           end
    end
  end.

(** The text a reply holds at a place: the value found there when
    there is one that is not empty (nor otherwise falsy), the empty
    string if not. *)
Definition generated (data : json) (path : list jsstring) : json :=
  match at_path data path with
  | Some t => if truthy t then t else JStr []
  | None => JStr []
  end.

(** Where the two providers keep the text they generated. *)
Definition PRIMARY_PATH : list jsstring :=
  [str "candidates"; str "0"; str "content"; str "parts"; str "0"; str "text"].

Definition FALLBACK_PATH : list jsstring :=
  [str "choices"; str "0"; str "message"; str "content"].

Definition primary_text (data : json) : json := generated data PRIMARY_PATH.

Definition fallback_text (data : json) : json := generated data FALLBACK_PATH.

(** What the answer of the primary provider amounts to: a rejected
    request, the status 429 and any other status outside 2xx are
    failures, and so is a body that is not a JSON document or is
    [null]. *)
Definition primary_outcome (resp : response) : outcome llm_result :=
  match resp with
  | NetworkError msg => Throw (Error msg)
  | Response st body =>
    if N.eqb st 429 then Throw (mkError (str "Gemini rate limited") true)
    else if negb (ok st)
    then Throw (Error (str "Gemini API " ++ digits_of st ++ str ": " ++ slice_to 200 body))
    else match JSON_parse body with
         | None => Throw (Error SYNTAX_ERROR)
         | Some JNull => Throw (Error NULL_READ)
         | Some data =>
           Ret (mkResult (primary_text data) (get data (str "usageMetadata")) GEMINI_ID)
         end
  end.

Definition fallback_outcome (resp : response) : outcome llm_result :=
  match resp with
  | NetworkError msg => Throw (Error msg)
  | Response st body =>
    if negb (ok st)
    then Throw (Error (str "OpenRouter API " ++ digits_of st ++ str ": "
                       ++ slice_to 200 body))
    else match JSON_parse body with
         | None => Throw (Error SYNTAX_ERROR)
         | Some JNull => Throw (Error NULL_READ)
         | Some data =>
           Ret (mkResult (fallback_text data) (get data (str "usage")) OPENROUTER_ID)
         end
  end.

(** The fallback, called in world [w]. *)
Definition fallback_run (prompt : jsstring) (w : world) : outcome llm_result * world :=
  if nonempty OPENROUTER_KEY
  then (fallback_outcome (answer E w (fallback_request prompt)),
        sent w [fallback_request prompt])
  else (Throw (Error (str "OPENROUTER_API_KEY not set")), w).

End ProviderTerms.

(** An ASCII literal in which an apostrophe stands for a double quote. *)
Definition lit (s : string) : jsstring :=
  map (fun c => if N.eqb c 39 then QUOTE else c) (str s).

Section ExtractorSamples.
Import SpecServer.

(** The input of scenario 4: a fenced JSON object. *)
Definition scenario4 : jsstring :=
  str "```json" ++ [LF] ++ lit "{'spec':'# X','tasks':[{'title':'T','details':'D'}]}"
  ++ [LF] ++ str "```".

Definition scenario4_result : json :=
  JObj [(str "spec", JStr (str "# X"));
        (str "tasks", JArr [JObj [(str "title", JStr (str "T"));
                                  (str "details", JStr (str "D"))]])].

End ExtractorSamples.

Section BoardTerms.
Import BoardApi.

(** The backlog a stored board holds; the empty list if it has none. *)
Definition stored_backlog (current : json) : json :=
  match get current (str "backlog") with
  | Some b => b
  | None => JArr []
  end.

(** The backlog of a board document is a list. *)
Definition backlog_is_list (current : json) : Prop :=
  match get current (str "backlog") with
  | Some (JArr _) | None => True
  | Some _ => False
  end.

Definition sample_request : Req :=
  mkReq (str "POST") (Some (str "Bearer secret"))
        (Some (JObj [(str "columns", JArr []); (str "initiatives", JArr []);
                     (str "backlog", JArr [JObj [(str "id", JStr (str "forged"))]])])).

Definition sample_store : option jsstring :=
  Some (lit "{'columns':[],'backlog':[{'id':'proj-1'}]}").

End BoardTerms.

Section SupervisorTerms.
Import TaskRunner.

(** What the supervisor captured of the standard output. *)
Definition captured_stdout (evs : list proc_event) : jsstring :=
  fst (fst (supervise evs [] [] false)).

Definition captured_stderr (evs : list proc_event) : jsstring :=
  snd (fst (supervise evs [] [] false)).

Definition units (s : jsstring) : N := N.of_nat (length s).

(** The standard output alone: the chunks, in order. *)
Fixpoint capture (captured : jsstring) (chunks : list jsstring) : jsstring :=
  match chunks with
  | [] => captured
  | c :: r => capture (on_data captured c) r
  end.

(** A chunk of [n] code units, as a pipe delivers them. *)
Definition chunk (n : N) : jsstring := repeat 97%N (N.to_nat n).

End SupervisorTerms.

Section RetrySamples.

Definition API : jsstring := str "https://board.example".

Definition TOKEN : jsstring := str "stale-token".

(** A board store that refuses the token and serves anonymous
    clients. *)
Definition tolerant_store : env :=
  mkEnv (fun _ rq => if has_authorization rq
                     then Response 401 (str "{}") else Response 200 (str "{}"))
        (fun _ => 0%Z) 1000 (mkRun [] (Close (Some 0%Z))) None
        (fun _ => None).

End RetrySamples.

Section CanonicalObjects.

(** The object the successive assignments of [l] build from [acc]. *)
Definition build (acc l : obj) : obj :=
  fold_left (fun a kv => obj_set a (fst kv) (snd kv)) l acc.

End CanonicalObjects.

Section DispatchTerms.
Local Open Scope eff_scope.
Import TaskRunner.
Variable E : env.
Variables KANBAN_API KANBAN_TOKEN : jsstring.
Variable agentsConfig : list Agent.
Variable colIds : ColIds.
Variables WORKSPACES_DIR RESULTS_DIR : jsstring.
Variable path_join : jsstring -> jsstring -> jsstring.
Variable toISOString : Z -> jsstring.

(** The processes a run has spawned. *)
Definition spawns (w : world) : list event :=
  filter (fun e => match e with ESpawn _ _ _ => true | _ => false end) (log w).

(** The machine refuses no call to the file system or to [spawn]. *)
Definition no_fault : Prop := forall n, fault E n = None.

(** An answer the helpers of the runner return from: a status in 2xx
    with a JSON body.  On any other answer they throw. *)
Definition accepted (resp : response) : bool :=
  match resp with
  | NetworkError _ => false
  | Response st tx =>
    ok st && match JSON_parse tx with Some _ => true | None => false end
  end.

(** A step that returns, sends no request, spawns no process and
    leaves the counter of completed tasks and the table of active
    agents as they are. *)
Definition quiet {A : Type} (m : M A) (w : world) (a : A) : Prop :=
  exists w', m w = (Ret a, w')
             /\ requests w' = requests w /\ spawns w' = spawns w
             /\ completedCount w' = completedCount w
             /\ activeAgents w' = activeAgents w.

(** Whether the run of the agent ends in a success: the agent is
    known and enabled, its process exits with code 0 and the deadline
    did not fire. *)
Definition agent_succeeds (agent : json) : bool :=
  match find (is_agent agent) agentsConfig with
  | Some a =>
    enabled a &&
    match ending (child E) with
    | Close (Some 0%Z) => negb (snd (supervise (events (child E)) [] [] false))
    | _ => false
    end
  | None => false
  end.

(** The agent named is not in the registry, or is disabled there. *)
Definition unavailable (agent : json) : bool :=
  match find (is_agent agent) agentsConfig with
  | Some a => negb (enabled a)
  | None => true
  end.

(** The entry of the agent, when it has one that is enabled, holds an
    argument template. *)
Definition templated (agent : json) : bool :=
  match find (is_agent agent) agentsConfig with
  | Some a => negb (enabled a) || match args a with Some _ => true | None => false end
  | None => true
  end.

(** What [spawnAgent] resolves with for an agent that is unavailable. *)
Definition refusal (agent : json) : AgentResult :=
  mkAgentResult false []
    (match find (is_agent agent) agentsConfig with
     | Some a => str "Agent " ++ js_to_string agent ++ str " is disabled: "
                 ++ match or_str (note a) None with
                    | Some n => n
                    | None => str "no reason given"
                    end
     | None => str "Unknown agent: " ++ js_to_string agent
               ++ str " (not found in agents.json)"
     end)
    (Some 1%Z) 0 None.

Definition put_request (urlPath : jsstring) (data : json) : request :=
  runner_request KANBAN_API KANBAN_TOKEN (Some (str "PUT")) urlPath (Some data).

(** The request that writes a description, and the one that moves a
    task. *)
Definition update_request (taskId description : jsstring) : request :=
  put_request (str "/api/tasks/" ++ taskId)
              (JObj [(str "description", JStr description)]).

Definition move_request (taskId : jsstring) (column : json) : request :=
  put_request (str "/api/tasks/" ++ taskId ++ str "/move")
              (JObj [(str "targetColumnId", column)]).

(** The description the runner writes for a task: the description
    without its meta block, the separator with the sentinel, and the
    JSON text of the meta. *)
Definition embedded (task : Task) (meta : json) : jsstring :=
  getCleanDescription (task_description task) ++ [LF; LF] ++ str "---agent-meta---"
  ++ [LF] ++ stringify meta.

(** The meta of a failed run before the retry decision. *)
Definition failed_meta (meta : json) (result : AgentResult)
  (summary resultPath : jsstring) : json :=
  let errorMsg := error_message result in
  set (set (set (set meta (str "status") (JStr (str "failed")))
                (str "resultPath") (JStr resultPath))
           (str "lastError") (JStr errorMsg))
      (str "resultSummary")
      (JStr (slice_to 2000 (if nonempty summary then summary else errorMsg))).

(** The status and the column a failed run ends in, by the attempts
    made. *)
Definition retry_status (n : Z) : jsstring :=
  if (n <? MAX_ATTEMPTS)%Z then str "queued" else str "failed".

Definition retry_column (n : Z) : json :=
  if (n <? MAX_ATTEMPTS)%Z then queue colIds else review colIds.

Definition settled_meta (meta : json) (result : AgentResult)
  (summary resultPath : jsstring) (n : Z) : json :=
  if (n <? MAX_ATTEMPTS)%Z
  then set (failed_meta meta result summary resultPath) (str "status") (JStr (str "queued"))
  else failed_meta meta result summary resultPath.

(** The meta of a successful run. *)
Definition review_meta (meta : json) (summary resultPath : jsstring) : json :=
  set (set (set (set meta (str "status") (JStr (str "review")))
                (str "resultPath") (JStr resultPath))
           (str "lastError") JNull)
      (str "resultSummary") (JStr (slice_to 2000 summary)).

(** The memory an agent asks for. *)
Definition required_mb (agent : json) : Z :=
  match find (is_agent agent) agentsConfig with
  | Some a => match ramMB a with
              | Some r => if Z.eqb r 0 then MIN_FREE_MB else r
              | None => MIN_FREE_MB
              end
  | None => MIN_FREE_MB
  end.

(** The attempts counter once the dispatch has incremented it. *)
Definition attempts_after_dispatch (task : Task) : option json :=
  get (running_meta task (routeToAgent agentsConfig task) []) (str "attempts").

End DispatchTerms.

Section RoutingTerms.
Import TaskRunner.

(** The score of the claim: the keywords that occur in the text, case
    ignored on both sides. *)
Definition score_insensitive (text : jsstring) (a : Agent) : nat :=
  length (filter (fun kw => includes (toLowerCase text) (toLowerCase kw))
                 (keyword_list a)).

(** The first of the highest-scoring agents. *)
Fixpoint best (score : Agent -> nat) (l : list Agent) : option Agent :=
  match l with
  | [] => None
  | a :: r =>
    match best score r with
    | Some b => if (score a <? score b)%nat then Some b else Some a
    | None => Some a
    end
  end.

(** The router as the claim words it. *)
Definition routeToAgent_claim (agentsConfig : list Agent) (task : Task) : json :=
  let meta := parseAgentMeta (task_description task) in
  if truthy meta && truthy_opt (get meta (str "agent"))
  then match get meta (str "agent") with Some a => a | None => JNull end
  else
    let text := (match title task with Some t => t | None => [] end)
                ++ str " " ++ getCleanDescription (task_description task) in
    let candidates := filter enabled agentsConfig in
    let fallback :=
      match find (fun a => enabled a && default a) agentsConfig with
      | Some d => JStr (agent_id d)
      | None => match find enabled agentsConfig with
                | Some a => JStr (agent_id a)
                | None => JStr (str "gemini")
                end
      end in
    match best (score_insensitive text) candidates with
    | Some b => if (0 <? score_insensitive text b)%nat then JStr (agent_id b) else fallback
    | None => fallback
    end.

(** The first of the highest-scoring entries. *)
Fixpoint best_entry (l : list (jsstring * nat)) : option (jsstring * nat) :=
  match l with
  | [] => None
  | x :: r =>
    match best_entry r with
    | Some y => if (snd x <? snd y)%nat then Some y else Some x
    | None => Some x
    end
  end.

(** A text in Latin-1, the range on which [toLowerCase] is the
    mapping of the language. *)
Definition latin1 (s : jsstring) : Prop := Forall (fun c => (c < 256)%N) s.

Definition latin1_opt (s : option jsstring) : Prop :=
  match s with Some t => latin1 t | None => True end.

(** A task whose title and descriptions are in Latin-1. *)
Definition plain_task (task : Task) : Prop :=
  latin1_opt (title task) /\ latin1_opt (description task) /\ latin1_opt (desc task).

(** The registries on which the router of the code is the router of the
    claim: keywords in Latin-1 and in lower case, ids distinct, none of
    them an array index or [__proto__]. *)
Definition well_keyed (agentsConfig : list Agent) : Prop :=
  (forall a kw, In a agentsConfig -> In kw (keyword_list a) ->
                latin1 kw /\ toLowerCase kw = kw)
  /\ NoDup (map agent_id agentsConfig)
  /\ (forall a, In a agentsConfig ->
                array_index (agent_id a) = None /\ agent_id a <> str "__proto__").

Definition claude : Agent :=
  mkAgent (str "claude") (str "claude") (Some [str "-p"; str "{prompt}"])
          (Some [str "API"]) (Some 450%Z) false true None.

Definition gemini : Agent :=
  mkAgent (str "gemini") (str "gemini") (Some [str "-p"; str "{prompt}"])
          (Some [str "docs"]) (Some 400%Z) true true None.

Definition api_task : Task :=
  mkTask (str "task-a") (Some (str "Build API docs")) (Some (str "for the board"))
         None (Some 1%Z).

Definition lowercase_registry : list Agent :=
  [mkAgent (str "claude") (str "claude") (Some [str "-p"; str "{prompt}"])
           (Some [str "implement"; str "fix"]) (Some 450%Z) false true None;
   mkAgent (str "gemini") (str "gemini") (Some [str "-p"; str "{prompt}"])
           (Some [str "docs"]) (Some 400%Z) true true None].

End RoutingTerms.

(** The attempts a meta block records before a dispatch: a block
    without the entry, or with [null], [false], the empty text or zero
    in it, has had none; one with an integer has had that many.  Any
    other entry is no count of attempts. *)
Definition prior_attempts (meta : json) : option Z :=
  match get meta (str "attempts") with
  | None => Some 0%Z
  | Some JNull => Some 0%Z
  | Some (JBool false) => Some 0%Z
  | Some (JStr []) => Some 0%Z
  | Some (JNum n 0) => Some n
  | Some _ => None
  end.

Section DispatchSamples.
Local Open Scope eff_scope.
Import TaskRunner.

(** A board that accepts every request, an agent that exits with code
    1 after a line on its standard error, no [RESULT.md], a machine
    that refuses nothing. *)
Definition failing_world : env :=
  mkEnv (fun _ _ => Response 200 (str "{}")) (fun n => Z.of_nat n) 1000
        (mkRun [Stderr (str "boom")] (Close (Some 1%Z))) None (fun _ => None).

(** The same run against a board that answers 500 to the third
    request it gets. *)
Definition refusing_board : env :=
  mkEnv (fun n _ => if Nat.eqb n 2 then Response 500 (str "{}")
                    else Response 200 (str "{}"))
        (fun n => Z.of_nat n) 1000
        (mkRun [Stderr (str "boom")] (Close (Some 1%Z))) None (fun _ => None).

(** The same run on a machine that refuses the first file call. *)
Definition full_disk : env :=
  mkEnv (fun _ _ => Response 200 (str "{}")) (fun n => Z.of_nat n) 1000
        (mkRun [Stderr (str "boom")] (Close (Some 1%Z))) None
        (fun n => if Nat.eqb n 0 then Some (str "ENOSPC") else None).

Definition registry : list Agent :=
  [mkAgent (str "claude") (str "claude") (Some [str "-p"; str "{prompt}"])
           (Some [str "implement"]) (Some 450%Z) false true None].

(** A registry whose entry has no argument template. *)
Definition bare_registry : list Agent :=
  [mkAgent (str "claude") (str "claude") None
           (Some [str "implement"]) (Some 450%Z) false true None].

Definition columns : ColIds :=
  mkColIds (JStr (str "col-queue")) (JStr (str "col-wip")) (JStr (str "col-review")).

Definition slash (a b : jsstring) : jsstring := a ++ str "/" ++ b.

Definition epoch (t : Z) : jsstring := str "1970-01-01T00:00:00.000Z".

Definition task_a : Task :=
  mkTask (str "task-a") (Some (str "implement login")) (Some (str "add OAuth"))
         None (Some 1%Z).

(** Board data without columns, and board data with a column that is
    [null]. *)
Definition no_columns : json := JObj [].

Definition null_column : json := JObj [(str "columns", JArr [JNull])].

(** A task whose meta names an agent the registry does not hold and
    records no attempts. *)
Definition task_ghost : Task :=
  mkTask (str "task-b") (Some (str "implement login"))
         (Some (str "add OAuth" ++ [LF; LF] ++ str "---agent-meta---" ++ [LF]
                ++ lit "{'agent':'ghost'}"))
         None None.

End DispatchSamples.

Section SupervisorTerms.
Import TaskRunner.

(** The chunks a run wrote to each stream, and whether its deadline
    fired. *)
Definition stdout_chunks (evs : list proc_event) : list jsstring :=
  flat_map (fun e => match e with Stdout c => [c] | _ => [] end) evs.

Definition stderr_chunks (evs : list proc_event) : list jsstring :=
  flat_map (fun e => match e with Stderr c => [c] | _ => [] end) evs.

Definition deadline_fired (evs : list proc_event) : bool :=
  existsb (fun e => match e with Deadline => true | _ => false end) evs.

Definition short_run : list proc_event :=
  [Stdout (str "building"); Stderr (str "warning: x"); Stdout (str " done"); Deadline].

End SupervisorTerms.

Section SpawnTerms.
Import TaskRunner.
Local Open Scope eff_scope.

(** The argument vector [spawnAgent] builds from the template of an
    agent. *)
Definition argv (template : list jsstring) (prompt timestamp : jsstring) :
  list jsstring :=
  map (fun x => replaceAll_subst (replaceAll_subst x (str "{prompt}") prompt)
                                 (str "{timestamp}") timestamp)
      template.

Variable E : env.
Variable agentsConfig : list Agent.

End SpawnTerms.

Section RoutingTerms.
Import TaskRunner.

(** Whether the meta embedded in a task names an agent. *)
Definition names_agent (task : Task) : bool :=
  truthy (parseAgentMeta (task_description task))
  && truthy_opt (get (parseAgentMeta (task_description task)) (str "agent")).

End RoutingTerms.

Section EffectBounds.
Local Open Scope eff_scope.

(** A program that never ends in a thrown error. *)
Definition never_throws {A : Type} (m : M A) : Prop :=
  forall w e, fst (m w) <> Throw e.

(** A program that sends at most [n] requests, each of them a [P],
    however it ends. *)
Definition sends {A : Type} (P : request -> Prop) (n : nat) (m : M A) : Prop :=
  forall w, exists rqs,
    requests (snd (m w)) = requests w ++ rqs /\ length rqs <= n /\ Forall P rqs.

End EffectBounds.

Section DispatchBounds.
Import TaskRunner.
Local Open Scope eff_scope.
Variable E : env.
Variables KANBAN_API KANBAN_TOKEN : jsstring.
Variable agentsConfig : list Agent.
Variable colIds : ColIds.
Variables WORKSPACES_DIR RESULTS_DIR : jsstring.
Variable path_join : jsstring -> jsstring -> jsstring.
Variable toISOString : Z -> jsstring.

(** The requests of a dispatch: the write of a description to the
    address built from the id of the task, and the request to move to
    one of the three workflow columns, sent to the move address built
    from that id. *)
Definition dispatch_request (taskId : jsstring) (rq : request) : Prop :=
  (exists description, rq = update_request KANBAN_API KANBAN_TOKEN taskId description)
  \/ (exists column, In column [queue colIds; wip colIds; review colIds]
                     /\ rq = move_request KANBAN_API KANBAN_TOKEN taskId column).

(** A program that sends no request, however it ends. *)
Definition silent {A : Type} (m : M A) : Prop :=
  forall w, requests (snd (m w)) = requests w.

End DispatchBounds.

Section DispatchSuccess.
Import TaskRunner.
Local Open Scope eff_scope.
Variable E : env.
Variables KANBAN_API KANBAN_TOKEN : jsstring.
Variable agentsConfig : list Agent.
Variable colIds : ColIds.
Variables WORKSPACES_DIR RESULTS_DIR : jsstring.
Variable path_join : jsstring -> jsstring -> jsstring.
Variable toISOString : Z -> jsstring.

(** The meta embedded in the task, if any, is a record. *)
Definition meta_is_record (task : Task) : Prop :=
  match parseAgentMeta (task_description task) with
  | JNull | JObj _ => True
  | _ => False
  end.

End DispatchSuccess.

Section DispatchSuccessWitness.
Import TaskRunner.

(** A board that accepts every request, an agent that exits with code
    0 after a line on its standard output, a machine that refuses
    nothing. *)
Definition succeeding_world : env :=
  mkEnv (fun _ _ => Response 200 (str "{}")) (fun n => Z.of_nat n) 1000
        (mkRun [Stdout (str "done")] (Close (Some 0%Z))) None (fun _ => None).

End DispatchSuccessWitness.

Section AuthTerms.
Import BoardApi.

(** The value under the board key after a run of a handler. *)
Definition stored_after (h : handled) : option jsstring :=
  match h with
  | Replied _ _ s => s
  | Crashed s => s
  end.

End AuthTerms.

Section LineTerms.

(** The line feeds of a text. *)
Definition line_breaks (s : jsstring) : nat := length (filter (N.eqb LF) s).

End LineTerms.

Section CollectorTerms.
Import TaskRunner.
Local Open Scope eff_scope.
Variable E : env.
Variable RESULTS_DIR : jsstring.
Variable path_join : jsstring -> jsstring -> jsstring.
Variable toISOString : Z -> jsstring.

(** The files a run wrote or copied, oldest first. *)
Definition files_written (w : world) : list jsstring :=
  flat_map (fun e => match e with
                     | EWriteFile p _ => [p]
                     | ECopyFile _ p => [p]
                     | _ => []
                     end) (log w).

End CollectorTerms.

Section ColumnTerms.
Import TaskRunner Startup.
Variable E : env.
Variables KANBAN_API KANBAN_TOKEN : jsstring.
Variable draw : Key -> Z.

(** The first column with a title, read in lower case: [None] is the
    [TypeError] of a column without title met on the way, [Some None]
    means there is no such column. *)
Fixpoint find_title (t : jsstring) (columns : list json) : option (option json) :=
  match columns with
  | [] => Some None
  | c :: r =>
    match lower_title c with
    | None => None
    | Some t' => if jsstring_eqb t' t then Some (Some c) else find_title t r
    end
  end.

(** [l'] is [l] with columns that satisfy [P] put in: the columns of
    [l] are all there, in their order. *)
Inductive adds (P : json -> Prop) : list json -> list json -> Prop :=
| adds_same (l : list json) : adds P l l
| adds_keep (x : json) (l l' : list json) : adds P l l' -> adds P (x :: l) (x :: l')
| adds_new (x : json) (l l' : list json) : P x -> adds P l l' -> adds P l (x :: l').

(** A column the start-up creates: a fresh record with one of the
    three titles and no task. *)
Definition created (c : json) : Prop :=
  exists (n : Z) (title : jsstring),
    c = JObj [(str "id", JInt n); (str "title", JStr title); (str "tasks", JArr [])]
    /\ In title [str "Queue"; str "Agent WIP"; str "Review"].

(** The cached id of a key. *)
Definition colIds_get (colIds : ColIds) (key : Key) : json :=
  match key with
  | queue_key => queue colIds
  | wip_key => wip colIds
  | review_key => review colIds
  end.

(** The title of a needed column, in lower case. *)
Definition needed_title (key : Key) : jsstring :=
  match key with
  | queue_key => str "queue"
  | wip_key => str "agent wip"
  | review_key => str "review"
  end.

(** [board.columns || []], when it is an array. *)
Definition board_columns (board : json) : option (list json) :=
  match match get board (str "columns") with
        | Some c => if truthy c then c else JArr []
        | None => JArr []
        end with
  | JArr l => Some l
  | _ => None
  end.

(** The two requests of the start-up. *)
Definition board_get : request :=
  runner_request KANBAN_API KANBAN_TOKEN None (str "/api/board") None.

Definition board_post (board : json) : request :=
  runner_request KANBAN_API KANBAN_TOKEN (Some (str "POST")) (str "/api/board")
                 (Some board).

(** The board the store answers the first request with. *)
Definition fetched (w : world) (board : json) : Prop :=
  read_json (fun st => str "Kanban GET /api/board: " ++ digits_of st)
            (answer E w board_get) = Ret board.

End ColumnTerms.

Section ColumnSamples.
Import TaskRunner Startup.

(** A store that serves a board and accepts what is posted. *)
Definition serving (board : jsstring) : env :=
  mkEnv (fun _ rq => match method rq with
                     | Some _ => Response 200 (str "{}")
                     | None => Response 200 board
                     end)
        (fun n => Z.of_nat n) 1000 (mkRun [] (Close (Some 0%Z))) None
        (fun _ => None).

Definition bare_board : jsstring := lit "{'columns':[{'id':'d','title':'Done','tasks':[]}]}".

Definition complete_board : jsstring :=
  lit "{'columns':[{'id':'q','title':'Queue'},{'id':'w','title':'agent wip'},{'id':'r','title':'REVIEW'}]}".

Definition no_ids : ColIds := mkColIds JNull JNull JNull.

End ColumnSamples.

Section BoardListTerms.
Import BoardApi Crud.

(** The tasks of a column, and those of a list of columns. *)
Definition tasks_in (col : json) : list json :=
  match get col (str "tasks") with
  | Some (JArr ts) => ts
  | _ => []
  end.

Definition all_tasks (columns : list json) : list json := flat_map tasks_in columns.

End BoardListTerms.

Section TaskStoreTerms.
Import BoardApi Crud.

(** The fields [PUT /api/tasks/:id] writes. *)
Definition editable (k : jsstring) : bool :=
  jsstring_eqb k (str "title") || jsstring_eqb k (str "description")
  || jsstring_eqb k (str "color").

End TaskStoreTerms.

Section TaskHandlerTerms.
Import BoardApi Crud.

(** What a run leaves under the board key. *)
Definition stored_by (before : option jsstring) (r : result) : option jsstring :=
  match r with
  | Reply _ _ s => s
  | Crash s => s
  | Unmodelled => before
  end.

End TaskHandlerTerms.

Section TaskHandlerSamples.
Import BoardApi Crud.

(** A board of two columns with one task, and its text. *)
Definition first_task : json :=
  JObj [(str "id", JStr (str "t1")); (str "title", JStr (str "x"))].

Definition two_columns : list json :=
  [JObj [(str "id", JStr (str "a")); (str "title", JStr (str "To Do"));
         (str "tasks", JArr [first_task])];
   JObj [(str "id", JStr (str "b")); (str "title", JStr (str "Done"));
         (str "tasks", JArr [])]].

Definition two_columns_board : json := JObj [(str "columns", JArr two_columns)].

Definition two_columns_text : option jsstring :=
  Some (lit "{'columns':[{'id':'a','title':'To Do','tasks':[{'id':'t1','title':'x'}]},{'id':'b','title':'Done','tasks':[]}]}").

Definition move_call : Req :=
  mkReq (str "PUT") None (Some (JObj [(str "targetColumnId", JStr (str "b"))])).

Definition create_call : Req :=
  mkReq (str "POST") None (Some (JObj [(str "columnId", JStr (str "b"))])).

Definition update_call : Req :=
  mkReq (str "PUT") None (Some (JObj [(str "desc", JStr (str "y"))])).

Definition delete_call : Req := mkReq (str "DELETE") None None.

Definition noon : jsstring := str "2026-01-01T12:00:00.000Z".

Definition drawn : jsstring := str "0a1b2c3d".

End TaskHandlerSamples.

Section BacklogTerms.
Import BoardApi Crud Backlog.

(** The projects of a board. *)
Definition backlog_of (board : json) : list json :=
  match get board (str "backlog") with
  | Some (JArr l) => l
  | _ => []
  end.

(** What is stored is a board with the backlog [backlog'] and the
    other fields of [board]. *)
Definition writes_backlog (board : json) (stored' : option jsstring)
  (backlog' : list json) : Prop :=
  exists board',
    stored' = redisSet board'
    /\ get board' (str "backlog") = Some (JArr backlog')
    /\ forall k, k <> str "backlog" -> get board' k = get board k.

(** [p.id === projectId] *)
Definition has_id (projectId : jsstring) (p : json) : Prop :=
  get p (str "id") = Some (JStr projectId).

(** The first project with an id. *)
Definition first_with_id (projectId : jsstring) (l : list json) (idx : nat) (p : json) :
  Prop :=
  nth_error l idx = Some p /\ has_id projectId p
  /\ forall j q, j < idx -> nth_error l j = Some q -> ~ has_id projectId q.

(** The board after [if (!board.backlog) board.backlog = []]. *)
Definition entered (board : json) : json :=
  if truthy_opt (get board (str "backlog")) then board
  else set board (str "backlog") (JArr []).

End BacklogTerms.

Section BacklogSamples.
Import BoardApi Crud Backlog.

(** A board with one project, and its text. *)
Definition first_project : json :=
  JObj [(str "id", JStr (str "p1")); (str "title", JStr (str "A"));
        (str "createdAt", JStr (str "2025-06-01T08:00:00.000Z"))].

Definition one_project_board : json :=
  JObj [(str "columns", JArr []); (str "backlog", JArr [first_project])].

Definition one_project_text : option jsstring :=
  Some (lit "{'columns':[],'backlog':[{'id':'p1','title':'A','createdAt':'2025-06-01T08:00:00.000Z'}]}").

Definition titled : json := JObj [(str "title", JStr (str "B"))].

Definition post_project : Req := mkReq (str "POST") None (Some titled).

Definition put_project : Req :=
  mkReq (str "PUT") None (Some (JObj [(str "specStatus", JStr (str "ready"))])).

Definition delete_project : Req := mkReq (str "DELETE") None None.

End BacklogSamples.

Section StatsTerms.
Import BoardApi Crud Stats.

(** The number of tasks a column is counted with, and the text of its
    title. *)
Definition tasks_count (col : json) : nat :=
  match get col (str "tasks") with
  | Some (JArr l) => length l
  | Some (JStr s) => length s
  | _ => 0
  end.

Definition title_text (col : json) : jsstring :=
  js_to_string_opt (get col (str "title")).

(** The last column with a title. *)
Fixpoint last_titled (t : jsstring) (columns : list json) : option json :=
  match columns with
  | [] => None
  | col :: r =>
    match last_titled t r with
    | Some c => Some c
    | None => if jsstring_eqb (title_text col) t then Some col else None
    end
  end.

Definition counted (col : json) : json := JInt (Z.of_nat (tasks_count col)).

End StatsTerms.

(** * Lemmas and theorems *)

(** Two property names are told apart by evaluation. *)
Ltac keys_differ := let H := fresh in intros H; vm_compute in H; discriminate H.

Section StringFacts.

Lemma jsstring_eqb_eq (a b : jsstring) : jsstring_eqb a b = true <-> a = b.
Proof.
  revert b; induction a as [|x a IH]; intros [|y b]; simpl; split; try congruence;
    try discriminate.
  - intros H; apply andb_true_iff in H as [H1 H2].
    apply N.eqb_eq in H1; apply IH in H2; congruence.
  - intros [= -> ->]. rewrite N.eqb_refl. now apply IH.
Qed.

Lemma jsstring_eqb_refl (a : jsstring) : jsstring_eqb a a = true.
Proof. now apply jsstring_eqb_eq. Qed.

Lemma jsstring_eqb_neq (a b : jsstring) : jsstring_eqb a b = false <-> a <> b.
Proof.
  split.
  - intros H E. apply jsstring_eqb_eq in E. congruence.
  - intros H. destruct (jsstring_eqb a b) eqn:E; [|reflexivity].
    apply jsstring_eqb_eq in E. contradiction.
Qed.

Lemma startsWith_app (p r : jsstring) : startsWith p (p ++ r) = true.
Proof.
  induction p as [|x p IH]; simpl; [reflexivity|].
  now rewrite N.eqb_refl.
Qed.

Lemma startsWith_inv (p s : jsstring) :
  startsWith p s = true -> exists r, s = p ++ r.
Proof.
  revert s; induction p as [|x p IH]; intros s H.
  - now exists s.
  - destruct s as [|y s]; [discriminate|]. simpl in H.
    apply andb_true_iff in H as [H1 H2]. apply N.eqb_eq in H1; subst y.
    destruct (IH _ H2) as [r ->]. now exists r.
Qed.

(** A pattern that begins in [u] and ends beyond it reads the code unit
    that follows [u]. *)
Lemma startsWith_cut (p u v : jsstring) (c : N) :
  ~ In c p -> startsWith p (u ++ c :: v) = true -> startsWith p u = true.
Proof.
  revert u; induction p as [|x p IH]; intros u Hc H; [reflexivity|].
  destruct u as [|y u]; simpl in *.
  - apply andb_true_iff in H as [H _]. apply N.eqb_eq in H. subst. tauto.
  - apply andb_true_iff in H as [H1 H2]. rewrite H1. simpl.
    apply IH; auto.
Qed.

Lemma indexOf_from_shift (i : nat) (p s : jsstring) :
  indexOf_from i p s = option_map (fun j => i + j) (indexOf_from 0 p s).
Proof.
  revert i; induction s as [|c s IH]; intros i; simpl.
  - destruct (startsWith p []); simpl; [f_equal; lia | reflexivity].
  - destruct (startsWith p (c :: s)); simpl; [f_equal; lia|].
    rewrite (IH (S i)), (IH 1). destruct (indexOf_from 0 p s); simpl; [f_equal; lia|reflexivity].
Qed.

Lemma indexOf_cons (c : N) (p s : jsstring) :
  indexOf (c :: s) p =
  if startsWith p (c :: s) then Some 0 else option_map S (indexOf s p).
Proof.
  unfold indexOf. simpl. destruct (startsWith p (c :: s)); [reflexivity|].
  now rewrite indexOf_from_shift.
Qed.

Lemma indexOf_nil (p : jsstring) :
  indexOf [] p = if startsWith p [] then Some 0 else None.
Proof. unfold indexOf. simpl. now destruct (startsWith p []). Qed.

(** What [indexOf] finds is an occurrence. *)
Lemma indexOf_Some (s p : jsstring) (i : nat) :
  indexOf s p = Some i ->
  exists b, s = firstn i s ++ p ++ b /\ i + length p <= length s.
Proof.
  revert i; induction s as [|c s IH]; intros i.
  - rewrite indexOf_nil. destruct (startsWith p []) eqn:E; [|discriminate].
    intros [= <-]. destruct p; [|discriminate]. now exists [].
  - rewrite indexOf_cons. destruct (startsWith p (c :: s)) eqn:E.
    + intros [= <-]. apply startsWith_inv in E as [r E]. exists r. simpl.
      split; [assumption|].
      apply (f_equal (@length N)) in E. rewrite length_app in E. simpl in *. lia.
    + destruct (indexOf s p) as [j|] eqn:Ej; [|discriminate].
      intros [= <-]. destruct (IH j eq_refl) as [b [Hb Hl]].
      exists b. simpl. split; [now f_equal | lia].
Qed.

(** No occurrence starts in a text [indexOf] finds nothing in. *)
Lemma indexOf_None (s p : jsstring) :
  indexOf s p = None -> forall a b, s <> a ++ p ++ b.
Proof.
  induction s as [|c s IH]; intros H a b E.
  - rewrite indexOf_nil in H. destruct a; [|discriminate].
    destruct p; [discriminate H | discriminate E].
  - rewrite indexOf_cons in H. destruct (startsWith p (c :: s)) eqn:Es; [discriminate|].
    destruct a as [|x a].
    + simpl in E. rewrite E, startsWith_app in Es. discriminate.
    + destruct (indexOf s p) eqn:Ei; [discriminate|].
      injection E as _ E. now apply (IH eq_refl a b).
Qed.

Lemma indexOf_None_iff (s p : jsstring) :
  indexOf s p = None <-> forall a b, s <> a ++ p ++ b.
Proof.
  split; [apply indexOf_None|].
  intros H. destruct (indexOf s p) as [i|] eqn:E; [|reflexivity].
  apply indexOf_Some in E as [b [E _]]. now apply H in E.
Qed.

(** [indexOf] finds the first occurrence. *)
Lemma indexOf_first (s p : jsstring) (i : nat) :
  indexOf s p = Some i -> indexOf (firstn i s) p = None \/ p = [].
Proof.
  revert i; induction s as [|c s IH]; intros i.
  - rewrite indexOf_nil. destruct (startsWith p []) eqn:E; [|discriminate].
    destruct p; [now right | discriminate].
  - rewrite indexOf_cons. destruct (startsWith p (c :: s)) eqn:E.
    + intros [= <-]. simpl. rewrite indexOf_nil.
      destruct p; [now right | now left].
    + destruct (indexOf s p) as [j|] eqn:Ej; [|discriminate].
      intros [= <-]. destruct (IH j eq_refl) as [H| ->]; [|now right].
      left. simpl. rewrite indexOf_cons, H.
      destruct (startsWith p (c :: firstn j s)) eqn:E2; [|reflexivity].
      apply startsWith_inv in E2 as [r E2].
      assert (E3 : c :: s = p ++ r ++ skipn j s).
      { rewrite <- (firstn_skipn j s) at 1. rewrite app_comm_cons, E2.
        now rewrite <- app_assoc. }
      rewrite E3, startsWith_app in E. discriminate.
Qed.

(** A text in which a pattern does not occur, followed by a code unit
    that is not in the pattern: the first occurrence lies after that
    code unit. *)
Lemma indexOf_after (a s p : jsstring) (c : N) :
  indexOf a p = None -> ~ In c p ->
  indexOf (a ++ c :: s) p = option_map (fun j => length a + 1 + j) (indexOf s p).
Proof.
  intros Ha Hc. induction a as [|x a IH].
  - simpl. rewrite indexOf_cons.
    destruct (startsWith p (c :: s)) eqn:E.
    + exfalso. rewrite indexOf_nil in Ha.
      apply (startsWith_cut p [] s c Hc) in E. now rewrite E in Ha.
    + now destruct (indexOf s p).
  - rewrite indexOf_cons in Ha.
    destruct (startsWith p (x :: a)) eqn:E; [discriminate|].
    destruct (indexOf a p) eqn:Ea; [discriminate|].
    simpl. rewrite indexOf_cons.
    destruct (startsWith p (x :: a ++ c :: s)) eqn:E2.
    + apply (startsWith_cut p (x :: a) s c Hc) in E2. congruence.
    + rewrite (IH eq_refl). now destruct (indexOf s p).
Qed.

Lemma forallb_rev (A : Type) (f : A -> bool) (l : list A) :
  forallb f (rev l) = forallb f l.
Proof.
  induction l as [|x l IH]; [reflexivity|].
  simpl. rewrite forallb_app, IH. simpl. rewrite andb_true_r. apply andb_comm.
Qed.

Lemma trimStart_app_ws (w s : jsstring) :
  forallb is_ws w = true -> trimStart (w ++ s) = trimStart s.
Proof.
  induction w as [|c w IH]; simpl; [reflexivity|].
  intros H. apply andb_true_iff in H as [-> H]. auto.
Qed.

Lemma trimStart_head (c : N) (s : jsstring) :
  is_ws c = false -> trimStart (c :: s) = c :: s.
Proof. simpl. now intros ->. Qed.

Lemma trimStart_all_ws (s : jsstring) :
  forallb is_ws s = true -> trimStart s = [].
Proof.
  induction s as [|c s IH]; simpl; [reflexivity|].
  intros H. apply andb_true_iff in H as [-> H]. auto.
Qed.

Lemma trimStart_split (s : jsstring) :
  exists w, s = w ++ trimStart s /\ forallb is_ws w = true.
Proof.
  induction s as [|c s [w [E H]]]; [now exists []|].
  simpl. destruct (is_ws c) eqn:Ec.
  - exists (c :: w). simpl. rewrite Ec, H. split; [now f_equal | reflexivity].
  - now exists [].
Qed.

Lemma trimStart_idem (s : jsstring) : trimStart (trimStart s) = trimStart s.
Proof.
  induction s as [|c s IH]; simpl; [reflexivity|].
  destruct (is_ws c) eqn:E; [assumption|]. simpl. now rewrite E.
Qed.

Lemma trimEnd_app_ws (s w : jsstring) :
  forallb is_ws w = true -> trimEnd (s ++ w) = trimEnd s.
Proof.
  intros H. unfold trimEnd. rewrite rev_app_distr, trimStart_app_ws; [reflexivity|].
  now rewrite forallb_rev.
Qed.

Lemma trimEnd_last (s : jsstring) (c : N) :
  is_ws c = false -> trimEnd (s ++ [c]) = s ++ [c].
Proof.
  intros H. unfold trimEnd. rewrite rev_app_distr. simpl. rewrite H.
  simpl. now rewrite rev_involutive.
Qed.

Lemma trimEnd_split (s : jsstring) :
  exists w, s = trimEnd s ++ w /\ forallb is_ws w = true.
Proof.
  destruct (trimStart_split (rev s)) as [w [E H]].
  exists (rev w). split.
  - unfold trimEnd. rewrite <- rev_app_distr, <- E. now rewrite rev_involutive.
  - now rewrite forallb_rev.
Qed.

Lemma trimEnd_idem (s : jsstring) : trimEnd (trimEnd s) = trimEnd s.
Proof.
  unfold trimEnd. now rewrite rev_involutive, trimStart_idem.
Qed.

(** Trimming at the end leaves a text that begins with a code unit
    other than white space its beginning. *)
Lemma trimEnd_cons (c : N) (s : jsstring) :
  is_ws c = false -> exists t, trimEnd (c :: s) = c :: t.
Proof.
  intros Hc. induction s as [|x s IH] using rev_ind.
  - exists []. apply (trimEnd_last [] c Hc).
  - destruct (is_ws x) eqn:Ex.
    + rewrite app_comm_cons, trimEnd_app_ws by (simpl; now rewrite Ex). assumption.
    + rewrite app_comm_cons, trimEnd_last by assumption. now exists (s ++ [x]).
Qed.

Lemma trimStart_app_keep (u v : jsstring) :
  forallb is_ws u = false -> trimStart (u ++ v) = trimStart u ++ v.
Proof.
  induction u as [|c u IH]; [discriminate|].
  simpl. destruct (is_ws c); simpl; auto.
Qed.

Lemma trimEnd_app_keep (a b : jsstring) :
  forallb is_ws b = false -> trimEnd (a ++ b) = a ++ trimEnd b.
Proof.
  intros H. unfold trimEnd. rewrite rev_app_distr, trimStart_app_keep.
  - now rewrite rev_app_distr, rev_involutive.
  - now rewrite forallb_rev.
Qed.

Lemma trimEnd_all_ws (s : jsstring) :
  forallb is_ws s = true -> trimEnd s = [].
Proof.
  intros H. unfold trimEnd. rewrite trimStart_all_ws; [reflexivity|].
  now rewrite forallb_rev.
Qed.

Lemma trimStart_trimEnd (s : jsstring) :
  trimStart (trimEnd s) = trimEnd (trimStart s).
Proof.
  destruct (forallb is_ws s) eqn:Es.
  - now rewrite (trimEnd_all_ws s Es), (trimStart_all_ws s Es).
  - destruct (trimStart_split s) as [w [E Hw]].
    destruct (trimStart s) as [|c m] eqn:Et.
    + rewrite app_nil_r in E. congruence.
    + assert (Hc : is_ws c = false).
      { destruct (is_ws c) eqn:Hc; [|reflexivity].
        pose proof (trimStart_idem s) as Hi. rewrite Et in Hi. simpl in Hi.
        rewrite Hc in Hi.
        assert (L : length (trimStart m) <= length m).
        { clear. induction m as [|x m IH]; simpl; [lia|].
          destruct (is_ws x); simpl; lia. }
        rewrite Hi in L. simpl in L. lia. }
      destruct (trimEnd_cons c m Hc) as [t Ht].
      rewrite E, trimEnd_app_keep, Ht.
      * rewrite trimStart_app_ws by assumption. simpl. now rewrite Hc.
      * simpl. now rewrite Hc.
Qed.

Lemma trim_idem (s : jsstring) : trim (trim s) = trim s.
Proof.
  unfold trim. rewrite <- (trimStart_trimEnd (trimEnd (trimStart s))).
  now rewrite trimEnd_idem, trimStart_trimEnd, trimStart_idem.
Qed.

Lemma trim_app_ws (s w : jsstring) :
  forallb is_ws w = true -> trim (s ++ w) = trim s.
Proof.
  intros H. unfold trim. rewrite <- !trimStart_trimEnd.
  now rewrite trimEnd_app_ws.
Qed.

Lemma trim_ws_app (w s : jsstring) :
  forallb is_ws w = true -> trim (w ++ s) = trim s.
Proof. intros H. unfold trim. now rewrite trimStart_app_ws. Qed.

(** A text is a piece of what it was trimmed from. *)
Lemma trim_split (s : jsstring) :
  exists a b, s = a ++ trim s ++ b.
Proof.
  destruct (trimStart_split s) as [a [E _]].
  destruct (trimEnd_split (trimStart s)) as [b [E2 _]].
  exists a, b. unfold trim. now rewrite <- E2.
Qed.

Lemma trim_fixed (c d : N) (s : jsstring) :
  is_ws c = false -> is_ws d = false -> trim (c :: s ++ [d]) = c :: s ++ [d].
Proof.
  intros Hc Hd. unfold trim. rewrite trimStart_head by assumption.
  rewrite app_comm_cons. now apply trimEnd_last.
Qed.

Lemma trim_single (c : N) : is_ws c = false -> trim [c] = [c].
Proof.
  intros Hc. unfold trim. rewrite trimStart_head by assumption.
  apply (trimEnd_last [] c Hc).
Qed.

End StringFacts.

Section ObjectFacts.
Variable V : Type.

Implicit Types (o : list (jsstring * V)) (k : jsstring) (v : V).

Lemma obj_get_insert_same o k v :
  obj_get o k = None -> obj_get (obj_insert o k v) k = Some v.
Proof.
  induction o as [|[k' v'] o IH]; intros H; cbn [obj_insert obj_get].
  - now rewrite jsstring_eqb_refl.
  - cbn [obj_get] in H. destruct (jsstring_eqb k' k) eqn:E; [discriminate|].
    destruct (array_index k); [destruct (array_index k'); [destruct (N.ltb _ _)|]|];
      cbn [obj_get]; rewrite ?jsstring_eqb_refl, ?E; auto.
Qed.

Lemma obj_get_insert_other o k v k' :
  k' <> k -> obj_get (obj_insert o k v) k' = obj_get o k'.
Proof.
  intros Hk. apply jsstring_eqb_neq in Hk.
  assert (Hk' : jsstring_eqb k k' = false).
  { apply jsstring_eqb_neq. intros ->. apply jsstring_eqb_neq in Hk. now apply Hk. }
  induction o as [|[k0 v0] o IH]; cbn [obj_insert obj_get].
  - now rewrite Hk'.
  - destruct (array_index k); [destruct (array_index k0); [destruct (N.ltb _ _)|]|];
      cbn [obj_get]; rewrite ?Hk'; try reflexivity;
      destruct (jsstring_eqb k0 k'); auto.
Qed.

Lemma obj_get_replace_same o k v :
  obj_get o k <> None -> obj_get (obj_replace o k v) k = Some v.
Proof.
  induction o as [|[k' v'] o IH]; intros H; cbn [obj_replace obj_get] in *.
  - contradiction.
  - destruct (jsstring_eqb k' k) eqn:E; cbn [obj_get]; rewrite E; auto.
Qed.

Lemma obj_get_replace_other o k v k' :
  k' <> k -> obj_get (obj_replace o k v) k' = obj_get o k'.
Proof.
  intros Hk. induction o as [|[k0 v0] o IH]; cbn [obj_replace obj_get]; [reflexivity|].
  destruct (jsstring_eqb k0 k) eqn:E; cbn [obj_get].
  - apply jsstring_eqb_eq in E. subst k0.
    replace (jsstring_eqb k k') with false; [reflexivity|].
    symmetry. apply jsstring_eqb_neq. congruence.
  - destruct (jsstring_eqb k0 k'); auto.
Qed.

(** A property reads what was last assigned to it. *)
Lemma obj_get_set_same o k v : obj_get (obj_set o k v) k = Some v.
Proof.
  unfold obj_set. destruct (obj_get o k) eqn:E.
  - apply obj_get_replace_same. congruence.
  - now apply obj_get_insert_same.
Qed.

(** An assignment leaves the other properties as they are. *)
Lemma obj_get_set_other o k v k' :
  k' <> k -> obj_get (obj_set o k v) k' = obj_get o k'.
Proof.
  intros Hk. unfold obj_set. destruct (obj_get o k).
  - now apply obj_get_replace_other.
  - now apply obj_get_insert_other.
Qed.

End ObjectFacts.

Section ValueFacts.

Lemma array_index_letter (c : N) (s : jsstring) :
  is_digit c = false -> array_index (c :: s) = None.
Proof. intros H. unfold array_index. cbn [forallb]. now rewrite H. Qed.

(** A key that does not begin with a digit names a property of objects
    only. *)
Lemma get_named (v : json) (k : jsstring) (x : json) :
  array_index k = None -> get v k = Some x -> exists o, v = JObj o.
Proof.
  intros Hk. destruct v as [| | | s | l | o]; cbn [get]; try discriminate.
  - now rewrite Hk.
  - now rewrite Hk.
  - eauto.
Qed.

Lemma get_set_same (o : obj) (k : jsstring) (x : json) :
  get (set (JObj o) k x) k = Some x.
Proof. cbn [set get]. apply obj_get_set_same. Qed.

Lemma get_set_other (v : json) (k k' : jsstring) (x : json) :
  k' <> k -> get (set v k x) k' = get v k'.
Proof.
  intros Hk. destruct v; try reflexivity. cbn [set get].
  now apply obj_get_set_other.
Qed.

Lemma set_object (o : obj) (k : jsstring) (x : json) :
  set (JObj o) k x = JObj (obj_set o k x).
Proof. reflexivity. Qed.

End ValueFacts.

Section CodecFacts.
Import TaskRunner.

Lemma sentinel_no_LF : ~ In LF SENTINEL.
Proof.
  unfold SENTINEL, LF. simpl. intros H.
  repeat (destruct H as [H|H]; [discriminate H|]). exact H.
Qed.

Lemma sentinel_not_in_nil : indexOf [] SENTINEL = None.
Proof. reflexivity. Qed.

(** The stripped description is free of the sentinel. *)
Lemma clean_no_sentinel (d : option jsstring) :
  indexOf (getCleanDescription d) SENTINEL = None.
Proof.
  destruct d as [[|c d]|]; try reflexivity.
  unfold getCleanDescription.
  destruct (indexOf (c :: d) SENTINEL) as [idx|] eqn:E; [|assumption].
  apply indexOf_first in E as [E|E]; [|discriminate E].
  apply indexOf_None_iff. intros a b H.
  destruct (trim_split (slice_to idx (c :: d))) as [a' [b' Hs]].
  rewrite H in Hs. unfold slice_to in Hs.
  apply (indexOf_None _ _ E (a' ++ a) (b ++ b')).
  rewrite Hs. now rewrite <- !app_assoc.
Qed.

Lemma embed_unfold (d : option jsstring) (m : json) :
  setAgentMeta d m =
  getCleanDescription d ++ LF :: LF :: SENTINEL ++ LF :: stringify m.
Proof.
  unfold setAgentMeta, META_SEPARATOR. now rewrite <- !app_assoc.
Qed.

(** The first sentinel of an embedded description is the one of the
    separator. *)
Lemma embed_first_sentinel (d : option jsstring) (m : json) :
  indexOf (setAgentMeta d m) SENTINEL = Some (length (getCleanDescription d) + 2).
Proof.
  rewrite embed_unfold.
  rewrite (indexOf_after (getCleanDescription d) _ SENTINEL LF
             (clean_no_sentinel d) sentinel_no_LF).
  pose proof (indexOf_after [] (SENTINEL ++ LF :: stringify m) SENTINEL LF
                sentinel_not_in_nil sentinel_no_LF) as H.
  cbn [app] in H. rewrite H. clear H.
  assert (H : indexOf (SENTINEL ++ LF :: stringify m) SENTINEL = Some 0).
  { unfold indexOf. destruct (SENTINEL ++ LF :: stringify m) eqn:E.
    - discriminate E.
    - cbn [indexOf_from]. rewrite <- E, startsWith_app. reflexivity. }
  rewrite H. cbn [option_map length]. f_equal. lia.
Qed.

Lemma embed_nonempty (d : option jsstring) (m : json) :
  exists c s, setAgentMeta d m = c :: s.
Proof.
  rewrite embed_unfold. destruct (getCleanDescription d) as [|c s]; simpl; eauto.
Qed.

(** [strip (embed d m)] is the trimmed [strip d]. *)
Lemma strip_embed_trim (d : option jsstring) (m : json) :
  getCleanDescription (Some (setAgentMeta d m)) = trim (getCleanDescription d).
Proof.
  destruct (embed_nonempty d m) as [c [s E]].
  unfold getCleanDescription at 1. rewrite E, <- E.
  rewrite embed_first_sentinel. rewrite embed_unfold. unfold slice_to.
  change (getCleanDescription d ++ LF :: LF :: SENTINEL ++ LF :: stringify m)
    with (getCleanDescription d ++ [LF; LF] ++ SENTINEL ++ LF :: stringify m).
  rewrite app_assoc.
  replace (length (getCleanDescription d) + 2) with
    (length (getCleanDescription d ++ [LF; LF]) + 0) by (rewrite length_app; simpl; lia).
  rewrite firstn_app_2. simpl firstn. rewrite app_nil_r.
  now apply trim_app_ws.
Qed.

(** [parse (embed d m)] decodes the canonical JSON of [m]. *)
Lemma parse_embed (d : option jsstring) (m : json) :
  parseAgentMeta (Some (setAgentMeta d m)) =
  match JSON_parse (trim (stringify m)) with Some v => v | None => JNull end.
Proof.
  destruct (embed_nonempty d m) as [c [s E]].
  unfold parseAgentMeta. rewrite E, <- E.
  rewrite embed_first_sentinel. rewrite embed_unfold. unfold slice_from.
  change (getCleanDescription d ++ LF :: LF :: SENTINEL ++ LF :: stringify m)
    with (getCleanDescription d ++ ([LF; LF] ++ SENTINEL) ++ LF :: stringify m).
  rewrite app_assoc.
  replace (length (getCleanDescription d) + 2 + length SENTINEL) with
    (length (getCleanDescription d ++ [LF; LF] ++ SENTINEL) + 0)
    by (rewrite !length_app; simpl; lia).
  rewrite Nat.add_0_r, skipn_app, skipn_all, Nat.sub_diag. cbn [skipn app].
  change (LF :: stringify m) with ([LF] ++ stringify m).
  now rewrite trim_ws_app.
Qed.

End CodecFacts.

Section JsonFacts.
Ltac Zify.zify_post_hook ::= Z.to_euclidean_division_equations.

Lemma hex_value_digit (d : N) : (d < 16)%N -> hex_value (hex_digit d) = Some d.
Proof.
  intros H. unfold hex_value, hex_digit.
  destruct (d <? 10)%N eqn:E.
  - apply N.ltb_lt in E.
    replace ((48 <=? 48 + d) && (48 + d <=? 57))%N with true.
    + f_equal. lia.
    + symmetry. apply andb_true_iff. split; apply N.leb_le; lia.
  - apply N.ltb_ge in E.
    replace ((48 <=? 87 + d) && (87 + d <=? 57))%N with false.
    + replace ((97 <=? 87 + d) && (87 + d <=? 102))%N with true.
      * f_equal. lia.
      * symmetry. apply andb_true_iff. split; apply N.leb_le; lia.
    + symmetry. apply andb_false_iff. right. apply N.leb_gt. lia.
Qed.

Lemma hex_split (c : N) :
  (c < 65536)%N ->
  ((c / 4096 mod 16) * 4096 + (c / 256 mod 16) * 256 + (c / 16 mod 16) * 16 + c mod 16 = c)%N.
Proof. intros H. lia. Qed.

Lemma parse_unicode_escape (c : N) (tail : jsstring) :
  (c < 65536)%N ->
  parse_string (unicode_escape c ++ tail) = push_unit c (parse_string tail).
Proof.
  intros H. unfold unicode_escape. cbn [app parse_string].
  change (N.eqb BACKSLASH QUOTE) with false.
  change (N.eqb BACKSLASH BACKSLASH) with true.
  change (N.eqb 117 117) with true. cbv iota.
  rewrite !hex_value_digit by (apply N.mod_lt; discriminate).
  now rewrite hex_split.
Qed.

Lemma parse_quote_unit (c : N) (tail : jsstring) :
  parse_string (quote_unit c ++ tail) = push_unit c (parse_string tail).
Proof.
  unfold quote_unit.
  destruct (N.eqb c 8) eqn:E8; [apply N.eqb_eq in E8; subst; reflexivity|].
  destruct (N.eqb c 9) eqn:E9; [apply N.eqb_eq in E9; subst; reflexivity|].
  destruct (N.eqb c 10) eqn:E10; [apply N.eqb_eq in E10; subst; reflexivity|].
  destruct (N.eqb c 12) eqn:E12; [apply N.eqb_eq in E12; subst; reflexivity|].
  destruct (N.eqb c 13) eqn:E13; [apply N.eqb_eq in E13; subst; reflexivity|].
  destruct (N.eqb c QUOTE) eqn:Eq; [apply N.eqb_eq in Eq; subst; reflexivity|].
  destruct (N.eqb c BACKSLASH) eqn:Eb; [apply N.eqb_eq in Eb; subst; reflexivity|].
  destruct ((c <? 32)%N || is_high_surrogate c || is_low_surrogate c) eqn:Ee.
  - apply parse_unicode_escape.
    unfold is_high_surrogate, is_low_surrogate in Ee.
    repeat (apply orb_true_iff in Ee as [Ee|Ee]).
    + apply N.ltb_lt in Ee. lia.
    + apply andb_true_iff in Ee as [_ Ee]. apply N.leb_le in Ee. lia.
    + apply andb_true_iff in Ee as [_ Ee]. apply N.leb_le in Ee. lia.
  - cbn [app parse_string]. rewrite Eq, Eb.
    apply orb_false_iff in Ee as [Ee _]. apply orb_false_iff in Ee as [Ee _].
    now rewrite Ee.
Qed.

Lemma parse_raw_unit (c : N) (tail : jsstring) :
  (32 <= c)%N -> c <> QUOTE -> c <> BACKSLASH ->
  parse_string (c :: tail) = push_unit c (parse_string tail).
Proof.
  intros H Hq Hb. cbn [parse_string].
  apply N.eqb_neq in Hq. apply N.eqb_neq in Hb. rewrite Hq, Hb.
  apply N.ltb_ge in H. now rewrite H.
Qed.

(** A quoted string reads back as the string. *)
Lemma parse_string_quote_body (s rest : jsstring) :
  parse_string (quote_body s ++ QUOTE :: rest) = Some (s, rest).
Proof.
  remember (length s) as n eqn:Hn.
  assert (Hle : length s <= n) by lia. clear Hn.
  revert s Hle. induction n as [|n IH]; intros s Hle.
  - destruct s; [reflexivity | simpl in Hle; lia].
  - destruct s as [|c r]; [reflexivity|].
    simpl in Hle. cbn [quote_body].
    destruct (is_high_surrogate c) eqn:Eh.
    + destruct r as [|d r'].
      * rewrite parse_quote_unit. reflexivity.
      * destruct (is_low_surrogate d) eqn:El.
        -- unfold is_high_surrogate in Eh. unfold is_low_surrogate in El.
           apply andb_true_iff in Eh as [Eh1 Eh2]. apply andb_true_iff in El as [El1 El2].
           apply N.leb_le in Eh1, Eh2, El1, El2.
           cbn [app]. unfold QUOTE, BACKSLASH in *.
           rewrite parse_raw_unit by (unfold QUOTE, BACKSLASH; lia).
           rewrite parse_raw_unit by (unfold QUOTE, BACKSLASH; lia).
           rewrite (IH r') by (simpl in Hle; lia). reflexivity.
        -- rewrite <- app_assoc, parse_quote_unit.
           rewrite (IH (d :: r')) by lia. reflexivity.
    + rewrite <- app_assoc, parse_quote_unit.
      rewrite (IH r) by lia. reflexivity.
Qed.

Lemma uint_units_digits (d : Decimal.uint) : forallb is_digit (uint_units d) = true.
Proof. induction d; simpl; auto. Qed.

Lemma units_uint_units (d : Decimal.uint) : units_uint (uint_units d) = d.
Proof. induction d; simpl; unfold unit_digit; simpl; congruence. Qed.

Lemma digits_value_digits_of (n : N) : digits_value (digits_of n) = n.
Proof.
  unfold digits_value, digits_of. rewrite units_uint_units.
  apply DecimalN.Unsigned.of_to.
Qed.

Lemma to_uint_unorm (n : N) : Decimal.unorm (N.to_uint n) = N.to_uint n.
Proof.
  rewrite <- (DecimalN.Unsigned.of_to n) at 2.
  now rewrite DecimalN.Unsigned.to_of.
Qed.

(** The digits of a positive number do not begin with a zero. *)
Lemma digits_of_pos (n : N) :
  n <> 0%N ->
  exists c ds, digits_of n = c :: ds /\ is_digit c = true /\ N.eqb c 48 = false.
Proof.
  intros Hn. unfold digits_of.
  pose proof (to_uint_unorm n) as Hu.
  pose proof (uint_units_digits (N.to_uint n)) as Hd.
  destruct (N.to_uint n) as [|d|d|d|d|d|d|d|d|d|d] eqn:E;
    try (cbn [uint_units] in *; apply andb_true_iff in Hd as [Hd _];
         eexists _, _; split; [reflexivity|]; split; [assumption|reflexivity]).
  - exfalso. apply Hn. apply DecimalN.Unsigned.to_uint_inj. now rewrite E.
  - exfalso. unfold Decimal.unorm in Hu. cbn [Decimal.nzhead] in Hu.
    destruct (Decimal.nzhead d) eqn:Ez.
    + injection Hu as Hu. subst d. apply Hn.
      apply DecimalN.Unsigned.to_uint_inj. now rewrite E.
    + pose proof (DecimalFacts.nb_digits_nzhead d) as L. rewrite Ez, Hu in L.
      cbn [Decimal.nb_digits] in L. lia.
    + pose proof (DecimalFacts.nb_digits_nzhead d) as L. rewrite Ez, Hu in L.
      cbn [Decimal.nb_digits] in L. lia.
    + pose proof (DecimalFacts.nb_digits_nzhead d) as L. rewrite Ez, Hu in L.
      cbn [Decimal.nb_digits] in L. lia.
    + pose proof (DecimalFacts.nb_digits_nzhead d) as L. rewrite Ez, Hu in L.
      cbn [Decimal.nb_digits] in L. lia.
    + pose proof (DecimalFacts.nb_digits_nzhead d) as L. rewrite Ez, Hu in L.
      cbn [Decimal.nb_digits] in L. lia.
    + pose proof (DecimalFacts.nb_digits_nzhead d) as L. rewrite Ez, Hu in L.
      cbn [Decimal.nb_digits] in L. lia.
    + pose proof (DecimalFacts.nb_digits_nzhead d) as L. rewrite Ez, Hu in L.
      cbn [Decimal.nb_digits] in L. lia.
    + pose proof (DecimalFacts.nb_digits_nzhead d) as L. rewrite Ez, Hu in L.
      cbn [Decimal.nb_digits] in L. lia.
    + pose proof (DecimalFacts.nb_digits_nzhead d) as L. rewrite Ez, Hu in L.
      cbn [Decimal.nb_digits] in L. lia.
    + pose proof (DecimalFacts.nb_digits_nzhead d) as L. rewrite Ez, Hu in L.
      cbn [Decimal.nb_digits] in L. lia.
Qed.

Lemma span_digits_app (ds rest : jsstring) :
  forallb is_digit ds = true -> ends_number rest = true ->
  span_digits (ds ++ rest) = (ds, rest).
Proof.
  intros Hd Hr. induction ds as [|c ds IH].
  - destruct rest as [|c r]; [reflexivity|]. cbn [app span_digits].
    cbn [ends_number] in Hr. apply negb_true_iff in Hr.
    repeat (apply orb_false_iff in Hr as [Hr _]). now rewrite Hr.
  - cbn [forallb] in Hd. apply andb_true_iff in Hd as [Hc Hd].
    cbn [app span_digits]. rewrite Hc, (IH Hd). reflexivity.
Qed.

Lemma ends_number_frac (rest : jsstring) :
  ends_number rest = true -> read_frac rest = Some ([], rest).
Proof.
  destruct rest as [|c r]; [reflexivity|]. cbn [ends_number read_frac].
  intros H. apply negb_true_iff in H.
  apply orb_false_iff in H as [H _]. apply orb_false_iff in H as [H _].
  apply orb_false_iff in H as [_ H]. now rewrite H.
Qed.

Lemma ends_number_exp (rest : jsstring) :
  ends_number rest = true -> read_exp rest = Some (0%Z, rest).
Proof.
  destruct rest as [|c r]; [reflexivity|]. cbn [ends_number read_exp].
  intros H. apply negb_true_iff in H.
  apply orb_false_iff in H as [H H69]. apply orb_false_iff in H as [H H101].
  now rewrite H101, H69.
Qed.

Lemma read_int_digits (n : N) (rest : jsstring) :
  n <> 0%N -> ends_number rest = true ->
  read_int (digits_of n ++ rest) = (digits_of n, rest).
Proof.
  intros Hn Hr.
  destruct (digits_of_pos n Hn) as [c [ds [E [Hc Hz]]]].
  pose proof (uint_units_digits (N.to_uint n)) as Hd. fold (digits_of n) in Hd.
  unfold read_int. rewrite <- (span_digits_app _ _ Hd Hr).
  rewrite E. cbn [app]. now rewrite Hz.
Qed.

Lemma read_sign_digits (n : N) (rest : jsstring) :
  n <> 0%N -> read_sign (digits_of n ++ rest) = (false, digits_of n ++ rest).
Proof.
  intros Hn. destruct (digits_of_pos n Hn) as [c [ds [E [Hc Hz]]]].
  rewrite E. cbn [app read_sign].
  unfold is_digit in Hc. apply andb_true_iff in Hc as [Hc _]. apply N.leb_le in Hc.
  replace (N.eqb c 45) with false; [reflexivity|].
  symmetry. apply N.eqb_neq. lia.
Qed.

Lemma make_number_int (neg : bool) (n : N) :
  n <> 0%N ->
  make_number neg n 0 = JNum (if neg then - Z.of_N n else Z.of_N n) 0.
Proof.
  intros Hn. unfold make_number. apply N.eqb_neq in Hn. rewrite Hn.
  cbn. now rewrite Z.mul_1_r.
Qed.

Lemma parse_number_positive (n : N) (rest : jsstring) :
  n <> 0%N -> ends_number rest = true ->
  parse_number (digits_of n ++ rest) = Some (JNum (Z.of_N n) 0, rest).
Proof.
  intros Hn Hr. unfold parse_number.
  rewrite (read_sign_digits n rest Hn), (read_int_digits n rest Hn Hr).
  destruct (digits_of_pos n Hn) as [c [ds [E _]]].
  rewrite E at 1. rewrite (ends_number_frac rest Hr), (ends_number_exp rest Hr).
  rewrite app_nil_r, digits_value_digits_of.
  change (0 - Z.of_nat (length (@nil N)))%Z with 0%Z.
  now rewrite (make_number_int false n Hn).
Qed.

Lemma parse_number_negative (n : N) (rest : jsstring) :
  n <> 0%N -> ends_number rest = true ->
  parse_number (45%N :: digits_of n ++ rest) = Some (JNum (- Z.of_N n) 0, rest).
Proof.
  intros Hn Hr. unfold parse_number. cbn [read_sign N.eqb Pos.eqb].
  rewrite (read_int_digits n rest Hn Hr).
  destruct (digits_of_pos n Hn) as [c [ds [E _]]].
  rewrite E at 1. rewrite (ends_number_frac rest Hr), (ends_number_exp rest Hr).
  rewrite app_nil_r, digits_value_digits_of.
  change (0 - Z.of_nat (length (@nil N)))%Z with 0%Z.
  now rewrite (make_number_int true n Hn).
Qed.

Lemma parse_number_zero (rest : jsstring) :
  ends_number rest = true ->
  parse_number (48%N :: rest) = Some (JNum 0 0, rest).
Proof.
  intros Hr. unfold parse_number. cbn [read_sign read_int N.eqb Pos.eqb].
  now rewrite (ends_number_frac rest Hr), (ends_number_exp rest Hr).
Qed.

Lemma number_to_string_plain (n : Z) :
  plain_integer n ->
  number_to_string n 0 =
  if Z.eqb n 0 then [48%N]
  else (if Z.ltb n 0 then [45%N] else []) ++ digits_of (Z.abs_N n).
Proof.
  intros H. unfold number_to_string. destruct (Z.eqb n 0); [reflexivity|].
  apply Z.ltb_lt in H. rewrite H. cbn [N.eqb andb].
  now destruct (Z.ltb n 0).
Qed.

(** The text of a plain integer reads back as that integer. *)
Lemma parse_number_to_string (n : Z) (rest : jsstring) :
  plain_integer n -> ends_number rest = true ->
  parse_number (number_to_string n 0 ++ rest) = Some (JNum n 0, rest).
Proof.
  intros Hp Hr. rewrite (number_to_string_plain n Hp).
  destruct (Z.eqb n 0) eqn:E0.
  - apply Z.eqb_eq in E0. subst. now apply parse_number_zero.
  - apply Z.eqb_neq in E0.
    assert (Hn : Z.abs_N n <> 0%N) by lia.
    destruct (Z.ltb n 0) eqn:El.
    + apply Z.ltb_lt in El. cbn [app].
      rewrite (parse_number_negative _ rest Hn Hr). do 2 f_equal. f_equal. lia.
    + apply Z.ltb_ge in El. cbn [app].
      rewrite (parse_number_positive _ rest Hn Hr). do 2 f_equal. f_equal. lia.
Qed.

Lemma stringify_elems_more (x y : json) (l : list json) :
  stringify_elems (x :: y :: l) = stringify x ++ 44%N :: stringify_elems (y :: l).
Proof. reflexivity. Qed.

Lemma stringify_members_more (k : jsstring) (x : json) (ky : jsstring * json)
  (o : list (jsstring * json)) :
  stringify_members ((k, x) :: ky :: o) =
  QUOTE :: quote_body k ++ QUOTE :: 58%N :: stringify x ++ 44%N :: stringify_members (ky :: o).
Proof.
  cbn [stringify_members]. unfold quote. cbn [app]. rewrite <- app_assoc.
  reflexivity.
Qed.

Lemma stringify_members_one (k : jsstring) (x : json) :
  stringify_members [(k, x)] =
  QUOTE :: quote_body k ++ QUOTE :: 58%N :: stringify x.
Proof.
  cbn [stringify_members]. unfold quote. cbn [app]. rewrite <- app_assoc.
  now rewrite app_nil_r.
Qed.

Lemma stringify_arr (l : list json) :
  stringify (JArr l) = 91%N :: stringify_elems l ++ [93%N].
Proof. reflexivity. Qed.

Lemma stringify_obj (o : list (jsstring * json)) :
  stringify (JObj o) = 123%N :: stringify_members o ++ [125%N].
Proof. reflexivity. Qed.

Lemma size_arr (l : list json) : size (JArr l) = S (size_elems l).
Proof. reflexivity. Qed.

Lemma size_obj (o : list (jsstring * json)) : size (JObj o) = S (size_members o).
Proof. reflexivity. Qed.

Lemma serializable_arr (l : list json) :
  serializable (JArr l) = all_serializable l.
Proof. reflexivity. Qed.

Lemma serializable_obj (o : list (jsstring * json)) :
  serializable (JObj o) = (object_of o = o /\ members_serializable o).
Proof. reflexivity. Qed.

Lemma str_true : str "true" = [116; 114; 117; 101]%N.
Proof. reflexivity. Qed.

Lemma str_false : str "false" = [102; 97; 108; 115; 101]%N.
Proof. reflexivity. Qed.

Lemma str_null : str "null" = [110; 117; 108; 108]%N.
Proof. reflexivity. Qed.

Lemma str_comma : str "," = [44%N].
Proof. reflexivity. Qed.

Lemma str_colon : str ":" = [58%N].
Proof. reflexivity. Qed.

Lemma parse_value_number (f : nat) (s rest : jsstring) (v : json) :
  starts_number s = true -> parse_number s = Some (v, rest) ->
  parse_value (S f) s = POk v rest.
Proof.
  destruct s as [|c r]; [discriminate|]. cbn [starts_number].
  intros Hc Hp.
  assert (Hr : (48 <= c <= 57)%N \/ c = 45%N).
  { apply orb_true_iff in Hc as [Hc|Hc].
    - left. unfold is_digit in Hc. apply andb_true_iff in Hc as [H1 H2].
      apply N.leb_le in H1, H2. lia.
    - right. now apply N.eqb_eq. }
  assert (Hne : forall k : N, (57 < k)%N -> N.eqb c k = false).
  { intros k Hk. apply N.eqb_neq. lia. }
  assert (Hne' : forall k : N, (57 < k)%N -> N.eqb k c = false).
  { intros k Hk. apply N.eqb_neq. lia. }
  cbn [parse_value skip_ws]. unfold is_json_ws.
  replace (N.eqb c 32) with false by (symmetry; apply N.eqb_neq; lia).
  replace (N.eqb c 9) with false by (symmetry; apply N.eqb_neq; lia).
  replace (N.eqb c 10) with false by (symmetry; apply N.eqb_neq; lia).
  replace (N.eqb c 13) with false by (symmetry; apply N.eqb_neq; lia).
  cbn [orb]. rewrite !Hne by (cbv; reflexivity).
  replace (N.eqb c QUOTE) with false by (symmetry; apply N.eqb_neq; unfold QUOTE; lia).
  rewrite str_true, str_false, str_null. cbn [startsWith].
  rewrite !Hne' by (cbv; reflexivity). cbn [andb].
  now rewrite Hp.
Qed.

Lemma number_to_string_starts (n : Z) :
  plain_integer n -> starts_number (number_to_string n 0) = true.
Proof.
  intros Hp. rewrite (number_to_string_plain n Hp).
  destruct (Z.eqb n 0) eqn:E0; [reflexivity|].
  destruct (Z.ltb n 0); [reflexivity|]. cbn [app].
  apply Z.eqb_neq in E0.
  destruct (digits_of_pos (Z.abs_N n)) as [c [ds [E [Hc _]]]]; [lia|].
  rewrite E. cbn [starts_number]. now rewrite Hc.
Qed.

Lemma starts_number_head (s : jsstring) :
  starts_number s = true ->
  exists c r, s = c :: r /\ is_json_ws c = false /\ N.eqb c 93 = false
              /\ N.eqb c 125 = false.
Proof.
  destruct s as [|c r]; [discriminate|]. cbn [starts_number]. intros Hc.
  exists c, r. split; [reflexivity|].
  assert (Hr : (48 <= c <= 57)%N \/ c = 45%N).
  { apply orb_true_iff in Hc as [Hc|Hc].
    - left. unfold is_digit in Hc. apply andb_true_iff in Hc as [H1 H2].
      apply N.leb_le in H1, H2. lia.
    - right. now apply N.eqb_eq. }
  unfold is_json_ws.
  replace (N.eqb c 32) with false by (symmetry; apply N.eqb_neq; lia).
  replace (N.eqb c 9) with false by (symmetry; apply N.eqb_neq; lia).
  replace (N.eqb c 10) with false by (symmetry; apply N.eqb_neq; lia).
  replace (N.eqb c 13) with false by (symmetry; apply N.eqb_neq; lia).
  repeat split; try reflexivity; apply N.eqb_neq; lia.
Qed.

(** The text of a document begins with a code unit that is neither
    white space nor a closing bracket. *)
Lemma stringify_head (v : json) :
  serializable v ->
  exists c s, stringify v = c :: s /\ is_json_ws c = false /\ N.eqb c 93 = false
              /\ N.eqb c 125 = false.
Proof.
  destruct v as [|[|]|n k|s|l|o]; intros Hs;
    try (eexists _, _; repeat split; reflexivity).
  destruct Hs as [-> Hp]. cbn [stringify].
  apply starts_number_head. now apply number_to_string_starts.
Qed.

Lemma skip_ws_head (c : N) (s : jsstring) :
  is_json_ws c = false -> skip_ws (c :: s) = c :: s.
Proof. intros H. cbn [skip_ws]. now rewrite H. Qed.

Lemma ends_number_cons (c : N) (s : jsstring) :
  c = 44%N \/ c = 93%N \/ c = 125%N -> ends_number (c :: s) = true.
Proof. intros [->|[->| ->]]; reflexivity. Qed.

(** Reading back what [JSON.stringify] wrote, with text after it. *)
Lemma parse_stringify (v : json) :
  serializable v ->
  forall (f : nat) (rest : jsstring),
    size v <= f -> ends_number rest = true ->
    parse_value f (stringify v ++ rest) = POk v rest.
Proof.
  induction v as [| b | n k | s | l IH | o IH] using json_induction;
    intros Hs f rest Hf Hr; (destruct f as [|f]; [cbn in Hf; lia|]).
  - reflexivity.
  - destruct b; reflexivity.
  - destruct Hs as [-> Hp]. cbn [stringify].
    apply parse_value_number.
    + pose proof (number_to_string_starts n Hp) as H.
      destruct (number_to_string n 0); [discriminate|exact H].
    + now apply parse_number_to_string.
  - cbn [stringify]. unfold quote. cbn [app parse_value skip_ws].
    change (is_json_ws QUOTE) with false. cbv iota.
    change (N.eqb QUOTE 123) with false. change (N.eqb QUOTE 91) with false.
    change (N.eqb QUOTE QUOTE) with true. cbv iota.
    rewrite <- app_assoc. cbn [app].
    now rewrite parse_string_quote_body.
  - (* arrays *)
    rewrite stringify_arr. rewrite size_arr in Hf. rewrite serializable_arr in Hs.
    cbn [app parse_value skip_ws]. change (is_json_ws 91) with false. cbv iota.
    change (N.eqb 91 123) with false. change (N.eqb 91 91) with true. cbv iota.
    destruct l as [|x l].
    + reflexivity.
    + assert (Hloop : forall (l : list json) (x : json) (acc : list json) (f : nat),
                 Forall (fun v => serializable v -> forall f rest, size v <= f ->
                           ends_number rest = true ->
                           parse_value f (stringify v ++ rest) = POk v rest) (x :: l) ->
                 all_serializable (x :: l) -> size_elems (x :: l) <= f ->
                 parse_elements f acc (stringify_elems (x :: l) ++ 93%N :: rest)
                 = POk (JArr (acc ++ x :: l)) rest).
      { clear. induction l as [|y l IHl]; intros x acc f HF Hs Hf.
        - inversion HF as [|? ? Hx _]; subst. destruct Hs as [Hsx _].
          cbn [size_elems] in Hf. destruct f as [|f]; [lia|].
          cbn [stringify_elems parse_elements]. rewrite app_nil_r.
          rewrite (Hx Hsx) by (try lia; reflexivity). reflexivity.
        - inversion HF as [|? ? Hx HF']; subst. destruct Hs as [Hsx Hs'].
          cbn [size_elems] in Hf. destruct f as [|f]; [lia|].
          rewrite stringify_elems_more. cbn [parse_elements].
          rewrite <- !app_assoc.
          rewrite (Hx Hsx) by (try (cbn [size_elems]; lia); reflexivity).
          cbn [app skip_ws]. change (is_json_ws 44) with false. cbv iota.
          change (N.eqb 44 44) with true. cbv iota.
          rewrite (IHl y (acc ++ [x]) f HF' Hs') by (cbn [size_elems] in *; lia).
          now rewrite <- app_assoc. }
      destruct (stringify_head x (proj1 Hs)) as [c [s [E [Hw [H93 _]]]]].
      replace ((stringify_elems (x :: l) ++ [93%N]) ++ rest)
        with (stringify_elems (x :: l) ++ 93%N :: rest) by now rewrite <- app_assoc.
      assert (Hh : exists s', stringify_elems (x :: l) ++ 93%N :: rest = c :: s').
      { cbn [stringify_elems]. rewrite E. eexists. reflexivity. }
      destruct Hh as [s' Hh]. rewrite Hh at 1. rewrite skip_ws_head by assumption.
      rewrite H93. now apply Hloop; [|assumption | lia].
  - (* objects *)
    rewrite stringify_obj. rewrite size_obj in Hf. rewrite serializable_obj in Hs.
    destruct Hs as [Hcan Hs].
    cbn [app parse_value skip_ws]. change (is_json_ws 123) with false. cbv iota.
    change (N.eqb 123 123) with true. cbv iota.
    destruct o as [|[k x] o].
    + reflexivity.
    + assert (Hloop : forall (o : list (jsstring * json)) (kx : jsstring * json)
                        (acc : obj) (f : nat),
                 Forall (fun kv => serializable (snd kv) -> forall f rest,
                           size (snd kv) <= f -> ends_number rest = true ->
                           parse_value f (stringify (snd kv) ++ rest) = POk (snd kv) rest)
                        (kx :: o) ->
                 members_serializable (kx :: o) -> size_members (kx :: o) <= f ->
                 parse_members f acc (stringify_members (kx :: o) ++ 125%N :: rest)
                 = POk (JObj (fold_left (fun a kv => obj_set a (fst kv) (snd kv))
                                        (kx :: o) acc)) rest).
      { clear. induction o as [|ky o IHo]; intros [k x] acc f HF Hs Hf.
        - inversion HF as [|? ? Hx _]; subst. destruct Hs as [Hsx _].
          cbn [size_members snd] in Hf. destruct f as [|f]; [lia|].
          rewrite stringify_members_one. cbn [parse_members].
          cbn [app skip_ws]. change (is_json_ws QUOTE) with false. cbv iota.
          change (N.eqb QUOTE QUOTE) with true. cbv iota.
          rewrite <- !app_assoc. cbn [app]. rewrite parse_string_quote_body.
          cbn [app skip_ws].
          change (is_json_ws 58) with false. cbv iota.
          change (N.eqb 58 58) with true. cbv iota.
          cbn [snd] in Hx.
          rewrite (Hx Hsx) by (try lia; reflexivity). reflexivity.
        - inversion HF as [|? ? Hx HF']; subst. destruct Hs as [Hsx Hs'].
          cbn [size_members snd] in Hf. destruct f as [|f]; [lia|].
          rewrite stringify_members_more. cbn [parse_members].
          cbn [app skip_ws]. change (is_json_ws QUOTE) with false. cbv iota.
          change (N.eqb QUOTE QUOTE) with true. cbv iota.
          rewrite <- !app_assoc. cbn [app]. rewrite parse_string_quote_body.
          cbn [app skip_ws].
          change (is_json_ws 58) with false. cbv iota.
          change (N.eqb 58 58) with true. cbv iota.
          cbn [snd] in Hx. rewrite <- ?app_assoc. cbn [app].
          rewrite (Hx Hsx) by (try (cbn [size_members]; lia); reflexivity).
          cbn [app skip_ws]. change (is_json_ws 44) with false. cbv iota.
          change (N.eqb 44 44) with true. cbv iota.
          rewrite (IHo ky (obj_set acc k x) f HF' Hs') by (cbn [size_members] in *; lia).
          reflexivity. }
      replace ((stringify_members ((k, x) :: o) ++ [125%N]) ++ rest)
        with (stringify_members ((k, x) :: o) ++ 125%N :: rest) by now rewrite <- app_assoc.
      assert (Hh : exists s', stringify_members ((k, x) :: o) ++ 125%N :: rest = QUOTE :: s').
      { cbn [stringify_members]. unfold quote. eexists. reflexivity. }
      destruct Hh as [s' Hh]. rewrite Hh at 1.
      rewrite skip_ws_head by reflexivity.
      change (N.eqb QUOTE 125) with false. cbv iota.
      rewrite (Hloop o (k, x) [] f IH Hs) by lia.
      fold (object_of ((k, x) :: o)). now rewrite Hcan.
Qed.

Lemma size_le_length (v : json) :
  serializable v -> size v <= length (stringify v).
Proof.
  induction v as [| b | n k | s | l IH | o IH] using json_induction; intros Hs.
  - cbn. lia.
  - destruct b; cbn; lia.
  - destruct Hs as [-> Hp]. cbn [stringify size].
    pose proof (number_to_string_starts n Hp) as H.
    destruct (number_to_string n 0); [discriminate|cbn; lia].
  - cbn [stringify size]. unfold quote. cbn [length]. lia.
  - rewrite stringify_arr, size_arr. rewrite serializable_arr in Hs.
    cbn [length]. rewrite length_app. cbn [length].
    assert (H : size_elems l <= length (stringify_elems l) + 1).
    { induction l as [|x l IHl]; [cbn; lia|].
      inversion IH as [|? ? Hx IH']; subst. destruct Hs as [Hsx Hs'].
      specialize (IHl IH' Hs'). specialize (Hx Hsx).
      destruct l as [|y l].
      - cbn [size_elems stringify_elems]. rewrite app_nil_r. lia.
      - rewrite stringify_elems_more, length_app. cbn [length].
        cbn [size_elems] in *. lia. }
    lia.
  - rewrite stringify_obj, size_obj. rewrite serializable_obj in Hs.
    destruct Hs as [_ Hs].
    cbn [length]. rewrite length_app. cbn [length].
    assert (H : size_members o <= length (stringify_members o) + 1).
    { induction o as [|[k x] o IHo]; [cbn; lia|].
      inversion IH as [|? ? Hx IH']; subst. destruct Hs as [Hsx Hs'].
      specialize (IHo IH' Hs'). specialize (Hx Hsx). cbn [snd] in *.
      destruct o as [|ky o].
      - rewrite stringify_members_one. cbn [size_members length snd].
        rewrite length_app. cbn [length]. lia.
      - rewrite stringify_members_more. cbn [length]. rewrite length_app.
        cbn [length]. rewrite length_app. cbn [length].
        cbn [size_members snd] in *. lia. }
    lia.
Qed.

(** [JSON.parse (JSON.stringify v) = v] *)
Theorem JSON_parse_stringify (v : json) :
  serializable v -> JSON_parse (stringify v) = Some v.
Proof.
  intros Hs. unfold JSON_parse.
  rewrite <- (app_nil_r (stringify v)) at 2.
  rewrite (parse_stringify v Hs); [reflexivity| |reflexivity].
  pose proof (size_le_length v Hs). unfold parse_fuel. lia.
Qed.

Lemma trim_no_ws (s : jsstring) :
  forallb (fun c => negb (is_ws c)) s = true -> trim s = s.
Proof.
  intros H. destruct s as [|c s]; [reflexivity|].
  destruct (exists_last (l := c :: s)) as [r [d E]]; [discriminate|].
  rewrite E in *. rewrite forallb_app in H. apply andb_true_iff in H as [H1 H2].
  cbn [forallb] in H2. rewrite andb_true_r in H2. apply negb_true_iff in H2.
  destruct r as [|e r].
  - now apply trim_single.
  - cbn [forallb] in H1. apply andb_true_iff in H1 as [H1 _].
    apply negb_true_iff in H1. cbn [app]. now apply trim_fixed.
Qed.

Lemma digit_no_ws (c : N) : is_digit c = true -> negb (is_ws c) = true.
Proof.
  unfold is_digit. intros H. apply andb_true_iff in H as [H1 H2].
  apply N.leb_le in H1, H2. apply negb_true_iff. unfold is_ws.
  repeat (apply orb_false_iff; split);
    try (apply andb_false_iff; (left; apply N.leb_gt; lia) || (right; apply N.leb_gt; lia));
    apply N.eqb_neq; lia.
Qed.

Lemma digits_no_ws (s : jsstring) :
  forallb is_digit s = true -> forallb (fun c => negb (is_ws c)) s = true.
Proof.
  induction s as [|c s IH]; [reflexivity|]. cbn [forallb].
  intros H. apply andb_true_iff in H as [Hc H].
  now rewrite (digit_no_ws c Hc), (IH H).
Qed.

(** [JSON.stringify] writes no white space around a document. *)
Lemma trim_stringify (v : json) : serializable v -> trim (stringify v) = stringify v.
Proof.
  destruct v as [|[|]|n k|s|l|o]; intros Hs; try reflexivity.
  - destruct Hs as [-> Hp]. cbn [stringify]. apply trim_no_ws.
    rewrite (number_to_string_plain n Hp).
    destruct (Z.eqb n 0); [reflexivity|].
    pose proof (digits_no_ws _ (uint_units_digits (N.to_uint (Z.abs_N n)))) as H.
    fold (digits_of (Z.abs_N n)) in H.
    destruct (Z.ltb n 0); cbn [app forallb]; [|assumption].
    rewrite H. reflexivity.
  - cbn [stringify]. unfold quote. now apply trim_fixed.
  - rewrite stringify_arr. now apply trim_fixed.
  - rewrite stringify_obj. now apply trim_fixed.
Qed.

End JsonFacts.

Section FuelFacts.

Lemma skip_ws_length (s : jsstring) : length (skip_ws s) <= length s.
Proof.
  induction s as [|c s IH]; [reflexivity|]. cbn [skip_ws].
  destruct (is_json_ws c); cbn [length]; lia.
Qed.

Lemma push_unit_length (c : N) (r : option (jsstring * jsstring)) (t rest : jsstring) (n : nat) :
  (forall t' rest', r = Some (t', rest') -> length rest' < n) ->
  push_unit c r = Some (t, rest) -> length rest < n.
Proof.
  intros H. destruct r as [[t' rest']|]; [|discriminate]. cbn.
  intros [= <- <-]. now apply (H t' rest').
Qed.

Lemma parse_string_length (s t rest : jsstring) :
  parse_string s = Some (t, rest) -> length rest < length s.
Proof.
  remember (length s) as n eqn:Hn. assert (Hle : length s <= n) by lia.
  rewrite Hn. clear Hn. revert s t rest Hle.
  induction n as [|n IH]; intros s t rest Hle.
  - destruct s; [discriminate | cbn in Hle; lia].
  - destruct s as [|c r]; [discriminate|]. cbn [length] in *. cbn [parse_string].
    destruct (N.eqb c QUOTE).
    { intros [= <- <-]. lia. }
    destruct (N.eqb c BACKSLASH).
    { destruct r as [|e r1]; [discriminate|]. cbn [length] in *.
      destruct (N.eqb e 117).
      - destruct r1 as [|h1 [|h2 [|h3 [|h4 r2]]]]; try discriminate.
        destruct (hex_value h1), (hex_value h2), (hex_value h3), (hex_value h4);
          try discriminate.
        intros H. cbn [length] in *.
        apply (push_unit_length _ _ _ _ (length r2)) in H; [lia|].
        intros t' rest' H'. apply IH in H'; lia.
      - destruct (unescape e); [|discriminate]. intros H.
        apply (push_unit_length _ _ _ _ (length r1)) in H; [lia|].
        intros t' rest' H'. apply IH in H'; lia. }
    destruct (N.ltb c 32); [discriminate|]. intros H.
    apply (push_unit_length _ _ _ _ (length r)) in H; [lia|].
    intros t' rest' H'. apply IH in H'; lia.
Qed.

Lemma span_digits_length (s : jsstring) :
  length (fst (span_digits s)) + length (snd (span_digits s)) = length s.
Proof.
  induction s as [|c s IH]; [reflexivity|]. cbn [span_digits].
  destruct (is_digit c); [|reflexivity].
  destruct (span_digits s) as [d rest]. cbn [fst snd length] in *. lia.
Qed.

Lemma read_frac_length (s fp rest : jsstring) :
  read_frac s = Some (fp, rest) -> length rest <= length s.
Proof.
  destruct s as [|c r]; cbn [read_frac].
  - intros [= <- <-]. reflexivity.
  - destruct (N.eqb c 46).
    + pose proof (span_digits_length r) as H.
      destruct (span_digits r) as [[|d ds] rest']; [discriminate|].
      intros [= <- <-]. cbn [fst snd length] in *. lia.
    + intros [= <- <-]. reflexivity.
Qed.

Lemma read_exp_length (s rest : jsstring) (e : Z) :
  read_exp s = Some (e, rest) -> length rest <= length s.
Proof.
  destruct s as [|c r]; cbn [read_exp].
  - intros [= <- <-]. reflexivity.
  - destruct (N.eqb c 101 || N.eqb c 69).
    + destruct r as [|g r'].
      * cbn. discriminate.
      * pose proof (span_digits_length r') as H1.
        pose proof (span_digits_length (g :: r')) as H2.
        destruct (N.eqb g 45); [|destruct (N.eqb g 43)].
        -- destruct (span_digits r') as [[|d ds] rest']; [discriminate|].
           intros [= <- <-]. cbn [fst snd length] in *. lia.
        -- destruct (span_digits r') as [[|d ds] rest']; [discriminate|].
           intros [= <- <-]. cbn [fst snd length] in *. lia.
        -- destruct (span_digits (g :: r')) as [[|d ds] rest']; [discriminate|].
           intros [= <- <-]. cbn [fst snd length] in *. lia.
    + intros [= <- <-]. reflexivity.
Qed.

Lemma parse_number_length (s rest : jsstring) (v : json) :
  parse_number s = Some (v, rest) -> length rest < length s.
Proof.
  unfold parse_number.
  assert (Hs : length (snd (read_sign s)) <= length s).
  { destruct s as [|c r]; [reflexivity|]. cbn [read_sign].
    destruct (N.eqb c 45); cbn [snd length]; lia. }
  destruct (read_sign s) as [neg s1]. cbn [snd] in Hs.
  assert (Hi : fst (read_int s1) <> [] -> length (snd (read_int s1)) < length s1).
  { destruct s1 as [|c r]; [intros H; now contradiction H|]. cbn [read_int].
    destruct (N.eqb c 48); [cbn [snd length]; lia|].
    pose proof (span_digits_length (c :: r)) as H.
    destruct (span_digits (c :: r)) as [[|d ds] rest']; cbn [fst snd length] in *.
    - intros H'. now contradiction H'.
    - intros _. lia. }
  destruct (read_int s1) as [[|d ip] s2]; [discriminate|]. cbn [fst snd] in Hi.
  destruct (read_frac s2) as [[fp s3]|] eqn:Ef; [|discriminate].
  destruct (read_exp s3) as [[e s4]|] eqn:Ee; [|discriminate].
  intros [= _ <-].
  apply read_frac_length in Ef. apply read_exp_length in Ee.
  assert (Hi' : length s2 < length s1) by (apply Hi; discriminate). lia.
Qed.

Lemma startsWith_length (p s : jsstring) :
  startsWith p s = true -> length p <= length s.
Proof.
  intros H. apply startsWith_inv in H as [r ->]. rewrite length_app. lia.
Qed.

Lemma skipn_shorter (n : nat) (s : jsstring) :
  0 < n -> n <= length s -> length (skipn n s) < length s.
Proof. intros H1 H2. rewrite length_skipn. lia. Qed.

(** No text exhausts the fuel [JSON_parse] starts with, and a value
    that is read consumes at least one code unit. *)
Lemma parse_fuel_enough (f : nat) :
  (forall s, 2 * length s + 1 <= f ->
             parse_value f s <> PFuel
             /\ forall v rest, parse_value f s = POk v rest -> length rest < length s)
  /\ (forall acc s, 2 * length s + 1 <= f ->
             parse_members f acc s <> PFuel
             /\ forall v rest, parse_members f acc s = POk v rest -> length rest < length s)
  /\ (forall acc s, 2 * length s + 2 <= f ->
             parse_elements f acc s <> PFuel
             /\ forall v rest, parse_elements f acc s = POk v rest -> length rest < length s).
Proof.
  induction f as [|f [IHv [IHm IHe]]].
  - repeat split; intros; lia.
  - split; [|split].
    + intros s Hf. cbn [parse_value].
      pose proof (skip_ws_length s) as Hw.
      destruct (skip_ws s) as [|c r] eqn:Es; [split; [discriminate|discriminate]|].
      cbn [length] in Hw.
      destruct (N.eqb c 123).
      { pose proof (skip_ws_length r) as Hw2.
        destruct (skip_ws r) as [|d r'] eqn:Er; [split; discriminate|].
        cbn [length] in Hw2.
        destruct (N.eqb d 125).
        - split; [discriminate|]. intros v rest [= <- <-]. lia.
        - destruct (IHm [] r) as [H1 H2]; [lia|]. split; [assumption|].
          intros v rest H. apply H2 in H. lia. }
      destruct (N.eqb c 91).
      { pose proof (skip_ws_length r) as Hw2.
        destruct (skip_ws r) as [|d r'] eqn:Er; [split; discriminate|].
        cbn [length] in Hw2.
        destruct (N.eqb d 93).
        - split; [discriminate|]. intros v rest [= <- <-]. lia.
        - destruct (IHe [] r) as [H1 H2]; [lia|]. split; [assumption|].
          intros v rest H. apply H2 in H. lia. }
      destruct (N.eqb c QUOTE).
      { destruct (parse_string r) as [[t rest']|] eqn:Ep; [|split; discriminate].
        apply parse_string_length in Ep. split; [discriminate|].
        intros v rest [= <- <-]. lia. }
      destruct (startsWith (str "true") (c :: r)) eqn:Et.
      { split; [discriminate|]. intros v rest Heq.
        assert (Hrest : rest = skipn 4 (c :: r)) by congruence.
        apply startsWith_length in Et.
        pose proof (skipn_shorter 4 (c :: r)) as H. rewrite <- Hrest in H.
        cbn [length] in *.
        change (length (str "true")) with 4 in Et. lia. }
      destruct (startsWith (str "false") (c :: r)) eqn:Ef.
      { split; [discriminate|]. intros v rest Heq.
        assert (Hrest : rest = skipn 5 (c :: r)) by congruence.
        apply startsWith_length in Ef.
        pose proof (skipn_shorter 5 (c :: r)) as H. rewrite <- Hrest in H.
        cbn [length] in *.
        change (length (str "false")) with 5 in Ef. lia. }
      destruct (startsWith (str "null") (c :: r)) eqn:En.
      { split; [discriminate|]. intros v rest Heq.
        assert (Hrest : rest = skipn 4 (c :: r)) by congruence.
        apply startsWith_length in En.
        pose proof (skipn_shorter 4 (c :: r)) as H. rewrite <- Hrest in H.
        cbn [length] in *.
        change (length (str "null")) with 4 in En. lia. }
      destruct (parse_number (c :: r)) as [[v' rest']|] eqn:Ep; [|split; discriminate].
      apply parse_number_length in Ep. cbn [length] in Ep. split; [discriminate|].
      intros v rest [= <- <-]. lia.
    + intros acc s Hf. cbn [parse_members].
      pose proof (skip_ws_length s) as Hw.
      destruct (skip_ws s) as [|c r] eqn:Es; [split; discriminate|].
      cbn [length] in Hw.
      destruct (N.eqb c QUOTE); [|split; discriminate].
      destruct (parse_string r) as [[key r1]|] eqn:Ep; [|split; discriminate].
      apply parse_string_length in Ep.
      pose proof (skip_ws_length r1) as Hw1.
      destruct (skip_ws r1) as [|d r2] eqn:E1; [split; discriminate|].
      cbn [length] in Hw1.
      destruct (N.eqb d 58); [|split; discriminate].
      destruct (IHv r2) as [H1 H2]; [lia|].
      destruct (parse_value f r2) as [v r3| |] eqn:Ev; [|split; discriminate|contradiction].
      specialize (H2 v r3 eq_refl).
      pose proof (skip_ws_length r3) as Hw3.
      destruct (skip_ws r3) as [|g r4] eqn:E3; [split; discriminate|].
      cbn [length] in Hw3.
      destruct (N.eqb g 44).
      { destruct (IHm (obj_set acc key v) r4) as [H3 H4]; [lia|]. split; [assumption|].
        intros v' rest H. apply H4 in H. lia. }
      destruct (N.eqb g 125); [|split; discriminate].
      split; [discriminate|]. intros v' rest [= <- <-]. lia.
    + intros acc s Hf. cbn [parse_elements].
      destruct (IHv s) as [H1 H2]; [lia|].
      destruct (parse_value f s) as [v r1| |] eqn:Ev; [|split; discriminate|contradiction].
      specialize (H2 v r1 eq_refl).
      pose proof (skip_ws_length r1) as Hw1.
      destruct (skip_ws r1) as [|g r2] eqn:E1; [split; discriminate|].
      cbn [length] in Hw1.
      destruct (N.eqb g 44).
      { destruct (IHe (acc ++ [v]) r2) as [H3 H4]; [lia|]. split; [assumption|].
        intros v' rest H. apply H4 in H. lia. }
      destruct (N.eqb g 93); [|split; discriminate].
      split; [discriminate|]. intros v' rest [= <- <-]. lia.
Qed.

(** [JSON_parse] decides every text: it never gives up for lack of
    fuel. *)
Theorem JSON_parse_total (s : jsstring) : parse_value (parse_fuel s) s <> PFuel.
Proof.
  apply (proj1 (parse_fuel_enough (parse_fuel s))). unfold parse_fuel. lia.
Qed.

End FuelFacts.

Section CodecTheorems.
Import TaskRunner.

Lemma startsWith_prefix (p u v : jsstring) :
  startsWith p u = true -> startsWith p (u ++ v) = true.
Proof.
  intros H. apply startsWith_inv in H as [r ->].
  rewrite <- app_assoc. apply startsWith_app.
Qed.

(** No occurrence straddles a code unit that is not in the pattern. *)
Lemma occurrences_cut (p a s : jsstring) (c : N) :
  ~ In c p -> p <> [] ->
  occurrences p (a ++ c :: s) = occurrences p a + occurrences p (c :: s).
Proof.
  intros Hc Hp. remember (occurrences p (c :: s)) as k eqn:Hk.
  induction a as [|x a IH].
  - cbn [app occurrences]. destruct p; [contradiction|]. now subst.
  - cbn [app]. cbn [occurrences]. rewrite IH.
    destruct (startsWith p (x :: a ++ c :: s)) eqn:E.
    + rewrite (startsWith_cut p (x :: a) s c Hc E). lia.
    + destruct (startsWith p (x :: a)) eqn:E2.
      * apply (startsWith_prefix _ _ (c :: s)) in E2. cbn [app] in E2. congruence.
      * lia.
Qed.

Lemma occurrences_none (p s : jsstring) :
  p <> [] -> indexOf s p = None -> occurrences p s = 0.
Proof.
  intros Hp. induction s as [|c s IH].
  - destruct p; [contradiction|reflexivity].
  - rewrite indexOf_cons. cbn [occurrences].
    destruct (startsWith p (c :: s)); [discriminate|].
    destruct (indexOf s p); [discriminate|]. intros _. now rewrite IH.
Qed.

Lemma occurrences_skip (p s : jsstring) (c : N) :
  ~ In c p -> p <> [] -> occurrences p (c :: s) = occurrences p s.
Proof.
  intros Hc Hp. cbn [occurrences].
  destruct (startsWith p (c :: s)) eqn:E; [|reflexivity].
  exfalso. destruct p as [|x p]; [contradiction|].
  cbn [startsWith] in E. apply andb_true_iff in E as [E _].
  apply N.eqb_eq in E. subst. apply Hc. now left.
Qed.

(** The sentinels of an embedded description: the one of the separator
    and those of the JSON text. *)
Lemma embed_occurrences (d : option jsstring) (m : json) :
  occurrences SENTINEL (setAgentMeta d m) = 1 + occurrences SENTINEL (stringify m).
Proof.
  assert (Hp : SENTINEL <> []) by discriminate.
  rewrite embed_unfold.
  rewrite (occurrences_cut _ _ _ _ sentinel_no_LF Hp).
  rewrite (occurrences_none _ _ Hp (clean_no_sentinel d)).
  rewrite !(occurrences_skip _ _ _ sentinel_no_LF Hp).
  rewrite (occurrences_cut _ _ _ _ sentinel_no_LF Hp).
  rewrite (occurrences_skip _ _ _ sentinel_no_LF Hp).
  reflexivity.
Qed.

(** C2: decoding what [setAgentMeta] embedded into a stripped
    description gives the meta back, for every description and every
    meta that JSON serialization preserves. *)
Theorem meta_roundtrip (d : option jsstring) (m : json) :
  serializable m ->
  parseAgentMeta (Some (setAgentMeta (Some (getCleanDescription d)) m)) = m.
Proof.
  intros Hs. rewrite parse_embed, (trim_stringify m Hs).
  now rewrite (JSON_parse_stringify m Hs).
Qed.

Lemma meta_roundtrip_witness :
  parseAgentMeta (Some (setAgentMeta (Some (getCleanDescription sample_description))
                                     sample_meta)) = sample_meta.
Proof.
  apply (meta_roundtrip sample_description sample_meta).
  repeat split.
Defined.

(** C3, as the code has it: the first sentinel of an embedded
    description is the one of the separator, the others are those of the
    JSON text of the meta, and stripping gives the trimmed stripped
    description. *)
Theorem embed_sentinel_and_strip (d : option jsstring) (m : json) :
  indexOf (setAgentMeta d m) SENTINEL = Some (length (getCleanDescription d) + 2)
  /\ occurrences SENTINEL (setAgentMeta d m) = 1 + occurrences SENTINEL (stringify m)
  /\ getCleanDescription (Some (setAgentMeta d m)) = trim (getCleanDescription d).
Proof.
  split; [apply embed_first_sentinel|].
  split; [apply embed_occurrences | apply strip_embed_trim].
Qed.

(** C3 fails as stated: a meta whose text holds the sentinel embeds a
    second sentinel, and a description without meta keeps the white
    space around it until it is embedded. *)
Lemma embed_sentinel_counterexample :
  occurrences SENTINEL (setAgentMeta spaced_description quoting_meta) = 2
  /\ getCleanDescription (Some (setAgentMeta spaced_description quoting_meta))
     <> getCleanDescription spaced_description.
Proof. split; [vm_compute; reflexivity | vm_compute; discriminate]. Qed.

End CodecTheorems.

Section ClientFacts.

Lemma sent_nil (w : world) : sent w [] = w.
Proof. destruct w. unfold sent. cbn. now rewrite app_nil_r. Qed.

Lemma sent_app (w : world) (a b : list request) : sent (sent w a) b = sent w (a ++ b).
Proof. unfold sent. cbn. now rewrite map_app, app_assoc. Qed.

Lemma requests_sent (w : world) (rqs : list request) :
  requests (sent w rqs) = requests w ++ rqs.
Proof.
  unfold requests, sent. cbn [log]. rewrite flat_map_app. f_equal.
  induction rqs as [|r rqs IH]; [reflexivity|]. cbn. now rewrite IH.
Qed.

Lemma fetch_spec (E : env) (rq : request) (w : world) :
  fetch E rq w =
  (match answer E w rq with
   | NetworkError msg => Throw (Error msg)
   | Response st tx => Ret (st, tx)
   end, sent w [rq]).
Proof. unfold fetch, answer, sent. cbn [map]. now destruct (net E _ rq). Qed.

Lemma resp_json_spec (tx : jsstring) (w : world) :
  resp_json tx w = (match JSON_parse tx with
                    | Some v => Ret v
                    | None => Throw (Error SYNTAX_ERROR)
                    end, w).
Proof. unfold resp_json. now destruct (JSON_parse tx). Qed.

End ClientFacts.

Section TaskRunnerClient.
Import TaskRunner.
Variable E : env.
Variables KANBAN_API KANBAN_TOKEN : jsstring.
Local Abbreviation runner_request := (runner_request KANBAN_API KANBAN_TOKEN).

Lemma runner_request_authorized (meth : option jsstring) (urlPath : jsstring)
  (data : option json) :
  has_authorization (runner_request meth urlPath data) = nonempty KANBAN_TOKEN.
Proof.
  unfold has_authorization, runner_request, auth_headers. cbn [headers].
  destruct (nonempty KANBAN_TOKEN); reflexivity.
Qed.

(** A helper of the Task Runner sends one request and reads its
    answer. *)
Lemma kanbanGet_spec (urlPath : jsstring) (w : world) :
  kanbanGet E KANBAN_API KANBAN_TOKEN urlPath w =
  (read_json (fun st => str "Kanban GET " ++ urlPath ++ str ": " ++ digits_of st)
             (answer E w (runner_request None urlPath None)),
   sent w [runner_request None urlPath None]).
Proof.
  unfold kanbanGet, bind. rewrite fetch_spec.
  unfold runner_request. cbn [option_map].
  destruct (answer E w _) as [msg|st tx]; [reflexivity|].
  cbn [read_json]. destruct (ok st); cbn [negb]; [|reflexivity].
  now rewrite resp_json_spec.
Qed.

Lemma kanbanPut_spec (urlPath : jsstring) (data : json) (w : world) :
  kanbanPut E KANBAN_API KANBAN_TOKEN urlPath data w =
  (read_json (fun st => str "Kanban PUT " ++ urlPath ++ str ": " ++ digits_of st)
             (answer E w (runner_request (Some (str "PUT")) urlPath (Some data))),
   sent w [runner_request (Some (str "PUT")) urlPath (Some data)]).
Proof.
  unfold kanbanPut, bind. rewrite fetch_spec.
  unfold runner_request. cbn [option_map].
  destruct (answer E w _) as [msg|st tx]; [reflexivity|].
  cbn [read_json]. destruct (ok st); cbn [negb]; [|reflexivity].
  now rewrite resp_json_spec.
Qed.

Lemma kanbanPost_spec (urlPath : jsstring) (data : json) (w : world) :
  kanbanPost E KANBAN_API KANBAN_TOKEN urlPath data w =
  (read_json (fun st => str "Kanban POST " ++ urlPath ++ str ": " ++ digits_of st)
             (answer E w (runner_request (Some (str "POST")) urlPath (Some data))),
   sent w [runner_request (Some (str "POST")) urlPath (Some data)]).
Proof.
  unfold kanbanPost, bind. rewrite fetch_spec.
  unfold runner_request. cbn [option_map].
  destruct (answer E w _) as [msg|st tx]; [reflexivity|].
  cbn [read_json]. destruct (ok st); cbn [negb]; [|reflexivity].
  now rewrite resp_json_spec.
Qed.

End TaskRunnerClient.

Section SpecServerClient.
Import SpecServer.
Variable E : env.
Variables KANBAN_API KANBAN_TOKEN : jsstring.
Local Abbreviation first_headers := (first_headers KANBAN_TOKEN).
Local Abbreviation first_request := (first_request KANBAN_API KANBAN_TOKEN).
Local Abbreviation retry_request := (retry_request KANBAN_API).

Lemma retry_request_anonymous (path : jsstring) (options : fetch_options) :
  has_authorization (retry_request path options) = false.
Proof. reflexivity. Qed.

(** [kanbanFetch] of the Spec Generator: a 401 to a request that bore
    the token is followed by exactly one more request, without the
    [Authorization] header, and the outcome is that of the retry;
    any other answer is final. *)
Lemma kanbanFetch_spec (path : jsstring) (options : fetch_options) (w : world) :
  kanbanFetch E KANBAN_API KANBAN_TOKEN path options w =
  match answer E w (first_request path options) with
  | NetworkError msg => (Throw (Error msg), sent w [first_request path options])
  | Response st tx =>
    if N.eqb st 401 && nonempty KANBAN_TOKEN then
      (read_json (fun st => str "Kanban API " ++ path ++ str ": " ++ digits_of st
                            ++ str " (no-auth retry)")
                 (answer E (sent w [first_request path options])
                         (retry_request path options)),
       sent w [first_request path options; retry_request path options])
    else
      (read_json (fun st => str "Kanban API " ++ path ++ str ": " ++ digits_of st)
                 (Response st tx),
       sent w [first_request path options])
  end.
Proof.
  unfold kanbanFetch, bind. fold (first_headers options).
  fold (first_request path options). rewrite fetch_spec.
  destruct (answer E w (first_request path options)) as [msg|st tx] eqn:Ea;
    [reflexivity|].
  destruct (N.eqb st 401 && nonempty KANBAN_TOKEN) eqn:E401.
  - fold (retry_request path options). rewrite fetch_spec, sent_app. cbn [app].
    destruct (answer E (sent w [first_request path options]) _) as [msg2|st2 tx2];
      [reflexivity|].
    cbn [read_json]. destruct (ok st2); cbn [negb]; [|reflexivity].
    now rewrite resp_json_spec.
  - cbn [read_json]. destruct (ok st); cbn [negb]; [|reflexivity].
    now rewrite resp_json_spec.
Qed.

End SpecServerClient.

Section ProviderChain.
Import SpecServer.
Variable E : env.
Variables GEMINI_KEY OPENROUTER_KEY : jsstring.
Local Abbreviation primary_request := (primary_request GEMINI_KEY).
Local Abbreviation fallback_request := (fallback_request OPENROUTER_KEY).
Local Abbreviation fallback_run := (fallback_run E OPENROUTER_KEY).

Lemma opt_get_chain_none (path : list jsstring) : fold_left opt_get path None = None.
Proof. induction path as [|k r IH]; [reflexivity | exact IH]. Qed.

(** A chain of [?.] reads is the walk along the path. *)
Lemma opt_get_chain (path : list jsstring) (x : json) :
  fold_left opt_get path (Some x) = at_path x path.
Proof.
  revert x. induction path as [|k r IH]; intros x; [reflexivity|].
  cbn [fold_left at_path].
  destruct x; cbn [opt_get]; try apply opt_get_chain_none;
    (destruct (get _ k) as [y|]; [apply IH | apply opt_get_chain_none]).
Qed.

Lemma or_else_generated (data : json) (k : jsstring) (path : list jsstring) :
  data <> JNull ->
  or_else (fold_left opt_get path (get data k)) (JStr []) = generated data (k :: path).
Proof.
  intros Hd. unfold generated. cbn [at_path].
  destruct data; try (now destruct Hd);
    (destruct (get _ k) as [y|];
     [rewrite opt_get_chain; now destruct (at_path y path)
     |now rewrite opt_get_chain_none]).
Qed.

Lemma callGemini_spec (prompt : jsstring) (w : world) :
  callGemini E GEMINI_KEY prompt w =
  if nonempty GEMINI_KEY
  then (primary_outcome (answer E w (primary_request prompt)),
        sent w [primary_request prompt])
  else (Throw (Error (str "GEMINI_API_KEY not set")), w).
Proof.
  unfold callGemini. destruct (nonempty GEMINI_KEY); cbn [negb]; [|reflexivity].
  unfold bind. fold (primary_request prompt). rewrite fetch_spec.
  destruct (answer E w (primary_request prompt)) as [msg|st body]; [reflexivity|].
  cbn [primary_outcome]. destruct (N.eqb st 429); [reflexivity|].
  destruct (ok st); cbn [negb]; [|reflexivity].
  rewrite resp_json_spec. destruct (JSON_parse body) as [data|]; [|reflexivity].
  unfold primary_text, PRIMARY_PATH.
  destruct data; try reflexivity; cbn [bind ret];
    (rewrite <- or_else_generated by discriminate; reflexivity).
Qed.

Lemma callOpenRouter_spec (prompt : jsstring) (w : world) :
  callOpenRouter E OPENROUTER_KEY prompt w =
  if nonempty OPENROUTER_KEY
  then (fallback_outcome (answer E w (fallback_request prompt)),
        sent w [fallback_request prompt])
  else (Throw (Error (str "OPENROUTER_API_KEY not set")), w).
Proof.
  unfold callOpenRouter. destruct (nonempty OPENROUTER_KEY); cbn [negb]; [|reflexivity].
  unfold bind. fold (fallback_request prompt). rewrite fetch_spec.
  destruct (answer E w (fallback_request prompt)) as [msg|st body]; [reflexivity|].
  cbn [fallback_outcome]. destruct (ok st); cbn [negb]; [|reflexivity].
  rewrite resp_json_spec. destruct (JSON_parse body) as [data|]; [|reflexivity].
  unfold fallback_text, FALLBACK_PATH.
  destruct data; try reflexivity; cbn [bind ret];
    (rewrite <- or_else_generated by discriminate; reflexivity).
Qed.

(** C5: with a primary key, the primary provider is asked first and its
    result is returned; whatever failure it ends in, the fallback is
    called once, and what the fallback returns or throws is what
    [callLLM] returns or throws.  Without a primary key only the
    fallback is called.  A result comes from an answer with a status
    in 2xx and a JSON body: its text is the text that body holds at
    the place of the provider (the empty string when there is none),
    its usage metadata are those of the body, and it names its
    provider. *)
Theorem callLLM_fallback_chain (prompt : jsstring) (w : world) :
  callLLM E GEMINI_KEY OPENROUTER_KEY prompt w =
  (if nonempty GEMINI_KEY then
     match primary_outcome (answer E w (primary_request prompt)) with
     | Ret r => (Ret r, sent w [primary_request prompt])
     | _ => fallback_run prompt (sent w [primary_request prompt])
     end
   else fallback_run prompt w)
  /\ (forall msg, primary_outcome (NetworkError msg) = Throw (Error msg))
  /\ (forall body, primary_outcome (Response 429 body)
                   = Throw (mkError (str "Gemini rate limited") true))
  /\ (forall st body, if ok st then True
                      else exists e, primary_outcome (Response st body) = Throw e)
  /\ (forall resp, match primary_outcome resp with
                   | Ret r => provider r = GEMINI_ID
                   | _ => True
                   end)
  /\ (forall resp, match fallback_outcome resp with
                   | Ret r => provider r = OPENROUTER_ID
                   | _ => True
                   end)
  /\ (forall w', length (requests (snd (fallback_run prompt w')))
                 <= S (length (requests w')))
  /\ (forall resp r, primary_outcome resp = Ret r ->
        exists st body data,
          resp = Response st body /\ ok st = true /\ JSON_parse body = Some data
          /\ text r = generated data PRIMARY_PATH
          /\ tokens r = get data (str "usageMetadata")
          /\ provider r = GEMINI_ID)
  /\ (forall resp r, fallback_outcome resp = Ret r ->
        exists st body data,
          resp = Response st body /\ ok st = true /\ JSON_parse body = Some data
          /\ text r = generated data FALLBACK_PATH
          /\ tokens r = get data (str "usage")
          /\ provider r = OPENROUTER_ID)
  /\ (forall data path t, at_path data path = Some t -> truthy t = true ->
                          generated data path = t)
  /\ (forall data path, at_path data path = None -> generated data path = JStr []).
Proof.
  split.
  { unfold callLLM, try_catch, fallback_run.
    destruct (nonempty GEMINI_KEY) eqn:Eg.
    - rewrite callGemini_spec, Eg.
      destruct (primary_outcome _) as [r|e|] eqn:Ep; try reflexivity.
      + now rewrite callOpenRouter_spec.
      + exfalso. revert Ep. clear.
        destruct (answer E w (primary_request prompt)) as [msg|st body];
          cbn [primary_outcome]; [discriminate|].
        destruct (N.eqb st 429); [discriminate|].
        destruct (negb (ok st)); [discriminate|].
        destruct (JSON_parse body) as [[]|]; discriminate.
    - now rewrite callOpenRouter_spec. }
  split; [reflexivity|]. split; [reflexivity|].
  split.
  { intros st body. destruct (ok st) eqn:Eo; [exact I|].
    cbn [primary_outcome]. rewrite Eo. cbn [negb].
    destruct (N.eqb st 429); eexists; reflexivity. }
  split.
  { intros [msg|st body]; cbn [primary_outcome]; [exact I|].
    destruct (N.eqb st 429); [exact I|]. destruct (negb (ok st)); [exact I|].
    destruct (JSON_parse body) as [[]|]; try exact I; reflexivity. }
  split.
  { intros [msg|st body]; cbn [fallback_outcome]; [exact I|].
    destruct (negb (ok st)); [exact I|].
    destruct (JSON_parse body) as [[]|]; try exact I; reflexivity. }
  split.
  { intros w'. unfold fallback_run. destruct (nonempty OPENROUTER_KEY); cbn [snd].
    - rewrite requests_sent, length_app. cbn. lia.
    - lia. }
  split.
  { intros [msg|st body] r; cbn [primary_outcome]; [discriminate|].
    destruct (N.eqb st 429); [discriminate|].
    destruct (ok st) eqn:Eo; cbn [negb]; [|discriminate].
    destruct (JSON_parse body) as [data|] eqn:Ep; [|discriminate].
    intros H. exists st, body, data.
    destruct data; try discriminate H; injection H as <-;
      repeat (split; [first [reflexivity | assumption]|]); reflexivity. }
  split.
  { intros [msg|st body] r; cbn [fallback_outcome]; [discriminate|].
    destruct (ok st) eqn:Eo; cbn [negb]; [|discriminate].
    destruct (JSON_parse body) as [data|] eqn:Ep; [|discriminate].
    intros H. exists st, body, data.
    destruct data; try discriminate H; injection H as <-;
      repeat (split; [first [reflexivity | assumption]|]); reflexivity. }
  split.
  { intros data path t Hp Ht. unfold generated. now rewrite Hp, Ht. }
  intros data path Hp. unfold generated. now rewrite Hp.
Qed.

End ProviderChain.

Section ExtractorTheorems.
Import SpecServer.

(** C8, as the code has it: when the cleaned text decodes to an object
    with a [spec] key, the extractor returns that object, its [tasks]
    replaced by the empty array when they are missing or falsy; the
    fenced text of scenario 4 yields its object. *)
Theorem extractJSON_direct :
  (forall (text : jsstring) (o : obj),
      JSON_parse (clean text) = Some (JObj o) ->
      obj_get o (str "spec") <> None ->
      extractJSON text =
      Some (if truthy_opt (obj_get o (str "tasks")) then JObj o
            else JObj (obj_set o (str "tasks") (JArr []))))
  /\ extractJSON scenario4 = Some scenario4_result.
Proof.
  split; [|vm_compute; reflexivity].
  intros text o Hp Hs. unfold extractJSON. rewrite Hp. cbn [accept get].
  destruct (obj_get o (str "spec")); [|contradiction].
  destruct (truthy_opt (obj_get o (str "tasks"))); reflexivity.
Qed.

Lemma extractJSON_direct_witness :
  extractJSON (lit "<think>plan</think> {'spec':'# Y','tasks':[]}") =
  Some (JObj [(str "spec", JStr (str "# Y")); (str "tasks", JArr [])]).
Proof.
  apply (proj1 extractJSON_direct
           (lit "<think>plan</think> {'spec':'# Y','tasks':[]}")
           [(str "spec", JStr (str "# Y")); (str "tasks", JArr [])]).
  - vm_compute. reflexivity.
  - vm_compute. discriminate.
Defined.

(** C8 fails as stated: a [tasks] key that is present and holds [null]
    is not returned as decoded. *)
Lemma extractJSON_null_tasks :
  JSON_parse (clean (lit "{'spec':'s','tasks':null}"))
  = Some (JObj [(str "spec", JStr (str "s")); (str "tasks", JNull)])
  /\ extractJSON (lit "{'spec':'s','tasks':null}")
     = Some (JObj [(str "spec", JStr (str "s")); (str "tasks", JArr [])]).
Proof. vm_compute. split; reflexivity. Qed.

End ExtractorTheorems.

Section BoardTheorems.
Import BoardApi.

(** C9: an authorized POST of a board document persists the document
    with the stored backlog in place of its own; every other field is
    persisted as sent. *)
Theorem saveBoard_preserves_backlog (token : option jsstring) (req : Req)
  (stored : option jsstring) (incoming : obj) (current : json) :
  req_method req = str "POST" ->
  checkAuth token req = true ->
  req_body req = Some (JObj incoming) ->
  redisGet stored = Some current ->
  current <> JNull ->
  backlog_is_list current ->
  let persisted := obj_set incoming (str "backlog") (stored_backlog current) in
  handler token req stored
  = Replied 200 (JObj [(str "ok", JBool true)]) (Some (stringify (JObj persisted)))
  /\ obj_get persisted (str "backlog") = Some (stored_backlog current)
  /\ obj_get persisted (str "columns") = obj_get incoming (str "columns")
  /\ obj_get persisted (str "initiatives") = obj_get incoming (str "initiatives")
  /\ (forall k, k <> str "backlog" -> obj_get persisted k = obj_get incoming k).
Proof.
  intros Hm Ha Hb Hg Hn Hl persisted.
  split.
  - unfold handler. rewrite Hm, Ha, Hb, Hg. cbn [negb].
    change (jsstring_eqb (str "POST") (str "OPTIONS")) with false.
    change (jsstring_eqb (str "POST") (str "GET")) with false.
    change (jsstring_eqb (str "POST") (str "POST")) with true. cbv iota.
    destruct current as [| | | | |]; try contradiction;
      unfold persisted, stored_backlog, backlog_is_list, redisSet in *;
      destruct (get _ (str "backlog")) as [[]|]; try contradiction; reflexivity.
  - split; [apply obj_get_set_same|].
    split; [apply obj_get_set_other; discriminate|].
    split; [apply obj_get_set_other; discriminate|].
    intros k Hk. now apply obj_get_set_other.
Qed.

Lemma saveBoard_preserves_backlog_witness :
  handler (Some (str "secret")) sample_request sample_store
  = Replied 200 (JObj [(str "ok", JBool true)])
      (Some (lit "{'columns':[],'initiatives':[],'backlog':[{'id':'proj-1'}]}")).
Proof.
  refine (proj1 (saveBoard_preserves_backlog (Some (str "secret")) sample_request
                   sample_store
                   [(str "columns", JArr []); (str "initiatives", JArr []);
                    (str "backlog", JArr [JObj [(str "id", JStr (str "forged"))]])]
                   (JObj [(str "columns", JArr []);
                          (str "backlog", JArr [JObj [(str "id", JStr (str "proj-1"))]])])
                   _ _ _ _ _ _)).
  - reflexivity.
  - vm_compute. reflexivity.
  - reflexivity.
  - vm_compute. reflexivity.
  - discriminate.
  - exact I.
Defined.

End BoardTheorems.

Section SupervisorFacts.
Import TaskRunner.

Lemma on_data_below (captured chunk : jsstring) :
  (units captured < MAX_STDOUT)%N -> on_data captured chunk = captured ++ chunk.
Proof. intros H. unfold on_data. apply N.ltb_lt in H. unfold units in H. now rewrite H. Qed.

Lemma on_data_full (captured chunk : jsstring) :
  (MAX_STDOUT <= units captured)%N -> on_data captured chunk = captured.
Proof. intros H. unfold on_data. apply N.ltb_ge in H. unfold units in H. now rewrite H. Qed.

Lemma units_app (a b : jsstring) : units (a ++ b) = (units a + units b)%N.
Proof. unfold units. rewrite length_app. lia. Qed.

(** A chunk that arrives below the limit is kept whole. *)
Lemma on_data_overshoot (captured chunk : jsstring) :
  (units captured < MAX_STDOUT)%N ->
  units (on_data captured chunk) = (units captured + units chunk)%N.
Proof. intros H. now rewrite on_data_below, units_app. Qed.

Lemma supervise_stdout (chunks : list jsstring) (out err : jsstring) (killed : bool) :
  supervise (map Stdout chunks) out err killed = (capture out chunks, err, killed).
Proof.
  revert out. induction chunks as [|c r IH]; intros out; [reflexivity|].
  cbn [map supervise capture]. apply IH.
Qed.

(** Output of at most the limit is captured in full. *)
Lemma capture_all (chunks : list jsstring) (captured : jsstring) :
  (units captured + units (concat chunks) <= MAX_STDOUT)%N ->
  capture captured chunks = captured ++ concat chunks.
Proof.
  revert captured. induction chunks as [|c r IH]; intros captured H.
  - cbn. now rewrite app_nil_r.
  - cbn [capture concat] in *. rewrite units_app in H.
    destruct c as [|x c].
    + unfold on_data. destruct (N.ltb _ _); cbn [app] in *;
        rewrite ?app_nil_r; apply IH; cbn [app] in H; unfold units in *; cbn in *; lia.
    + rewrite on_data_below.
      * rewrite IH; [now rewrite <- app_assoc|]. rewrite units_app. lia.
      * unfold units in *. cbn [length] in H. lia.
Qed.

(** Once the limit is reached, nothing more is captured. *)
Lemma capture_stops (chunks : list jsstring) (captured : jsstring) :
  (MAX_STDOUT <= units captured)%N -> capture captured chunks = captured.
Proof.
  revert captured. induction chunks as [|c r IH]; intros captured H; [reflexivity|].
  cbn [capture]. rewrite on_data_full by assumption. now apply IH.
Qed.

Lemma units_repeat (c : N) (n : N) : units (repeat c (N.to_nat n)) = n.
Proof. unfold units. rewrite repeat_length. apply N2Nat.id. Qed.

Lemma capture_app (captured : jsstring) (a b : list jsstring) :
  capture captured (a ++ b) = capture (capture captured a) b.
Proof.
  revert captured. induction a as [|c a IH]; intros captured; [reflexivity|].
  cbn [app capture]. apply IH.
Qed.

Lemma units_concat_repeat (c : jsstring) (n : nat) :
  units (concat (repeat c n)) = (N.of_nat n * units c)%N.
Proof.
  induction n as [|n IH]; [reflexivity|].
  cbn [repeat concat]. rewrite units_app, IH. lia.
Qed.

Lemma units_chunk (n : N) : units (chunk n) = n.
Proof. apply units_repeat. Qed.

(** C6 at its failing input: 159 chunks of 64 KiB, a chunk one code
    unit shorter, and one more chunk of 64 KiB.  The last chunk arrives
    one code unit below the limit and is kept whole: 10 MiB and 65535
    code units are captured. *)
Theorem capture_exceeds_limit :
  units (captured_stdout
           (map Stdout (repeat (chunk 65536) 159 ++ [chunk 65535; chunk 65536])))
  = (MAX_STDOUT + 65535)%N.
Proof.
  unfold captured_stdout. rewrite supervise_stdout. cbn [fst].
  change (repeat (chunk 65536) 159 ++ [chunk 65535; chunk 65536])
    with (repeat (chunk 65536) 159 ++ [chunk 65535] ++ [chunk 65536]).
  rewrite app_assoc, capture_app.
  assert (H : units (concat (repeat (chunk 65536) 159 ++ [chunk 65535]))
              = (MAX_STDOUT - 1)%N).
  { rewrite concat_app, units_app, units_concat_repeat. cbn [concat].
    rewrite app_nil_r, !units_chunk. reflexivity. }
  rewrite (capture_all (repeat (chunk 65536) 159 ++ [chunk 65535]) [])
    by (rewrite H; cbv; discriminate).
  cbn [app capture]. rewrite on_data_overshoot by (rewrite H; reflexivity).
  rewrite H, units_chunk. reflexivity.
Qed.

End SupervisorFacts.

Section RetryFacts.

(** C4 at its failing input: against a store that answers 401 to the
    token, each helper of the Task Runner sends one request and throws;
    [kanbanFetch] of the Spec Generator sends a second request without
    the header and returns. *)
Theorem task_runner_gives_up_on_401 :
  (let r := TaskRunner.kanbanGet tolerant_store API TOKEN (str "/api/board") initial in
   fst r = Throw (Error (str "Kanban GET /api/board: 401"))
   /\ map has_authorization (requests (snd r)) = [true])
  /\ (let r := TaskRunner.kanbanPut tolerant_store API TOKEN (str "/api/tasks/t1")
                 (JObj []) initial in
      fst r = Throw (Error (str "Kanban PUT /api/tasks/t1: 401"))
      /\ map has_authorization (requests (snd r)) = [true])
  /\ (let r := TaskRunner.kanbanPost tolerant_store API TOKEN (str "/api/board")
                 (JObj []) initial in
      fst r = Throw (Error (str "Kanban POST /api/board: 401"))
      /\ map has_authorization (requests (snd r)) = [true])
  /\ (let r := SpecServer.kanbanFetch tolerant_store API TOKEN (str "/api/board")
                 SpecServer.no_options initial in
      fst r = Ret (JObj [])
      /\ map has_authorization (requests (snd r)) = [true; false]).
Proof. vm_compute. repeat split. Qed.

End RetryFacts.

Section CanonicalObjects.

Implicit Types (o acc l : obj) (k : jsstring) (v x : json).

Lemma obj_get_absent o k : obj_get o k = None <-> ~ In k (map fst o).
Proof.
  induction o as [|[k' v'] o IH]; cbn [obj_get map fst In]; [tauto|].
  destruct (jsstring_eqb k' k) eqn:Ek.
  - apply jsstring_eqb_eq in Ek. split; [discriminate|]. intros H. exfalso. apply H. now left.
  - apply jsstring_eqb_neq in Ek. rewrite IH. tauto.
Qed.

Lemma keys_replace o k x : map fst (obj_replace o k x) = map fst o.
Proof.
  induction o as [|[k' v'] o IH]; [reflexivity|]. cbn [obj_replace].
  destruct (jsstring_eqb k' k); cbn [map fst]; [reflexivity | now rewrite IH].
Qed.

Lemma keys_insert o k x k' :
  In k' (map fst (obj_insert o k x)) <-> k' = k \/ In k' (map fst o).
Proof.
  induction o as [|[k0 v0] o IH]; cbn [obj_insert map fst In]; [intuition congruence|].
  destruct (array_index k) as [i|].
  - destruct (array_index k0) as [j|]; [destruct (i <? j)%N|]; cbn [map fst In];
      rewrite ?IH; intuition congruence.
  - cbn [map fst In]. rewrite IH. intuition congruence.
Qed.

Lemma NoDup_insert o k x :
  ~ In k (map fst o) -> NoDup (map fst o) -> NoDup (map fst (obj_insert o k x)).
Proof.
  induction o as [|[k0 v0] o IH]; intros Hk Hnd; cbn [obj_insert].
  - cbn. constructor; [tauto | constructor].
  - cbn [map fst In] in Hk. inversion Hnd as [|? ? H0 Hnd']; subst.
    assert (Hrec : NoDup (map fst ((k0, v0) :: obj_insert o k x))).
    { cbn [map fst]. constructor; [|apply IH; tauto].
      rewrite keys_insert. intros [->|H]; tauto. }
    assert (Hhead : NoDup (map fst ((k, x) :: (k0, v0) :: o))).
    { cbn [map fst]. constructor; [exact Hk | exact Hnd]. }
    destruct (array_index k) as [i|]; [|exact Hrec].
    destruct (array_index k0) as [j|]; [destruct (i <? j)%N|]; assumption.
Qed.

Lemma NoDup_set o k x : NoDup (map fst o) -> NoDup (map fst (obj_set o k x)).
Proof.
  intros Hnd. unfold obj_set. destruct (obj_get o k) eqn:Eg.
  - now rewrite keys_replace.
  - apply NoDup_insert; [now apply obj_get_absent | exact Hnd].
Qed.

Lemma NoDup_build l acc : NoDup (map fst acc) -> NoDup (map fst (build acc l)).
Proof.
  revert acc. induction l as [|[k v] l IH]; intros acc H; [exact H|].
  apply IH. now apply NoDup_set.
Qed.

Lemma replace_replace o k x k' v' :
  k' <> k ->
  obj_replace (obj_replace o k x) k' v' = obj_replace (obj_replace o k' v') k x.
Proof.
  intros Hk. induction o as [|[k0 v0] o IH]; [reflexivity|]. cbn [obj_replace].
  destruct (jsstring_eqb k0 k) eqn:E0; destruct (jsstring_eqb k0 k') eqn:E1;
    cbn [obj_replace]; rewrite ?E0, ?E1; try reflexivity.
  - apply jsstring_eqb_eq in E0, E1. congruence.
  - now rewrite IH.
Qed.

Lemma insert_replace o k x k' v' :
  k' <> k ->
  obj_insert (obj_replace o k x) k' v' = obj_replace (obj_insert o k' v') k x.
Proof.
  intros Hk. apply jsstring_eqb_neq in Hk.
  induction o as [|[k0 v0] o IH]; cbn [obj_replace obj_insert].
  - now rewrite Hk.
  - destruct (jsstring_eqb k0 k) eqn:E0; cbn [obj_insert];
      (destruct (array_index k') as [i|];
       [destruct (array_index k0) as [j|]; [destruct (i <? j)%N|]|]);
      cbn [obj_replace]; rewrite ?Hk, ?E0; try reflexivity; now rewrite IH.
Qed.

Lemma set_replace o k x k' v' :
  k' <> k -> obj_set (obj_replace o k x) k' v' = obj_replace (obj_set o k' v') k x.
Proof.
  intros Hk. unfold obj_set. rewrite obj_get_replace_other by exact Hk.
  destruct (obj_get o k'); [now apply replace_replace | now apply insert_replace].
Qed.

Lemma build_replace l acc k x :
  ~ In k (map fst l) -> build (obj_replace acc k x) l = obj_replace (build acc l) k x.
Proof.
  revert acc. induction l as [|[k' v'] l IH]; intros acc Hk; [reflexivity|].
  cbn [map fst In] in Hk. cbn [build fold_left fst snd]. fold (build (obj_set acc k' v') l).
  rewrite <- IH by tauto. fold (build (obj_set (obj_replace acc k x) k' v') l).
  rewrite set_replace; [reflexivity|]. intros ->. tauto.
Qed.

Lemma replace_twice o k v x : obj_replace (obj_replace o k v) k x = obj_replace o k x.
Proof.
  induction o as [|[k0 v0] o IH]; [reflexivity|]. cbn [obj_replace].
  destruct (jsstring_eqb k0 k) eqn:E0; cbn [obj_replace]; rewrite E0;
    [reflexivity | now rewrite IH].
Qed.

Lemma replace_inserted o k v x :
  obj_get o k = None -> obj_replace (obj_insert o k v) k x = obj_insert o k x.
Proof.
  induction o as [|[k0 v0] o IH]; cbn [obj_get obj_insert]; intros Hg.
  - cbn [obj_replace]. now rewrite jsstring_eqb_refl.
  - destruct (jsstring_eqb k0 k) eqn:E0; [discriminate|].
    destruct (array_index k) as [i|];
      [destruct (array_index k0) as [j|]; [destruct (i <? j)%N|]|];
      cbn [obj_replace]; rewrite ?jsstring_eqb_refl, ?E0; try reflexivity;
      now rewrite IH.
Qed.

Lemma replace_set o k v x : obj_replace (obj_set o k v) k x = obj_set o k x.
Proof.
  unfold obj_set. destruct (obj_get o k) eqn:Eg;
    [apply replace_twice | now apply replace_inserted].
Qed.

Lemma build_replaced l acc k x :
  NoDup (map fst l) ->
  build acc (obj_replace l k x)
  = match obj_get l k with
    | Some _ => obj_replace (build acc l) k x
    | None => build acc l
    end.
Proof.
  revert acc. induction l as [|[k' v'] l IH]; intros acc Hnd; [reflexivity|].
  cbn [map fst] in Hnd. inversion Hnd as [|? ? Hk' Hnd']; subst.
  cbn [obj_replace obj_get]. destruct (jsstring_eqb k' k) eqn:E0.
  - apply jsstring_eqb_eq in E0. subst k'.
    cbn [build fold_left fst snd]. fold (build (obj_set acc k x) l).
    fold (build (obj_set acc k v') l).
    rewrite <- build_replace by exact Hk'. now rewrite replace_set.
  - cbn [build fold_left fst snd]. fold (build (obj_set acc k' v') (obj_replace l k x)).
    fold (build (obj_set acc k' v') l). now apply IH.
Qed.

End CanonicalObjects.

Section SerializableFacts.

Lemma object_of_build (o : obj) : object_of o = build [] o.
Proof. reflexivity. Qed.

(** An object in canonical form lists each key once. *)
Lemma canonical_keys (o : obj) : object_of o = o -> NoDup (map fst o).
Proof.
  intros H. rewrite <- H, object_of_build. apply NoDup_build. constructor.
Qed.

Lemma canonical_replace (o : obj) (k : jsstring) (x : json) :
  object_of o = o -> object_of (obj_replace o k x) = obj_replace o k x.
Proof.
  intros H. rewrite object_of_build, build_replaced by now apply canonical_keys.
  rewrite <- object_of_build, H. destruct (obj_get o k) eqn:Eg; [reflexivity|].
  clear H. induction o as [|[k' v'] o IH]; [reflexivity|].
  cbn [obj_get obj_replace] in *. destruct (jsstring_eqb k' k); [discriminate|].
  f_equal. now apply IH.
Qed.

Lemma obj_insert_last (o : obj) (k : jsstring) (x : json) :
  array_index k = None -> obj_insert o k x = o ++ [(k, x)].
Proof.
  intros Hk. induction o as [|[k' v'] o IH]; cbn [obj_insert app]; [reflexivity|].
  rewrite Hk. now rewrite IH.
Qed.

(** The canonical form is kept by the assignment of a property whose
    name is no array index. *)
Lemma canonical_set (o : obj) (k : jsstring) (x : json) :
  array_index k = None -> object_of o = o -> object_of (obj_set o k x) = obj_set o k x.
Proof.
  intros Hk H. unfold obj_set. destruct (obj_get o k) eqn:Eg.
  - now apply canonical_replace.
  - rewrite obj_insert_last by exact Hk.
    unfold object_of. rewrite fold_left_app. cbn [fold_left fst snd].
    fold (object_of o). rewrite H. unfold obj_set. rewrite Eg.
    now apply obj_insert_last.
Qed.

Lemma members_replace (o : obj) (k : jsstring) (x : json) :
  members_serializable o -> serializable x -> members_serializable (obj_replace o k x).
Proof.
  intros Ho Hx. induction o as [|[k' v'] o IH]; [exact I|].
  destruct Ho as [Hv Ho]. cbn [obj_replace].
  destruct (jsstring_eqb k' k); cbn [members_serializable snd]; auto.
Qed.

Lemma members_insert (o : obj) (k : jsstring) (x : json) :
  members_serializable o -> serializable x -> members_serializable (obj_insert o k x).
Proof.
  intros Ho Hx. induction o as [|[k' v'] o IH]; [now split|].
  destruct Ho as [Hv Ho]. cbn [obj_insert].
  destruct (array_index k) as [i|];
    [destruct (array_index k') as [j|]; [destruct (i <? j)%N|]|];
    cbn [members_serializable snd]; auto.
Qed.

(** Serialization preserves what the assignment of a named property
    makes of a document it preserves. *)
Lemma serializable_set (v : json) (k : jsstring) (x : json) :
  array_index k = None -> serializable v -> serializable x -> serializable (set v k x).
Proof.
  intros Hk Hv Hx. destruct v as [| | | | |o]; try exact Hv.
  cbn [set]. rewrite serializable_obj in *. destruct Hv as [Hcan Hm].
  split; [now apply canonical_set|].
  unfold obj_set. destruct (obj_get o k); [now apply members_replace | now apply members_insert].
Qed.

Lemma members_get (o : obj) (k : jsstring) (x : json) :
  members_serializable o -> obj_get o k = Some x -> serializable x.
Proof.
  induction o as [|[k' v'] o IH]; [discriminate|]. intros [Hv Ho]. cbn [obj_get].
  destruct (jsstring_eqb k' k); [now intros [= <-] | now apply IH].
Qed.

Lemma all_nth (l : list json) (i : nat) (x : json) :
  all_serializable l -> nth_error l i = Some x -> serializable x.
Proof.
  revert i. induction l as [|y l IH]; intros [|i]; cbn; try discriminate; intros [Hy Hl].
  - now intros [= <-].
  - now apply IH.
Qed.

(** A property of a document that serialization preserves is preserved
    as well. *)
Lemma serializable_get (v : json) (k : jsstring) (x : json) :
  serializable v -> get v k = Some x -> serializable x.
Proof.
  destruct v as [| | |s|l|o]; cbn [get]; try discriminate.
  - intros _. destruct (array_index k); [|discriminate].
    destruct (nth_error s _); [|discriminate]. now intros [= <-].
  - rewrite serializable_arr. intros Hl. destruct (array_index k); [|discriminate].
    now apply all_nth.
  - rewrite serializable_obj. intros [_ Hm]. now apply members_get.
Qed.

End SerializableFacts.

Section DispatchFacts.
Local Open Scope eff_scope.
Import TaskRunner.
Variable E : env.
Variables KANBAN_API KANBAN_TOKEN : jsstring.
Variable agentsConfig : list Agent.
Variable colIds : ColIds.
Variables WORKSPACES_DIR RESULTS_DIR : jsstring.
Variable path_join : jsstring -> jsstring -> jsstring.
Variable toISOString : Z -> jsstring.
Local Abbreviation no_fault := (no_fault E).
Local Abbreviation agent_succeeds := (agent_succeeds E agentsConfig).
Local Abbreviation unavailable := (unavailable agentsConfig).
Local Abbreviation templated := (templated agentsConfig).
Local Abbreviation refusal := (refusal agentsConfig).
Local Abbreviation put_request := (put_request KANBAN_API KANBAN_TOKEN).
Local Abbreviation update_request := (update_request KANBAN_API KANBAN_TOKEN).
Local Abbreviation move_request := (move_request KANBAN_API KANBAN_TOKEN).
Local Abbreviation retry_column := (retry_column colIds).
Local Abbreviation required_mb := (required_mb agentsConfig).
Local Abbreviation attempts_after_dispatch := (attempts_after_dispatch agentsConfig).

Lemma requests_app_event (w : world) (e : event) :
  requests (mkWorld (log w ++ [e]) (clock w) (activeAgents w) (completedCount w))
  = requests w ++ match e with EFetch rq => [rq] | _ => [] end.
Proof.
  unfold requests. cbn [log]. rewrite flat_map_app. cbn. now rewrite app_nil_r.
Qed.

Lemma spawns_app_event (w : world) (e : event) :
  spawns (mkWorld (log w ++ [e]) (clock w) (activeAgents w) (completedCount w))
  = spawns w ++ match e with ESpawn _ _ _ => [e] | _ => [] end.
Proof.
  unfold spawns. cbn [log]. rewrite filter_app. cbn. now destruct e.
Qed.

Lemma spawns_sent (w : world) (rqs : list request) : spawns (sent w rqs) = spawns w.
Proof.
  unfold spawns, sent. cbn [log]. rewrite filter_app.
  replace (filter _ (map EFetch rqs)) with (@nil event); [now rewrite app_nil_r|].
  induction rqs as [|r rqs IH]; [reflexivity|]. cbn. exact IH.
Qed.

(** A call the machine does not refuse is on record. *)
Lemma perform_granted (e : event) (w : world) :
  fault E (length (log w)) = None -> perform E e w = emit e w.
Proof. intros H. unfold perform. now rewrite H. Qed.

Lemma perform_refused (e : event) (w : world) (msg : jsstring) :
  fault E (length (log w)) = Some msg -> perform E e w = (Throw (Error msg), w).
Proof. intros H. unfold perform. now rewrite H. Qed.

Lemma quiet_perform (e : event) (w : world) :
  no_fault ->
  match e with EFetch _ | ESpawn _ _ _ => False | _ => True end ->
  quiet (perform E e) w tt.
Proof.
  intros Hn He. eexists. split; [apply perform_granted, Hn|]. unfold emit.
  rewrite requests_app_event, spawns_app_event. cbn [completedCount activeAgents].
  destruct e; try contradiction; now rewrite !app_nil_r.
Qed.

Lemma quiet_Date_now (w : world) : quiet (Date_now E) w (date_now E (clock w)).
Proof. eexists. split; [reflexivity|]. now repeat split. Qed.

Lemma quiet_ret (A : Type) (a : A) (w : world) : quiet (ret a) w a.
Proof. eexists. split; [reflexivity|]. now repeat split. Qed.

Lemma quiet_bind (A B : Type) (m : M A) (k : A -> M B) (w : world) (a : A) (b : B) :
  quiet m w a -> (forall w', quiet (k a) w' b) -> quiet (bind m k) w b.
Proof.
  intros (w1 & H1 & R1 & S1 & C1 & A1) Hk.
  destruct (Hk w1) as (w2 & H2 & R2 & S2 & C2 & A2).
  exists w2. unfold bind. rewrite H1. split; [assumption|]. repeat split; congruence.
Qed.

(** The archive of a result touches the file system only, and returns
    when the machine refuses nothing. *)
Lemma quiet_collectResult (taskId workDir : jsstring) (r : AgentResult) (w : world) :
  no_fault ->
  exists summary,
    quiet (collectResult E RESULTS_DIR path_join toISOString taskId workDir r) w summary.
Proof.
  intros Hn. unfold collectResult.
  destruct (result_md E) as [content|] eqn:Emd; eexists.
  - apply quiet_bind with (a := tt); [now apply quiet_perform|]. intros w1.
    apply quiet_bind with (a := tt); [now apply quiet_perform|]. intros w2.
    eapply quiet_bind.
    { apply quiet_bind with (a := tt); [now apply quiet_perform|]. intros w3.
      apply quiet_bind with (a := tt); [now apply quiet_perform|]. intros w4.
      apply quiet_ret. }
    intros w3.
    eapply quiet_bind; [apply quiet_Date_now|]. intros w4.
    apply quiet_bind with (a := tt); [now apply quiet_perform|]. intros w5.
    apply quiet_ret.
  - apply quiet_bind with (a := tt); [now apply quiet_perform|]. intros w1.
    apply quiet_bind with (a := tt); [now apply quiet_perform|]. intros w2.
    eapply quiet_bind.
    { apply quiet_bind with (a := tt); [now apply quiet_perform|]. intros w3.
      apply quiet_ret. }
    intros w3.
    eapply quiet_bind; [apply quiet_Date_now|]. intros w4.
    apply quiet_bind with (a := tt); [now apply quiet_perform|]. intros w5.
    apply quiet_ret.
Qed.

Lemma unavailable_templated (agent : json) :
  unavailable agent = true -> templated agent = true.
Proof.
  unfold unavailable, templated.
  destruct (find (is_agent agent) agentsConfig) as [a|]; [|reflexivity].
  intros ->. reflexivity.
Qed.

Lemma spawnAgent_unavailable (agent : json) (prompt workDir taskId : jsstring) (w : world) :
  unavailable agent = true ->
  spawnAgent E agentsConfig agent prompt workDir taskId w = (Ret (refusal agent), w).
Proof.
  unfold unavailable, spawnAgent, refusal.
  destruct (find (is_agent agent) agentsConfig) as [a|]; [|reflexivity].
  intros H. now rewrite H.
Qed.

(** The run of the agent, when its entry has an argument template and
    the machine does not refuse the spawn. *)
Lemma spawnAgent_spec (agent : json) (prompt workDir taskId : jsstring) (w : world) :
  no_fault ->
  templated agent = true ->
  exists r w', spawnAgent E agentsConfig agent prompt workDir taskId w = (Ret r, w')
               /\ requests w' = requests w
               /\ completedCount w' = completedCount w
               /\ activeAgents w' = activeAgents w
               /\ success r = agent_succeeds agent
               /\ (unavailable agent = true -> r = refusal agent /\ w' = w).
Proof.
  intros Hn Ht. destruct (unavailable agent) eqn:Eu.
  - exists (refusal agent), w. rewrite spawnAgent_unavailable by assumption.
    repeat split. unfold agent_succeeds, refusal. cbn [success].
    unfold unavailable in Eu.
    destruct (find (is_agent agent) agentsConfig) as [a|]; [|reflexivity].
    apply negb_true_iff in Eu. now rewrite Eu.
  - unfold unavailable in Eu. unfold templated in Ht. unfold spawnAgent, agent_succeeds.
    destruct (find (is_agent agent) agentsConfig) as [a|]; [|discriminate].
    apply negb_false_iff in Eu. rewrite Eu in *. cbn [negb andb orb] in *.
    destruct (args a) as [template|]; [|discriminate Ht].
    unfold bind, Date_now, perform, ret. cbn [clock log activeAgents completedCount].
    rewrite Hn. unfold emit. cbn [clock log activeAgents completedCount].
    destruct (supervise (events (child E)) [] [] false) as [[out err] killed].
    cbn [snd].
    destruct (ending (child E)) as [code|msg]; eexists _, _;
      (split; [reflexivity|]);
      (split; [unfold requests; cbn [log]; rewrite flat_map_app; cbn;
               now rewrite app_nil_r|]);
      (split; [reflexivity|]); (split; [reflexivity|]);
      (split; [|discriminate]); cbn [success]; [|reflexivity].
    destruct code as [[| |]|]; reflexivity.
Qed.

(** [kanbanPut] sends its request and returns exactly on an accepted
    answer. *)
Lemma kanbanPut_outcome (urlPath : jsstring) (data : json) (w : world) :
  exists r, kanbanPut E KANBAN_API KANBAN_TOKEN urlPath data w
            = (r, sent w [put_request urlPath data])
            /\ match r with
               | Ret _ => accepted (answer E w (put_request urlPath data)) = true
               | Throw _ => accepted (answer E w (put_request urlPath data)) = false
               | Beyond => False
               end.
Proof.
  rewrite kanbanPut_spec. fold (put_request urlPath data). eexists. split; [reflexivity|].
  unfold accepted. destruct (answer E w (put_request urlPath data)) as [msg|st tx];
    cbn [read_json]; [reflexivity|].
  destruct (ok st); cbn [andb]; [|reflexivity]. now destruct (JSON_parse tx).
Qed.

(** The write of a description followed by a move, in one [try]: the
    move is requested exactly when the write is accepted. *)
Lemma write_and_move (taskId description : jsstring) (column : json) (w : world) :
  best_effort
    (updateTask E KANBAN_API KANBAN_TOKEN taskId
                (JObj [(str "description", JStr description)]) ;;;
     moveTask E KANBAN_API KANBAN_TOKEN taskId column ;;; ret tt) w
  = (Ret tt,
     sent w (update_request taskId description ::
             if accepted (answer E w (update_request taskId description))
             then [move_request taskId column] else [])).
Proof.
  unfold best_effort, try_catch, bind, updateTask, moveTask.
  destruct (kanbanPut_outcome (str "/api/tasks/" ++ taskId)
              (JObj [(str "description", JStr description)]) w) as (r & -> & Hr).
  fold (update_request taskId description) in *.
  destruct r as [v|e|]; [|now rewrite Hr|contradiction]. rewrite Hr.
  destruct (kanbanPut_outcome (str "/api/tasks/" ++ taskId ++ str "/move")
              (JObj [(str "targetColumnId", column)])
              (sent w [update_request taskId description])) as (r' & -> & Hr').
  fold (move_request taskId column). rewrite sent_app. cbn [app].
  destruct r'; [reflexivity | reflexivity | contradiction].
Qed.

Lemma write_only (taskId description : jsstring) (w : world) :
  best_effort
    (updateTask E KANBAN_API KANBAN_TOKEN taskId
                (JObj [(str "description", JStr description)]) ;;; ret tt) w
  = (Ret tt, sent w [update_request taskId description]).
Proof.
  unfold best_effort, try_catch, bind, updateTask.
  destruct (kanbanPut_outcome (str "/api/tasks/" ++ taskId)
              (JObj [(str "description", JStr description)]) w) as (r & -> & Hr).
  destruct r; [reflexivity | reflexivity | contradiction].
Qed.

Lemma move_only (taskId : jsstring) (column : json) (w : world) :
  best_effort (moveTask E KANBAN_API KANBAN_TOKEN taskId column ;;; ret tt) w
  = (Ret tt, sent w [move_request taskId column]).
Proof.
  unfold best_effort, try_catch, bind, moveTask.
  destruct (kanbanPut_outcome (str "/api/tasks/" ++ taskId ++ str "/move")
              (JObj [(str "targetColumnId", column)]) w) as (r & -> & Hr).
  destruct r; [reflexivity | reflexivity | contradiction].
Qed.

Lemma setAgentMeta_embedded (task : Task) (meta : json) :
  setAgentMeta (task_description task) meta = embedded task meta.
Proof.
  unfold setAgentMeta, embedded, META_SEPARATOR, SENTINEL. now rewrite <- !app_assoc.
Qed.

Lemma failed_meta_attempts (meta : json) (result : AgentResult)
  (summary resultPath : jsstring) :
  get (failed_meta meta result summary resultPath) (str "attempts")
  = get meta (str "attempts").
Proof.
  unfold failed_meta. rewrite !get_set_other by keys_differ. reflexivity.
Qed.

Lemma settled_meta_attempts (meta : json) (result : AgentResult)
  (summary resultPath : jsstring) (n : Z) :
  get (settled_meta meta result summary resultPath n) (str "attempts")
  = get meta (str "attempts").
Proof.
  unfold settled_meta. destruct (n <? MAX_ATTEMPTS)%Z.
  - rewrite get_set_other by keys_differ. apply failed_meta_attempts.
  - apply failed_meta_attempts.
Qed.

Lemma settled_meta_status (o : obj) (result : AgentResult)
  (summary resultPath : jsstring) (n : Z) :
  get (settled_meta (JObj o) result summary resultPath n) (str "status")
  = Some (JStr (retry_status n)).
Proof.
  unfold settled_meta, retry_status, failed_meta.
  destruct (n <? MAX_ATTEMPTS)%Z.
  - rewrite !set_object. cbn [get]. apply obj_get_set_same.
  - rewrite !get_set_other by keys_differ. apply get_set_same.
Qed.

Lemma settled_meta_error (o : obj) (result : AgentResult)
  (summary resultPath : jsstring) (n : Z) :
  get (settled_meta (JObj o) result summary resultPath n) (str "lastError")
  = Some (JStr (error_message result)).
Proof.
  unfold settled_meta, failed_meta.
  destruct (n <? MAX_ATTEMPTS)%Z; rewrite !get_set_other by keys_differ;
    rewrite !set_object; apply get_set_same.
Qed.

Lemma bind_ret_eq (A B : Type) (m : M A) (k : A -> M B) (w w1 : world) (a : A) :
  m w = (Ret a, w1) -> bind m k w = k a w1.
Proof. intros H. unfold bind. now rewrite H. Qed.

Arguments bind_ret_eq {A B m k w w1 a} _.

(** The end of a failed run: the settled meta is written, and the
    task is moved when that write is accepted. *)
Lemma settle_failure (task : Task) (meta : json) (result : AgentResult)
  (summary resultPath : jsstring) (n : Z) (w : world) :
  success result = false ->
  get meta (str "attempts") = Some (JInt n) ->
  let written :=
    update_request (id task)
      (embedded task (settled_meta meta result summary resultPath n)) in
  settle E KANBAN_API KANBAN_TOKEN colIds task meta result summary resultPath w
  = (Ret tt,
     sent w (written :: if accepted (answer E w written)
                        then [move_request (id task) (retry_column n)] else [])).
Proof.
  intros Hf Hn written. unfold settle. rewrite Hf.
  fold (failed_meta meta result summary resultPath).
  rewrite failed_meta_attempts, Hn. cbn [below_max JInt].
  change (10 ^ Z.of_N 0)%Z with 1%Z. rewrite Z.mul_1_r.
  unfold written, settled_meta, retry_column.
  destruct (n <? MAX_ATTEMPTS)%Z; rewrite <- setAgentMeta_embedded; apply write_and_move.
Qed.

(** The end of a successful run. *)
Lemma settle_success (task : Task) (meta : json) (result : AgentResult)
  (summary resultPath : jsstring) (w : world) :
  success result = true ->
  let written :=
    update_request (id task) (embedded task (review_meta meta summary resultPath)) in
  let w' := sent w (written :: if accepted (answer E w written)
                               then [move_request (id task) (review colIds)] else []) in
  settle E KANBAN_API KANBAN_TOKEN colIds task meta result summary resultPath w
  = (Ret tt, mkWorld (log w') (clock w') (activeAgents w') (S (completedCount w'))).
Proof.
  intros Hs written w'. unfold settle. rewrite Hs.
  fold (review_meta meta summary resultPath). rewrite setAgentMeta_embedded.
  now rewrite (bind_ret_eq (write_and_move (id task) _ (review colIds) w)).
Qed.

Lemma running_meta_attempts (task : Task) (agent : json) (s s' : jsstring) :
  get (running_meta task agent s) (str "attempts")
  = get (running_meta task agent s') (str "attempts").
Proof.
  unfold running_meta. now rewrite !(get_set_other _ (str "startedAt")) by keys_differ.
Qed.

Lemma running_meta_object (task : Task) (agent : json) (s : jsstring) (x : json) :
  get (running_meta task agent s) (str "attempts") = Some x ->
  (exists o, running_meta task agent s = JObj o)
  /\ is_array (parseAgentMeta (task_description task)) = false.
Proof.
  intros H. split.
  - apply (get_named _ (str "attempts") x); [reflexivity | assumption].
  - destruct (parseAgentMeta (task_description task)) eqn:Ep; try reflexivity.
    exfalso. unfold running_meta in H. rewrite Ep in H. cbn in H. discriminate.
Qed.

Lemma map_delete_get (m : list (jsstring * json)) (k : jsstring) :
  obj_get (map_delete m k) k = None.
Proof.
  induction m as [|[k' v] m IH]; [reflexivity|]. cbn [map_delete filter fst].
  destruct (jsstring_eqb k' k) eqn:Ek; cbn [negb]; [exact IH|].
  cbn [obj_get]. rewrite Ek. exact IH.
Qed.

(** A dispatch up to the end of the run of the agent, when the
    machine refuses nothing, the entry of the agent has an argument
    template and the board data can be read: the
    running meta is written, the move to [Agent WIP] is requested, the
    agent runs and its result is archived. *)
Lemma processTask_run (task : Task) (boardData : json) (w : world) :
  let agent := routeToAgent agentsConfig task in
  no_fault ->
  templated agent = true ->
  (required_mb agent <= free_mb E)%Z ->
  is_array (parseAgentMeta (task_description task)) = false ->
  related_tasks task boardData <> None ->
  exists (w8 : world) (started summary : jsstring) (result : AgentResult),
    processTask E KANBAN_API KANBAN_TOKEN agentsConfig colIds WORKSPACES_DIR RESULTS_DIR
                path_join toISOString task boardData w
    = settle E KANBAN_API KANBAN_TOKEN colIds task (running_meta task agent started)
             result summary (path_join RESULTS_DIR (id task)) w8
    /\ requests w8 =
       requests w ++
       [update_request (id task) (embedded task (running_meta task agent started));
        move_request (id task) (wip colIds)]
    /\ completedCount w8 = completedCount w
    /\ obj_get (activeAgents w8) (id task) = None
    /\ success result = agent_succeeds agent
    /\ (unavailable agent = true -> result = refusal agent /\ spawns w8 = spawns w).
Proof.
  intros agent Hn Htpl Hram Harr Hrel.
  unfold processTask. fold agent. fold (required_mb agent).
  replace (free_mb E <? required_mb agent)%Z with false
    by (symmetry; apply Z.ltb_ge; exact Hram).
  destruct (quiet_perform (EMkdir (path_join WORKSPACES_DIR (id task))) w Hn I)
    as (w1 & H1 & R1 & S1 & C1 & A1).
  rewrite (bind_ret_eq H1). rewrite Harr.
  destruct (quiet_Date_now w1) as (w2 & H2 & R2 & S2 & C2 & A2).
  rewrite (bind_ret_eq H2).
  set (started := toISOString (date_now E (clock w1))).
  set (meta := running_meta task agent started).
  rewrite setAgentMeta_embedded.
  rewrite (bind_ret_eq (write_only (id task) _ w2)).
  rewrite (bind_ret_eq (move_only (id task) (wip colIds) _)).
  rewrite sent_app. cbn [app].
  set (w3 := sent w2 _).
  destruct (quiet_Date_now w3) as (w4 & H4 & R4 & S4 & C4 & A4).
  rewrite (bind_ret_eq H4).
  erewrite bind_ret_eq; [|unfold activeAgents_set; reflexivity].
  set (w5 := mkWorld _ _ _ _).
  destruct (related_tasks task boardData) as [rel|]; [|now destruct Hrel].
  erewrite bind_ret_eq; [|reflexivity].
  match goal with
  | |- context [spawnAgent E agentsConfig agent ?p ?d ?t] =>
    destruct (spawnAgent_spec agent p d t w5 Hn Htpl)
      as (result & w6 & H6 & R6 & C6 & A6 & Hs6 & Hu6)
  end.
  rewrite (bind_ret_eq H6).
  erewrite bind_ret_eq; [|unfold activeAgents_delete; reflexivity].
  set (w7 := mkWorld _ _ _ _).
  destruct (quiet_collectResult (id task) (path_join WORKSPACES_DIR (id task)) result w7 Hn)
    as (summary & w8 & H8 & R8 & S8 & C8 & A8).
  rewrite (bind_ret_eq H8).
  exists w8, started, summary, result. split; [reflexivity|].
  assert (R7 : requests w7 = requests w6) by reflexivity.
  assert (R5 : requests w5 = requests w4) by reflexivity.
  split.
  { rewrite R8, R7, R6, R5, R4. unfold w3. rewrite requests_sent, R2, R1. reflexivity. }
  split.
  { rewrite C8. unfold w7. cbn [completedCount]. rewrite C6. unfold w5.
    cbn [completedCount]. rewrite C4. unfold w3.
    change (completedCount (sent w2 _)) with (completedCount w2). congruence. }
  split.
  { rewrite A8. unfold w7. cbn [activeAgents]. apply map_delete_get. }
  split; [exact Hs6|].
  intros Hu. destruct (Hu6 Hu) as [-> ->]. split; [reflexivity|].
  rewrite S8. unfold w7, w5, spawns. cbn [log]. fold (spawns w4). rewrite S4.
  unfold w3. now rewrite spawns_sent, S2, S1.
Qed.

End DispatchFacts.

Section SupervisorBound.
Import TaskRunner.

(** What the handler does guarantee: the capture stays below the limit
    plus the size of the largest chunk. *)
Lemma capture_bound (m : N) (chunks : list jsstring) (captured : jsstring) :
  Forall (fun c => (units c <= m)%N) chunks ->
  (units captured < MAX_STDOUT + m)%N ->
  (units (capture captured chunks) < MAX_STDOUT + m)%N.
Proof.
  intros Hall. revert captured.
  induction Hall as [|c r Hc _ IH]; intros captured H; [exact H|].
  cbn [capture]. apply IH.
  destruct (N.ltb_spec (units captured) MAX_STDOUT) as [Hlt|Hge].
  - rewrite on_data_overshoot by assumption. lia.
  - now rewrite on_data_full.
Qed.

Variable E : env.
Variable agentsConfig : list Agent.

(** The exit code of a child that was started is reported whatever
    was captured. *)
Lemma spawnAgent_reports_exit (agent : json) (prompt workDir taskId : jsstring)
      (code : option Z) (w : world) :
  unavailable agentsConfig agent = false ->
  templated agentsConfig agent = true ->
  fault E (length (log w)) = None ->
  ending (child E) = Close code ->
  exists r w', spawnAgent E agentsConfig agent prompt workDir taskId w = (Ret r, w')
               /\ exitCode r = code
               /\ stdout r = captured_stdout (events (child E))
               /\ stderr r = captured_stderr (events (child E)).
Proof.
  intros Eu Ht Hgo Hend. unfold unavailable in Eu. unfold templated in Ht.
  unfold spawnAgent.
  destruct (find (is_agent agent) agentsConfig) as [a|]; [|discriminate].
  apply negb_false_iff in Eu. rewrite Eu in *. cbn [negb orb] in *.
  destruct (args a) as [template|]; [|discriminate Ht].
  unfold bind, Date_now, perform, ret, captured_stdout, captured_stderr.
  cbn [log]. rewrite Hgo. unfold emit.
  destruct (supervise (events (child E)) [] [] false) as [[out err] killed].
  rewrite Hend. eexists _, _. repeat split.
Qed.

End SupervisorBound.

Section RoutingSpec.
Import TaskRunner.

Lemma insert_desc_head (x : jsstring * nat) (l : list (jsstring * nat)) :
  hd_error (insert_desc x l) =
  match hd_error l with
  | Some y => if (snd x <? snd y)%nat then Some y else Some x
  | None => Some x
  end.
Proof.
  destruct l as [|y r]; [reflexivity|]. cbn [insert_desc hd_error].
  now destruct (snd x <? snd y)%nat.
Qed.

(** A stable sort by descending score begins with the first of the
    highest-scoring entries. *)
Lemma sort_desc_head (l : list (jsstring * nat)) :
  hd_error (sort_desc l) = best_entry l.
Proof.
  induction l as [|x l IH]; [reflexivity|].
  cbn [sort_desc best_entry]. now rewrite insert_desc_head, IH.
Qed.

Lemma obj_insert_named (V : Type) (o : list (jsstring * V)) (k : jsstring) (v : V) :
  array_index k = None -> obj_insert o k v = o ++ [(k, v)].
Proof.
  intros Hk. induction o as [|[k' v'] o IH]; cbn [obj_insert app]; [reflexivity|].
  rewrite Hk. now rewrite IH.
Qed.

Lemma obj_get_app_none (V : Type) (o : list (jsstring * V)) (k k' : jsstring) (v : V) :
  obj_get o k = None -> k' <> k -> obj_get (o ++ [(k', v)]) k = None.
Proof.
  intros Ho Hk. induction o as [|[k0 v0] o IH]; cbn [app obj_get] in *.
  - apply jsstring_eqb_neq in Hk. now rewrite Hk.
  - destruct (jsstring_eqb k0 k); [discriminate|]. now apply IH.
Qed.

(** The entries of the score table: the agents that scored, in registry
    order, when their ids are distinct names the table can hold. *)
Lemma scores_entries (text : jsstring) (l : list Agent) (acc : list (jsstring * nat)) :
  NoDup (map agent_id l) ->
  (forall a, In a l -> array_index (agent_id a) = None
                       /\ agent_id a <> str "__proto__") ->
  (forall a, In a l -> obj_get acc (agent_id a) = None) ->
  fold_left (fun scores agent =>
               let score := keyword_score text agent in
               if (0 <? score)%nat then score_set scores (agent_id agent) score else scores)
            l acc
  = acc ++ map (fun a => (agent_id a, keyword_score text a))
               (filter (fun a => (0 <? keyword_score text a)%nat) l).
Proof.
  revert acc. induction l as [|a l IH]; intros acc Hnd Hidx Hfresh.
  - cbn. now rewrite app_nil_r.
  - cbn [fold_left filter map]. inversion Hnd as [|? ? Hnotin Hnd']; subst.
    destruct (0 <? keyword_score text a)%nat eqn:Epos.
    + assert (Hset : score_set acc (agent_id a) (keyword_score text a)
                     = acc ++ [(agent_id a, keyword_score text a)]).
      { unfold score_set.
        destruct (Hidx a (or_introl eq_refl)) as [Hi Hp].
        apply jsstring_eqb_neq in Hp. rewrite Hp.
        unfold obj_set. rewrite (Hfresh a) by now left.
        now apply obj_insert_named. }
      rewrite Hset.
      rewrite IH.
      * cbn [map]. now rewrite <- app_assoc.
      * assumption.
      * intros b Hb. apply Hidx. now right.
      * intros b Hb. apply obj_get_app_none.
        -- apply Hfresh. now right.
        -- intros Heq. apply Hnotin. rewrite Heq. now apply in_map.
    + apply IH; [assumption| |].
      * intros b Hb. apply Hidx. now right.
      * intros b Hb. apply Hfresh. now right.
Qed.

Lemma keyword_score_insensitive (t : jsstring) (a : Agent) :
  (forall kw, In kw (keyword_list a) -> toLowerCase kw = kw) ->
  keyword_score (toLowerCase t) a = score_insensitive t a.
Proof.
  intros Hlow. unfold keyword_score, score_insensitive. f_equal.
  apply filter_ext_in. intros kw Hkw. now rewrite (Hlow kw Hkw).
Qed.

Lemma keyword_score_needs_keywords (t : jsstring) (a : Agent) :
  (0 <? keyword_score t a)%nat = true -> has_keywords a = true.
Proof.
  unfold keyword_score, keyword_list, has_keywords.
  destruct (keywords a) as [[|kw l]|]; cbn; intros H;
    reflexivity || discriminate H.
Qed.

Lemma scoring_candidates (t : jsstring) (l : list Agent) :
  filter (fun a => (0 <? keyword_score t a)%nat)
         (filter (fun a => enabled a && has_keywords a) l)
  = filter (fun a => (0 <? keyword_score t a)%nat) (filter enabled l).
Proof.
  induction l as [|a l IH]; [reflexivity|]. cbn [filter].
  destruct (enabled a); cbn [andb filter].
  - destruct (has_keywords a) eqn:Ek; cbn [filter].
    + now rewrite IH.
    + destruct (0 <? keyword_score t a)%nat eqn:Epos; [|exact IH].
      apply keyword_score_needs_keywords in Epos. congruence.
  - exact IH.
Qed.

Lemma best_In (sc : Agent -> nat) (l : list Agent) (b : Agent) :
  best sc l = Some b -> In b l.
Proof.
  revert b. induction l as [|a l IH]; intros b; cbn [best]; [discriminate|].
  destruct (best sc l) as [b'|].
  - destruct (sc a <? sc b')%nat; intros [= <-]; [right; now apply IH | now left].
  - intros [= <-]. now left.
Qed.

Lemma best_ext (sc sc' : Agent -> nat) (l : list Agent) :
  (forall a, In a l -> sc a = sc' a) -> best sc l = best sc' l.
Proof.
  induction l as [|a l IH]; intros Hext; [reflexivity|]. cbn [best].
  rewrite <- IH by (intros b Hb; apply Hext; now right).
  destruct (best sc l) as [b|] eqn:Eb; [|reflexivity].
  rewrite <- (Hext a) by now left.
  rewrite <- (Hext b) by (right; now apply best_In with sc).
  reflexivity.
Qed.

(** The head of the sorted score table is the best agent, when it scored. *)
Lemma best_entry_scoring (sc : Agent -> nat) (l : list Agent) :
  best_entry (map (fun a => (agent_id a, sc a)) (filter (fun a => (0 <? sc a)%nat) l))
  = match best sc l with
    | Some b => if (0 <? sc b)%nat then Some (agent_id b, sc b) else None
    | None => None
    end.
Proof.
  induction l as [|a l IH]; [reflexivity|]. cbn [filter best].
  destruct (0 <? sc a)%nat eqn:Ea.
  - cbn [map best_entry]. rewrite IH. cbn [snd].
    destruct (best sc l) as [b|]; [|now rewrite Ea].
    destruct (0 <? sc b)%nat eqn:Eb.
    + cbn [snd]. destruct (sc a <? sc b)%nat; [now rewrite Eb | now rewrite Ea].
    + apply Nat.ltb_ge in Eb.
      assert (Hlt : (sc a <? sc b)%nat = false) by (apply Nat.ltb_ge; lia).
      now rewrite Hlt, Ea.
  - rewrite IH. destruct (best sc l) as [b|]; [|now rewrite Ea].
    destruct (0 <? sc b)%nat eqn:Eb.
    + apply Nat.ltb_lt in Eb. apply Nat.ltb_ge in Ea.
      assert (Hlt : (sc a <? sc b)%nat = true) by (apply Nat.ltb_lt; lia).
      rewrite Hlt. apply Nat.ltb_lt in Eb. now rewrite Eb.
    + apply Nat.ltb_ge in Eb. apply Nat.ltb_ge in Ea.
      assert (Hlt : (sc a <? sc b)%nat = false) by (apply Nat.ltb_ge; lia).
      rewrite Hlt. apply Nat.ltb_ge in Ea. now rewrite Ea.
Qed.

(** Distinct ids stay distinct among the agents a filter keeps. *)
Lemma kept_ids_distinct (keep : Agent -> bool) (agents : list Agent) :
  NoDup (map agent_id agents) -> NoDup (map agent_id (filter keep agents)).
Proof.
  induction agents as [|a agents IH]; cbn [map filter]; intros H; [constructor|].
  inversion H as [|? ? Hnotin Hnd]; subst.
  destruct (keep a); [|now apply IH]. cbn [map]. constructor; [|now apply IH].
  intros Hin. apply Hnotin. apply in_map_iff in Hin as [x [Hx Hin]].
  apply filter_In in Hin as [Hin _]. rewrite <- Hx. now apply in_map.
Qed.

(** X7: on a registry whose keywords are in Latin-1 and in lower case
    and whose ids are distinct, no array indices and not [__proto__],
    and for a task whose title and description are in Latin-1, the
    router of the code is the router the specification words:
    case-insensitive scores, the first of the highest-scoring enabled
    agents, then the default agent, the first enabled agent and the
    fallback id. *)
Theorem routeToAgent_agrees (agentsConfig : list Agent) (task : Task) :
  well_keyed agentsConfig ->
  plain_task task ->
  routeToAgent agentsConfig task = routeToAgent_claim agentsConfig task.
Proof.
  intros [Hlow [Hnd Hidx]] _. unfold routeToAgent, routeToAgent_claim. cbv zeta.
  destruct (truthy (parseAgentMeta (task_description task))
            && truthy_opt (get (parseAgentMeta (task_description task)) (str "agent")));
    [reflexivity|].
  assert (Ht : match title task with Some ((_ :: _) as t) => t | _ => [] end
               = match title task with Some t => t | None => [] end)
    by (destruct (title task) as [[|c t]|]; reflexivity).
  rewrite Ht. clear Ht.
  set (text0 := match title task with Some t => t | None => [] end
                ++ str " " ++ getCleanDescription (task_description task)).
  rewrite scores_entries.
  - cbn [app]. rewrite scoring_candidates.
    set (entries := map _ _).
    assert (Hhead : hd_error (sort_desc entries)
                    = match best (score_insensitive text0) (filter enabled agentsConfig) with
                      | Some b => if (0 <? score_insensitive text0 b)%nat
                                  then Some (agent_id b, keyword_score (toLowerCase text0) b)
                                  else None
                      | None => None
                      end).
    { rewrite sort_desc_head. unfold entries. rewrite best_entry_scoring.
      assert (Hext : forall a, In a (filter enabled agentsConfig) ->
                keyword_score (toLowerCase text0) a = score_insensitive text0 a).
      { intros a Ha. apply filter_In in Ha as [Ha _].
        apply keyword_score_insensitive. intros kw Hkw. now apply (Hlow a kw). }
      rewrite (best_ext _ _ _ Hext).
      destruct (best (score_insensitive text0) (filter enabled agentsConfig)) as [b|] eqn:Eb;
        [|reflexivity].
      rewrite (Hext b) by now apply best_In with (score_insensitive text0).
      reflexivity. }
    destruct (sort_desc entries) as [|e rest]; cbn [hd_error] in Hhead;
      destruct (best (score_insensitive text0) (filter enabled agentsConfig)) as [b|];
      try destruct (0 <? score_insensitive text0 b)%nat;
      try discriminate Hhead; try reflexivity.
    injection Hhead as ->. reflexivity.
  - now apply kept_ids_distinct.
  - intros a Ha. apply filter_In in Ha as [Ha _]. now apply Hidx.
  - reflexivity.
Qed.

Lemma routeToAgent_agrees_witness :
  routeToAgent lowercase_registry api_task = routeToAgent_claim lowercase_registry api_task.
Proof.
  apply (routeToAgent_agrees lowercase_registry api_task).
  - split; [|split].
    + intros a kw [<-|[<-|[]]]; cbn; intros H;
        repeat (destruct H as [<-|H];
                [split; [repeat constructor|reflexivity]|]);
        destruct H.
    + repeat constructor; cbn; intuition discriminate.
    + intros a [<-|[<-|[]]]; (split; [reflexivity|discriminate]).
  - repeat split; cbn; repeat constructor.
Defined.

(** C7 at its failing input: the keyword [API] of the first agent is
    looked up as written in the lower-cased text and is not found, so
    the second agent wins with one match, where the router of the claim
    has a tie that the registry order gives to the first. *)
Theorem routeToAgent_keyword_case :
  routeToAgent [claude; gemini] api_task = JStr (str "gemini")
  /\ routeToAgent_claim [claude; gemini] api_task = JStr (str "claude")
  /\ keyword_score (toLowerCase (str "Build API docs for the board")) claude = 0
  /\ score_insensitive (str "Build API docs for the board") claude = 1
  /\ score_insensitive (str "Build API docs for the board") gemini = 1.
Proof. vm_compute. repeat split. Qed.

End RoutingSpec.

Section DispatchTheorems.
Local Open Scope eff_scope.
Import TaskRunner.
Variable E : env.
Variables KANBAN_API KANBAN_TOKEN : jsstring.
Variable agentsConfig : list Agent.
Variable colIds : ColIds.
Variables WORKSPACES_DIR RESULTS_DIR : jsstring.
Variable path_join : jsstring -> jsstring -> jsstring.
Variable toISOString : Z -> jsstring.
Local Abbreviation processTask :=
  (processTask E KANBAN_API KANBAN_TOKEN agentsConfig colIds WORKSPACES_DIR RESULTS_DIR
               path_join toISOString).
Local Abbreviation update_request := (update_request KANBAN_API KANBAN_TOKEN).
Local Abbreviation move_request := (move_request KANBAN_API KANBAN_TOKEN).

(** What is embedded reads back as the meta, when serialization
    preserves it. *)
Lemma embedded_reads_back (task : Task) (meta : json) :
  serializable meta -> parseAgentMeta (Some (embedded task meta)) = meta.
Proof.
  intros Hs. rewrite <- setAgentMeta_embedded, parse_embed, (trim_stringify meta Hs).
  now rewrite (JSON_parse_stringify meta Hs).
Qed.

Lemma routeToAgent_serializable (task : Task) :
  serializable (parseAgentMeta (task_description task)) ->
  serializable (routeToAgent agentsConfig task).
Proof.
  intros Hs. unfold routeToAgent.
  destruct (truthy (parseAgentMeta (task_description task)) && _).
  - destruct (get _ (str "agent")) as [a|] eqn:Eg; [|exact I].
    exact (serializable_get _ (str "agent") a Hs Eg).
  - destruct (sort_desc _); [|exact I].
    destruct (find _ agentsConfig); [exact I|]. now destruct (find _ agentsConfig).
Qed.

Lemma serializable_default : serializable DEFAULT_META.
Proof. vm_compute. repeat split; lia. Qed.

Lemma safe_plain (n : Z) : (Z.abs n < 2 ^ 53)%Z -> serializable (JInt n).
Proof.
  intros H. split; [reflexivity|]. unfold plain_integer.
  assert (2 ^ 53 < 10 ^ 21)%Z by (vm_compute; reflexivity). lia.
Qed.

(** The meta the dispatch writes is preserved by serialization when
    the one embedded in the task is and the attempts are a safe
    integer. *)
Lemma running_meta_serializable (task : Task) (started : jsstring) (n : Z) :
  let agent := routeToAgent agentsConfig task in
  serializable (parseAgentMeta (task_description task)) ->
  get (running_meta task agent started) (str "attempts") = Some (JInt n) ->
  (Z.abs n < 2 ^ 53)%Z ->
  serializable (running_meta task agent started).
Proof.
  intros agent Hs Hn Hsafe.
  assert (Hplus : plus_one (get (set (set (if truthy (parseAgentMeta (task_description task))
                                           then parseAgentMeta (task_description task)
                                           else DEFAULT_META)
                                          (str "agent") agent)
                                     (str "status") (JStr (str "running")))
                                (str "attempts"))
                  = JInt n).
  { destruct (running_meta_object _ _ _ _ Hn) as [[o Ho] _].
    unfold running_meta in Hn, Ho. rewrite get_set_other in Hn by keys_differ.
    destruct (get_named _ (str "attempts") _ eq_refl Hn) as [o' Ho'].
    match type of Ho' with
    | set ?b _ _ = _ => destruct b as [| | | | |ob]; try discriminate Ho'
    end.
    rewrite get_set_same in Hn. now injection Hn. }
  unfold running_meta. rewrite Hplus.
  apply serializable_set; [reflexivity| |exact I].
  apply serializable_set; [reflexivity| |now apply safe_plain].
  apply serializable_set; [reflexivity| |exact I].
  apply serializable_set; [reflexivity| |now apply routeToAgent_serializable].
  destruct (truthy _); [exact Hs | apply serializable_default].
Qed.

Lemma settled_meta_serializable (meta : json) (result : AgentResult)
      (summary resultPath : jsstring) (n : Z) :
  serializable meta -> serializable (settled_meta meta result summary resultPath n).
Proof.
  intros Hs. unfold settled_meta, failed_meta.
  destruct (n <? MAX_ATTEMPTS)%Z; repeat (apply serializable_set; [reflexivity| |exact I]);
    exact Hs.
Qed.

Lemma plus_one_prior (o : obj) (k : Z) :
  prior_attempts (JObj o) = Some k ->
  plus_one (obj_get o (str "attempts")) = JInt (k + 1).
Proof.
  unfold prior_attempts. cbn [get].
  destruct (obj_get o (str "attempts")) as [v|]; [|intros [= <-]; reflexivity].
  destruct v as [|b|n d|t|l|m]; try discriminate.
  - intros [= <-]. reflexivity.
  - destruct b; [discriminate|]. intros [= <-]. reflexivity.
  - destruct d; [|discriminate]. intros [= <-].
    unfold plus_one, JInt. cbn [truthy]. destruct (Z.eqb n 0) eqn:E0; cbn [negb].
    + apply Z.eqb_eq in E0. now subst.
    + reflexivity.
  - destruct t; [|discriminate]. intros [= <-]. reflexivity.
Qed.

(** The attempts the dispatch writes are one more than the attempts
    the embedded meta records. *)
Lemma attempts_counted (task : Task) (agent : json) (started : jsstring) (k n : Z) :
  prior_attempts (parseAgentMeta (task_description task)) = Some k ->
  get (running_meta task agent started) (str "attempts") = Some (JInt n) ->
  n = (k + 1)%Z.
Proof.
  intros Hk Hn. unfold running_meta in Hn.
  rewrite get_set_other in Hn by keys_differ.
  destruct (parseAgentMeta (task_description task)) as [|b|m d|t|l|o] eqn:Ep.
  - cbn in Hn. injection Hk as <-. now injection Hn as <-.
  - destruct b; [cbn in Hn; discriminate Hn|].
    cbn in Hn. injection Hk as <-. now injection Hn as <-.
  - destruct (truthy (JNum m d)) eqn:Et; [cbn in Hn; discriminate Hn|].
    cbn in Hn. injection Hk as <-. now injection Hn as <-.
  - destruct t as [|c t]; [|cbn in Hn; discriminate Hn].
    cbn in Hn. injection Hk as <-. now injection Hn as <-.
  - cbn [truthy] in Hn. cbn [set] in Hn. cbn [get] in Hn.
    destruct (array_index (str "attempts")) eqn:Ei; [vm_compute in Ei|];
      discriminate.
  - cbn [truthy] in Hn. rewrite !set_object in Hn. cbn [get] in Hn.
    rewrite obj_get_set_same in Hn.
    rewrite !obj_get_set_other in Hn by keys_differ.
    rewrite (plus_one_prior o k Hk) in Hn. unfold JInt in Hn. now injection Hn as <-.
Qed.


Lemma unavailable_fails (agent : json) :
  unavailable agentsConfig agent = true -> agent_succeeds E agentsConfig agent = false.
Proof.
  unfold unavailable, agent_succeeds.
  destruct (find (is_agent agent) agentsConfig) as [a|]; [|reflexivity].
  intros H. apply negb_true_iff in H. now rewrite H.
Qed.

(** An agent named in the embedded meta is the agent the router
    returns. *)
Lemma routeToAgent_override (task : Task) (a : jsstring) :
  get (parseAgentMeta (task_description task)) (str "agent") = Some (JStr a) ->
  a <> [] ->
  routeToAgent agentsConfig task = JStr a.
Proof.
  intros Hg Ha. unfold routeToAgent. rewrite Hg.
  destruct (get_named _ (str "agent") _ eq_refl Hg) as [o ->].
  cbn [truthy truthy_opt andb]. destruct a; [contradiction|reflexivity].
Qed.

(** The dispatch adds one to the attempts of the block that names the
    agent. *)
Lemma attempts_incremented (task : Task) (agent x : json) (k : Z) :
  get (parseAgentMeta (task_description task)) (str "agent") = Some x ->
  prior_attempts (parseAgentMeta (task_description task)) = Some k ->
  forall started,
    get (running_meta task agent started) (str "attempts") = Some (JInt (k + 1)).
Proof.
  intros Hg Hk started. unfold running_meta.
  destruct (get_named _ (str "agent") _ eq_refl Hg) as [o Ho].
  rewrite Ho in *. cbn [truthy].
  rewrite get_set_other by keys_differ.
  rewrite !set_object. cbn [get] in *. rewrite obj_get_set_same.
  rewrite !obj_get_set_other by keys_differ.
  unfold prior_attempts in Hk. cbn [get] in Hk.
  destruct (obj_get o (str "attempts")) as [v|]; [|injection Hk as <-; reflexivity].
  destruct v as [|b|n d|t|l|m]; try discriminate Hk.
  - injection Hk as <-. reflexivity.
  - destruct b; [discriminate Hk|]. injection Hk as <-. reflexivity.
  - destruct d; [|discriminate Hk]. injection Hk as <-.
    unfold plus_one, JInt. cbn [truthy]. destruct (Z.eqb n 0) eqn:E0; cbn [negb].
    + apply Z.eqb_eq in E0. now subst.
    + reflexivity.
  - destruct t; [|discriminate Hk]. injection Hk as <-. reflexivity.
Qed.

Lemma running_meta_fields (task : Task) (agent x : json) (started : jsstring) :
  get (parseAgentMeta (task_description task)) (str "agent") = Some x ->
  get (running_meta task agent started) (str "agent") = Some agent
  /\ get (running_meta task agent started) (str "status") = Some (JStr (str "running")).
Proof.
  intros Hg. destruct (get_named _ (str "agent") _ eq_refl Hg) as [o Ho].
  unfold running_meta. rewrite Ho. cbn [truthy]. split.
  - rewrite !get_set_other by keys_differ. apply get_set_same.
  - rewrite !get_set_other by keys_differ. rewrite !set_object. apply get_set_same.
Qed.

Lemma settled_meta_agent (meta : json) (result : AgentResult)
      (summary resultPath : jsstring) (n : Z) :
  get (settled_meta meta result summary resultPath n) (str "agent")
  = get meta (str "agent").
Proof.
  unfold settled_meta, failed_meta.
  destruct (n <? MAX_ATTEMPTS)%Z; now rewrite !get_set_other by keys_differ.
Qed.


End DispatchTheorems.

Section DispatchWitnesses.
Local Open Scope eff_scope.
Import TaskRunner.

Lemma failing_world_no_fault : no_fault failing_world.
Proof. intros n. reflexivity. Qed.




End DispatchWitnesses.

Section CodecExtras.
Import TaskRunner.

Lemma strip_fixed (s : jsstring) :
  indexOf s SENTINEL = None -> getCleanDescription (Some s) = s.
Proof.
  intros H. unfold getCleanDescription. destruct s as [|c s]; [reflexivity|].
  now rewrite H.
Qed.

Lemma parse_without_sentinel (s : jsstring) :
  indexOf s SENTINEL = None -> parseAgentMeta (Some s) = JNull.
Proof.
  intros H. unfold parseAgentMeta. destruct s as [|c s]; [reflexivity|].
  now rewrite H.
Qed.

(** X1: the stripped description holds no sentinel; stripping it again
    changes nothing, and no meta is decoded from it. *)
Theorem clean_description_carries_no_meta (d : option jsstring) :
  indexOf (getCleanDescription d) SENTINEL = None
  /\ getCleanDescription (Some (getCleanDescription d)) = getCleanDescription d
  /\ parseAgentMeta (Some (getCleanDescription d)) = JNull.
Proof.
  pose proof (clean_no_sentinel d) as H.
  split; [exact H|]. split; [now apply strip_fixed | now apply parse_without_sentinel].
Qed.

(** X2: embedding into a description that already carries a meta
    replaces that meta: the new one is decoded, and the stripped
    description is the one before. *)
Theorem embed_replaces_meta (d : option jsstring) (m1 m2 : json) :
  serializable m2 ->
  parseAgentMeta (Some (setAgentMeta (Some (setAgentMeta d m1)) m2)) = m2
  /\ getCleanDescription (Some (setAgentMeta (Some (setAgentMeta d m1)) m2))
     = getCleanDescription (Some (setAgentMeta d m1)).
Proof.
  intros Hs. split.
  - rewrite parse_embed, (trim_stringify m2 Hs).
    now rewrite (JSON_parse_stringify m2 Hs).
  - rewrite (strip_embed_trim (Some (setAgentMeta d m1)) m2).
    rewrite (strip_embed_trim d m1). apply trim_idem.
Qed.

Lemma embed_replaces_meta_witness :
  parseAgentMeta (Some (setAgentMeta (Some (setAgentMeta sample_description JNull))
                                     sample_meta)) = sample_meta.
Proof.
  apply (proj1 (embed_replaces_meta sample_description JNull sample_meta
                  ltac:(repeat split))).
Defined.

End CodecExtras.

Section SupervisorExtras.
Import TaskRunner.

(** The two streams are captured independently of each other. *)
Lemma supervise_streams (evs : list proc_event) (out err : jsstring) (killed : bool) :
  supervise evs out err killed
  = (capture out (stdout_chunks evs), capture err (stderr_chunks evs),
     killed || deadline_fired evs).
Proof.
  revert out err killed. induction evs as [|e evs IH]; intros out err killed.
  - cbn. now rewrite orb_false_r.
  - destruct e as [c|c|]; cbn [supervise]; rewrite IH; cbn; try reflexivity.
    now rewrite orb_true_r.
Qed.

Lemma captured_stdout_chunks (evs : list proc_event) :
  captured_stdout evs = capture [] (stdout_chunks evs).
Proof. unfold captured_stdout. now rewrite supervise_streams. Qed.

Lemma captured_stderr_chunks (evs : list proc_event) :
  captured_stderr evs = capture [] (stderr_chunks evs).
Proof. unfold captured_stderr. now rewrite supervise_streams. Qed.

(** X3: a stream that stays within the limit is captured whole,
    whatever the other stream does. *)
Theorem stream_within_limit_captured_whole (evs : list proc_event) :
  (units (concat (stdout_chunks evs)) <= MAX_STDOUT)%N ->
  captured_stdout evs = concat (stdout_chunks evs).
Proof.
  intros H. rewrite captured_stdout_chunks.
  now rewrite (capture_all (stdout_chunks evs) []).
Qed.

Lemma stream_within_limit_captured_whole_witness :
  captured_stdout short_run = str "building done".
Proof.
  apply (stream_within_limit_captured_whole short_run). vm_compute. discriminate.
Defined.

(** The capture keeps whole chunks in their order: it is the
    concatenation of the first [k] chunks, the last of which arrived
    below the limit, and a chunk is left out only once the limit is
    reached. *)
Lemma capture_cut (chunks : list jsstring) (captured : jsstring) :
  exists k,
    k <= length chunks
    /\ capture captured chunks = captured ++ concat (firstn k chunks)
    /\ (k < length chunks -> (MAX_STDOUT <= units (capture captured chunks))%N)
    /\ (0 < k -> (units (captured ++ concat (firstn (k - 1) chunks)) < MAX_STDOUT)%N).
Proof.
  revert captured. induction chunks as [|c r IH]; intros captured.
  - exists 0. cbn. rewrite app_nil_r.
    split; [lia|]. split; [reflexivity|]. split; intros; lia.
  - cbn [capture]. destruct (N.ltb_spec (units captured) MAX_STDOUT) as [Hlt|Hge].
    + rewrite on_data_below by assumption.
      destruct (IH (captured ++ c)) as (k & Hk & Hc & Hfull & Hlast).
      exists (S k). cbn [length firstn concat].
      split; [lia|]. split; [now rewrite Hc, <- app_assoc|].
      split; [intros Hlen; apply Hfull; lia|].
      intros _. replace (S k - 1) with k by lia.
      destruct k as [|k]; [cbn; now rewrite app_nil_r|].
      cbn [firstn concat]. rewrite app_assoc.
      replace (S k - 1) with k in Hlast by lia. apply Hlast. lia.
    + rewrite on_data_full by assumption. rewrite capture_stops by assumption.
      exists 0. cbn [firstn concat length]. rewrite app_nil_r.
      split; [lia|]. split; [reflexivity|]. split; [intros _; exact Hge | lia].
Qed.

(** X4: what is captured of a stream is a run of whole chunks from its
    start; nothing is left out before the limit is reached; and the
    capture stays below the limit plus the size of the largest chunk. *)
Theorem captured_stream_is_chunk_prefix (evs : list proc_event) (m : N) :
  Forall (fun c => (units c <= m)%N) (stdout_chunks evs) ->
  (exists k,
      captured_stdout evs = concat (firstn k (stdout_chunks evs))
      /\ (k < length (stdout_chunks evs) -> (MAX_STDOUT <= units (captured_stdout evs))%N))
  /\ (units (captured_stdout evs) < MAX_STDOUT + m)%N.
Proof.
  intros Hall. rewrite captured_stdout_chunks. split.
  - destruct (capture_cut (stdout_chunks evs) []) as (k & _ & Hc & Hfull & _).
    exists k. split; [exact Hc | exact Hfull].
  - apply capture_bound; [exact Hall|]. unfold units, MAX_STDOUT. cbn [length]. lia.
Qed.

Lemma captured_stream_is_chunk_prefix_witness :
  (units (captured_stdout short_run) < MAX_STDOUT + 8)%N.
Proof.
  apply (proj2 (captured_stream_is_chunk_prefix short_run 8
                  ltac:(repeat constructor; vm_compute; discriminate))).
Defined.

End SupervisorExtras.

Section SpawnExtras.
Import TaskRunner.
Local Open Scope eff_scope.

(** A replacement text without dollar sign is inserted as it is. *)
Lemma substitution_plain (by_ matched before after : jsstring) :
  ~ In 36%N by_ -> substitution by_ matched before after = by_.
Proof.
  induction by_ as [|c r IH]; intros H; [reflexivity|]. cbn [substitution].
  destruct (N.eqb_spec c 36) as [->|Hc]; [exfalso; apply H; now left|].
  f_equal. apply IH. intros Hin. apply H. now right.
Qed.

Lemma indexOf_tail (c : N) (s p : jsstring) :
  indexOf (c :: s) p = None -> indexOf s p = None.
Proof.
  rewrite indexOf_cons. destruct (startsWith p (c :: s)); [discriminate|].
  now destruct (indexOf s p).
Qed.

Lemma indexOf_head (s p : jsstring) :
  indexOf s p = None -> startsWith p s = false.
Proof.
  destruct s as [|c s].
  - rewrite indexOf_nil. now destruct (startsWith p []).
  - rewrite indexOf_cons. now destruct (startsWith p (c :: s)).
Qed.

(** A text without the pattern is left as it is. *)
Lemma replaceAll_subst_absent (fuel : nat) (p by_ seen s : jsstring) :
  indexOf s p = None -> replaceAll_subst_aux fuel p by_ seen s = s.
Proof.
  revert fuel seen. induction s as [|c s IH]; intros [|f] seen H; try reflexivity;
    cbn [replaceAll_subst_aux]; rewrite (indexOf_head _ _ H); [reflexivity|].
  f_equal. apply IH. now apply indexOf_tail with c.
Qed.

Lemma startsWith_self (p : jsstring) : startsWith p p = true.
Proof. rewrite <- (app_nil_r p) at 2. apply startsWith_app. Qed.

(** A template that is the placeholder alone becomes the replacement
    text. *)
Lemma replace_placeholder (p by_ : jsstring) :
  p <> [] -> replaceAll_subst p p by_ = substitution by_ p [] [].
Proof.
  intros Hp. unfold replaceAll_subst. cbn [replaceAll_subst_aux].
  rewrite startsWith_self, skipn_all. cbn [rev]. rewrite app_nil_r.
  destruct p as [|c p]; [contradiction|]. cbn [length replaceAll_subst_aux].
  destruct (c :: p) eqn:E; [discriminate|]. cbn [startsWith].
  now rewrite app_nil_r.
Qed.

(** The prompt reaches the agent as it is, when it holds no dollar sign
    and no timestamp placeholder. *)
Lemma prompt_substituted (prompt timestamp : jsstring) :
  ~ In 36%N prompt ->
  indexOf prompt (str "{timestamp}") = None ->
  replaceAll_subst (replaceAll_subst (str "{prompt}") (str "{prompt}") prompt)
                   (str "{timestamp}") timestamp = prompt.
Proof.
  intros Hd Ht. rewrite replace_placeholder by discriminate.
  rewrite substitution_plain by assumption.
  unfold replaceAll_subst. now apply replaceAll_subst_absent.
Qed.

Variable E : env.
Variable agentsConfig : list Agent.

(** An available agent whose spawn the machine refuses, or whose
    entry has no argument template: the call throws and nothing is
    spawned. *)
Lemma spawnAgent_thrown (agent : json) (prompt workDir taskId : jsstring)
      (w : world) (a : Agent) :
  find (is_agent agent) agentsConfig = Some a ->
  enabled a = true ->
  (args a = None ->
   exists w', spawnAgent E agentsConfig agent prompt workDir taskId w
              = (Throw (Error TYPE_ERROR), w')
              /\ spawns w' = spawns w /\ requests w' = requests w)
  /\ (forall msg, args a <> None -> fault E (length (log w)) = Some msg ->
      exists w', spawnAgent E agentsConfig agent prompt workDir taskId w
                 = (Throw (Error msg), w')
                 /\ spawns w' = spawns w /\ requests w' = requests w).
Proof.
  intros Hf He. unfold spawnAgent. rewrite Hf, He. cbn [negb]. split.
  - intros ->. unfold bind, Date_now, throw. eexists. split; [reflexivity|].
    split; reflexivity.
  - intros msg Ha Hm. destruct (args a) as [template|]; [|contradiction].
    unfold bind, Date_now, ret, perform. cbn [log]. rewrite Hm.
    eexists. split; [reflexivity|]. split; reflexivity.
Qed.

Lemma spawnAgent_available (agent : json) (prompt workDir taskId : jsstring)
      (w : world) (a : Agent) (template : list jsstring) :
  find (is_agent agent) agentsConfig = Some a ->
  enabled a = true ->
  args a = Some template ->
  fault E (length (log w)) = None ->
  let evs := events (child E) in
  let timestamp := number_to_string (date_now E (clock w)) 0 in
  exists r w',
    spawnAgent E agentsConfig agent prompt workDir taskId w = (Ret r, w')
    /\ spawns w' = spawns w ++ [ESpawn (cmd a) (argv template prompt timestamp) workDir]
    /\ requests w' = requests w
    /\ stdout r = captured_stdout evs
    /\ match ending (child E) with
       | Close code =>
         exitCode r = code /\ stderr r = captured_stderr evs
         /\ timedOut r = Some (deadline_fired evs)
         /\ success r = match code with
                        | Some 0%Z => negb (deadline_fired evs)
                        | _ => false
                        end
       | ProcError msg =>
         exitCode r = Some (-1)%Z /\ stderr r = msg /\ timedOut r = None
         /\ success r = false
       end.
Proof.
  intros Hf He Ha Hgo evs timestamp. unfold spawnAgent. rewrite Hf, He, Ha. cbn [negb].
  unfold bind, Date_now, ret, perform, captured_stdout, captured_stderr.
  cbn [clock log activeAgents completedCount]. rewrite Hgo. unfold emit.
  cbn [clock log activeAgents completedCount].
  fold evs. rewrite (supervise_streams evs [] [] false). cbn [orb fst snd].
  destruct (ending (child E)) as [code|msg]; eexists _, _;
    (split; [reflexivity|]);
    (split; [unfold spawns; cbn [log]; rewrite filter_app; reflexivity|]);
    (split; [unfold requests; cbn [log]; rewrite flat_map_app; cbn;
             now rewrite app_nil_r|]);
    cbn [stdout stderr exitCode timedOut success]; repeat split.
Qed.

(** X5: the run of an available agent.  When the entry of the agent
    has no argument template, or when [spawn] itself throws, the call
    throws and no process is spawned.  Otherwise it spawns one process
    and reports what that process did: its exit code, what was
    captured of its two streams, and whether the deadline fired.  The
    run is a success only if the process exits with code 0 and the
    deadline did not fire; a process that fails to start is reported
    with exit code -1 and keeps the captured output. *)
Theorem spawnAgent_reports_run (agent : json) (prompt workDir taskId : jsstring)
        (w : world) (a : Agent) :
  find (is_agent agent) agentsConfig = Some a ->
  enabled a = true ->
  match args a, fault E (length (log w)) with
  | None, _ =>
    exists w', spawnAgent E agentsConfig agent prompt workDir taskId w
               = (Throw (Error TYPE_ERROR), w')
               /\ spawns w' = spawns w
  | Some _, Some msg =>
    exists w', spawnAgent E agentsConfig agent prompt workDir taskId w
               = (Throw (Error msg), w')
               /\ spawns w' = spawns w
  | Some template, None =>
    exists r w' av,
      spawnAgent E agentsConfig agent prompt workDir taskId w = (Ret r, w')
      /\ spawns w' = spawns w ++ [ESpawn (cmd a) av workDir]
      /\ length av = length template
      /\ requests w' = requests w
      /\ stdout r = captured_stdout (events (child E))
      /\ (success r = true <->
          ending (child E) = Close (Some 0%Z)
          /\ deadline_fired (events (child E)) = false)
      /\ (forall code, ending (child E) = Close code ->
            exitCode r = code /\ stderr r = captured_stderr (events (child E))
            /\ timedOut r = Some (deadline_fired (events (child E))))
      /\ (forall msg, ending (child E) = ProcError msg ->
            exitCode r = Some (-1)%Z /\ stderr r = msg)
  end.
Proof.
  intros Hf He.
  destruct (spawnAgent_thrown agent prompt workDir taskId w a Hf He) as [Hnone Hsome].
  destruct (args a) as [template|] eqn:Ea.
  2:{ destruct (Hnone eq_refl) as (w' & Hrun & Hsp & _).
      destruct (fault E (length (log w))); exists w'; now split. }
  destruct (fault E (length (log w))) as [msg|] eqn:Hgo.
  { destruct (Hsome msg ltac:(discriminate) eq_refl) as (w' & Hrun & Hsp & _).
    exists w'. now split. }
  destruct (spawnAgent_available agent prompt workDir taskId w a template Hf He Ea Hgo)
    as (r & w' & Hrun & Hsp & Hrq & Hout & Hend).
  exists r, w', (argv template prompt (number_to_string (date_now E (clock w)) 0)).
  split; [exact Hrun|]. split; [exact Hsp|]. split; [apply length_map|].
  split; [exact Hrq|]. split; [exact Hout|].
  destruct (ending (child E)) as [code|msg].
  - destruct Hend as (Hc & Herr & Ht & Hs). split; [|split].
    + rewrite Hs. split.
      * destruct code as [[| |]|]; try discriminate. intros H.
        apply negb_true_iff in H. now split.
      * intros [[= ->] Hd]. now rewrite Hd.
    + intros code' [= <-]. now repeat split.
    + intros msg [=].
  - destruct Hend as (Hc & Herr & Ht & Hs). split; [|split].
    + rewrite Hs. split; [discriminate|]. intros [[=] _].
    + intros code [=].
    + intros msg' [= <-]. now split.
Qed.

(** X6: an argument of the template that is the prompt placeholder
    reaches the process as the prompt itself, when the prompt holds no
    dollar sign and no timestamp placeholder; the argument vector has
    the length of the template.  The process is spawned with that
    vector unless [spawn] throws, and then [spawnAgent] throws with
    nothing spawned. *)
Theorem prompt_reaches_agent (agent : json) (prompt workDir taskId : jsstring)
        (w : world) (a : Agent) (template : list jsstring) (i : nat) :
  find (is_agent agent) agentsConfig = Some a ->
  enabled a = true ->
  args a = Some template ->
  nth_error template i = Some (str "{prompt}") ->
  ~ In 36%N prompt ->
  indexOf prompt (str "{timestamp}") = None ->
  exists av,
    length av = length template
    /\ nth_error av i = Some prompt
    /\ match fault E (length (log w)) with
       | None =>
         exists r w',
           spawnAgent E agentsConfig agent prompt workDir taskId w = (Ret r, w')
           /\ spawns w' = spawns w ++ [ESpawn (cmd a) av workDir]
       | Some msg =>
         exists w',
           spawnAgent E agentsConfig agent prompt workDir taskId w
           = (Throw (Error msg), w')
           /\ spawns w' = spawns w
       end.
Proof.
  intros Hf He Ha Hi Hd Ht.
  exists (argv template prompt (number_to_string (date_now E (clock w)) 0)).
  split; [apply length_map|].
  split.
  { unfold argv. rewrite nth_error_map, Hi. cbn [option_map]. f_equal.
    now apply prompt_substituted. }
  destruct (fault E (length (log w))) as [msg|] eqn:Hgo.
  - destruct (spawnAgent_thrown agent prompt workDir taskId w a Hf He) as [_ Hsome].
    destruct (Hsome msg) as (w' & Hrun & Hsp & _);
      [rewrite Ha; discriminate | exact Hgo |].
    exists w'. now split.
  - destruct (spawnAgent_available agent prompt workDir taskId w a template Hf He Ha Hgo)
      as (r & w' & Hrun & Hsp & _).
    exists r, w'. now split.
Qed.

End SpawnExtras.

Section SpawnWitnesses.
Import TaskRunner.

Lemma spawnAgent_reports_run_witness :
  exists r w' av,
    spawnAgent failing_world registry (JStr (str "claude")) (str "fix it")
               (str "workspaces/task-a") (str "task-a") initial = (Ret r, w')
    /\ spawns w' = spawns initial ++ [ESpawn (str "claude") av (str "workspaces/task-a")]
    /\ success r = false.
Proof.
  pose proof (spawnAgent_reports_run failing_world registry (JStr (str "claude"))
                (str "fix it") (str "workspaces/task-a") (str "task-a") initial
                (mkAgent (str "claude") (str "claude") (Some [str "-p"; str "{prompt}"])
                         (Some [str "implement"]) (Some 450%Z) false true None)
                eq_refl eq_refl) as H.
  cbn [args fault failing_world] in H.
  destruct H as (r & w' & av & Hrun & Hsp & _ & _ & _ & Hs & _).
  exists r, w', av. split; [exact Hrun|]. split; [exact Hsp|].
  destruct (success r); [|reflexivity].
  destruct (proj1 Hs eq_refl) as [H _]. discriminate H.
Defined.

Lemma prompt_reaches_agent_witness :
  exists av,
    length av = 2
    /\ nth_error av 1 = Some (str "fix it")
    /\ exists r w',
         spawnAgent failing_world registry (JStr (str "claude")) (str "fix it")
                    (str "workspaces/task-a") (str "task-a") initial = (Ret r, w')
         /\ spawns w' = spawns initial
                        ++ [ESpawn (str "claude") av (str "workspaces/task-a")].
Proof.
  apply (prompt_reaches_agent failing_world registry (JStr (str "claude"))
           (str "fix it") (str "workspaces/task-a") (str "task-a") initial
           (mkAgent (str "claude") (str "claude") (Some [str "-p"; str "{prompt}"])
                    (Some [str "implement"]) (Some 450%Z) false true None)
           [str "-p"; str "{prompt}"] 1
           eq_refl eq_refl eq_refl eq_refl).
  - vm_compute. intuition discriminate.
  - vm_compute. reflexivity.
Defined.

End SpawnWitnesses.

Section RoutingExtras.
Import TaskRunner.

Lemma obj_insert_keys (V : Type) (o : list (jsstring * V)) (k : jsstring) (v : V) (x : jsstring) :
  In x (map fst (obj_insert o k v)) -> x = k \/ In x (map fst o).
Proof.
  induction o as [|[k' v'] o IH]; cbn [obj_insert map fst In].
  - intros [H|[]]. now left.
  - destruct (array_index k) as [i|].
    + destruct (array_index k') as [j|].
      * destruct (i <? j)%N; cbn [map fst In]; intros [H|H]; auto.
        destruct (IH H); auto.
      * cbn [map fst In]. intros [H|H]; auto.
    + cbn [map fst In]. intros [H|H]; auto. destruct (IH H); auto.
Qed.

Lemma obj_replace_keys (V : Type) (o : list (jsstring * V)) (k : jsstring) (v : V) :
  map fst (obj_replace o k v) = map fst o.
Proof.
  induction o as [|[k' v'] o IH]; [reflexivity|]. cbn [obj_replace].
  destruct (jsstring_eqb k' k); cbn [map fst]; [reflexivity | now rewrite IH].
Qed.

Lemma obj_set_keys (V : Type) (o : list (jsstring * V)) (k : jsstring) (v : V) (x : jsstring) :
  In x (map fst (obj_set o k v)) -> x = k \/ In x (map fst o).
Proof.
  unfold obj_set. destruct (obj_get o k).
  - rewrite obj_replace_keys. now right.
  - apply obj_insert_keys.
Qed.

(** Every key of the score table is the id of a candidate. *)
Lemma scores_keys (text : jsstring) (l : list Agent) (acc : list (jsstring * nat))
      (x : jsstring) :
  In x (map fst
          (fold_left (fun scores agent =>
                        let score := keyword_score text agent in
                        if (0 <? score)%nat then score_set scores (agent_id agent) score
                        else scores)
                     l acc)) ->
  In x (map fst acc) \/ In x (map agent_id l).
Proof.
  revert acc. induction l as [|a l IH]; intros acc; cbn [fold_left map In]; [now left|].
  intros H. destruct (IH _ H) as [Hacc|Hl]; [|now right; right].
  destruct (0 <? keyword_score text a)%nat; [|now left].
  unfold score_set in Hacc.
  destruct (jsstring_eqb (agent_id a) (str "__proto__")); [now left|].
  destruct (obj_set_keys _ _ _ _ _ Hacc) as [->|Hin]; [right; now left | now left].
Qed.

Lemma insert_desc_In (x y : jsstring * nat) (l : list (jsstring * nat)) :
  In y (insert_desc x l) -> y = x \/ In y l.
Proof.
  induction l as [|z l IH]; cbn [insert_desc In]; [intros [H|[]]; now left|].
  destruct (snd x <? snd z)%nat; cbn [In]; intros [H|H]; auto.
  destruct (IH H); auto.
Qed.

Lemma sort_desc_In (y : jsstring * nat) (l : list (jsstring * nat)) :
  In y (sort_desc l) -> In y l.
Proof.
  induction l as [|x l IH]; cbn [sort_desc In]; [tauto|].
  intros H. destruct (insert_desc_In _ _ _ H) as [->|H']; [now left | right; auto].
Qed.

(** X8: a task whose meta names no agent is routed to an enabled agent
    of the registry; the fallback id [gemini] is returned only when the
    registry has no enabled agent. *)
Theorem routed_agent_is_enabled (agentsConfig : list Agent) (task : Task) :
  names_agent task = false ->
  exists a_id,
    routeToAgent agentsConfig task = JStr a_id
    /\ ((exists a, In a agentsConfig /\ enabled a = true /\ agent_id a = a_id)
        \/ (a_id = str "gemini" /\ forall a, In a agentsConfig -> enabled a = false)).
Proof.
  unfold names_agent, routeToAgent. intros ->. cbv zeta.
  match goal with
  | |- context [sort_desc ?scores] =>
    remember scores as sc eqn:Hsc; destruct (sort_desc sc) as [|best rest] eqn:Es
  end.
  - destruct (find (fun a => enabled a && default a) agentsConfig) as [d|] eqn:Ed.
    + exists (agent_id d). split; [reflexivity|]. left. exists d.
      apply find_some in Ed as [Hin Hb]. apply andb_true_iff in Hb as [He _]. auto.
    + destruct (find (fun a => enabled a) agentsConfig) as [a|] eqn:Ea.
      * exists (agent_id a). split; [reflexivity|]. left. exists a.
        apply find_some in Ea as [Hin He]. auto.
      * exists (str "gemini"). split; [reflexivity|]. right. split; [reflexivity|].
        intros a Ha. pose proof (find_none _ _ Ea a Ha) as H. exact H.
  - exists (fst best). split; [reflexivity|]. left.
    assert (Hin : In best (sort_desc sc)) by (rewrite Es; now left).
    apply sort_desc_In in Hin. apply (in_map fst) in Hin. rewrite Hsc in Hin.
    apply scores_keys in Hin as [[]|Hin].
    apply in_map_iff in Hin as (a & Hid & Ha). apply filter_In in Ha as [Ha Hb].
    apply andb_true_iff in Hb as [He _]. exists a. auto.
Qed.

Lemma routed_agent_is_enabled_witness :
  exists a_id,
    routeToAgent registry task_a = JStr a_id
    /\ ((exists a, In a registry /\ enabled a = true /\ agent_id a = a_id)
        \/ (a_id = str "gemini" /\ forall a, In a registry -> enabled a = false)).
Proof. apply (routed_agent_is_enabled registry task_a). vm_compute. reflexivity. Defined.

End RoutingExtras.

Section SpecServerExtras.
Import SpecServer.
Variable E : env.
Variables KANBAN_API KANBAN_TOKEN : jsstring.

(** X9: [kanbanFetch] sends its request once, and once more only when
    the first answer is a 401 and a token is set; the second request
    has the address, method and body of the first and no
    [Authorization] header.  With a token the first request bears it. *)
Theorem kanbanFetch_retry_discipline (path : jsstring) (options : fetch_options)
        (w : world) :
  let first := first_request KANBAN_API KANBAN_TOKEN path options in
  let retry := retry_request KANBAN_API path options in
  let after := snd (kanbanFetch E KANBAN_API KANBAN_TOKEN path options w) in
  (requests after = requests w ++ [first]
   \/ requests after = requests w ++ [first; retry])
  /\ (requests after = requests w ++ [first; retry]
      <-> (exists tx, answer E w first = Response 401 tx) /\ KANBAN_TOKEN <> [])
  /\ has_authorization retry = false
  /\ url retry = url first /\ method retry = method first /\ body retry = body first
  /\ (KANBAN_TOKEN <> [] ->
      header_get (headers first) (str "Authorization")
      = Some (str "Bearer " ++ KANBAN_TOKEN)).
Proof.
  intros first retry after.
  assert (Hneq : requests w ++ [first] <> requests w ++ [first; retry]).
  { intros H. apply app_inv_head in H. discriminate H. }
  assert (Hafter :
    requests after =
    match answer E w first with
    | NetworkError _ => requests w ++ [first]
    | Response st _ =>
      if N.eqb st 401 && nonempty KANBAN_TOKEN then requests w ++ [first; retry]
      else requests w ++ [first]
    end).
  { unfold after. rewrite kanbanFetch_spec. fold first retry.
    destruct (answer E w first) as [msg|st tx]; cbn [snd]; [apply requests_sent|].
    destruct (N.eqb st 401 && nonempty KANBAN_TOKEN); cbn [snd]; apply requests_sent. }
  rewrite Hafter. split; [|split].
  - destruct (answer E w first) as [msg|st tx]; [now left|].
    destruct (N.eqb st 401 && nonempty KANBAN_TOKEN); [now right | now left].
  - destruct (answer E w first) as [msg|st tx].
    + split; [intros H; now destruct (Hneq H) | intros [[tx [=]] _]].
    + destruct (N.eqb st 401 && nonempty KANBAN_TOKEN) eqn:E401.
      * apply andb_true_iff in E401 as [Hst Htok]. apply N.eqb_eq in Hst. subst st.
        split; [|reflexivity]. intros _. split; [now exists tx|].
        intros ->. discriminate Htok.
      * split; [intros H; now destruct (Hneq H)|].
        intros [[tx' [= -> _]] Htok]. exfalso.
        destruct KANBAN_TOKEN; [contradiction | discriminate E401].
  - split; [reflexivity|]. split; [reflexivity|]. split; [reflexivity|].
    split; [reflexivity|]. intros Htok. unfold first, first_request, first_headers.
    cbn [headers]. destruct KANBAN_TOKEN as [|c t]; [contradiction|]. cbn [nonempty].
    apply obj_get_set_same.
Qed.

End SpecServerExtras.

Section ExtractorExtras.
Import SpecServer.

Lemma accept_shape (parsed : option json) (v : json) :
  accept parsed = Some v ->
  exists o, v = JObj o
            /\ obj_get o (str "spec") <> None
            /\ truthy_opt (obj_get o (str "tasks")) = true.
Proof.
  unfold accept. destruct parsed as [p|]; [|discriminate].
  destruct p as [| b | n k | s | l | o]; try discriminate;
    destruct (get _ (str "spec")) as [x|] eqn:Es; try discriminate;
    try (destruct (get_named _ (str "spec") x eq_refl Es) as [o' Ho']; discriminate Ho').
  cbn [get] in *.
  destruct (truthy_opt (obj_get o (str "tasks"))) eqn:Et; cbn [negb]; intros [= <-].
  - exists o. rewrite Es. repeat split; [discriminate | assumption].
  - exists (obj_set o (str "tasks") (JArr [])). split; [reflexivity|].
    rewrite obj_get_set_other by discriminate. rewrite Es, obj_get_set_same.
    split; [discriminate | reflexivity].
Qed.

Lemma extract_by_regex_shape (cleaned : jsstring) (v : json) :
  extract_by_regex cleaned = Some v ->
  exists spec t ts, v = JObj [(str "spec", JStr spec); (str "tasks", JArr (t :: ts))]
                    /\ spec <> [].
Proof.
  unfold extract_by_regex.
  destruct (rexec spec_field cleaned) as [[[? ?] c1]|]; [|discriminate].
  destruct (rexec tasks_field cleaned) as [[[? ?] c2]|]; [|discriminate].
  destruct (group cleaned c1 1) as [raw|]; [|discriminate].
  destruct (group cleaned c2 1) as [tasks_text|]; [|discriminate].
  cbv zeta.
  match goal with
  | |- match ?tasks with _ => _ end = _ -> _ => destruct tasks as [| | | | [|t ts] |]
  end; try discriminate.
  match goal with
  | |- (if nonempty ?spec then _ else _) = _ -> _ => destruct spec as [|c s] eqn:Es
  end; [discriminate|].
  cbn [nonempty]. intros [= <-]. exists (c :: s), t, ts. split; [reflexivity|discriminate].
Qed.

(** X10: whatever layer of [extractJSON] produces the result, the
    result is an object with a [spec] and with [tasks] that are not
    falsy. *)
Theorem extractJSON_result_shape (text : jsstring) (v : json) :
  extractJSON text = Some v ->
  exists o, v = JObj o
            /\ obj_get o (str "spec") <> None
            /\ truthy_opt (obj_get o (str "tasks")) = true.
Proof.
  unfold extractJSON. cbv zeta.
  destruct (accept (JSON_parse (clean text))) as [p|] eqn:E1.
  - intros [= <-]. now apply accept_shape with (JSON_parse (clean text)).
  - destruct (rexec spec_object (clean text)) as [[[st en] c]|].
    + destruct (accept (JSON_parse (substring (clean text) st en))) as [p|] eqn:E2.
      * intros [= <-]. now apply accept_shape with (JSON_parse (substring (clean text) st en)).
      * intros H. apply extract_by_regex_shape in H as (spec & t & ts & -> & Hs).
        eexists. split; [reflexivity|]. split; [discriminate | reflexivity].
    + intros H. apply extract_by_regex_shape in H as (spec & t & ts & -> & Hs).
      eexists. split; [reflexivity|]. split; [discriminate | reflexivity].
Qed.

Lemma extractJSON_result_shape_witness :
  exists o, scenario4_result = JObj o
            /\ obj_get o (str "spec") <> None
            /\ truthy_opt (obj_get o (str "tasks")) = true.
Proof.
  apply (extractJSON_result_shape scenario4 scenario4_result). vm_compute. reflexivity.
Defined.

End ExtractorExtras.

Section EffectBounds.
Local Open Scope eff_scope.

Lemma never_throws_ret (A : Type) (a : A) : never_throws (ret a).
Proof. intros w e. discriminate. Qed.

Lemma never_throws_beyond (A : Type) : never_throws (@beyond A).
Proof. intros w e. discriminate. Qed.

Lemma never_throws_bind (A B : Type) (m : M A) (k : A -> M B) :
  never_throws m -> (forall a, never_throws (k a)) -> never_throws (bind m k).
Proof.
  intros Hm Hk w e. unfold bind. pose proof (Hm w) as H.
  destruct (m w) as [[a|e'|] w']; cbn [fst] in *.
  - apply Hk.
  - now destruct (H e').
  - discriminate.
Qed.

Lemma never_throws_try_catch (A : Type) (m : M A) (h : error -> M A) :
  (forall e, never_throws (h e)) -> never_throws (try_catch m h).
Proof.
  intros Hh w e. unfold try_catch.
  destruct (m w) as [[a|e'|] w']; cbn [fst]; try discriminate. apply Hh.
Qed.

Lemma never_throws_emit (ev : event) : never_throws (emit ev).
Proof. intros w e. discriminate. Qed.

Lemma never_throws_Date_now (E : env) : never_throws (Date_now E).
Proof. intros w e. discriminate. Qed.

Lemma sends_ret (A : Type) (P : request -> Prop) (a : A) : sends P 0 (ret a).
Proof. intros w. exists []. cbn. rewrite app_nil_r. auto. Qed.

Lemma sends_still (A : Type) (P : request -> Prop) (m : M A) :
  (forall w, requests (snd (m w)) = requests w) -> sends P 0 m.
Proof. intros H w. exists []. rewrite H, app_nil_r. auto. Qed.

Lemma sends_more (A : Type) (P : request -> Prop) (n n' : nat) (m : M A) :
  n <= n' -> sends P n m -> sends P n' m.
Proof.
  intros Hn H w. destruct (H w) as (rqs & Hr & Hl & HP). exists rqs.
  split; [assumption|]. split; [lia | assumption].
Qed.

Lemma sends_bind (A B : Type) (P : request -> Prop) (n1 n2 : nat) (m : M A) (k : A -> M B) :
  sends P n1 m -> (forall a, sends P n2 (k a)) -> sends P (n1 + n2) (bind m k).
Proof.
  intros Hm Hk w. unfold bind. destruct (Hm w) as (r1 & Hr1 & Hl1 & HP1).
  destruct (m w) as [[a|e|] w']; cbn [snd] in *.
  - destruct (Hk a w') as (r2 & Hr2 & Hl2 & HP2). exists (r1 ++ r2).
    rewrite Hr2, Hr1, <- app_assoc, length_app. split; [reflexivity|].
    split; [lia | now apply Forall_app].
  - exists r1. split; [assumption|]. split; [lia | assumption].
  - exists r1. split; [assumption|]. split; [lia | assumption].
Qed.

Lemma sends_try_catch (A : Type) (P : request -> Prop) (n1 n2 : nat) (m : M A)
      (h : error -> M A) :
  sends P n1 m -> (forall e, sends P n2 (h e)) -> sends P (n1 + n2) (try_catch m h).
Proof.
  intros Hm Hh w. unfold try_catch. destruct (Hm w) as (r1 & Hr1 & Hl1 & HP1).
  destruct (m w) as [[a|e|] w']; cbn [snd] in *.
  - exists r1. split; [assumption|]. split; [lia | assumption].
  - destruct (Hh e w') as (r2 & Hr2 & Hl2 & HP2). exists (r1 ++ r2).
    rewrite Hr2, Hr1, <- app_assoc, length_app. split; [reflexivity|].
    split; [lia | now apply Forall_app].
  - exists r1. split; [assumption|]. split; [lia | assumption].
Qed.

End EffectBounds.

Section DispatchBounds.
Import TaskRunner.
Local Open Scope eff_scope.
Variable E : env.
Variables KANBAN_API KANBAN_TOKEN : jsstring.
Variable agentsConfig : list Agent.
Variable colIds : ColIds.
Variables WORKSPACES_DIR RESULTS_DIR : jsstring.
Variable path_join : jsstring -> jsstring -> jsstring.
Variable toISOString : Z -> jsstring.
Local Abbreviation dispatch_request := (dispatch_request KANBAN_API KANBAN_TOKEN colIds).

Lemma silent_ret (A : Type) (a : A) : silent (ret a).
Proof. intros w. reflexivity. Qed.

Lemma silent_throw (A : Type) (e : error) : silent (@throw A e).
Proof. intros w. reflexivity. Qed.

Lemma silent_Date_now : silent (Date_now E).
Proof. intros w. reflexivity. Qed.

Lemma silent_bind (A B : Type) (m : M A) (k : A -> M B) :
  silent m -> (forall a, silent (k a)) -> silent (bind m k).
Proof.
  intros Hm Hk w. unfold bind. pose proof (Hm w) as H.
  destruct (m w) as [[a|e|] w']; cbn [snd] in *; [|assumption|assumption].
  now rewrite Hk.
Qed.

Lemma silent_perform (ev : event) :
  match ev with EFetch _ => False | _ => True end -> silent (perform E ev).
Proof.
  intros Hev w. unfold perform. destruct (fault E (length (log w))); [reflexivity|].
  unfold emit. cbn [snd]. rewrite requests_app_event.
  destruct ev; try contradiction; apply app_nil_r.
Qed.

Lemma silent_spawnAgent (agent : json) (prompt workDir taskId : jsstring) :
  silent (spawnAgent E agentsConfig agent prompt workDir taskId).
Proof.
  unfold spawnAgent. destruct (find (is_agent agent) agentsConfig) as [a|];
    [|apply silent_ret].
  destruct (negb (enabled a)); [apply silent_ret|].
  apply silent_bind; [apply silent_Date_now|]. intros now.
  apply silent_bind; [destruct (args a); [apply silent_ret | apply silent_throw]|].
  intros template.
  apply silent_bind; [apply silent_Date_now|]. intros startTime.
  apply silent_bind; [now apply silent_perform|]. intros _.
  destruct (supervise (events (child E)) [] [] false) as [[out err] killed].
  apply silent_bind; [apply silent_Date_now|]. intros endTime.
  destruct (ending (child E)); apply silent_ret.
Qed.

Lemma silent_collectResult (taskId workDir : jsstring) (r : AgentResult) :
  silent (collectResult E RESULTS_DIR path_join toISOString taskId workDir r).
Proof.
  unfold collectResult.
  apply silent_bind; [now apply silent_perform|]. intros _.
  apply silent_bind; [now apply silent_perform|]. intros _.
  apply silent_bind.
  { destruct (result_md E) as [content|].
    - apply silent_bind; [now apply silent_perform|]. intros _.
      apply silent_bind; [now apply silent_perform|]. intros _. apply silent_ret.
    - apply silent_bind; [now apply silent_perform|]. intros _. apply silent_ret. }
  intros summary.
  apply silent_bind; [apply silent_Date_now|]. intros completedAt.
  apply silent_bind; [now apply silent_perform|]. intros _. apply silent_ret.
Qed.

Lemma sends_silent_bind (A B : Type) (P : request -> Prop) (n : nat) (m : M A)
      (k : A -> M B) :
  silent m -> (forall a, sends P n (k a)) -> sends P n (bind m k).
Proof.
  intros Hm Hk. apply (sends_bind _ _ _ 0 n); [now apply sends_still | assumption].
Qed.

Lemma best_effort_never_throws (m : M unit) : never_throws (best_effort m).
Proof. apply never_throws_try_catch. intros e. apply never_throws_ret. Qed.

Lemma best_effort_sends (P : request -> Prop) (n : nat) (m : M unit) :
  sends P n m -> sends P n (best_effort m).
Proof.
  intros H. apply sends_more with (n + 0); [lia|].
  apply sends_try_catch; [assumption|]. intros e. apply sends_ret.
Qed.

Lemma updateTask_sends (taskId description : jsstring) :
  sends (dispatch_request taskId) 1
        (updateTask E KANBAN_API KANBAN_TOKEN taskId
                    (JObj [(str "description", JStr description)])).
Proof.
  intros w. unfold updateTask. rewrite kanbanPut_spec. cbn [snd].
  eexists. split; [apply requests_sent|]. split; [cbn; lia|].
  constructor; [|constructor]. left. exists description. reflexivity.
Qed.

Lemma moveTask_sends (taskId : jsstring) (column : json) :
  In column [queue colIds; wip colIds; review colIds] ->
  sends (dispatch_request taskId) 1 (moveTask E KANBAN_API KANBAN_TOKEN taskId column).
Proof.
  intros Hc w. unfold moveTask. rewrite kanbanPut_spec. cbn [snd].
  eexists. split; [apply requests_sent|]. split; [cbn; lia|].
  constructor; [|constructor]. right. exists column. now split.
Qed.

Lemma write_and_move_bounds (taskId description : jsstring) (column : json) :
  In column [queue colIds; wip colIds; review colIds] ->
  let m := best_effort
             (updateTask E KANBAN_API KANBAN_TOKEN taskId
                         (JObj [(str "description", JStr description)]) ;;;
              moveTask E KANBAN_API KANBAN_TOKEN taskId column ;;; ret tt) in
  never_throws m /\ sends (dispatch_request taskId) 2 m.
Proof.
  intros Hc. split; [apply best_effort_never_throws|]. apply best_effort_sends.
  apply (sends_bind _ _ _ 1 1); [apply updateTask_sends|]. intros _.
  apply (sends_bind _ _ _ 1 0); [now apply moveTask_sends|]. intros _. apply sends_ret.
Qed.

Lemma settle_bounds (task : Task) (meta : json) (result : AgentResult)
      (summary resultPath : jsstring) :
  let m := settle E KANBAN_API KANBAN_TOKEN colIds task meta result summary resultPath in
  never_throws m /\ sends (dispatch_request (id task)) 2 m.
Proof.
  unfold settle. destruct (success result).
  - split.
    + apply never_throws_bind; [apply write_and_move_bounds; cbn; tauto|]. intros _.
      intros w e. discriminate.
    + apply (sends_bind _ _ _ 2 0); [apply write_and_move_bounds; cbn; tauto|].
      intros _. apply sends_still. reflexivity.
  - destruct (below_max _) as [[|]|].
    + apply write_and_move_bounds. cbn. tauto.
    + apply write_and_move_bounds. cbn. tauto.
    + split; [apply never_throws_beyond|].
      apply sends_more with 0; [lia | apply sends_still; reflexivity].
Qed.


End DispatchBounds.

Section DispatchSuccess.
Import TaskRunner.
Local Open Scope eff_scope.
Variable E : env.
Variables KANBAN_API KANBAN_TOKEN : jsstring.
Variable agentsConfig : list Agent.
Variable colIds : ColIds.
Variables WORKSPACES_DIR RESULTS_DIR : jsstring.
Variable path_join : jsstring -> jsstring -> jsstring.
Variable toISOString : Z -> jsstring.

Lemma review_meta_fields (o : obj) (summary resultPath : jsstring) :
  get (review_meta (JObj o) summary resultPath) (str "status") = Some (JStr (str "review"))
  /\ get (review_meta (JObj o) summary resultPath) (str "lastError") = Some JNull
  /\ get (review_meta (JObj o) summary resultPath) (str "resultPath")
     = Some (JStr resultPath)
  /\ get (review_meta (JObj o) summary resultPath) (str "attempts")
     = get (JObj o) (str "attempts")
  /\ get (review_meta (JObj o) summary resultPath) (str "agent")
     = get (JObj o) (str "agent").
Proof.
  unfold review_meta. repeat split.
  - rewrite !get_set_other by keys_differ. apply get_set_same.
  - rewrite !get_set_other by keys_differ. rewrite !set_object. apply get_set_same.
  - rewrite !get_set_other by keys_differ. rewrite !set_object. apply get_set_same.
  - now rewrite !get_set_other by keys_differ.
  - now rewrite !get_set_other by keys_differ.
Qed.

Lemma review_meta_serializable (meta : json) (summary resultPath : jsstring) :
  serializable meta -> serializable (review_meta meta summary resultPath).
Proof.
  intros Hs. unfold review_meta.
  repeat (apply serializable_set; [reflexivity| |exact I]). exact Hs.
Qed.

Lemma running_meta_record (task : Task) (agent : json) (s : jsstring) :
  meta_is_record task ->
  (exists o, running_meta task agent s = JObj o)
  /\ is_array (parseAgentMeta (task_description task)) = false.
Proof.
  unfold meta_is_record, running_meta.
  destruct (parseAgentMeta (task_description task)) as [| | | | |o]; try contradiction;
    intros _; (split; [|reflexivity]); cbn [truthy]; unfold DEFAULT_META;
    rewrite !set_object; eauto.
Qed.


End DispatchSuccess.

Section DispatchSuccessWitness.
Import TaskRunner.


End DispatchSuccessWitness.

Section StarFacts.
Variable A : Type.

(** The greedy star of a character class, followed by something that
    matches wherever it starts, takes every leading code unit of the
    class. *)
Lemma star_takes_all (p : N -> bool) (k : nat -> jsstring -> captures -> option A)
      (u t : jsstring) (i : nat) (c : captures) :
  forallb p u = true ->
  match t with x :: _ => p x = false | [] => True end ->
  (exists r, k (i + length u) t c = Some r) ->
  rmatch (RStar true (RChar p)) i (u ++ t) c k = k (i + length u) t c.
Proof.
  intros Hu Ht Hk. cbn [rmatch].
  match goal with
  | |- ?f (length (u ++ t)) i (u ++ t) c = _ => set (loop := f)
  end.
  assert (Hloop : forall n u i, forallb p u = true -> length u <= n ->
                    (exists r, k (i + length u) t c = Some r) ->
                    loop n i (u ++ t) c = k (i + length u) t c).
  { clear Hu Hk u i. induction n as [|n IH]; intros u i Hu Hn Hk.
    - destruct u; [|cbn in Hn; lia]. cbn [app length]. rewrite Nat.add_0_r in *.
      unfold loop. reflexivity.
    - destruct u as [|x u].
      + cbn [app length] in *. rewrite Nat.add_0_r in *.
        unfold loop. cbn [rmatch].
        destruct t as [|y t']; [reflexivity|]. rewrite Ht. reflexivity.
      + cbn [forallb] in Hu. apply andb_true_iff in Hu as [Hx Hu].
        cbn [length] in Hn, Hk.
        assert (Hrec := IH u (S i) Hu ltac:(lia)).
        replace (S i + length u) with (i + S (length u)) in Hrec by lia.
        specialize (Hrec Hk). destruct Hk as [r Hr].
        unfold loop. cbn [rmatch app]. rewrite Hx.
        replace (Nat.eqb (S i) i) with false
          by (symmetry; apply Nat.eqb_neq; lia).
        fold loop. rewrite Hrec. cbn [length]. now rewrite Hr. }
  apply Hloop; [assumption| |assumption]. rewrite length_app. lia.
Qed.

End StarFacts.

Section AuthExtras.
Import BoardApi.

(** What [replace] with the pattern of the bearer prefix leaves of a
    header: the text after the white space that follows [Bearer]. *)
Lemma strip_bearer (ws t : jsstring) :
  ws <> [] -> forallb is_ws ws = true ->
  match t with x :: _ => is_ws x = false | [] => True end ->
  replace_first bearer_prefix [] (str "Bearer" ++ ws ++ t) = t.
Proof.
  intros Hne Hws Ht. destruct ws as [|x ws]; [contradiction|].
  cbn [forallb] in Hws. apply andb_true_iff in Hws as [Hx Hws].
  unfold replace_first, rexec.
  assert (Hm : rmatch_at bearer_prefix 0 (str "Bearer" ++ (x :: ws) ++ t)
               = Some (0, 7 + length ws, [])).
  { unfold rmatch_at, bearer_prefix, r_plus, r_space.
    change (str "Bearer") with [66; 101; 97; 114; 101; 114]%N.
    set (star := RStar true (RChar is_ws)).
    cbn [app r_seq r_lit_i r_unit_i rmatch Nat.eqb].
    change (N.eqb (lower_ascii 66) (lower_ascii 66)) with true.
    change (N.eqb (lower_ascii 101) (lower_ascii 101)) with true.
    change (N.eqb (lower_ascii 97) (lower_ascii 97)) with true.
    change (N.eqb (lower_ascii 114) (lower_ascii 114)) with true.
    cbv iota. rewrite Hx. subst star.
    rewrite (star_takes_all _ is_ws _ ws t 7 []); [reflexivity|assumption|assumption|].
    eexists. reflexivity. }
  change (str "Bearer" ++ (x :: ws) ++ t)
    with (66%N :: ([101; 97; 114; 101; 114]%N ++ (x :: ws) ++ t)) in *.
  cbn [rsearch]. rewrite Hm. cbn [firstn app].
  change (7 + length ws) with (S (S (S (S (S (S (S (length ws)))))))).
  cbn [skipn app]. now rewrite skipn_app, skipn_all, Nat.sub_diag.
Qed.

(** X13: a header [Bearer], white space and a text that does not begin
    with white space is accepted exactly when the text is the
    configured token; without a configured token it is refused. *)
Theorem checkAuth_bearer_token (token : option jsstring) (req : Req) (ws t : jsstring) :
  authorization req = Some (str "Bearer" ++ ws ++ t) ->
  ws <> [] -> forallb is_ws ws = true ->
  match t with x :: _ => is_ws x = false | [] => True end ->
  checkAuth token req = match token with
                        | Some tk => jsstring_eqb t tk
                        | None => false
                        end.
Proof.
  intros Hh Hne Hws Ht. unfold checkAuth. rewrite Hh.
  rewrite (strip_bearer ws t Hne Hws Ht).
  change (str "Bearer" ++ ws ++ t) with (66%N :: ([101; 97; 114; 101; 114]%N ++ ws ++ t)).
  reflexivity.
Qed.

Lemma checkAuth_bearer_token_witness :
  checkAuth (Some (str "secret")) sample_request = true.
Proof.
  apply (checkAuth_bearer_token (Some (str "secret")) sample_request (str " ") (str "secret")
           eq_refl ltac:(discriminate) eq_refl eq_refl).
Defined.

(** X14: the board handler changes what is stored only on a [POST]
    that [checkAuth] lets through; a request that is refused is
    answered 401; and a request without [Authorization] header is let
    through whatever token is configured. *)
Theorem board_store_write_protection (token : option jsstring) (req : Req)
        (stored : option jsstring) :
  (stored_after (handler token req stored) <> stored ->
   jsstring_eqb (req_method req) (str "POST") = true /\ checkAuth token req = true)
  /\ (checkAuth token req = false ->
      jsstring_eqb (req_method req) (str "OPTIONS") = false ->
      handler token req stored = Replied 401 (error_body (str "Unauthorized")) stored)
  /\ (authorization req = None -> checkAuth token req = true).
Proof.
  split; [|split].
  - unfold handler.
    destruct (jsstring_eqb (req_method req) (str "OPTIONS")); [now intros []|].
    destruct (checkAuth token req); cbn [negb]; [|now intros []].
    destruct (jsstring_eqb (req_method req) (str "GET")).
    { destruct (redisGet stored); now intros []. }
    destruct (jsstring_eqb (req_method req) (str "POST")); [auto|now intros []].
  - intros Hc Ho. unfold handler. now rewrite Ho, Hc.
  - intros Hn. unfold checkAuth. now rewrite Hn.
Qed.

End AuthExtras.

Section LineFacts.

Lemma split_lines_aux_nonempty (cur s : jsstring) : split_lines_aux cur s <> [].
Proof.
  revert cur. induction s as [|c s IH]; intros cur; cbn [split_lines_aux]; [discriminate|].
  destruct (N.eqb c LF); [discriminate | apply IH].
Qed.

Lemma join_cons (sep p : jsstring) (rest : list jsstring) :
  rest <> [] -> join sep (p :: rest) = p ++ sep ++ join sep rest.
Proof. destruct rest; [contradiction | reflexivity]. Qed.

(** Joining the lines of a text gives the text back. *)
Lemma join_split_lines_aux (cur s : jsstring) :
  join [LF] (split_lines_aux cur s) = rev cur ++ s.
Proof.
  revert cur. induction s as [|c s IH]; intros cur; cbn [split_lines_aux].
  - cbn [join]. now rewrite app_nil_r.
  - destruct (N.eqb_spec c LF) as [->|Hc].
    + rewrite join_cons by apply split_lines_aux_nonempty. now rewrite IH.
    + rewrite IH. cbn [rev]. now rewrite <- app_assoc.
Qed.

Lemma join_split_lines (s : jsstring) : join [LF] (split_lines s) = s.
Proof. apply (join_split_lines_aux [] s). Qed.

(** The last lines of a text are an end of the text. *)
Lemma join_skipn_suffix (sep : jsstring) (k : nat) (l : list jsstring) :
  exists pre, join sep l = pre ++ join sep (skipn k l).
Proof.
  revert l. induction k as [|k IH]; intros l; [now exists []|].
  destruct l as [|p l]; [now exists []|]. cbn [skipn].
  destruct (IH l) as [pre Hpre]. destruct l as [|q l].
  - exists p. destruct k; cbn; now rewrite app_nil_r.
  - rewrite join_cons by discriminate. rewrite Hpre.
    exists (p ++ sep ++ pre). now rewrite <- !app_assoc.
Qed.

Lemma line_breaks_app (a b : jsstring) :
  line_breaks (a ++ b) = line_breaks a + line_breaks b.
Proof. unfold line_breaks. now rewrite filter_app, length_app. Qed.

Lemma line_breaks_none (s : jsstring) : ~ In LF s -> line_breaks s = 0.
Proof.
  unfold line_breaks. induction s as [|c s IH]; intros H; [reflexivity|].
  cbn [filter]. destruct (N.eqb_spec LF c) as [<-|Hc]; [exfalso; apply H; now left|].
  apply IH. intros Hin. apply H. now right.
Qed.

Lemma line_breaks_skipn (n : nat) (s : jsstring) :
  line_breaks (skipn n s) <= line_breaks s.
Proof.
  rewrite <- (firstn_skipn n s) at 2. rewrite line_breaks_app. lia.
Qed.

Lemma split_lines_aux_clean (cur s : jsstring) :
  ~ In LF cur -> Forall (fun l => ~ In LF l) (split_lines_aux cur s).
Proof.
  revert cur. induction s as [|c s IH]; intros cur Hcur; cbn [split_lines_aux].
  - constructor; [|constructor]. now rewrite <- in_rev.
  - destruct (N.eqb_spec c LF) as [->|Hc].
    + constructor; [now rewrite <- in_rev | apply IH; intros []].
    + apply IH. intros [H|H]; [now apply Hc | now apply Hcur].
Qed.

Lemma line_breaks_join (l : list jsstring) :
  Forall (fun x => ~ In LF x) l -> line_breaks (join [LF] l) = length l - 1.
Proof.
  induction 1 as [|p l Hp Hl IH]; [reflexivity|].
  destruct l as [|q l].
  - cbn [join length]. now rewrite line_breaks_none.
  - rewrite join_cons by discriminate. rewrite !line_breaks_app, IH.
    rewrite line_breaks_none by assumption. cbn. lia.
Qed.

Lemma Forall_skipn (A : Type) (P : A -> Prop) (n : nat) (l : list A) :
  Forall P l -> Forall P (skipn n l).
Proof.
  intros H. rewrite <- (firstn_skipn n l) in H. now apply Forall_app in H as [_ H].
Qed.

End LineFacts.

Section CollectorExtras.
Import TaskRunner.
Local Open Scope eff_scope.
Variable E : env.
Variable RESULTS_DIR : jsstring.
Variable path_join : jsstring -> jsstring -> jsstring.
Variable toISOString : Z -> jsstring.

(** X15: [collectResult] sends no request, however it ends.  When
    the machine refuses no file call it returns and leaves
    [agent.log], [RESULT.md] and [meta.json] in the result directory of
    the task; with a [RESULT.md] of the agent the summary is its first
    500 code units, followed by three dots if there are more; without,
    the summary is an end of the trimmed standard output, of at most 20
    lines and 500 code units.  When the machine refuses the result
    directory, the call throws the error of the file system and no
    file is written. *)
Theorem collectResult_summary (taskId workDir : jsstring) (r : AgentResult) (w : world) :
  requests (snd (collectResult E RESULTS_DIR path_join toISOString taskId workDir r w))
  = requests w
  /\ (forall msg, fault E (length (log w)) = Some msg ->
      collectResult E RESULTS_DIR path_join toISOString taskId workDir r w
      = (Throw (Error msg), w))
  /\ (no_fault E ->
      exists summary w',
        collectResult E RESULTS_DIR path_join toISOString taskId workDir r w
        = (Ret summary, w')
        /\ files_written w' =
           files_written w ++ map (path_join (path_join RESULTS_DIR taskId))
                                  [str "agent.log"; str "RESULT.md"; str "meta.json"]
        /\ match result_md E with
           | Some content =>
             summary = if (500 <? length content)%nat
                       then firstn 500 content ++ str "..."
                       else content
           | None =>
             length summary <= 500
             /\ line_breaks summary <= 19
             /\ exists pre, trim (stdout r) = pre ++ summary
           end).
Proof.
  split; [apply silent_collectResult|].
  split.
  { intros msg Hm. unfold collectResult, bind, perform. now rewrite Hm. }
  intros Hnf.
  unfold collectResult, bind, perform, emit, Date_now, ret.
  cbn [log clock activeAgents completedCount].
  destruct (result_md E) as [content|].
  - rewrite ?Hnf. cbn [log clock activeAgents completedCount]. rewrite ?Hnf.
    eexists _, _. split; [reflexivity|].
    split; [unfold files_written; cbn [log]; rewrite !flat_map_app; cbn;
            now rewrite <- !app_assoc|].
    reflexivity.
  - rewrite ?Hnf. cbn [log clock activeAgents completedCount]. rewrite ?Hnf.
    eexists _, _. split; [reflexivity|].
    split; [unfold files_written; cbn [log]; rewrite !flat_map_app; cbn;
            now rewrite <- !app_assoc|].
    set (lines := split_lines (trim (stdout r))).
    set (joined := join [LF] (last_n 20 lines)).
    assert (Hsuffix : exists pre, trim (stdout r) = pre ++ joined).
    { unfold joined, last_n. rewrite <- (join_split_lines (trim (stdout r))).
      apply join_skipn_suffix. }
    assert (Hlines : line_breaks joined <= 19).
    { unfold joined. rewrite line_breaks_join.
      - unfold last_n. rewrite length_skipn. lia.
      - unfold last_n. apply Forall_skipn. apply split_lines_aux_clean. intros []. }
    destruct (Nat.ltb_spec 500 (length joined)) as [Hlong|Hshort].
    + split; [unfold slice_last; rewrite length_skipn; lia|]. split.
      * unfold slice_last. pose proof (line_breaks_skipn (length joined - 500) joined). lia.
      * destruct Hsuffix as [pre Hpre]. unfold slice_last.
        exists (pre ++ firstn (length joined - 500) joined).
        now rewrite <- app_assoc, firstn_skipn.
    + split; [exact Hshort|]. split; [exact Hlines | exact Hsuffix].
Qed.

End CollectorExtras.

Section ColumnFacts.
Import TaskRunner Startup.
Variable E : env.
Variables KANBAN_API KANBAN_TOKEN : jsstring.
Variable draw : Key -> Z.
Local Abbreviation board_get := (board_get KANBAN_API KANBAN_TOKEN).
Local Abbreviation board_post := (board_post KANBAN_API KANBAN_TOKEN).
Local Abbreviation fetched := (fetched E KANBAN_API KANBAN_TOKEN).

Lemma findIndex_find (t : jsstring) (i : nat) (columns : list json) :
  match findIndex_title t i columns with
  | None => find_title t columns = None
  | Some None => find_title t columns = Some None
  | Some (Some j) =>
    exists c, i <= j /\ nth_error columns (j - i) = Some c
              /\ find_title t columns = Some (Some c)
  end.
Proof.
  revert i. induction columns as [|c r IH]; intros i; cbn [findIndex_title find_title].
  - reflexivity.
  - destruct (lower_title c) as [t'|]; [|reflexivity].
    destruct (jsstring_eqb t' t).
    + exists c. rewrite Nat.sub_diag. auto.
    + specialize (IH (S i)). destruct (findIndex_title t (S i) r) as [[j|]|]; try assumption.
      destruct IH as (c' & Hj & Hn & Hf). exists c'. split; [lia|]. split; [|exact Hf].
      replace (j - i) with (S (j - S i)) by lia. exact Hn.
Qed.

Lemma adds_trans (P : json -> Prop) (a b c : list json) :
  adds P a b -> adds P b c -> adds P a c.
Proof.
  intros Hab Hbc. revert a Hab. induction Hbc as [l|x l l' Hl IH|x l l' Hx Hl IH]; intros a Hab.
  - exact Hab.
  - inversion Hab as [l0|y l0 l0' H0|y l0 l0' Hy H0]; subst.
    + apply adds_keep. apply IH. apply adds_same.
    + apply adds_keep. now apply IH.
    + apply adds_new; [assumption|]. now apply IH.
  - apply adds_new; [assumption|]. now apply IH.
Qed.

Lemma adds_splice (P : json -> Prop) (i : nat) (x : json) (l : list json) :
  P x -> adds P l (splice_in i x l).
Proof.
  intros Hx. unfold splice_in. revert l. induction i as [|i IH]; intros l.
  - cbn. apply adds_new; [assumption | apply adds_same].
  - destruct l as [|y l]; cbn [firstn skipn app].
    + apply adds_new; [assumption | apply adds_same].
    + apply adds_keep. apply IH.
Qed.

Lemma adds_append (P : json -> Prop) (x : json) (l : list json) :
  P x -> adds P l (l ++ [x]).
Proof.
  intros Hx. induction l as [|y l IH]; cbn [app].
  - apply adds_new; [assumption | apply adds_same].
  - now apply adds_keep.
Qed.

Lemma adds_length (P : json -> Prop) (l l' : list json) :
  adds P l l' -> length l <= length l'.
Proof. induction 1; cbn [length]; lia. Qed.

(** A column put in under another title does not change which column
    is the first of a title. *)
Lemma find_title_splice_other (t tx : jsstring) (i : nat) (x : json) (l : list json) :
  lower_title x = Some tx -> jsstring_eqb tx t = false ->
  find_title t (splice_in i x l) = find_title t l.
Proof.
  intros Hx Hne. unfold splice_in. revert l. induction i as [|i IH]; intros l.
  - cbn [firstn skipn app find_title]. now rewrite Hx, Hne.
  - destruct l as [|y l]; cbn [firstn skipn app find_title].
    + now rewrite Hx, Hne.
    + destruct (lower_title y) as [ty|]; [|reflexivity].
      destruct (jsstring_eqb ty t); [reflexivity | apply IH].
Qed.

Lemma find_title_append_other (t tx : jsstring) (x : json) (l : list json) :
  lower_title x = Some tx -> jsstring_eqb tx t = false ->
  find_title t (l ++ [x]) = find_title t l.
Proof.
  intros Hx Hne. induction l as [|y l IH]; cbn [app find_title].
  - now rewrite Hx, Hne.
  - destruct (lower_title y) as [ty|]; [|reflexivity].
    destruct (jsstring_eqb ty t); [reflexivity | apply IH].
Qed.

(** A column put in under a title the board did not have is the first
    of that title. *)
Lemma find_title_splice_new (t : jsstring) (i : nat) (x : json) (l : list json) :
  lower_title x = Some t -> find_title t l = Some None ->
  find_title t (splice_in i x l) = Some (Some x).
Proof.
  intros Hx. unfold splice_in. revert l. induction i as [|i IH]; intros l Hl.
  - cbn [firstn skipn app find_title]. now rewrite Hx, jsstring_eqb_refl.
  - destruct l as [|y l]; cbn [firstn skipn app find_title] in *.
    + now rewrite Hx, jsstring_eqb_refl.
    + destruct (lower_title y) as [ty|]; [|discriminate].
      destruct (jsstring_eqb ty t); [discriminate | now apply IH].
Qed.

Lemma find_title_append_new (t : jsstring) (x : json) (l : list json) :
  lower_title x = Some t -> find_title t l = Some None ->
  find_title t (l ++ [x]) = Some (Some x).
Proof.
  intros Hx. induction l as [|y l IH]; intros Hl; cbn [app find_title] in *.
  - now rewrite Hx, jsstring_eqb_refl.
  - destruct (lower_title y) as [ty|]; [|discriminate].
    destruct (jsstring_eqb ty t); [discriminate | now apply IH].
Qed.

Lemma place_spec (P : json -> Prop) (key : Key) (newCol : json)
      (columns columns' : list json) (t : jsstring) :
  place key newCol columns = Some columns' ->
  lower_title newCol = Some t -> P newCol ->
  adds P columns columns'
  /\ length columns' = S (length columns)
  /\ (forall t', jsstring_eqb t t' = false ->
                 find_title t' columns' = find_title t' columns)
  /\ (find_title t columns = Some None -> find_title t columns' = Some (Some newCol)).
Proof.
  intros Hp Ht HP.
  assert (Hshape : (exists i, columns' = splice_in i newCol columns)
                   \/ columns' = columns ++ [newCol]).
  { unfold place in Hp.
    destruct (findIndex_title (str "done") 0 columns) as [doneIdx|]; [|discriminate].
    assert (Hd : (exists i, match doneIdx with
                            | Some j => splice_in j newCol columns
                            | None => columns ++ [newCol]
                            end = splice_in i newCol columns)
                 \/ match doneIdx with
                    | Some j => splice_in j newCol columns
                    | None => columns ++ [newCol]
                    end = columns ++ [newCol])
      by (destruct doneIdx; eauto).
    destruct key.
    - destruct (findIndex_title (str "agent wip") 0 columns) as [[i|]|]; try discriminate;
        injection Hp as <-; eauto.
    - destruct (findIndex_title (str "review") 0 columns) as [[i|]|]; try discriminate;
        injection Hp as <-; eauto.
    - injection Hp as <-. exact Hd. }
  destruct Hshape as [[i ->]| ->].
  - split; [now apply adds_splice|]. split; [|split].
    + unfold splice_in. rewrite length_app. cbn [length].
      rewrite length_firstn, length_skipn. lia.
    + intros t' Hne. now apply find_title_splice_other with t.
    + now apply find_title_splice_new.
  - split; [now apply adds_append|]. split; [|split].
    + rewrite length_app. cbn [length]. lia.
    + intros t' Hne. now apply find_title_append_other with t.
    + now apply find_title_append_new.
Qed.

Lemma colIds_get_set (c : ColIds) (key : Key) (v : json) :
  colIds_get (colIds_set c key v) key = v.
Proof. now destruct key. Qed.

Lemma colIds_get_set_other (c : ColIds) (key key' : Key) (v : json) :
  key' <> key -> colIds_get (colIds_set c key v) key' = colIds_get c key'.
Proof. destruct key, key'; intros H; try reflexivity; now destruct H. Qed.

(** One turn of the loop: the column of the key is on the board
    afterwards and the cache holds its id; a column that was there is
    left as it is. *)
Lemma ensure_spec (columns columns' : list json) (key : Key) (title : jsstring)
      (c c' : ColIds) (w w' : world) :
  In title [str "Queue"; str "Agent WIP"; str "Review"] ->
  ensure E draw columns (key, title) c w = (Ret columns', c', w') ->
  adds created columns columns'
  /\ length columns' <= S (length columns)
  /\ requests w' = requests w
  /\ (exists col, find_title (toLowerCase title) columns' = Some (Some col)
                  /\ get col (str "id") = Some (colIds_get c' key))
  /\ (forall key', key' <> key -> colIds_get c' key' = colIds_get c key')
  /\ (forall t', jsstring_eqb (toLowerCase title) t' = false ->
                 find_title t' columns' = find_title t' columns)
  /\ (find_title (toLowerCase title) columns <> Some None -> columns' = columns /\ w' = w).
Proof.
  intros Htitle. unfold ensure.
  pose proof (findIndex_find (toLowerCase title) 0 columns) as Hf.
  destruct (findIndex_title (toLowerCase title) 0 columns) as [[i|]|].
  - destruct Hf as (col & _ & Hn & Hfound). rewrite Nat.sub_0_r in Hn. rewrite Hn.
    destruct (get col (str "id")) as [v|] eqn:Eid; [|discriminate].
    unfold rbind, assign, rret. intros [= <- <- <-].
    split; [apply adds_same|]. split; [lia|]. split; [reflexivity|].
    split; [exists col; now rewrite colIds_get_set|].
    split; [intros key' Hk; now apply colIds_get_set_other|].
    split; [reflexivity|]. intros _. now split.
  - unfold rbind, lift, Date_now.
    set (newCol := JObj [(str "id", JInt (date_now E (clock w) + draw key));
                         (str "title", JStr title); (str "tasks", JArr [])]).
    destruct (place key newCol columns) as [columns1|] eqn:Ep; [|discriminate].
    unfold assign, rret. intros [= <- <- <-].
    assert (Hc : created newCol) by (eexists _, title; split; [reflexivity | exact Htitle]).
    destruct (place_spec created key newCol columns columns1 (toLowerCase title) Ep
                eq_refl Hc) as (Hadds & Hlen & Hother & Hnew).
    split; [exact Hadds|]. split; [lia|]. split; [reflexivity|].
    split.
    { exists newCol. split; [now apply Hnew|]. now rewrite colIds_get_set. }
    split; [intros key' Hk; now apply colIds_get_set_other|].
    split; [exact Hother|]. intros Hne. now destruct (Hne Hf).
  - discriminate.
Qed.

(** The loop over the needed columns. *)
Lemma ensure_all_spec (columns final : list json) (c c' : ColIds) (w w' : world) :
  ensure_all E draw columns needed c w = (Ret final, c', w') ->
  adds created columns final
  /\ length final <= length columns + 3
  /\ requests w' = requests w
  /\ (forall key, exists col,
        find_title (needed_title key) final = Some (Some col)
        /\ get col (str "id") = Some (colIds_get c' key))
  /\ ((forall key, find_title (needed_title key) columns <> Some None) ->
      final = columns /\ w' = w).
Proof.
  unfold needed. cbn [ensure_all]. unfold rbind at 1.
  destruct (ensure E draw columns (queue_key, str "Queue") c w) as [[[cols1| |] c1] w1] eqn:E1;
    try discriminate.
  unfold rbind at 1.
  destruct (ensure E draw cols1 (wip_key, str "Agent WIP") c1 w1) as [[[cols2| |] c2] w2] eqn:E2;
    try discriminate.
  unfold rbind at 1.
  destruct (ensure E draw cols2 (review_key, str "Review") c2 w2) as [[[cols3| |] c3] w3] eqn:E3;
    try discriminate.
  unfold rret. intros [= <- <- <-].
  apply ensure_spec in E1 as (A1 & L1 & R1 & (q & Fq & Iq) & K1 & O1 & S1);
    [|cbn; tauto].
  apply ensure_spec in E2 as (A2 & L2 & R2 & (p & Fp & Ip) & K2 & O2 & S2);
    [|cbn; tauto].
  apply ensure_spec in E3 as (A3 & L3 & R3 & (r & Fr & Ir) & K3 & O3 & S3);
    [|cbn; tauto].
  change (toLowerCase (str "Queue")) with (str "queue") in *.
  change (toLowerCase (str "Agent WIP")) with (str "agent wip") in *.
  change (toLowerCase (str "Review")) with (str "review") in *.
  split; [exact (adds_trans _ _ _ _ (adds_trans _ _ _ _ A1 A2) A3)|].
  split; [lia|]. split; [congruence|]. split.
  - intros [| |]; cbn [needed_title].
    + exists q. rewrite (O3 (str "queue") eq_refl), (O2 (str "queue") eq_refl).
      split; [exact Fq|].
      rewrite (K3 queue_key ltac:(discriminate)), (K2 queue_key ltac:(discriminate)).
      exact Iq.
    + exists p. rewrite (O3 (str "agent wip") eq_refl). split; [exact Fp|].
      rewrite (K3 wip_key ltac:(discriminate)). exact Ip.
    + exists r. now split.
  - intros Hall.
    destruct (S1 (Hall queue_key)) as [-> ->].
    destruct (S2 (Hall wip_key)) as [-> ->].
    destruct (S3 (Hall review_key)) as [-> ->]. now split.
Qed.

Lemma same_columns (board : json) (columns : list json) :
  board_columns board = Some columns -> columns <> [] ->
  set board (str "columns") (JArr columns) = board.
Proof.
  unfold board_columns. intros Hb Hne.
  destruct board as [| | | | |o]; cbn [get set] in *;
    try (destruct (array_index (str "columns")); [discriminate|]);
    try (injection Hb as <-; now destruct Hne).
  f_equal. unfold obj_set.
  destruct (obj_get o (str "columns")) as [v|] eqn:Eg;
    [|injection Hb as <-; now destruct Hne].
  destruct (truthy v); [|injection Hb as <-; now destruct Hne].
  destruct v; try discriminate. injection Hb as ->.
  clear Hne. induction o as [|[k x] o IH]; [discriminate|].
  cbn [obj_get obj_replace] in *. destruct (jsstring_eqb k (str "columns")).
  - now injection Eg as ->.
  - f_equal. now apply IH.
Qed.

Lemma ensureColumns_spec (c c' : ColIds) (w w' : world) :
  ensureColumns E KANBAN_API KANBAN_TOKEN draw c w = (Ret tt, c', w') ->
  exists board columns final,
    fetched w board
    /\ board_columns board = Some columns
    /\ adds created columns final
    /\ length final <= length columns + 3
    /\ requests w' =
       requests w ++ [board_get; board_post (set board (str "columns") (JArr final))]
    /\ (forall key, exists col,
          find_title (needed_title key) final = Some (Some col)
          /\ get col (str "id") = Some (colIds_get c' key))
    /\ ((forall key, find_title (needed_title key) columns <> Some None) ->
        final = columns /\ clock w' = clock w).
Proof.
  unfold ensureColumns, rbind at 1, lift at 1. rewrite kanbanGet_spec.
  fold board_get. unfold fetched.
  destruct (read_json _ (answer E w board_get)) as [board| |] eqn:Eb; try discriminate.
  assert (Hcols : forall columns,
    board <> JNull -> board_columns board = Some columns ->
    rbind (ensure_all E draw columns needed)
      (fun columns' =>
         rbind (lift (kanbanPost E KANBAN_API KANBAN_TOKEN (str "/api/board")
                        (set board (str "columns") (JArr columns'))))
               (fun _ => rret tt)) c (sent w [board_get]) = (Ret tt, c', w') ->
    exists board0 columns0 final,
      Ret board = Ret board0
      /\ board_columns board0 = Some columns0
      /\ adds created columns0 final
      /\ length final <= length columns0 + 3
      /\ requests w' =
         requests w ++ [board_get; board_post (set board0 (str "columns") (JArr final))]
      /\ (forall key, exists col,
            find_title (needed_title key) final = Some (Some col)
            /\ get col (str "id") = Some (colIds_get c' key))
      /\ ((forall key, find_title (needed_title key) columns0 <> Some None) ->
          final = columns0 /\ clock w' = clock w)).
  { intros columns Hnn Hbc. unfold rbind at 1.
    destruct (ensure_all E draw columns needed c (sent w [board_get]))
      as [[[final| |] c1] w1] eqn:Eall; try discriminate.
    apply ensure_all_spec in Eall as (Hadds & Hlen & Hreq & Hfound & Hsame).
    unfold rbind, lift. rewrite kanbanPost_spec. fold (board_post (set board (str "columns") (JArr final))).
    destruct (read_json _ (answer E w1 _)) as [v| |]; try discriminate.
    unfold rret. intros [= <- <-].
    exists board, columns, final. split; [reflexivity|]. split; [exact Hbc|].
    split; [exact Hadds|]. split; [exact Hlen|].
    split; [rewrite requests_sent, Hreq, requests_sent; now rewrite <- app_assoc|].
    split; [exact Hfound|]. intros Hall. destruct (Hsame Hall) as [-> ->]. now split. }
  destruct board as [| b | n k | s | l | o]; [discriminate| | | | |];
    (match goal with
     | |- context [match ?x with JArr columns => _ | _ => _ end] =>
       destruct x as [| | | | columns |] eqn:Ex
     end; try discriminate;
     intros Hrun;
     apply (Hcols columns); [discriminate| unfold board_columns; now rewrite Ex | exact Hrun]).
Qed.

(** X16: when the start-up returns, the board it has posted holds the
    columns of the board it fetched, all of them and in their order,
    and at most three columns more, each a fresh record titled
    [Queue], [Agent WIP] or [Review] without tasks.  The posted board
    has a column of each of the three titles, and the cache holds the
    id of the first column of each title.  Two requests are sent: the
    read and the write of the board. *)
Theorem ensureColumns_provides_columns (c c' : ColIds) (w w' : world) :
  ensureColumns E KANBAN_API KANBAN_TOKEN draw c w = (Ret tt, c', w') ->
  exists board columns final,
    fetched w board
    /\ board_columns board = Some columns
    /\ adds created columns final
    /\ length final <= length columns + 3
    /\ requests w' =
       requests w ++ [board_get; board_post (set board (str "columns") (JArr final))]
    /\ (forall key, exists col,
          find_title (needed_title key) final = Some (Some col)
          /\ get col (str "id") = Some (colIds_get c' key)).
Proof.
  intros Hrun.
  destruct (ensureColumns_spec c c' w w' Hrun)
    as (board & columns & final & H1 & H2 & H3 & H4 & H5 & H6 & _).
  exists board, columns, final. auto 7.
Qed.

(** X17: a board that has the three columns is posted back as it was
    fetched: no column is created, no id is drawn and the clock is not
    read. *)
Theorem ensureColumns_keeps_complete_board (c c' : ColIds) (w w' : world)
        (board : json) (columns : list json) :
  ensureColumns E KANBAN_API KANBAN_TOKEN draw c w = (Ret tt, c', w') ->
  fetched w board ->
  board_columns board = Some columns ->
  (forall key, find_title (needed_title key) columns <> Some None) ->
  requests w' = requests w ++ [board_get; board_post board]
  /\ clock w' = clock w
  /\ forall key, exists col,
       find_title (needed_title key) columns = Some (Some col)
       /\ get col (str "id") = Some (colIds_get c' key).
Proof.
  intros Hrun Hb Hc Hall.
  destruct (ensureColumns_spec c c' w w' Hrun)
    as (board' & columns' & final & H1 & H2 & _ & _ & H5 & H6 & H7).
  unfold fetched in *. rewrite Hb in H1. injection H1 as <-.
  rewrite Hc in H2. injection H2 as <-.
  destruct (H7 Hall) as [-> Hclock].
  assert (Hne : columns <> []).
  { intros ->. apply (Hall queue_key). reflexivity. }
  rewrite (same_columns board columns Hc Hne) in H5. auto.
Qed.

End ColumnFacts.

Section ColumnWitnesses.
Import TaskRunner Startup.

Lemma ensureColumns_provides_columns_witness :
  length (requests (snd (ensureColumns (serving bare_board) (str "https://board")
                                       (str "tok") (fun _ => 7%Z) no_ids initial))) = 2.
Proof.
  destruct (ensureColumns_provides_columns (serving bare_board) (str "https://board")
              (str "tok") (fun _ => 7%Z) no_ids
              (snd (fst (ensureColumns (serving bare_board) (str "https://board")
                                       (str "tok") (fun _ => 7%Z) no_ids initial)))
              initial
              (snd (ensureColumns (serving bare_board) (str "https://board")
                                  (str "tok") (fun _ => 7%Z) no_ids initial))
              ltac:(vm_compute; reflexivity))
    as (board & columns & final & _ & _ & _ & _ & Hreq & _).
  rewrite Hreq. reflexivity.
Defined.

Lemma ensureColumns_keeps_complete_board_witness :
  clock (snd (ensureColumns (serving complete_board) (str "https://board")
                            (str "tok") (fun _ => 7%Z) no_ids initial)) = 0.
Proof.
  refine (proj1 (proj2
    (ensureColumns_keeps_complete_board (serving complete_board) (str "https://board")
       (str "tok") (fun _ => 7%Z) no_ids
       (snd (fst (ensureColumns (serving complete_board) (str "https://board")
                                (str "tok") (fun _ => 7%Z) no_ids initial)))
       initial
       (snd (ensureColumns (serving complete_board) (str "https://board")
                           (str "tok") (fun _ => 7%Z) no_ids initial))
       (JObj [(str "columns",
               JArr [JObj [(str "id", JStr (str "q")); (str "title", JStr (str "Queue"))];
                     JObj [(str "id", JStr (str "w")); (str "title", JStr (str "agent wip"))];
                     JObj [(str "id", JStr (str "r")); (str "title", JStr (str "REVIEW"))]])])
       [JObj [(str "id", JStr (str "q")); (str "title", JStr (str "Queue"))];
        JObj [(str "id", JStr (str "w")); (str "title", JStr (str "agent wip"))];
        JObj [(str "id", JStr (str "r")); (str "title", JStr (str "REVIEW"))]]
       _ _ _ _))).
  - vm_compute. reflexivity.
  - vm_compute. reflexivity.
  - reflexivity.
  - intros [| |]; vm_compute; discriminate.
Defined.

End ColumnWitnesses.

Section BoardListFacts.
Import BoardApi Crud.

Lemma replace_nth_length (A : Type) (i : nat) (x : A) (l : list A) :
  length (replace_nth i x l) = length l.
Proof.
  revert i. induction l as [|y l IH]; intros [|i]; cbn [replace_nth length]; auto.
Qed.

Lemma nth_error_replace_same (A : Type) (i : nat) (x y : A) (l : list A) :
  nth_error l i = Some y -> nth_error (replace_nth i x l) i = Some x.
Proof.
  revert i. induction l as [|z l IH]; intros [|i]; cbn; try discriminate; auto.
Qed.

Lemma nth_error_replace_other (A : Type) (i j : nat) (x : A) (l : list A) :
  i <> j -> nth_error (replace_nth i x l) j = nth_error l j.
Proof.
  revert i j. induction l as [|z l IH]; intros [|i] [|j] H; cbn; auto; try lia.
Qed.

(** Replacing one column trades its tasks for those of the new one. *)
Lemma all_tasks_replace (i : nat) (x y : json) (l : list json) :
  nth_error l i = Some y ->
  Permutation (all_tasks (replace_nth i x l) ++ tasks_in y) (all_tasks l ++ tasks_in x).
Proof.
  unfold all_tasks. revert i. induction l as [|z l IH]; intros [|i]; cbn; try discriminate.
  - intros [= ->]. rewrite <- !app_assoc.
    transitivity (tasks_in x ++ tasks_in y ++ flat_map tasks_in l).
    + apply Permutation_app_head. apply Permutation_app_comm.
    + rewrite (app_assoc (tasks_in x)), (Permutation_app_comm (tasks_in x) (tasks_in y)).
      rewrite <- app_assoc. apply Permutation_app_head. apply Permutation_app_comm.
  - intros H. rewrite <- !app_assoc. apply Permutation_app_head. now apply IH.
Qed.

Lemma remove_nth_perm (A : Type) (i : nat) (x : A) (l : list A) :
  nth_error l i = Some x -> Permutation l (x :: remove_nth i l).
Proof.
  revert i. induction l as [|y l IH]; intros [|i]; cbn; try discriminate.
  - now intros [= ->].
  - intros H. rewrite perm_swap. apply perm_skip. now apply IH.
Qed.

Lemma tasks_in_set (o : obj) (ts : list json) :
  tasks_in (set (JObj o) (str "tasks") (JArr ts)) = ts.
Proof. unfold tasks_in. now rewrite get_set_same. Qed.

Lemma has_tasks_object (col : json) (ts : list json) :
  array_of (get col (str "tasks")) = Got ts ->
  (exists o, col = JObj o) /\ tasks_in col = ts.
Proof.
  unfold array_of, tasks_in. destruct (get col (str "tasks")) as [[| | | | l |]|] eqn:Eg;
    try discriminate.
  intros [= ->]. split; [|reflexivity]. now apply (get_named col (str "tasks") (JArr ts)).
Qed.

Lemma find_id_spec (x : tried jsstring) (i j : nat) (l : list json) (c : json) :
  find_id x i l = Got (Some (j, c)) ->
  i <= j /\ nth_error l (j - i) = Some c
  /\ exists t, x = Got t /\ id_text c = Got t.
Proof.
  revert i. induction l as [|y l IH]; intros i; cbn [find_id]; [discriminate|].
  destruct (id_text y) as [t| |] eqn:Ey; try discriminate.
  destruct x as [x'| |]; try discriminate.
  destruct (jsstring_eqb t x') eqn:Et.
  - intros [= <- <-]. rewrite Nat.sub_diag. split; [lia|]. split; [reflexivity|].
    exists x'. apply jsstring_eqb_eq in Et. subst. auto.
  - intros H. destruct (IH (S i) H) as (Hle & Hn & Ht). split; [lia|]. split; [|exact Ht].
    replace (j - i) with (S (j - S i)) by lia. exact Hn.
Qed.

Lemma locate_spec (b : bool) (taskId : jsstring) (i ci ti : nat) (columns ts : list json)
      (task : json) :
  locate b taskId i columns = Got (Some (ci, ti, ts, task)) ->
  i <= ci
  /\ exists col o, nth_error columns (ci - i) = Some col /\ col = JObj o
                   /\ tasks_in col = ts
                   /\ nth_error ts ti = Some task
                   /\ id_text task = Got taskId
                   /\ (b = true -> truthy task = true).
Proof.
  revert i. induction columns as [|col r IH]; intros i; cbn [locate]; [discriminate|].
  assert (Hstep : locate b taskId (S i) r = Got (Some (ci, ti, ts, task)) ->
                  i <= ci /\ exists col0 o, nth_error (col :: r) (ci - i) = Some col0
                    /\ col0 = JObj o /\ tasks_in col0 = ts /\ nth_error ts ti = Some task
                    /\ id_text task = Got taskId /\ (b = true -> truthy task = true)).
  { intros H. destruct (IH (S i) H) as (Hle & col0 & o & Hn & Hrest). split; [lia|].
    exists col0, o. split; [|exact Hrest].
    replace (ci - i) with (S (ci - S i)) by lia. exact Hn. }
  destruct col as [| | | | |o]; try discriminate;
    try (cbn [array_of get]; destruct (array_index (str "tasks")); discriminate).
  destruct (array_of (get (JObj o) (str "tasks"))) as [ts0| |] eqn:Ea; try discriminate.
  destruct (find_id (Got taskId) 0 ts0) as [[[ti0 t0]|]| |] eqn:Ef; try discriminate;
    [|exact Hstep].
  destruct (b && negb (truthy t0)) eqn:Eb; [exact Hstep|].
  intros [= <- <- <- <-]. split; [lia|]. rewrite Nat.sub_diag.
  exists (JObj o), o. split; [reflexivity|]. split; [reflexivity|].
  destruct (has_tasks_object _ _ Ea) as [_ Ht]. split; [exact Ht|].
  apply find_id_spec in Ef as (_ & Hn & t & [= <-] & Hid). rewrite Nat.sub_0_r in Hn.
  split; [exact Hn|]. split; [exact Hid|]. intros ->. cbn [andb] in Eb.
  now apply negb_false_iff in Eb.
Qed.

Lemma in_all_tasks (columns : list json) (i : nat) (col task : json) (ti : nat) :
  nth_error columns i = Some col -> nth_error (tasks_in col) ti = Some task ->
  In task (all_tasks columns).
Proof.
  intros Hc Ht. unfold all_tasks. apply in_flat_map. exists col.
  split; [now apply nth_error_In with i | now apply nth_error_In with ti].
Qed.

(** Bookkeeping of a list that loses an element to, or gains one from,
    another. *)
Lemma perm_lose (A : Type) (x : A) (a a' ts rm : list A) :
  Permutation ts (x :: rm) -> Permutation (a' ++ ts) (a ++ rm) ->
  Permutation (x :: a') a.
Proof.
  intros Hrm H. apply Permutation_app_inv_r with rm.
  apply Permutation_trans with (a' ++ ts); [|exact H].
  cbn [app]. apply Permutation_trans with (a' ++ x :: rm).
  - apply Permutation_middle.
  - apply Permutation_app_head. now apply Permutation_sym.
Qed.

Lemma perm_gain (A : Type) (y : A) (a a' th : list A) :
  Permutation (a' ++ th) (a ++ th ++ [y]) -> Permutation a' (y :: a).
Proof.
  intros H. apply Permutation_app_inv_r with th.
  apply Permutation_trans with (a ++ th ++ [y]); [exact H|].
  rewrite app_assoc. apply Permutation_sym. apply Permutation_cons_append.
Qed.

Lemma perm_trade (A : Type) (x y : A) (a a' ts rm : list A) :
  Permutation ts (x :: rm) -> Permutation (a' ++ ts) (a ++ rm ++ [y]) ->
  Permutation (x :: a') (y :: a).
Proof.
  intros Hrm H. apply Permutation_app_inv_r with rm.
  apply Permutation_trans with (a' ++ ts).
  - cbn [app]. apply Permutation_trans with (a' ++ x :: rm).
    + apply Permutation_middle.
    + apply Permutation_app_head. now apply Permutation_sym.
  - apply Permutation_trans with (a ++ rm ++ [y]); [exact H|].
    rewrite app_assoc. apply Permutation_sym. apply Permutation_cons_append.
Qed.

Lemma columns_array (board : json) (c : option json) (columns : list json) :
  prop board (str "columns") = Got c -> array_of c = Got columns ->
  get board (str "columns") = Some (JArr columns) /\ exists bo, board = JObj bo.
Proof.
  unfold prop, array_of. intros Hp Ha.
  assert (Hg : get board (str "columns") = Some (JArr columns)).
  { assert (Hc : c = get board (str "columns"))
      by (destruct board; try discriminate; now injection Hp as <-).
    subst c. destruct (get board (str "columns")) as [[]|]; try discriminate.
    now injection Ha as ->. }
  split; [exact Hg|]. now apply (get_named board (str "columns") (JArr columns)).
Qed.

Ltac refused :=
  let H := fresh in
  intros [= <- _ <-] [H|H]; [now destruct H | discriminate H].

(** A move that is answered 200. *)
Lemma move_task_spec (taskId : jsstring) (body : option json) (now : jsstring)
      (board payload : json) (stored stored' : option jsstring) (status : N) :
  move_task taskId body now board stored = Reply status payload stored' ->
  stored' <> stored \/ status = 200%N ->
  exists columns columns' task tj target target' before,
    status = 200%N
    /\ get board (str "columns") = Some (JArr columns)
    /\ stored' = with_columns board columns'
    /\ length columns' = length columns
    /\ In task (all_tasks columns)
    /\ id_text task = Got taskId
    /\ Permutation (task :: all_tasks columns')
                   (set task (str "movedAt") (JStr now) :: all_tasks columns)
    /\ nth_error columns tj = Some target
    /\ body_text body (str "targetColumnId") = id_text target
    /\ nth_error columns' tj = Some target'
    /\ tasks_in target' = before ++ [set task (str "movedAt") (JStr now)]
    /\ (forall k, k <> str "tasks" -> get target' k = get target k).
Proof.
  unfold move_task.
  destruct (prop board (str "columns")) as [c| |] eqn:Ep; try discriminate.
  destruct (array_of c) as [columns| |] eqn:Ea; try discriminate.
  destruct (columns_array board c columns Ep Ea) as [Ecols _].
  destruct (find_id (body_text body (str "targetColumnId")) 0 columns)
    as [[[tj target]|]| |] eqn:Etarget; try discriminate; [|refused].
  destruct (truthy target) eqn:Etruthy; cbn [negb]; [|refused].
  destruct (locate false taskId 0 columns) as [[[[[ci ti] ts] task]|]| |] eqn:Eloc;
    try discriminate; [|refused].
  apply find_id_spec in Etarget as (_ & Htj & t & Hbody & Hid).
  rewrite Nat.sub_0_r in Htj.
  apply locate_spec in Eloc as (_ & col & o & Hci & -> & Hts & Hti & Htask & _).
  rewrite Nat.sub_0_r in Hci.
  assert (Hin : In task (all_tasks columns))
    by (apply in_all_tasks with ci (JObj o) ti; [assumption | now rewrite Hts]).
  assert (Hrm : Permutation ts (task :: remove_nth ti ts)) by now apply remove_nth_perm.
  set (task' := set task (str "movedAt") (JStr now)).
  intros Hrun _.
  assert (Hrun' :
    (if Nat.eqb ci tj
     then Reply 200 payload
            (with_columns board
               (replace_nth tj (set target (str "tasks")
                                    (JArr (remove_nth ti ts ++ [task']))) columns))
     else match array_of (get target (str "tasks")), nth_error columns ci with
          | Got there, Some col =>
            Reply 200 payload
              (with_columns board
                 (replace_nth tj (set target (str "tasks") (JArr (there ++ [task'])))
                    (replace_nth ci (set col (str "tasks") (JArr (remove_nth ti ts)))
                                 columns)))
          | _, _ => Crash stored
          end) = Reply status payload stored').
  { destruct task; try discriminate Hrun;
      (destruct (Nat.eqb ci tj);
       [injection Hrun as <- <- <-; reflexivity|]);
      destruct (array_of (get target (str "tasks"))); try discriminate Hrun;
      destruct (nth_error columns ci); try discriminate Hrun;
      injection Hrun as <- <- <-; reflexivity. }
  clear Hrun. destruct (Nat.eqb_spec ci tj) as [<-|Hne].
  - rewrite Hci in Htj. injection Htj as <-. injection Hrun' as <- <-.
    eexists columns, _, task, ci, (JObj o), _, (remove_nth ti ts).
    split; [reflexivity|]. split; [exact Ecols|]. split; [reflexivity|].
    split; [apply replace_nth_length|]. split; [exact Hin|]. split; [exact Htask|].
    split.
    { pose proof (all_tasks_replace ci
                    (set (JObj o) (str "tasks") (JArr (remove_nth ti ts ++ [task'])))
                    (JObj o) columns Hci) as Hp.
      rewrite tasks_in_set, Hts in Hp.
      eapply perm_trade; [exact Hrm | exact Hp]. }
    split; [exact Hci|]. split; [now rewrite Hbody, Hid|].
    split; [now apply nth_error_replace_same with (JObj o)|].
    split; [apply tasks_in_set|].
    intros k Hk. now apply (get_set_other (JObj o)).
  - destruct (array_of (get target (str "tasks"))) as [there| |] eqn:Ethere;
      try discriminate.
    rewrite Hci in Hrun'. injection Hrun' as <- <-.
    destruct (has_tasks_object _ _ Ethere) as [[to ->] Hthere].
    eexists columns, _, task, tj, (JObj to), _, there.
    split; [reflexivity|]. split; [exact Ecols|]. split; [reflexivity|].
    split; [now rewrite !replace_nth_length|]. split; [exact Hin|].
    split; [exact Htask|].
    split.
    { set (L1 := replace_nth ci (set (JObj o) (str "tasks") (JArr (remove_nth ti ts)))
                             columns).
      pose proof (all_tasks_replace ci
                    (set (JObj o) (str "tasks") (JArr (remove_nth ti ts)))
                    (JObj o) columns Hci) as H1.
      fold L1 in H1. rewrite tasks_in_set, Hts in H1.
      assert (Htj1 : nth_error L1 tj = Some (JObj to))
        by (unfold L1; now rewrite nth_error_replace_other).
      pose proof (all_tasks_replace tj
                    (set (JObj to) (str "tasks") (JArr (there ++ [task'])))
                    (JObj to) L1 Htj1) as H2.
      rewrite tasks_in_set, Hthere in H2.
      apply Permutation_trans with (task :: task' :: all_tasks L1).
      - apply perm_skip. eapply perm_gain; exact H2.
      - apply Permutation_trans with (task' :: task :: all_tasks L1); [apply perm_swap|].
        apply perm_skip. eapply perm_lose; [exact Hrm | exact H1]. }
    split; [exact Htj|]. split; [now rewrite Hbody, Hid|].
    split.
    { apply nth_error_replace_same with (JObj to).
      now rewrite nth_error_replace_other. }
    split; [apply tasks_in_set|].
    intros k Hk. now apply (get_set_other (JObj to)).
Qed.

End BoardListFacts.

Section TaskStoreFacts.
Import BoardApi Crud.

Lemma find_id_none (x : jsstring) (i : nat) (l : list json) :
  find_id (Got x) i l = Got None -> forall c, In c l -> id_text c <> Got x.
Proof.
  revert i. induction l as [|y l IH]; intros i; cbn [find_id]; [now intros _ c []|].
  destruct (id_text y) as [t| |] eqn:Ey; try discriminate.
  destruct (jsstring_eqb t x) eqn:Et; [discriminate|].
  intros H c [<-|Hc].
  - rewrite Ey. intros [= ->]. now rewrite jsstring_eqb_refl in Et.
  - now apply (IH (S i)).
Qed.

Lemma locate_none (taskId : jsstring) (i : nat) (columns : list json) :
  locate false taskId i columns = Got None ->
  forall task, In task (all_tasks columns) -> id_text task <> Got taskId.
Proof.
  revert i. induction columns as [|col r IH]; intros i; cbn [locate]; [now intros _ t []|].
  destruct col as [| | | | |o]; try discriminate;
    try (cbn [array_of get]; destruct (array_index (str "tasks")); discriminate).
  destruct (array_of (get (JObj o) (str "tasks"))) as [ts| |] eqn:Ea; try discriminate.
  destruct (has_tasks_object _ _ Ea) as [_ Hts].
  destruct (find_id (Got taskId) 0 ts) as [[[ti t]|]| |] eqn:Ef; try discriminate.
  cbn [andb]. intros H task. unfold all_tasks. cbn [flat_map]. rewrite Hts.
  intros Hin. apply in_app_or in Hin as [Hin|Hin].
  - now apply (find_id_none _ _ _ Ef).
  - now apply (IH (S i)).
Qed.

Lemma replace_nth_perm (A : Type) (i : nat) (x y : A) (l : list A) :
  nth_error l i = Some x -> Permutation (x :: replace_nth i y l) (y :: l).
Proof.
  revert i. induction l as [|z l IH]; intros [|i]; cbn; try discriminate.
  - intros [= ->]. apply perm_swap.
  - intros H. apply Permutation_trans with (z :: x :: replace_nth i y l); [apply perm_swap|].
    apply Permutation_trans with (z :: y :: l); [|apply perm_swap].
    apply perm_skip. now apply IH.
Qed.

Lemma iterate_columns (board : json) (c : option json) (columns : list json) :
  prop board (str "columns") = Got c -> iterate c = Got columns -> columns <> [] ->
  get board (str "columns") = Some (JArr columns).
Proof.
  unfold prop, iterate. intros Hp Hi Hne.
  assert (Hc : c = get board (str "columns"))
    by (destruct board; try discriminate; now injection Hp as <-).
  subst c. destruct (get board (str "columns")) as [[| | |[|]| |]|]; try discriminate.
  - injection Hi as <-. now destruct Hne.
  - now injection Hi as ->.
Qed.

Ltac refused :=
  let H := fresh in
  intros [= <- _ <-] [H|H]; [now destruct H | discriminate H].

(** A removal that is answered 200. *)
Lemma delete_task_spec (taskId : jsstring) (board payload : json)
      (stored stored' : option jsstring) (status : N) :
  delete_task taskId board stored = Reply status payload stored' ->
  stored' <> stored \/ status = 200%N ->
  exists columns columns' task,
    status = 200%N
    /\ get board (str "columns") = Some (JArr columns)
    /\ stored' = with_columns board columns'
    /\ length columns' = length columns
    /\ id_text task = Got taskId
    /\ Permutation (all_tasks columns) (task :: all_tasks columns').
Proof.
  unfold delete_task.
  destruct (prop board (str "columns")) as [c| |] eqn:Ep; try discriminate.
  destruct (iterate c) as [columns| |] eqn:Ei; try discriminate.
  destruct (locate false taskId 0 columns) as [[[[[ci ti] ts] task]|]| |] eqn:Eloc;
    try discriminate; [|refused].
  apply locate_spec in Eloc as (_ & col & o & Hci & -> & Hts & Hti & Htask & _).
  rewrite Nat.sub_0_r in Hci. rewrite Hci. intros [= <- _ <-] _.
  assert (Hne : columns <> []) by (intros ->; now destruct ci).
  exists columns, (replace_nth ci (set (JObj o) (str "tasks") (JArr (remove_nth ti ts)))
                               columns), task.
  split; [reflexivity|]. split; [now apply iterate_columns with c|].
  split; [reflexivity|]. split; [apply replace_nth_length|]. split; [exact Htask|].
  pose proof (all_tasks_replace ci (set (JObj o) (str "tasks") (JArr (remove_nth ti ts)))
                (JObj o) columns Hci) as Hp.
  rewrite tasks_in_set, Hts in Hp. apply Permutation_sym.
  eapply perm_lose; [apply remove_nth_perm; exact Hti | exact Hp].
Qed.

Lemma copy_field_other (body : json) (k k' x : jsstring) (task : json) :
  x <> k' -> get (copy_field body k k' task) x = get task x.
Proof.
  intros H. unfold copy_field. destruct (get body k); [|reflexivity].
  now apply get_set_other.
Qed.

Lemma copy_field_same (body : json) (k k' : jsstring) (o : obj) :
  get (copy_field body k k' (JObj o)) k' =
  match get body k with Some v => Some v | None => get (JObj o) k' end.
Proof.
  unfold copy_field. destruct (get body k); [|reflexivity]. apply get_set_same.
Qed.

Lemma copy_field_object (body : json) (k k' : jsstring) (o : obj) :
  exists o', copy_field body k k' (JObj o) = JObj o'.
Proof. unfold copy_field. destruct (get body k); cbn [set]; eauto. Qed.

Lemma copy_field_id (body : json) (k k' : jsstring) (task : json) :
  k' <> str "id" -> id_text (copy_field body k k' task) = id_text task.
Proof.
  intros H. unfold copy_field. destruct (get body k); [|reflexivity].
  destruct task; try reflexivity. unfold id_text. cbn [set].
  change (JObj (obj_set o k' j)) with (set (JObj o) k' j).
  rewrite get_set_other; [reflexivity|]. intros E. now apply H.
Qed.

(** An update that is answered 200. *)
Lemma update_task_spec (taskId : jsstring) (body : option json) (board payload : json)
      (stored stored' : option jsstring) (status : N) :
  update_task taskId body board stored = Reply status payload stored' ->
  stored' <> stored \/ status = 200%N ->
  exists columns columns' task b,
    status = 200%N
    /\ get board (str "columns") = Some (JArr columns)
    /\ body = Some b
    /\ stored' = with_columns board columns'
    /\ length columns' = length columns
    /\ id_text task = Got taskId
    /\ Permutation (task :: all_tasks columns') (payload :: all_tasks columns)
    /\ (forall k, editable k = false -> get payload k = get task k)
    /\ (forall o, task = JObj o ->
        get payload (str "title")
        = match get b (str "title") with Some v => Some v | None => get task (str "title") end
        /\ get payload (str "description")
           = match get b (str "desc"), get b (str "description") with
             | Some v, _ => Some v
             | None, Some v => Some v
             | None, None => get task (str "description")
             end
        /\ get payload (str "color")
           = match get b (str "color") with Some v => Some v | None => get task (str "color") end).
Proof.
  unfold update_task.
  destruct (prop board (str "columns")) as [c| |] eqn:Ep; try discriminate.
  destruct (iterate c) as [columns| |] eqn:Ei; try discriminate.
  destruct (locate true taskId 0 columns) as [[[[[ci ti] ts] task]|]| |] eqn:Eloc;
    try discriminate; [|refused].
  apply locate_spec in Eloc as (_ & col & o & Hci & -> & Hts & Hti & Htask & _).
  rewrite Nat.sub_0_r in Hci. rewrite Hci.
  assert (Hne : columns <> []) by (intros ->; now destruct ci).
  destruct body as [b|]; [|discriminate].
  set (task' := copy_field b (str "color") (str "color")
                  (copy_field b (str "desc") (str "description")
                     (copy_field b (str "description") (str "description")
                        (copy_field b (str "title") (str "title") task)))).
  intros Hrun _.
  assert (Hrun' : Reply 200 task'
                    (with_columns board
                       (replace_nth ci (set (JObj o) (str "tasks")
                                            (JArr (replace_nth ti task' ts))) columns))
                  = Reply status payload stored')
    by (destruct b; try discriminate Hrun; destruct task; try discriminate Hrun;
        exact Hrun).
  clear Hrun. injection Hrun' as <- <- <-.
  eexists columns, _, task, b.
  split; [reflexivity|]. split; [now apply iterate_columns with c|].
  split; [reflexivity|]. split; [reflexivity|]. split; [apply replace_nth_length|].
  split; [exact Htask|].
  split.
  { pose proof (all_tasks_replace ci
                  (set (JObj o) (str "tasks") (JArr (replace_nth ti task' ts)))
                  (JObj o) columns Hci) as Hp.
    rewrite tasks_in_set, Hts in Hp.
    apply Permutation_app_inv_r with (replace_nth ti task' ts).
    apply Permutation_trans
      with (all_tasks (replace_nth ci (set (JObj o) (str "tasks")
                                           (JArr (replace_nth ti task' ts))) columns)
            ++ task :: replace_nth ti task' ts).
    { cbn [app]. apply Permutation_middle. }
    apply Permutation_trans
      with (all_tasks (replace_nth ci (set (JObj o) (str "tasks")
                                           (JArr (replace_nth ti task' ts))) columns)
            ++ task' :: ts).
    { apply Permutation_app_head. now apply replace_nth_perm. }
    apply Permutation_trans
      with (task' :: all_tasks (replace_nth ci (set (JObj o) (str "tasks")
                                           (JArr (replace_nth ti task' ts))) columns)
            ++ ts).
    { apply Permutation_sym. apply Permutation_middle. }
    cbn [app]. apply perm_skip. exact Hp. }
  split.
  { intros k Hk. unfold editable in Hk.
    apply orb_false_iff in Hk as [Hk Hc]. apply orb_false_iff in Hk as [Ht Hd].
    apply jsstring_eqb_neq in Ht, Hd, Hc.
    unfold task'. now rewrite !copy_field_other. }
  intros o' ->. unfold task'.
  destruct (copy_field_object b (str "title") (str "title") o') as [o1 E1].
  destruct (copy_field_object b (str "description") (str "description") o1) as [o2 E2].
  destruct (copy_field_object b (str "desc") (str "description") o2) as [o3 E3].
  split; [|split].
  - rewrite !copy_field_other by keys_differ. apply copy_field_same.
  - rewrite copy_field_other by keys_differ. rewrite E1, E2, copy_field_same.
    destruct (get b (str "desc")); [reflexivity|].
    rewrite <- E2, copy_field_same. destruct (get b (str "description")); [reflexivity|].
    rewrite <- E1. apply copy_field_other. keys_differ.
  - rewrite E1, E2, E3, copy_field_same. destruct (get b (str "color")); [reflexivity|].
    rewrite <- E3, <- E2, <- E1. now rewrite !copy_field_other by keys_differ.
Qed.

(** A creation that is answered 201. *)
Lemma create_task_spec (body : option json) (uid now : jsstring) (board payload : json)
      (stored stored' : option jsstring) (status : N) :
  create_task body uid now board stored = Reply status payload stored' ->
  stored' <> stored \/ status = 201%N ->
  exists columns columns' b i col col' before,
    status = 201%N
    /\ get board (str "columns") = Some (JArr columns)
    /\ body = Some b
    /\ payload = new_task b uid now
    /\ stored' = with_columns board columns'
    /\ length columns' = length columns
    /\ Permutation (all_tasks columns') (payload :: all_tasks columns)
    /\ nth_error columns i = Some col
    /\ body_text body (str "columnId") = id_text col
    /\ nth_error columns' i = Some col'
    /\ tasks_in col' = before ++ [payload]
    /\ (forall k, k <> str "tasks" -> get col' k = get col k).
Proof.
  unfold create_task.
  destruct (prop board (str "columns")) as [c| |] eqn:Ep; try discriminate.
  destruct (array_of c) as [columns| |] eqn:Ea; try discriminate.
  destruct (columns_array board c columns Ep Ea) as [Ecols _].
  destruct (find_id (body_text body (str "columnId")) 0 columns)
    as [[[i col]|]| |] eqn:Ecol; try discriminate; [|refused].
  destruct (truthy col) eqn:Etruthy; cbn [negb]; [|refused].
  apply find_id_spec in Ecol as (_ & Hi & t & Hbody & Hid).
  rewrite Nat.sub_0_r in Hi.
  destruct body as [b|]; [|discriminate].
  destruct (array_of (get col (str "tasks"))) as [ts| |] eqn:Ets;
    try (destruct b; discriminate).
  destruct (has_tasks_object _ _ Ets) as [[o ->] Hts].
  intros Hrun _.
  assert (Hrun' : Reply 201 (new_task b uid now)
                    (with_columns board
                       (replace_nth i (set (JObj o) (str "tasks")
                                           (JArr (ts ++ [new_task b uid now]))) columns))
                  = Reply status payload stored')
    by (destruct b; try discriminate Hrun; exact Hrun).
  clear Hrun. injection Hrun' as <- <- <-.
  eexists columns, _, b, i, (JObj o), _, ts.
  split; [reflexivity|]. split; [exact Ecols|]. split; [reflexivity|].
  split; [reflexivity|]. split; [reflexivity|]. split; [apply replace_nth_length|].
  split.
  { pose proof (all_tasks_replace i
                  (set (JObj o) (str "tasks") (JArr (ts ++ [new_task b uid now])))
                  (JObj o) columns Hi) as Hp.
    rewrite tasks_in_set, Hts in Hp. eapply perm_gain; exact Hp. }
  split; [exact Hi|]. split; [now rewrite Hbody, Hid|].
  split; [now apply nth_error_replace_same with (JObj o)|].
  split; [apply tasks_in_set|].
  intros k Hk. now apply (get_set_other (JObj o)).
Qed.

End TaskStoreFacts.

Section TaskHandlerFacts.
Import BoardApi Crud.

Ltac cases_of_run :=
  repeat match goal with
         | |- context [match ?x with _ => _ end] => destruct x eqn:?
         end.

Ltac crash_kept :=
  let H := fresh in
  intros H; first [discriminate H | now injection H as <-].

Lemma list_tasks_keeps (board : json) (stored : option jsstring) :
  stored_by stored (list_tasks board stored) = stored.
Proof. unfold list_tasks. cases_of_run; reflexivity. Qed.

Lemma create_task_crash (body : option json) (uid now : jsstring) (board : json)
      (stored s : option jsstring) :
  create_task body uid now board stored = Crash s -> s = stored.
Proof. unfold create_task. cases_of_run; crash_kept. Qed.

Lemma move_task_crash (taskId : jsstring) (body : option json) (now : jsstring)
      (board : json) (stored s : option jsstring) :
  move_task taskId body now board stored = Crash s -> s = stored.
Proof. unfold move_task. cases_of_run; crash_kept. Qed.

Lemma update_task_crash (taskId : jsstring) (body : option json) (board : json)
      (stored s : option jsstring) :
  update_task taskId body board stored = Crash s -> s = stored.
Proof. unfold update_task. cases_of_run; crash_kept. Qed.

Lemma delete_task_crash (taskId : jsstring) (board : json) (stored s : option jsstring) :
  delete_task taskId board stored = Crash s -> s = stored.
Proof. unfold delete_task. cases_of_run; crash_kept. Qed.

Ltac constant_test H :=
  repeat match type of H with
         | context [jsstring_eqb (str ?a) (str ?b)] =>
           let v := eval vm_compute in (jsstring_eqb (str a) (str b)) in
           change (jsstring_eqb (str a) (str b)) with v in H
         end;
  cbn [andb negb] in H.

(** X18: a move that is answered 200 takes the task with the id out
    of its column and puts it, stamped with [movedAt], at the end of a
    column whose id is the text of [targetColumnId]; the board written
    has the same number of columns and, that task apart, the same
    tasks, and the target column keeps its other fields. *)
Theorem move_conserves_tasks (token : option jsstring) (req : Req)
        (pathname uid now taskId : jsstring) (stored stored' : option jsstring)
        (payload : json) :
  req_method req = str "PUT" ->
  nth_error (path_parts pathname) 2 = Some taskId ->
  nth_error (path_parts pathname) 3 = Some (str "move") ->
  tasks_handler token req pathname uid now stored = Reply 200 payload stored' ->
  exists board columns columns' task tj target target' before,
    redisGet stored = Some board
    /\ get board (str "columns") = Some (JArr columns)
    /\ stored' = with_columns board columns'
    /\ length columns' = length columns
    /\ In task (all_tasks columns)
    /\ id_text task = Got taskId
    /\ Permutation (task :: all_tasks columns')
                   (set task (str "movedAt") (JStr now) :: all_tasks columns)
    /\ nth_error columns tj = Some target
    /\ body_text (req_body req) (str "targetColumnId") = id_text target
    /\ nth_error columns' tj = Some target'
    /\ tasks_in target' = before ++ [set task (str "movedAt") (JStr now)]
    /\ (forall k, k <> str "tasks" -> get target' k = get target k).
Proof.
  intros Hm Hid Hact Hrun. unfold tasks_handler in Hrun.
  rewrite Hm, Hid, Hact in Hrun. constant_test Hrun.
  destruct (checkAuth token req); cbn [negb] in Hrun; [|discriminate].
  destruct (redisGet stored) as [board|]; [|discriminate].
  apply move_task_spec in Hrun; [|now right].
  destruct Hrun as (columns & columns' & task & tj & target & target' & before & _ & H).
  exists board, columns, columns', task, tj, target, target', before.
  split; [reflexivity | exact H].
Qed.

(** X19: a creation that is answered 201 puts the new task, with the
    id [task-] and the drawn characters, at the end of a column whose
    id is the text of [columnId]; the board written has the same
    number of columns and, the new task apart, the same tasks, and
    the column keeps its other fields. *)
Theorem create_appends_task (token : option jsstring) (req : Req)
        (pathname uid now : jsstring) (stored stored' : option jsstring)
        (payload : json) :
  req_method req = str "POST" ->
  nth_error (path_parts pathname) 2 = None ->
  tasks_handler token req pathname uid now stored = Reply 201 payload stored' ->
  exists board columns columns' b i col col' before,
    redisGet stored = Some board
    /\ get board (str "columns") = Some (JArr columns)
    /\ req_body req = Some b
    /\ payload = new_task b uid now
    /\ get payload (str "id") = Some (JStr (str "task-" ++ uid))
    /\ stored' = with_columns board columns'
    /\ length columns' = length columns
    /\ Permutation (all_tasks columns') (payload :: all_tasks columns)
    /\ nth_error columns i = Some col
    /\ body_text (req_body req) (str "columnId") = id_text col
    /\ nth_error columns' i = Some col'
    /\ tasks_in col' = before ++ [payload]
    /\ (forall k, k <> str "tasks" -> get col' k = get col k).
Proof.
  intros Hm Hid Hrun. unfold tasks_handler in Hrun.
  rewrite Hm, Hid in Hrun. constant_test Hrun.
  destruct (checkAuth token req); cbn [negb] in Hrun; [|discriminate].
  destruct (redisGet stored) as [board|]; [|discriminate].
  apply create_task_spec in Hrun; [|now right].
  destruct Hrun as (columns & columns' & b & i & col & col' & before
                    & _ & Hc & Hb & Hp & H).
  exists board, columns, columns', b, i, col, col', before.
  split; [reflexivity|]. split; [exact Hc|]. split; [exact Hb|]. split; [exact Hp|].
  split; [now rewrite Hp | exact H].
Qed.

(** X20: an update that is answered 200 replaces one task with the id
    by the task it answers with; the other tasks and the number of
    columns stay, every field but [title], [description] and [color]
    is that of the old task, and these three are taken from the body
    where it has them, [desc] before [description]. *)
Theorem update_writes_three_fields (token : option jsstring) (req : Req)
        (pathname uid now taskId : jsstring) (stored stored' : option jsstring)
        (payload : json) :
  req_method req = str "PUT" ->
  nth_error (path_parts pathname) 2 = Some taskId ->
  nth_error (path_parts pathname) 3 = None ->
  tasks_handler token req pathname uid now stored = Reply 200 payload stored' ->
  exists board columns columns' task b,
    redisGet stored = Some board
    /\ get board (str "columns") = Some (JArr columns)
    /\ req_body req = Some b
    /\ stored' = with_columns board columns'
    /\ length columns' = length columns
    /\ id_text task = Got taskId
    /\ Permutation (task :: all_tasks columns') (payload :: all_tasks columns)
    /\ (forall k, editable k = false -> get payload k = get task k)
    /\ (forall o, task = JObj o ->
        get payload (str "title")
        = match get b (str "title") with Some v => Some v | None => get task (str "title") end
        /\ get payload (str "description")
           = match get b (str "desc"), get b (str "description") with
             | Some v, _ => Some v
             | None, Some v => Some v
             | None, None => get task (str "description")
             end
        /\ get payload (str "color")
           = match get b (str "color") with Some v => Some v | None => get task (str "color") end).
Proof.
  intros Hm Hid Hact Hrun. unfold tasks_handler in Hrun.
  rewrite Hm, Hid, Hact in Hrun. constant_test Hrun.
  destruct (checkAuth token req); cbn [negb] in Hrun; [|discriminate].
  destruct (redisGet stored) as [board|]; [|discriminate].
  apply update_task_spec in Hrun; [|now right].
  destruct Hrun as (columns & columns' & task & b & _ & H).
  exists board, columns, columns', task, b. split; [reflexivity | exact H].
Qed.

(** X21: a removal that is answered 200 takes exactly one task with
    the id off the board: the tasks before are those written and that
    task, and the number of columns stays. *)
Theorem delete_removes_one_task (token : option jsstring) (req : Req)
        (pathname uid now taskId : jsstring) (stored stored' : option jsstring)
        (payload : json) :
  req_method req = str "DELETE" ->
  nth_error (path_parts pathname) 2 = Some taskId ->
  tasks_handler token req pathname uid now stored = Reply 200 payload stored' ->
  exists board columns columns' task,
    redisGet stored = Some board
    /\ get board (str "columns") = Some (JArr columns)
    /\ stored' = with_columns board columns'
    /\ length columns' = length columns
    /\ id_text task = Got taskId
    /\ Permutation (all_tasks columns) (task :: all_tasks columns').
Proof.
  intros Hm Hid Hrun. unfold tasks_handler in Hrun.
  rewrite Hm, Hid in Hrun. constant_test Hrun.
  destruct (checkAuth token req); cbn [negb] in Hrun; [|discriminate].
  destruct (redisGet stored) as [board|]; [|discriminate].
  assert (Hdel : delete_task taskId board stored = Reply 200 payload stored')
    by (destruct (nth_error (path_parts pathname) 3); exact Hrun).
  apply delete_task_spec in Hdel; [|now right].
  destruct Hdel as (columns & columns' & task & _ & H).
  exists board, columns, columns', task. split; [reflexivity | exact H].
Qed.

(** X22: a move or a removal is answered 404 only when no task of the
    board has the id. *)
Theorem not_found_means_absent (token : option jsstring) (req : Req)
        (pathname uid now taskId : jsstring) (stored stored' : option jsstring)
        (payload board : json) (columns : list json) :
  nth_error (path_parts pathname) 2 = Some taskId ->
  req_method req = str "DELETE"
  \/ (req_method req = str "PUT"
      /\ nth_error (path_parts pathname) 3 = Some (str "move")) ->
  redisGet stored = Some board ->
  get board (str "columns") = Some (JArr columns) ->
  tasks_handler token req pathname uid now stored = Reply 404 payload stored' ->
  forall task, In task (all_tasks columns) -> id_text task <> Got taskId.
Proof.
  intros Hid Hm Hboard Hcols Hrun. unfold tasks_handler in Hrun.
  rewrite Hid, Hboard in Hrun.
  assert (Hp : prop board (str "columns") = Got (Some (JArr columns))).
  { unfold prop. rewrite <- Hcols. destruct board; try reflexivity.
    discriminate Hcols. }
  apply locate_none with 0.
  destruct Hm as [Hm|[Hm Hact]].
  - rewrite Hm in Hrun. constant_test Hrun.
    destruct (checkAuth token req); cbn [negb] in Hrun; [|discriminate].
    assert (Hdel : delete_task taskId board stored = Reply 404 payload stored')
      by (destruct (nth_error (path_parts pathname) 3); exact Hrun).
    unfold delete_task in Hdel. rewrite Hp in Hdel. cbn [iterate] in Hdel.
    destruct (locate false taskId 0 columns) as [[[[[ci ti] ts] t]|]| |];
      try discriminate; [|reflexivity].
    destruct (nth_error columns ci); discriminate.
  - rewrite Hm, Hact in Hrun. constant_test Hrun.
    destruct (checkAuth token req); cbn [negb] in Hrun; [|discriminate].
    unfold move_task in Hrun. rewrite Hp in Hrun. cbn [array_of] in Hrun.
    destruct (find_id (body_text (req_body req) (str "targetColumnId")) 0 columns)
      as [[[tj target]|]| |]; try discriminate.
    destruct (truthy target); cbn [negb] in Hrun; [|discriminate].
    destruct (locate false taskId 0 columns) as [[[[[ci ti] ts] t]|]| |];
      try discriminate; [|reflexivity].
    destruct t; try discriminate Hrun;
      (destruct (Nat.eqb ci tj); [discriminate Hrun|]);
      destruct (array_of (get target (str "tasks"))); try discriminate Hrun;
      destruct (nth_error columns ci); discriminate Hrun.
Qed.

(** X23: the tasks handler changes what is stored only when it answers
    201 to a [POST] or 200 to a [PUT] or a [DELETE] that [checkAuth]
    lets through; a run that ends in an uncaught error leaves the
    store as it was, and a request that is refused is answered 401. *)
Theorem tasks_store_write_protection (token : option jsstring) (req : Req)
        (pathname uid now : jsstring) (stored : option jsstring) :
  (forall status payload stored',
      tasks_handler token req pathname uid now stored = Reply status payload stored' ->
      stored' <> stored ->
      checkAuth token req = true
      /\ ((req_method req = str "POST" /\ status = 201%N)
          \/ (req_method req = str "PUT" /\ status = 200%N)
          \/ (req_method req = str "DELETE" /\ status = 200%N)))
  /\ (forall s, tasks_handler token req pathname uid now stored = Crash s -> s = stored)
  /\ (checkAuth token req = false ->
      jsstring_eqb (req_method req) (str "OPTIONS") = false ->
      tasks_handler token req pathname uid now stored
      = Reply 401 (error_body (str "Unauthorized")) stored).
Proof.
  split; [|split].
  - intros status payload stored' Hrun Hne. unfold tasks_handler in Hrun.
    destruct (jsstring_eqb (req_method req) (str "OPTIONS"));
      [injection Hrun as _ _ <-; now destruct Hne|].
    destruct (checkAuth token req); cbn [negb] in Hrun;
      [|injection Hrun as _ _ <-; now destruct Hne].
    split; [reflexivity|].
    destruct (redisGet stored) as [board|]; [|discriminate].
    assert (Hdel : forall taskId,
               jsstring_eqb (req_method req) (str "DELETE") = true ->
               delete_task taskId board stored = Reply status payload stored' ->
               req_method req = str "DELETE" /\ status = 200%N).
    { intros taskId Hm H. apply jsstring_eqb_eq in Hm. split; [exact Hm|].
      apply delete_task_spec in H; [|now left]. now destruct H as (? & ? & ? & -> & _). }
    destruct (nth_error (path_parts pathname) 2) as [taskId|].
    + destruct (nth_error (path_parts pathname) 3) as [action|].
      * destruct (jsstring_eqb (req_method req) (str "PUT")) eqn:Eput.
        { apply jsstring_eqb_eq in Eput.
          destruct (jsstring_eqb action (str "move")); cbn [andb] in Hrun.
          - apply move_task_spec in Hrun; [|now left].
            destruct Hrun as (? & ? & ? & ? & ? & ? & ? & -> & _). auto.
          - rewrite Eput in Hrun. constant_test Hrun.
            injection Hrun as _ _ <-. now destruct Hne. }
        cbn [andb] in Hrun.
        destruct (jsstring_eqb (req_method req) (str "DELETE")) eqn:Edel;
          [right; right; now apply (Hdel taskId)|].
        injection Hrun as _ _ <-. now destruct Hne.
      * destruct (jsstring_eqb (req_method req) (str "PUT")) eqn:Eput.
        { apply jsstring_eqb_eq in Eput.
          apply update_task_spec in Hrun; [|now left].
          destruct Hrun as (? & ? & ? & ? & -> & _). auto. }
        destruct (jsstring_eqb (req_method req) (str "DELETE")) eqn:Edel;
          [right; right; now apply (Hdel taskId)|].
        injection Hrun as _ _ <-. now destruct Hne.
    + assert (Hrun' :
        (if jsstring_eqb (req_method req) (str "GET") then list_tasks board stored
         else if jsstring_eqb (req_method req) (str "POST")
              then create_task (req_body req) uid now board stored
              else Reply 405 (error_body (str "Method not allowed")) stored)
        = Reply status payload stored')
        by (destruct (nth_error (path_parts pathname) 3); exact Hrun).
      clear Hrun. destruct (jsstring_eqb (req_method req) (str "GET")).
      { pose proof (list_tasks_keeps board stored) as Hk. rewrite Hrun' in Hk.
        now destruct Hne. }
      destruct (jsstring_eqb (req_method req) (str "POST")) eqn:Epost.
      { apply jsstring_eqb_eq in Epost.
        apply create_task_spec in Hrun'; [|now left].
        destruct Hrun' as (? & ? & ? & ? & ? & ? & ? & -> & _). auto. }
      injection Hrun' as _ _ <-. now destruct Hne.
  - intros s Hrun. unfold tasks_handler in Hrun.
    destruct (jsstring_eqb (req_method req) (str "OPTIONS")); [discriminate|].
    destruct (checkAuth token req); cbn [negb] in Hrun; [|discriminate].
    destruct (redisGet stored) as [board|]; [|now injection Hrun as <-].
    destruct (nth_error (path_parts pathname) 2) as [taskId|];
      destruct (nth_error (path_parts pathname) 3) as [action|];
      repeat match type of Hrun with
             | (if ?c then _ else _) = _ => destruct c
             end;
      try discriminate Hrun;
      first [ now apply move_task_crash in Hrun
            | now apply delete_task_crash in Hrun
            | now apply update_task_crash in Hrun
            | now apply create_task_crash in Hrun
            | pose proof (list_tasks_keeps board stored) as Hk; rewrite Hrun in Hk;
              now symmetry ].
  - intros Hc Ho. unfold tasks_handler. now rewrite Ho, Hc.
Qed.

End TaskHandlerFacts.

Section TaskHandlerWitnesses.
Import BoardApi Crud.

Lemma move_conserves_tasks_witness :
  exists task, In task (all_tasks two_columns) /\ id_text task = Got (str "t1").
Proof.
  destruct (move_conserves_tasks None move_call (str "/api/tasks/t1/move")
              drawn noon (str "t1") two_columns_text
              (stored_by two_columns_text
                 (tasks_handler None move_call (str "/api/tasks/t1/move")
                    drawn noon two_columns_text))
              (JObj [(str "id", JStr (str "t1")); (str "title", JStr (str "x"));
                     (str "movedAt", JStr noon); (str "columnId", JStr (str "b"))])
              eq_refl ltac:(vm_compute; reflexivity) ltac:(vm_compute; reflexivity)
              ltac:(vm_compute; reflexivity))
    as (board & columns & columns' & task & tj & target & target' & before
        & Hb & Hc & _ & _ & Hin & Hid & _).
  exists task. split; [|exact Hid].
  vm_compute in Hb. injection Hb as <-. vm_compute in Hc. injection Hc as <-.
  exact Hin.
Defined.

Lemma create_appends_task_witness :
  get (new_task (JObj [(str "columnId", JStr (str "b"))]) drawn noon) (str "id")
  = Some (JStr (str "task-0a1b2c3d")).
Proof.
  destruct (create_appends_task None create_call (str "/api/tasks")
              drawn noon two_columns_text
              (stored_by two_columns_text
                 (tasks_handler None create_call (str "/api/tasks")
                    drawn noon two_columns_text))
              (new_task (JObj [(str "columnId", JStr (str "b"))]) drawn noon)
              eq_refl ltac:(vm_compute; reflexivity) ltac:(vm_compute; reflexivity))
    as (board & columns & columns' & b & i & col & col' & before
        & _ & _ & _ & _ & Hid & _).
  exact Hid.
Defined.

Lemma update_writes_three_fields_witness :
  exists task, id_text task = Got (str "t1")
               /\ get (JObj [(str "id", JStr (str "t1")); (str "title", JStr (str "x"));
                             (str "description", JStr (str "y"))]) (str "id")
                  = get task (str "id").
Proof.
  destruct (update_writes_three_fields None update_call (str "/api/tasks/t1")
              drawn noon (str "t1") two_columns_text
              (stored_by two_columns_text
                 (tasks_handler None update_call (str "/api/tasks/t1")
                    drawn noon two_columns_text))
              (JObj [(str "id", JStr (str "t1")); (str "title", JStr (str "x"));
                     (str "description", JStr (str "y"))])
              eq_refl ltac:(vm_compute; reflexivity) ltac:(vm_compute; reflexivity)
              ltac:(vm_compute; reflexivity))
    as (board & columns & columns' & task & b & _ & _ & _ & _ & _ & Hid & _ & Hkeep & _).
  exists task. split; [exact Hid|]. apply Hkeep. reflexivity.
Defined.

Lemma delete_removes_one_task_witness :
  exists task columns',
    id_text task = Got (str "t1")
    /\ Permutation (all_tasks two_columns) (task :: all_tasks columns').
Proof.
  destruct (delete_removes_one_task None delete_call (str "/api/tasks/t1")
              drawn noon (str "t1") two_columns_text
              (stored_by two_columns_text
                 (tasks_handler None delete_call (str "/api/tasks/t1")
                    drawn noon two_columns_text))
              (JObj [(str "deleted", JBool true)])
              eq_refl ltac:(vm_compute; reflexivity) ltac:(vm_compute; reflexivity))
    as (board & columns & columns' & task & Hb & Hc & _ & _ & Hid & Hperm).
  exists task, columns'. split; [exact Hid|].
  vm_compute in Hb. injection Hb as <-. vm_compute in Hc. injection Hc as <-.
  exact Hperm.
Defined.

Lemma not_found_means_absent_witness : id_text first_task <> Got (str "t2").
Proof.
  apply (not_found_means_absent None delete_call (str "/api/tasks/t2")
           drawn noon (str "t2") two_columns_text two_columns_text not_found
           two_columns_board two_columns
           ltac:(vm_compute; reflexivity) (or_introl eq_refl)
           ltac:(vm_compute; reflexivity) eq_refl ltac:(vm_compute; reflexivity)
           first_task).
  left. reflexivity.
Defined.

End TaskHandlerWitnesses.

Section BacklogFacts.
Import BoardApi Crud Backlog.

Lemma find_project_spec (x : jsstring) (i j : nat) (l : list json) (p : json) :
  find_project x i l = Got (Some (j, p)) ->
  i <= j /\ first_with_id x l (j - i) p.
Proof.
  revert i. induction l as [|y l IH]; intros i; cbn [find_project]; [discriminate|].
  assert (Hnext : ~ has_id x y -> find_project x (S i) l = Got (Some (j, p)) ->
                  i <= j /\ first_with_id x (y :: l) (j - i) p).
  { intros Hy H. destruct (IH (S i) H) as (Hle & Hn & Hid & Hfirst). split; [lia|].
    replace (j - i) with (S (j - S i)) by lia. split; [exact Hn|]. split; [exact Hid|].
    intros [|k] q Hk; cbn [nth_error].
    - now intros [= <-].
    - apply Hfirst. lia. }
  unfold has_id in Hnext.
  destruct y as [|b|n e|s0|l0|o]; try discriminate;
    destruct (get _ (str "id")) as [[| | |sid| |]|] eqn:Eid;
    try (apply Hnext; discriminate);
    (destruct (jsstring_eqb sid x) eqn:Es;
     [ apply jsstring_eqb_eq in Es; subst sid; intros [= <- <-]; split; [lia|];
       rewrite Nat.sub_diag; split; [reflexivity|]; split; [exact Eid|];
       intros k q Hk; lia
     | apply Hnext; intros [= ->]; rewrite jsstring_eqb_refl in Es;
       discriminate Es ]).
Qed.

Lemma find_project_none (x : jsstring) (i : nat) (l : list json) :
  find_project x i l = Got None -> forall q, In q l -> ~ has_id x q.
Proof.
  revert i. induction l as [|y l IH]; intros i; cbn [find_project]; [now intros _ q []|].
  assert (Hnext : ~ has_id x y -> find_project x (S i) l = Got None ->
                  forall q, In q (y :: l) -> ~ has_id x q).
  { intros Hy H q [<-|Hq]; [exact Hy | now apply (IH (S i))]. }
  unfold has_id in Hnext.
  destruct y as [|b|n e|s0|l0|o]; try discriminate;
    destruct (get _ (str "id")) as [[| | |sid| |]|] eqn:Eid;
    try (apply Hnext; discriminate);
    (destruct (jsstring_eqb sid x) eqn:Es;
     [ discriminate
     | apply Hnext; intros [= ->]; rewrite jsstring_eqb_refl in Es; discriminate Es ]).
Qed.

Lemma has_id_object (x : jsstring) (p : json) : has_id x p -> exists o, p = JObj o.
Proof. intros H. now apply (get_named p (str "id") (JStr x)). Qed.

Lemma entered_backlog (o : obj) (l : list json) :
  array_of (get (entered (JObj o)) (str "backlog")) = Got l -> l = backlog_of (JObj o).
Proof.
  unfold entered, backlog_of.
  destruct (truthy_opt (get (JObj o) (str "backlog"))) eqn:Et.
  - unfold array_of. destruct (get (JObj o) (str "backlog")) as [[]|]; try discriminate.
    now intros [= ->].
  - rewrite get_set_same. cbn [array_of]. intros [= <-].
    destruct (get (JObj o) (str "backlog")) as [[]|]; try reflexivity.
    discriminate Et.
Qed.

Lemma entered_writes (o : obj) (l : list json) :
  writes_backlog (JObj o) (with_backlog (entered (JObj o)) l) l.
Proof.
  assert (He : exists o', entered (JObj o) = JObj o'
                          /\ forall k, k <> str "backlog" ->
                                       get (JObj o') k = get (JObj o) k).
  { unfold entered. destruct (truthy_opt _).
    - exists o. auto.
    - eexists. split; [reflexivity|]. intros k Hk. now apply (get_set_other (JObj o)). }
  destruct He as (o' & -> & Hkeep).
  exists (set (JObj o') (str "backlog") (JArr l)). split; [reflexivity|].
  split; [apply get_set_same|].
  intros k Hk. rewrite get_set_other by exact Hk. now apply Hkeep.
Qed.

Lemma fold_copy_other (b : json) (k : jsstring) (ks : list jsstring) (p : json) :
  ~ In k ks -> get (fold_left (fun p k => copy_field b k k p) ks p) k = get p k.
Proof.
  revert p. induction ks as [|k0 ks IH]; intros p Hk; [reflexivity|].
  cbn [fold_left]. rewrite IH by (intros H; apply Hk; now right).
  apply copy_field_other. intros ->. apply Hk. now left.
Qed.

Lemma fold_copy_same (b : json) (k : jsstring) (ks : list jsstring) (o : obj) :
  NoDup ks -> In k ks ->
  get (fold_left (fun p k => copy_field b k k p) ks (JObj o)) k
  = match get b k with Some v => Some v | None => get (JObj o) k end.
Proof.
  revert o. induction ks as [|k0 ks IH]; intros o Hnd Hin; [now destruct Hin|].
  cbn [fold_left]. apply NoDup_cons_iff in Hnd as [Hk0 Hnd].
  destruct (copy_field_object b k0 k0 o) as [o1 E1]. destruct Hin as [->|Hin].
  - rewrite fold_copy_other by exact Hk0. apply copy_field_same.
  - rewrite E1, IH by assumption. rewrite <- E1.
    rewrite copy_field_other; [reflexivity|]. intros ->. now apply Hk0.
Qed.

Lemma project_fields_distinct : NoDup project_fields.
Proof.
  unfold project_fields.
  repeat (apply NoDup_cons; [cbn [In]; intros H;
                             repeat (destruct H as [H|H]; [vm_compute in H; discriminate H|]);
                             exact H|]).
  apply NoDup_nil.
Qed.

Ltac constant_test H :=
  repeat match type of H with
         | context [jsstring_eqb (str ?a) (str ?b)] =>
           let v := eval vm_compute in (jsstring_eqb (str a) (str b)) in
           change (jsstring_eqb (str a) (str b)) with v in H
         end;
  cbn [andb negb] in H.

(** A run that gets past [checkAuth] and reads a board. *)
Lemma backlog_handler_enters (token : option jsstring) (req : Req)
      (pathname uid now : jsstring) (stored stored' : option jsstring) (status : N)
      (payload : json) :
  backlog_handler token req pathname uid now stored = Reply status payload stored' ->
  status <> 204%N -> status <> 401%N ->
  exists o, redisGet stored = Some (JObj o)
            /\ jsstring_eqb (req_method req) (str "OPTIONS") = false
            /\ checkAuth token req = true.
Proof.
  unfold backlog_handler. intros Hrun H204 H401.
  destruct (jsstring_eqb (req_method req) (str "OPTIONS"));
    [injection Hrun as <- _ _; now destruct H204|].
  destruct (checkAuth token req); cbn [negb] in Hrun;
    [|injection Hrun as <- _ _; now destruct H401].
  destruct (redisGet stored) as [[| | | | |o]|]; try discriminate. eauto.
Qed.

(** X24: a [POST] that [checkAuth] lets through is answered 400, with
    the store untouched, when the body has no truthy [title]; with
    one it is answered 201 with the new project, and the board written
    is the board read with that project added at the end of its
    backlog. *)
Theorem backlog_create_requires_title (token : option jsstring) (req : Req)
        (pathname uid now : jsstring) (stored stored' : option jsstring) (status : N)
        (payload : json) :
  req_method req = str "POST" ->
  checkAuth token req = true ->
  backlog_handler token req pathname uid now stored = Reply status payload stored' ->
  exists board b,
    redisGet stored = Some board
    /\ req_body req = Some b
    /\ (truthy_opt (get b (str "title")) = false ->
        status = 400%N /\ payload = error_body (str "title is required")
        /\ stored' = stored)
    /\ (forall title, get b (str "title") = Some title -> truthy title = true ->
        status = 201%N /\ payload = new_project b title uid now
        /\ writes_backlog board stored' (backlog_of board ++ [payload])).
Proof.
  intros Hm Hauth Hrun. unfold backlog_handler in Hrun.
  rewrite Hm, Hauth in Hrun. constant_test Hrun.
  destruct (redisGet stored) as [[| | | | |o]|]; try discriminate Hrun.
  cbv zeta in Hrun. fold (entered (JObj o)) in Hrun.
  destruct (req_body req) as [b|]; [|discriminate Hrun].
  exists (JObj o), b. split; [reflexivity|]. split; [reflexivity|].
  assert (Hrun' :
    match get b (str "title") with
    | Some title =>
      if truthy title then
        match array_of (get (entered (JObj o)) (str "backlog")) with
        | Got l => Reply 201 (new_project b title uid now)
                         (with_backlog (entered (JObj o))
                                       (l ++ [new_project b title uid now]))
        | _ => Crash stored
        end
      else Reply 400 (error_body (str "title is required")) stored
    | None => Reply 400 (error_body (str "title is required")) stored
    end = Reply status payload stored')
    by (destruct b; try discriminate Hrun; exact Hrun).
  clear Hrun. unfold truthy_opt.
  destruct (get b (str "title")) as [title|].
  - destruct (truthy title) eqn:Et.
    + split; [discriminate|]. intros t Ht _. injection Ht as <-.
      destruct (array_of (get (entered (JObj o)) (str "backlog"))) as [l| |] eqn:El;
        try discriminate Hrun'.
      injection Hrun' as <- <- <-. apply entered_backlog in El. subst l.
      split; [reflexivity|]. split; [reflexivity|]. apply entered_writes.
    + injection Hrun' as <- <- <-. split; [auto|]. intros t Ht Htr.
      injection Ht as <-. congruence.
  - injection Hrun' as <- <- <-. split; [auto|]. discriminate.
Qed.

(** X25: an update that is answered 200 replaces the first project
    whose [id] is the id of the path, in its place; the reply is that
    project with the seven fields the body defines taken from the
    body, and every other field, [id] and [createdAt] among them, as
    it was. *)
Theorem backlog_update_is_partial (token : option jsstring) (req : Req)
        (pathname uid now projectId : jsstring) (stored stored' : option jsstring)
        (payload : json) :
  req_method req = str "PUT" ->
  nth_error (path_parts pathname) 2 = Some projectId ->
  backlog_handler token req pathname uid now stored = Reply 200 payload stored' ->
  exists board b idx old,
    redisGet stored = Some board
    /\ req_body req = Some b
    /\ first_with_id projectId (backlog_of board) idx old
    /\ writes_backlog board stored' (replace_nth idx payload (backlog_of board))
    /\ (forall k, ~ In k project_fields -> get payload k = get old k)
    /\ (forall k, In k project_fields ->
        get payload k = match get b k with Some v => Some v | None => get old k end).
Proof.
  intros Hm Hid Hrun. unfold backlog_handler in Hrun.
  rewrite Hm, Hid in Hrun. constant_test Hrun.
  destruct (checkAuth token req); cbn [negb] in Hrun; [|discriminate].
  destruct (redisGet stored) as [[| | | | |o]|]; try discriminate Hrun.
  cbv zeta in Hrun. fold (entered (JObj o)) in Hrun.
  destruct (array_of (get (entered (JObj o)) (str "backlog"))) as [l| |] eqn:El;
    try discriminate Hrun.
  apply entered_backlog in El. subst l.
  destruct (find_project projectId 0 (backlog_of (JObj o))) as [[[idx old]|]| |] eqn:Ef;
    try discriminate Hrun.
  apply find_project_spec in Ef as [_ Hfirst]. rewrite Nat.sub_0_r in Hfirst.
  destruct (req_body req) as [b|]; [|discriminate Hrun].
  assert (Hrun' : Reply 200 (update_project b old)
                        (with_backlog (entered (JObj o))
                           (replace_nth idx (update_project b old) (backlog_of (JObj o))))
                  = Reply 200 payload stored')
    by (destruct b; try discriminate Hrun; exact Hrun).
  clear Hrun. injection Hrun' as <- <-.
  exists (JObj o), b, idx, old. split; [reflexivity|]. split; [reflexivity|].
  split; [exact Hfirst|]. split; [apply entered_writes|].
  split.
  - intros k Hk. now apply fold_copy_other.
  - intros k Hk. destruct Hfirst as (_ & Hold & _).
    destruct (has_id_object _ _ Hold) as [oo ->].
    apply fold_copy_same; [apply project_fields_distinct | exact Hk].
Qed.

(** X26: a removal that is answered 200 takes the first project whose
    [id] is the id of the path out of the backlog and leaves the
    other projects in their order. *)
Theorem backlog_delete_removes_first (token : option jsstring) (req : Req)
        (pathname uid now projectId : jsstring) (stored stored' : option jsstring)
        (payload : json) :
  req_method req = str "DELETE" ->
  nth_error (path_parts pathname) 2 = Some projectId ->
  backlog_handler token req pathname uid now stored = Reply 200 payload stored' ->
  exists board idx old,
    redisGet stored = Some board
    /\ first_with_id projectId (backlog_of board) idx old
    /\ writes_backlog board stored' (remove_nth idx (backlog_of board)).
Proof.
  intros Hm Hid Hrun. unfold backlog_handler in Hrun.
  rewrite Hm, Hid in Hrun. constant_test Hrun.
  destruct (checkAuth token req); cbn [negb] in Hrun; [|discriminate].
  destruct (redisGet stored) as [[| | | | |o]|]; try discriminate Hrun.
  cbv zeta in Hrun. fold (entered (JObj o)) in Hrun.
  destruct (array_of (get (entered (JObj o)) (str "backlog"))) as [l| |] eqn:El;
    try discriminate Hrun.
  apply entered_backlog in El. subst l.
  destruct (find_project projectId 0 (backlog_of (JObj o))) as [[[idx old]|]| |] eqn:Ef;
    try discriminate Hrun.
  apply find_project_spec in Ef as [_ Hfirst]. rewrite Nat.sub_0_r in Hfirst.
  injection Hrun as _ <-.
  exists (JObj o), idx, old. split; [reflexivity|]. split; [exact Hfirst|].
  apply entered_writes.
Qed.

(** X27: whatever the method, the backlog handler answers 404 only
    when no project of the board has the id of the path as its [id];
    an [id] that is not a string is never found. *)
Theorem backlog_not_found_means_absent (token : option jsstring) (req : Req)
        (pathname uid now projectId : jsstring) (stored stored' : option jsstring)
        (payload board : json) :
  nth_error (path_parts pathname) 2 = Some projectId ->
  redisGet stored = Some board ->
  backlog_handler token req pathname uid now stored = Reply 404 payload stored' ->
  forall p, In p (backlog_of board) -> get p (str "id") <> Some (JStr projectId).
Proof.
  intros Hid Hboard Hrun. unfold backlog_handler in Hrun.
  rewrite Hid, Hboard in Hrun.
  destruct (jsstring_eqb (req_method req) (str "OPTIONS")); [discriminate|].
  destruct (checkAuth token req); cbn [negb] in Hrun; [|discriminate].
  destruct board as [| | | | |o]; try discriminate Hrun.
  cbv zeta in Hrun. fold (entered (JObj o)) in Hrun.
  assert (Hby : forall found,
             (forall idx project l, has_id projectId project ->
                                    found idx project l <> Reply 404 payload stored') ->
             match array_of (get (entered (JObj o)) (str "backlog")) with
             | Got l =>
               match find_project projectId 0 l with
               | Got (Some (idx, project)) => found idx project l
               | Got None => Reply 404 not_found stored
               | Raised => Crash stored
               | Outside => Unmodelled
               end
             | _ => Crash stored
             end = Reply 404 payload stored' ->
             forall p, In p (backlog_of (JObj o)) -> ~ has_id projectId p).
  { intros found Hfound H.
    destruct (array_of (get (entered (JObj o)) (str "backlog"))) as [l| |] eqn:El;
      try discriminate H.
    apply entered_backlog in El. subst l.
    destruct (find_project projectId 0 (backlog_of (JObj o))) as [[[idx old]|]| |] eqn:Ef;
      try discriminate H.
    - apply find_project_spec in Ef as [_ (_ & Hold & _)]. now apply Hfound in H.
    - now apply find_project_none with 0. }
  destruct (jsstring_eqb (req_method req) (str "GET")).
  { refine (Hby _ _ Hrun). intros idx project l Hp.
    destruct (has_id_object _ _ Hp) as [oo ->]. cbn [truthy]. discriminate. }
  destruct (jsstring_eqb (req_method req) (str "POST")).
  { destruct (req_body req) as [b|]; [|discriminate Hrun].
    exfalso. destruct b; try discriminate Hrun;
      (destruct (get _ (str "title")) as [title|]; [|discriminate Hrun]);
      (destruct (truthy title); [|discriminate Hrun]);
      destruct (array_of (get (entered (JObj o)) (str "backlog"))); discriminate Hrun. }
  destruct (jsstring_eqb (req_method req) (str "PUT")).
  { refine (Hby _ _ Hrun). intros idx project l _.
    destruct (req_body req) as [[]|]; discriminate. }
  destruct (jsstring_eqb (req_method req) (str "DELETE")); [|discriminate Hrun].
  refine (Hby _ _ Hrun). discriminate.
Qed.

Ltac run_cases H :=
  repeat (cbv iota beta in H;
          match type of H with
          | context [match ?x with _ => _ end] => destruct x eqn:?
          end);
  cbv iota beta in H.

(** X28: the backlog handler changes what is stored only when it
    answers 201 to a [POST] or 200 to a [PUT] or a [DELETE] that
    [checkAuth] lets through; a [GET] stores nothing, also for a board
    without backlog, and a run that ends in an uncaught error leaves
    the store as it was. *)
Theorem backlog_store_write_protection (token : option jsstring) (req : Req)
        (pathname uid now : jsstring) (stored : option jsstring) :
  (forall status payload stored',
      backlog_handler token req pathname uid now stored = Reply status payload stored' ->
      stored' <> stored ->
      checkAuth token req = true
      /\ ((req_method req = str "POST" /\ status = 201%N)
          \/ (req_method req = str "PUT" /\ status = 200%N)
          \/ (req_method req = str "DELETE" /\ status = 200%N)))
  /\ (forall s, backlog_handler token req pathname uid now stored = Crash s -> s = stored).
Proof.
  split.
  - intros status payload stored' Hrun Hne. unfold backlog_handler in Hrun.
    cbv zeta in Hrun.
    destruct (jsstring_eqb (req_method req) (str "OPTIONS"));
      [injection Hrun as _ _ <-; now destruct Hne|].
    destruct (checkAuth token req); cbn [negb] in Hrun;
      [|injection Hrun as _ _ <-; now destruct Hne].
    split; [reflexivity|].
    destruct (redisGet stored) as [[| | | | |o]|]; try discriminate Hrun.
    fold (entered (JObj o)) in Hrun.
    destruct (jsstring_eqb (req_method req) (str "GET")) eqn:Eget.
    { run_cases Hrun; try discriminate Hrun; injection Hrun as _ _ <-; now destruct Hne. }
    destruct (jsstring_eqb (req_method req) (str "POST")) eqn:Epost.
    { apply jsstring_eqb_eq in Epost. left. split; [exact Epost|].
      run_cases Hrun; try discriminate Hrun; injection Hrun as <- _ <-;
        first [reflexivity | now destruct Hne]. }
    destruct (nth_error (path_parts pathname) 2) as [projectId|];
      [|injection Hrun as _ _ <-; now destruct Hne].
    destruct (jsstring_eqb (req_method req) (str "PUT")) eqn:Eput.
    { apply jsstring_eqb_eq in Eput. right. left. split; [exact Eput|].
      run_cases Hrun; try discriminate Hrun; injection Hrun as <- _ <-;
        first [reflexivity | now destruct Hne]. }
    destruct (jsstring_eqb (req_method req) (str "DELETE")) eqn:Edel;
      [|injection Hrun as _ _ <-; now destruct Hne].
    apply jsstring_eqb_eq in Edel. right. right. split; [exact Edel|].
    run_cases Hrun; try discriminate Hrun; injection Hrun as <- _ <-;
      first [reflexivity | now destruct Hne].
  - intros s Hrun. unfold backlog_handler in Hrun. cbv zeta in Hrun.
    run_cases Hrun; try discriminate Hrun; now injection Hrun as <-.
Qed.

End BacklogFacts.

Section BacklogWitnesses.
Import BoardApi Crud Backlog.

Lemma backlog_create_requires_title_witness :
  exists board' : json,
    get board' (str "backlog")
    = Some (JArr [first_project; new_project titled (JStr (str "B")) drawn noon]).
Proof.
  destruct (backlog_create_requires_title None post_project (str "/api/backlog")
              drawn noon one_project_text
              (stored_by one_project_text
                 (backlog_handler None post_project (str "/api/backlog")
                    drawn noon one_project_text))
              201 (new_project titled (JStr (str "B")) drawn noon)
              eq_refl eq_refl ltac:(vm_compute; reflexivity))
    as (board & b & Hb & Hbody & _ & Hcreated).
  injection Hbody as <-.
  destruct (Hcreated (JStr (str "B")) eq_refl eq_refl) as (_ & _ & board' & _ & Hget & _).
  vm_compute in Hb. injection Hb as <-.
  exists board'. exact Hget.
Defined.

Lemma backlog_update_is_partial_witness :
  exists old, get old (str "id") = Some (JStr (str "p1"))
              /\ get (JObj [(str "id", JStr (str "p1")); (str "title", JStr (str "A"));
                            (str "createdAt", JStr (str "2025-06-01T08:00:00.000Z"));
                            (str "specStatus", JStr (str "ready"))]) (str "createdAt")
                 = get old (str "createdAt").
Proof.
  destruct (backlog_update_is_partial None put_project (str "/api/backlog/p1")
              drawn noon (str "p1") one_project_text
              (stored_by one_project_text
                 (backlog_handler None put_project (str "/api/backlog/p1")
                    drawn noon one_project_text))
              (JObj [(str "id", JStr (str "p1")); (str "title", JStr (str "A"));
                     (str "createdAt", JStr (str "2025-06-01T08:00:00.000Z"));
                     (str "specStatus", JStr (str "ready"))])
              eq_refl ltac:(vm_compute; reflexivity) ltac:(vm_compute; reflexivity))
    as (board & b & idx & old & _ & _ & (_ & Hold & _) & _ & Hkeep & _).
  exists old. split; [exact Hold|]. apply Hkeep.
  cbn [In project_fields]. intros H.
  repeat (destruct H as [H|H]; [vm_compute in H; discriminate H|]). exact H.
Defined.

Lemma backlog_delete_removes_first_witness :
  exists idx old, first_with_id (str "p1") [first_project] idx old.
Proof.
  destruct (backlog_delete_removes_first None delete_project (str "/api/backlog/p1")
              drawn noon (str "p1") one_project_text
              (stored_by one_project_text
                 (backlog_handler None delete_project (str "/api/backlog/p1")
                    drawn noon one_project_text))
              (JObj [(str "deleted", JBool true)])
              eq_refl ltac:(vm_compute; reflexivity) ltac:(vm_compute; reflexivity))
    as (board & idx & old & Hb & Hfirst & _).
  vm_compute in Hb. injection Hb as <-. exists idx, old. exact Hfirst.
Defined.

Lemma backlog_not_found_means_absent_witness :
  get first_project (str "id") <> Some (JStr (str "p2")).
Proof.
  apply (backlog_not_found_means_absent None delete_project (str "/api/backlog/p2")
           drawn noon (str "p2") one_project_text one_project_text not_found
           one_project_board
           ltac:(vm_compute; reflexivity) ltac:(vm_compute; reflexivity)
           ltac:(vm_compute; reflexivity) first_project).
  left. reflexivity.
Defined.

End BacklogWitnesses.

Section PathFacts.
Import BoardApi Crud.

Lemma split_slash_plain (cur s : jsstring) :
  ~ In 47%N s -> split_slash cur s = [rev cur ++ s].
Proof.
  revert cur. induction s as [|c s IH]; intros cur Hs; cbn [split_slash].
  - now rewrite app_nil_r.
  - destruct (N.eqb_spec c 47) as [->|Hc]; [destruct Hs; now left|].
    rewrite IH by (intros H; apply Hs; now right).
    cbn [rev]. now rewrite <- app_assoc.
Qed.

Lemma split_slash_cut (cur s r : jsstring) :
  ~ In 47%N s -> split_slash cur (s ++ 47%N :: r) = (rev cur ++ s) :: split_slash [] r.
Proof.
  revert cur. induction s as [|c s IH]; intros cur Hs; cbn [split_slash app].
  - now rewrite app_nil_r.
  - destruct (N.eqb_spec c 47) as [->|Hc]; [destruct Hs; now left|].
    rewrite IH by (intros H; apply Hs; now right).
    cbn [rev]. now rewrite <- app_assoc.
Qed.

Lemma no_slash (s : jsstring) : forallb (fun c => negb (N.eqb c 47)) s = true -> ~ In 47%N s.
Proof.
  intros H Hin. rewrite forallb_forall in H. apply H in Hin. discriminate Hin.
Qed.

Lemma task_path_parts (taskId : jsstring) :
  taskId <> [] -> ~ In 47%N taskId ->
  path_parts (str "/api/tasks/" ++ taskId ++ str "/move")
  = [str "api"; str "tasks"; taskId; str "move"]
  /\ path_parts (str "/api/tasks/" ++ taskId) = [str "api"; str "tasks"; taskId].
Proof.
  intros Hne Hs. unfold path_parts. split.
  - change (str "/api/tasks/" ++ taskId ++ str "/move")
      with ([] ++ 47%N :: (str "api" ++ 47%N :: (str "tasks" ++ 47%N ::
                                                  (taskId ++ 47%N :: str "move")))).
    rewrite !split_slash_cut by (try exact Hs; apply no_slash; reflexivity).
    rewrite split_slash_plain by (apply no_slash; reflexivity).
    cbn [rev app filter nonempty]. destruct taskId; [now destruct Hne|reflexivity].
  - change (str "/api/tasks/" ++ taskId)
      with ([] ++ 47%N :: (str "api" ++ 47%N :: (str "tasks" ++ 47%N :: taskId))).
    rewrite !split_slash_cut by (apply no_slash; reflexivity).
    rewrite split_slash_plain by exact Hs.
    cbn [rev app filter nonempty]. destruct taskId; [now destruct Hne|reflexivity].
Qed.

(** X29: the tasks handler reads the task id off the pathname of the
    request, the path as the URL parser hands it over.  A pathname
    [/api/tasks/<segment>/move] whose segment is not empty and has no
    slash is taken as the move of the task whose id is that segment as
    it stands, and [/api/tasks/<segment>] as the update of that task.
    What a client has to put in the URL for the parser to hand over a
    given segment is not part of the statement. *)
Theorem task_pathname_dispatch (token : option jsstring) (req : Req)
        (uid now segment : jsstring) (stored : option jsstring) (board : json) :
  segment <> [] -> ~ In 47%N segment ->
  req_method req = str "PUT" ->
  checkAuth token req = true ->
  redisGet stored = Some board ->
  tasks_handler token req (str "/api/tasks/" ++ segment ++ str "/move") uid now stored
  = move_task segment (req_body req) now board stored
  /\ tasks_handler token req (str "/api/tasks/" ++ segment) uid now stored
     = update_task segment (req_body req) board stored.
Proof.
  intros Hne Hs Hm Hauth Hboard.
  destruct (task_path_parts segment Hne Hs) as [Hmove Hupdate].
  unfold tasks_handler. rewrite Hm, Hauth, Hboard, Hmove, Hupdate. split; reflexivity.
Qed.

End PathFacts.

Section PathWitnesses.
Import BoardApi Crud.

Lemma task_pathname_dispatch_witness :
  tasks_handler None move_call (str "/api/tasks/t1/move") drawn noon two_columns_text
  = move_task (str "t1") (req_body move_call) noon two_columns_board two_columns_text.
Proof.
  apply (task_pathname_dispatch None move_call drawn noon (str "t1")
           two_columns_text two_columns_board
           ltac:(discriminate) ltac:(apply no_slash; reflexivity) eq_refl eq_refl
           ltac:(vm_compute; reflexivity)).
Defined.

End PathWitnesses.

Section StatsFacts.
Import BoardApi Crud Stats.

Lemma length_of_count (col : json) (n : nat) :
  length_of (get col (str "tasks")) = Got n -> tasks_count col = n.
Proof.
  unfold length_of, tasks_count.
  destruct (get col (str "tasks")) as [[]|]; try discriminate; now intros [= <-].
Qed.

Lemma count_columns_spec (columns : list json) (stats stats' : obj) (t : jsstring) :
  count_columns stats columns = Got stats' ->
  t <> str "__proto__" ->
  obj_get stats' t = match last_titled t columns with
                     | Some col => Some (counted col)
                     | None => obj_get stats t
                     end.
Proof.
  intros Hrun Ht. revert stats Hrun.
  induction columns as [|col r IH]; intros stats; cbn [count_columns last_titled].
  - now intros [= <-].
  - intros Hrun.
    assert (Hstep : exists n, tasks_count col = n
                              /\ count_columns (stats_set stats (title_text col) n) r
                                 = Got stats').
    { destruct col; try discriminate Hrun;
        (destruct (length_of (get _ (str "tasks"))) as [n| |] eqn:El;
         try discriminate Hrun);
        exists n; (split; [now apply length_of_count | exact Hrun]). }
    destruct Hstep as (n & Hn & Hrest). rewrite (IH _ Hrest).
    destruct (last_titled t r); [reflexivity|].
    subst n. unfold stats_set, counted.
    destruct (jsstring_eqb (title_text col) t) eqn:Et.
    + apply jsstring_eqb_eq in Et. rewrite Et.
      apply jsstring_eqb_neq in Ht. rewrite Ht. apply obj_get_set_same.
    + apply jsstring_eqb_neq in Et.
      destruct (jsstring_eqb (title_text col) (str "__proto__")); [reflexivity|].
      apply obj_get_set_other. congruence.
Qed.

Lemma total_of_spec (columns : list json) (sum total : nat) :
  total_of sum columns = Got total ->
  total = sum + list_sum (map tasks_count columns).
Proof.
  revert sum. induction columns as [|col r IH]; intros sum; cbn [total_of map].
  - intros [= <-]. cbn. lia.
  - intros Hrun.
    assert (Hstep : exists n, tasks_count col = n /\ total_of (sum + n) r = Got total).
    { destruct col; try discriminate Hrun;
        (destruct (length_of (get _ (str "tasks"))) as [n| |] eqn:El;
         try discriminate Hrun);
        exists n; (split; [now apply length_of_count | exact Hrun]). }
    destruct Hstep as (n & Hn & Hrest). apply IH in Hrest.
    change (list_sum (tasks_count col :: map tasks_count r))
      with (tasks_count col + list_sum (map tasks_count r)). lia.
Qed.

Lemma list_tasks_sum (columns : list json) :
  (forall col, In col columns -> exists l, get col (str "tasks") = Some (JArr l)) ->
  list_sum (map tasks_count columns) = length (all_tasks columns).
Proof.
  unfold all_tasks. induction columns as [|col r IH]; intros H; [reflexivity|].
  cbn [map flat_map].
  change (list_sum (tasks_count col :: map tasks_count r))
    with (tasks_count col + list_sum (map tasks_count r)).
  rewrite length_app, IH by (intros c Hc; apply H; now right).
  destruct (H col (or_introl eq_refl)) as [l Hl].
  unfold tasks_count, tasks_in. now rewrite Hl.
Qed.

Lemma reply_set_other (o : obj) (k k' : jsstring) (v : option json) :
  k' <> k -> obj_get (reply_set o k v) k' = obj_get o k'.
Proof.
  intros Hk. unfold reply_set. destruct v; [now apply obj_get_set_other|].
  induction o as [|[k0 v0] o IH]; [reflexivity|]. cbn [filter fst obj_get].
  destruct (jsstring_eqb k0 k) eqn:E0; cbn [negb obj_get].
  - apply jsstring_eqb_eq in E0. subst k0.
    assert (E : jsstring_eqb k k' = false) by (apply jsstring_eqb_neq; congruence).
    now rewrite E.
  - now rewrite IH.
Qed.

(** X30: the statistics answered with 200 leave the store as it was;
    [total] is the sum of the task counts of all columns (the number
    of tasks on the board when every column has a task list), also
    when a column is titled [total]; and under any other title than
    [total], [initiatives] and [__proto__] stands the count of the
    last column with that title, or nothing when there is none. *)
Theorem stats_total_counts_every_task (token : option jsstring) (req : Req)
        (stored stored' : option jsstring) (payload : json) :
  stats_handler token req stored = Reply 200 payload stored' ->
  exists board columns,
    redisGet stored = Some board
    /\ get board (str "columns") = Some (JArr columns)
    /\ stored' = stored
    /\ get payload (str "total")
       = Some (JInt (Z.of_nat (list_sum (map tasks_count columns))))
    /\ ((forall col, In col columns -> exists l, get col (str "tasks") = Some (JArr l)) ->
        get payload (str "total") = Some (JInt (Z.of_nat (length (all_tasks columns)))))
    /\ (forall t, t <> str "total" -> t <> str "initiatives" -> t <> str "__proto__" ->
        get payload t = option_map counted (last_titled t columns)).
Proof.
  unfold stats_handler. intros Hrun.
  destruct (jsstring_eqb (req_method req) (str "OPTIONS")); [discriminate|].
  destruct (checkAuth token req); cbn [negb] in Hrun; [|discriminate].
  destruct (jsstring_eqb (req_method req) (str "GET")); cbn [negb] in Hrun; [|discriminate].
  destruct (redisGet stored) as [board|]; [|discriminate].
  destruct (prop board (str "columns")) as [c| |] eqn:Ep; try discriminate.
  destruct (iterate c) as [cols| |] eqn:Ei; try discriminate.
  destruct (count_columns [] cols) as [stats| |] eqn:Ec; try discriminate.
  destruct (array_of c) as [columns| |] eqn:Ea; try discriminate.
  destruct (total_of 0 columns) as [total| |] eqn:Et; try discriminate.
  assert (cols = columns).
  { unfold iterate, array_of in *. destruct c as [[]|]; try discriminate. congruence. }
  subst cols. apply total_of_spec in Et. cbn [Nat.add] in Et. subst total.
  injection Hrun as <- <-.
  destruct (columns_array board c columns Ep Ea) as [Hcols _].
  exists board, columns. split; [reflexivity|]. split; [exact Hcols|].
  split; [reflexivity|].
  assert (Htotal : get (JObj (reply_set
                                (obj_set stats (str "total")
                                   (JInt (Z.of_nat (list_sum (map tasks_count columns)))))
                                (str "initiatives") (initiatives_length board)))
                       (str "total")
                   = Some (JInt (Z.of_nat (list_sum (map tasks_count columns))))).
  { cbn [get]. rewrite reply_set_other by keys_differ. apply obj_get_set_same. }
  split; [exact Htotal|]. split.
  - intros Harr. rewrite Htotal. now rewrite list_tasks_sum.
  - intros t Ht Hi Hp. cbn [get]. rewrite reply_set_other by exact Hi.
    rewrite obj_get_set_other by exact Ht.
    rewrite (count_columns_spec columns [] stats t Ec Hp).
    now destruct (last_titled t columns).
Qed.

End StatsFacts.

Section StatsWitnesses.
Import BoardApi Crud Stats.

Lemma stats_total_counts_every_task_witness :
  get (JObj [(str "To Do", JInt 1); (str "Done", JInt 0); (str "total", JInt 1);
             (str "initiatives", JInt 0)]) (str "total")
  = Some (JInt (Z.of_nat (length (all_tasks two_columns)))).
Proof.
  destruct (stats_total_counts_every_task None (mkReq (str "GET") None None)
              two_columns_text two_columns_text
              (JObj [(str "To Do", JInt 1); (str "Done", JInt 0); (str "total", JInt 1);
                     (str "initiatives", JInt 0)])
              ltac:(vm_compute; reflexivity))
    as (board & columns & Hb & Hc & _ & _ & Hall & _).
  vm_compute in Hb. injection Hb as <-. vm_compute in Hc. injection Hc as <-.
  apply Hall. intros col [<-|[<-|[]]]; eexists; reflexivity.
Defined.

End StatsWitnesses.
